(* ===== verification/_CoqProject ===== *)
-Q . S2P
Prelude.v
GoText.v
GoClock.v
GoDate.v
GoRat.v
GoUrl.v
Config.v
ConfigText.v
V1Types.v
Evidence.v
V1Memory.v
Operations.v
PgSchema.v
HttpValidation.v
TraceData.v
MemTraces.v
Outbox.v
PgTraces.v
TraceHistory.v
Observer.v
HalTraces.v
PgMapping.v
PgLifecycle.v
StopLifecycle.v
Histories.v
LifecycleSpec.v
Connections.v
Registry.v
HalStops.v
Hal.v
Reconcile.v
HalMeter.v
HalRequests.v
HalHandlers.v
HalRuns.v
HalOperations.v
HttpStarts.v
HttpApi.v
HttpCommands.v
HttpRuns.v
Frames.v
Startup.v
LegacyStore.v
LegacySpec.v
LegacyOutbox.v
LegacyUpdates.v
LegacyAnalytics.v
Migrations.v
