(* ===== verification/Prelude.v ===== *)
(** * ocpp-hal-go: a verification library

    ocpp-hal-go is the hardware abstraction layer of a charging network: an
    OCPP 1.6 central system ([cmd/ocpphal], [internal/ocpp16hal]) in front of
    the chargers, a durable store ([internal/store], PostgreSQL with an
    in-memory twin) and an HTTP API ([internal/httpapi]) towards a central
    management system (CMS).  The CMS enrols chargers, requests starts and
    stops and operates chargers; the HAL turns these into OCPP requests,
    records what the chargers report, stops a transaction at its energy or
    duration limit, and delivers every change to the CMS as a numbered fact
    through a leased outbox ([internal/v1facts], [internal/v1trace]).

    ** How the code is modelled

    A Go struct is a record with one field per Go field; the prefix of a field
    ([tx_], [wf_], [cmd_], ...) stands for its type.  A store is a value, an
    operation a function from store to result and store.  A method that opens
    a database transaction is one [txm] action run by [run_tx]: it commits
    wholly or leaves the store as it was, which is what the row locks of the
    code provide.  Times are nanoseconds in [Z]; [int64] arithmetic is written
    with [Int64] wrap-around; [float64] is the Standard Library's binary64.
    Identifiers, clocks, map-iteration orders and what chargers or HTTP peers
    answer are arguments.  JSON text, its canonical form and SHA-256 are the
    class [FactCodec].

    ** Files

    - [Prelude]: record update, int64, the transaction monad, list lemmas.
      [GoText], [GoClock], [GoDate], [GoRat]: the parts of Go's strings, strconv, time,
      float64 and math/big that the code calls.
    - [V1Types]: the data of internal/store/v1.go; [Evidence]: the clock and
      meter checks of v1_evidence.go and v1_meter_evidence.go.
    - [V1Memory]: v1_memory.go, the in-memory store.
    - [Operations]: the charger-operation ledger of both stores behind one
      interface (a class with laws), and the dispatcher of ocpp16hal/v1.go
      proved against that interface.
    - [PgSchema], [PgMapping], [PgLifecycle]: the tables of migrations/ with
      their constraints and facts, then v1_postgres.go,
      v1_lifecycle_postgres.go and v1_stop_lifecycle_locking.go.
    - [Outbox]: the lease protocol of the fact and the trace outbox (a class
      of rows with laws, one proof for both tables) and the two workers.
    - [StopLifecycle], [Histories], [LifecycleSpec]: the abstract stop
      machine, the refinement of every store call, the theorems on arbitrary
      histories of store calls, and input-output specifications.
    - [Connections], [Registry]: connections.go, v1_admission.go and the
      projection retry of hal.go; internal/state.
    - [HttpValidation]: the request checks of httpapi/v1.go and
      v1_operations.go.
    - [TraceData]: the diagnostic evidence the observer builds
      (operation_observer.go) and the sanitiser of v1_trace.go; [MemTraces],
      [PgTraces]: v1_trace_memory.go, v1_trigger_message_follow_on_store.go,
      v1_trace_postgres.go; [TraceHistory]: arbitrary histories of trace calls.
    - [Observer]: operation_observer.go, the observer of charger operations as
      interleaved locked sections, and their dispatch.
    - [HalTraces], [HalStops], [Hal], [HalMeter]: the HAL's own code on top of
      the store: its trace calls, dispatching RemoteStop (sequentially and as
      interleaved deliverers), the MeterValues and StopTransaction handlers.
    - [Reconcile], [HalRequests]: configuration.go and the request functions of
      hal.go and extra.go.
    - [HalHandlers]: every callback of hal.go, extra.go and v1_admission.go, and
      the dispatch of charger operations of v1.go; [HalRuns]: whole runs of the
      HAL; [HalOperations]: the recovery worker.
    - [HttpStarts]: start requests as interleaved deliverers of one command;
      [HttpApi]: server.go, v1.go, v1_operations.go, v1_docs.go and the response
      views of internal/httpapi; [HttpCommands]: what the start handler promises;
      [HttpRuns]: whole runs of the API, the HAL and its workers.
    - [GoUrl], [Config], [ConfigText]: net/url's escaping and net's host and port,
      then internal/config: settings, the .env file, the database URLs.
    - [Frames], [Startup]: what recovery leaves alone; cmd/ocpphal up to serving,
      NewPostgresStore, and processes one after the other over one database.
    - [LegacyStore], [LegacySpec], [LegacyOutbox], [LegacyUpdates],
      [LegacyAnalytics]: the v0 TransactionStore of internal/store, its two
      implementations behind one interface, its callback outbox, its update
      fan-out with concurrent readers, its reports.
    - [Migrations]: internal/migrationrunner and cmd/migrate.

    ** What the theorems show

    The system: over any number of processes, whatever their configuration, the
    API requests, charger messages, workers and crashes, each start, stop and
    operation is sent at most once and each completion is one fact
    ([Startup.deployment_end_to_end]); a process that serves has a valid
    configuration, a token and a recovered HAL ([Startup.startup_ready],
    [Config.parse_accepts], [Config.load_config_ok]); the database URL, for a host
    a URL can name, and the .env file are read back as written ([ConfigText]);
    starts stay single under concurrency as long as no process recovers while
    another serves ([HttpStarts.remote_start_sent_at_most_once]), a valid
    start is delivered and may be repeated until its credential expires
    ([HttpCommands.start_request_delivers], [HttpCommands.start_request_repeatable]),
    reads are pure and everything but the two documentation pages needs the bearer
    token ([HttpRuns]).
    Stops: one RemoteStop at most leaves the HAL per transaction under any
    interleaving of deliverers, calls, crashes and restarts in which no
    recovery overlaps a live deliverer ([HalStops.remote_stop_sent_at_most_once];
    the exception is real, [HalStops.overlapping_recovery_sends_twice]); every
    store call implements the stop machine ([Histories.store_refines_stop_machine]);
    a reading at the limit sends the stop ([HalMeter.energy_limit_stops]).
    The HAL as a whole: any run of its callbacks, workers, API calls and
    restarts implements those models, so the same holds end to end
    ([HalRuns.hal_implements]); what a charger is told
    is durable ([HalRuns.start_acknowledged], [HalRuns.stop_acknowledged]);
    diagnostics never alter anything else ([HalRuns.diagnostics_inert]); the
    recovery worker drains the operations of connected chargers, a batch of 100
    for each in a rotation ([HalOperations.recovery_worker_drains]).
    Facts: their sequences have no gap, a completion has exactly one
    ([Histories]), a leased row has one holder ([Outbox.lease_exclusive]).
    Traces: a TriggerMessage window has exactly the follow-on evidence its
    state says, undelivered evidence survives retention ([TraceHistory]), and
    what a charger or a CPO writes reaches the trace only in the sanitised
    form, whose exact content, and what it lets through, is stated ([TraceData]).
    Evidence: what a reading, a completion, a text or a time is accepted as
    ([LifecycleSpec], [HalMeter], [Evidence]); the PostgreSQL store takes a
    reading one Wh below the latest, against the contract
    ([LifecycleSpec.telemetry_spec]).  Connections: the tracker, the
    durable projection and the registry describe the newest socket
    ([Connections], [PgMapping], [Registry]).  Operations and configuration:
    the observer's evidence belongs to its operation while no request's address
    is reused before it was sent ([Observer]), a
    reconciliation changes what it owns and converges ([Reconcile]).
    The legacy store: both implementations hold the same rows on any well-asked
    history and answer alike, forced closes of ended transactions apart
    ([LegacySpec.legacy_stores_agree]), overlapping stops have one winner
    ([LegacySpec.first_stop_decides]), callbacks are claimed a lease apart and
    enqueued once ([LegacyOutbox]), a subscriber never misses a change
    ([LegacyUpdates.subscribers_never_stale]).  Migrations: an applied one leaves
    its tables to the application role ([Migrations.migration_tables_owned]).

    ** Bounds and fuel

    The loops bounded by a count are the code's own: three attempts of the retry
    loop, a hundred of a transaction number, batches of 100 rows.  Fixpoints over
    text that do not follow its structure (case mapping, the search for CREATE
    TABLE) have the length of the text as fuel, and each round consumes a
    character; every other Fixpoint is structural.  [parseV1EnergyWh_exact]
    covers fractions up to a million digits.

    ** Not modelled

    SQL is modelled at the level of its effect on rows, not parsed; texts are
    ones PostgreSQL accepts; deadlocks and serialization failures enter as failed
    attempts.  Goroutine scheduling below the store call or OCPP exchange is not
    modelled.  The OCPP library, net/http and the ServeMux's path cleaning, JSON
    decoding of request bodies (the class [HttpApi.RequestJson]), url.Parse (the
    class [Config.UrlLib]), logging, sockets, signals and tickers, the simulator
    console (cmd/cpconsole, terminal I/O over the OCPP client library) and the
    text of the two documentation pages are not modelled. *)
From Stdlib Require Import String Ascii.
From stdpp Require Import base numbers decidable option list sorting strings gmap.

Open Scope Z_scope.

(** ** Record update

    [r <| f := v |>] is the record [r] with its field [f] replaced.  A record
    type opts in with an [Eta] instance that spells its constructor out. *)
Class Eta (R : Type) := eta : R → R.
Class Setter {R T : Type} (f : R → T) := set_field : (T → T) → R → R.
Arguments set_field {R T} f {_} _ _.

#[export] Hint Extern 1 (Setter _) =>
  lazymatch goal with
  | |- @Setter ?R ?T ?f =>
    exact (fun (g : T → T) (r : R) =>
      ltac:(let x := eval hnf in (eta r) in
            let y := eval pattern (f r) in x in
            lazymatch y with
            | ?h _ => let z := eval cbv beta in (h (g (f r))) in exact z
            end))
  end : typeclass_instances.

Notation "r <| f := v |>" := (set_field f (fun _ => v) r)
  (at level 1, left associativity, f constr).
Notation "r <| f ::= g |>" := (set_field f g r)
  (at level 1, left associativity, f constr).

(** ** Machine integers

    Go's [int64] (and [int] on the 64-bit targets the repository builds for)
    is a [Z] in the range below; every operation the code performs on one is
    written through [wrap64], Go's two's-complement wrap-around. *)
Module Int64.
Definition min_value : Z := - 2 ^ 63.
Definition max_value : Z := 2 ^ 63 - 1.
Definition wrap64 (z : Z) : Z := (z + 2 ^ 63) mod 2 ^ 64 - 2 ^ 63.
Definition in_range (z : Z) : Prop := min_value ≤ z ≤ max_value.
Definition add (a b : Z) : Z := wrap64 (a + b).
Definition sub (a b : Z) : Z := wrap64 (a - b).
Definition neg (a : Z) : Z := wrap64 (- a).
Definition mul (a b : Z) : Z := wrap64 (a * b).

Lemma wrap64_id z : in_range z → wrap64 z = z.
Proof.
  unfold in_range, min_value, max_value, wrap64. intros H.
  rewrite Z.mod_small; lia.
Qed.

Lemma wrap64_range z : in_range (wrap64 z).
Proof.
  unfold in_range, min_value, max_value, wrap64.
  pose proof (Z.mod_pos_bound (z + 2 ^ 63) (2 ^ 64)). lia.
Qed.
End Int64.
Abbreviation wrap64 := Int64.wrap64.

(** ** Instants and durations

    A [time.Time] is the number of nanoseconds since Go's zero instant
    (January 1, year 1, 00:00:00 UTC), so [IsZero] is equality with [0].  A
    [time.Duration] is an [int64] of nanoseconds. *)
Module GoTime.
Definition Time : Type := Z.
Definition Duration : Type := Z.
Definition Nanosecond : Duration := 1.
Definition Microsecond : Duration := 1000 * Nanosecond.
Definition Millisecond : Duration := 1000 * Microsecond.
Definition Second : Duration := 1000 * Millisecond.
Definition Minute : Duration := 60 * Second.

Definition IsZero (t : Time) : Prop := t = 0.
Definition After (t u : Time) : Prop := u < t.
Definition Before (t u : Time) : Prop := t < u.
Definition Equal (t u : Time) : Prop := t = u.
#[global] Instance IsZero_dec t : Decision (IsZero t) := Z.eq_dec t 0.
#[global] Instance After_dec t u : Decision (After t u) := Z_lt_dec u t.
#[global] Instance Before_dec t u : Decision (Before t u) := Z_lt_dec t u.
#[global] Instance Equal_dec t u : Decision (Equal t u) := Z.eq_dec t u.

(** [Time.Sub] saturates at the bounds of [Duration]. *)
Definition Sub (t u : Time) : Duration :=
  Z.max Int64.min_value (Z.min Int64.max_value (t - u)).
(** [Time.Add]; the instant itself is wide enough never to wrap here. *)
Definition Add (t : Time) (d : Duration) : Time := t + d.
End GoTime.
Abbreviation Time := GoTime.Time.

(** ** Errors

    The sentinel errors of internal/store and the failures the code relays
    from below it (secure randomness, PostgreSQL, the OCPP transport). *)
Inductive go_error : Type :=
  | ErrV1CommandNotFound | ErrV1OperationNotFound | ErrV1CredentialRejected
  | ErrV1TransactionNotFound | ErrV1IdempotencyConflict | ErrV1MappingNotFound
  | ErrV1MappingConflict | ErrV1IdentityConflict | ErrV1DeliveryNotReady
  | ErrV1InvalidEvidence | ErrV1FactNotFound | ErrV1FactNotReconciliable
  | ErrV1FactClaimLost | ErrTransactionNotFound
  | ErrRandomness                 (* NewSecureUUIDString failed *)
  | ErrPg (code : string)         (* pgconn.PgError, by its SQLSTATE *)
  | ErrOther (message : string)
  | ErrJoin (e f : go_error).     (* errors.Join *)
#[global] Instance go_error_eq_dec : EqDecision go_error.
Proof. solve_decision. Defined.

(** [errors.Is e target] *)
Fixpoint errors_Is (e target : go_error) : Prop :=
  match e with
  | ErrJoin f g => errors_Is f target ∨ errors_Is g target
  | _ => e = target
  end.
#[global] Instance errors_Is_dec e target : Decision (errors_Is e target).
Proof. revert target. induction e; intros target; simpl; apply _. Defined.

(** [errors.As e &pgErr]: the SQLSTATE of the first PostgreSQL error in [e]. *)
Fixpoint errors_AsPg (e : go_error) : option string :=
  match e with
  | ErrPg code => Some code
  | ErrJoin f g => match errors_AsPg f with Some c => Some c | None => errors_AsPg g end
  | _ => None
  end.

(** A fallible Go call: [inl v] is [(v, nil)], [inr e] is [(nil, e)]. *)
Abbreviation result A := (A + go_error)%type.
Definition rbind {A B} (c : result A) (k : A → result B) : result B :=
  match c with inl x => k x | inr e => inr e end.

(** ** State and error

    [txm S A] is the body of a database transaction over tables [S]: it either
    returns a value and the tables it leaves, or fails.  [run_tx] is the
    transaction: a failing body is rolled back, so the tables do not change. *)
Definition txm (S A : Type) : Type := S → result (A * S).
#[global] Instance txm_ret {S} : MRet (txm S) := λ A a s, inl (a, s).
#[global] Instance txm_bind {S} : MBind (txm S) := λ A B k c s,
  match c s with inl (a, s') => k a s' | inr e => inr e end.
Definition tx_fail {S A} (e : go_error) : txm S A := λ _, inr e.
Definition tx_lift {S A} (r : result A) : txm S A := λ s,
  match r with inl a => inl (a, s) | inr e => inr e end.
Definition tx_get {S} : txm S S := λ s, inl (s, s).
Definition tx_modify {S} (f : S → S) : txm S () := λ s, inl ((), f s).
Definition run_tx {S A} (c : txm S A) (s : S) : S * result A :=
  match c s with inl (a, s') => (s', inl a) | inr e => (s, inr e) end.

Lemma tx_bind_inv {S A B} (c : txm S A) (k : A → txm S B) s b s' :
  (c ≫= k) s = inl (b, s') → ∃ a s1, c s = inl (a, s1) ∧ k a s1 = inl (b, s').
Proof. unfold mbind, txm_bind. destruct (c s) as [[a s1]|e]; naive_solver. Qed.

(** What a transaction's outcome says of its body. *)
Lemma run_tx_inl {S A} (c : txm S A) s s' a : run_tx c s = (s', inl a) → c s = inl (a, s').
Proof. unfold run_tx. destruct (c s) as [[b s1]|e]; [by intros [= -> ->]|done]. Qed.
Lemma run_tx_ok {S A} (c : txm S A) s s' a : c s = inl (a, s') → run_tx c s = (s', inl a).
Proof. unfold run_tx. by intros ->. Qed.
Lemma run_tx_error {S A} (c : txm S A) s e : c s = inr e → run_tx c s = (s, inr e).
Proof. unfold run_tx. by intros ->. Qed.

(** The equations of the primitives, for [tx_simpl]. *)
Section tx_equations.
Context {S A B : Type}.
Implicit Types (s : S) (k : A → txm S B).
Lemma tx_get_bind (k : S → txm S B) s : (tx_get ≫= k) s = k s s.
Proof. done. Qed.
Lemma tx_modify_bind f (k : () → txm S B) s : (tx_modify f ≫= k) s = k () (f s).
Proof. done. Qed.
Lemma tx_modify_eq (f : S → S) s : tx_modify f s = inl ((), f s).
Proof. done. Qed.
Lemma tx_ret_bind (a : A) k s : (mret a ≫= k) s = k a s.
Proof. done. Qed.
Lemma tx_ret_eq (a : A) s : (mret a : txm S A) s = inl (a, s).
Proof. done. Qed.
Lemma tx_fail_eq e s : (tx_fail e : txm S A) s = inr e.
Proof. done. Qed.
Lemma tx_fail_bind e k s : (tx_fail e ≫= k) s = inr e.
Proof. done. Qed.
Lemma tx_lift_inl (a : A) k s : (tx_lift (inl a) ≫= k) s = k a s.
Proof. done. Qed.
Lemma tx_lift_inr e k s : (tx_lift (inr e) ≫= k) s = inr e.
Proof. done. Qed.
End tx_equations.
#[export] Hint Rewrite @tx_get_bind @tx_modify_bind @tx_modify_eq @tx_ret_bind @tx_ret_eq
  @tx_fail_eq @tx_fail_bind @tx_lift_inl @tx_lift_inr : tx.
Ltac tx_simpl H := autorewrite with tx in H; cbv beta in H.

(** ** Guards on optional values: [p != nil && P (deref p)] *)
Definition some_and {A} (o : option A) (P : A → Prop) : Prop :=
  match o with Some x => P x | None => False end.
#[global] Instance some_and_dec {A} (o : option A) (P : A → Prop)
  {D : ∀ x, Decision (P x)} : Decision (some_and o P).
Proof. destruct o; simpl; apply _. Defined.

Lemma some_and_iff {A} (o : option A) P :
  some_and o P ↔ ∃ x, o = Some x ∧ P x.
Proof. destruct o; simpl; naive_solver. Qed.

(** ** Strings

    [strings.TrimSpace] on a UTF-8 string: the encodings of the characters for
    which [unicode.IsSpace] holds are cut at both ends. *)
Module GoStrings.
Definition bytes (l : list nat) : string :=
  fold_right (λ n s, String (ascii_of_nat n) s) EmptyString l.
Definition space_encodings : list string :=
  ((λ n, bytes [n]) <$> [9; 10; 11; 12; 13; 32]%nat) ++
  ((λ n, bytes [194; n]%nat) <$> [133; 160]%nat) ++
  [bytes [225; 154; 128]%nat] ++
  ((λ n, bytes [226; 128; n]%nat) <$> (seq 128 11 ++ [168; 169; 175]%nat)) ++
  [bytes [226; 129; 159]%nat; bytes [227; 128; 128]%nat].

(** [strip p s] is the rest of [s] after the prefix [p]. *)
Fixpoint strip (p s : string) : option string :=
  match p, s with
  | EmptyString, _ => Some s
  | String a p', String b s' => if decide (a = b) then strip p' s' else None
  | String _ _, EmptyString => None
  end.
Fixpoint first_strip (ps : list string) (s : string) : option string :=
  match ps with
  | [] => None
  | p :: ps' => match strip p s with Some r => Some r | None => first_strip ps' s end
  end.
(** Every encoding is non-empty, so [length s] rounds reach the end. *)
Fixpoint trim_with (ps : list string) (fuel : nat) (s : string) : string :=
  match fuel with
  | O => s
  | S fuel' => match first_strip ps s with Some r => trim_with ps fuel' r | None => s end
  end.
Definition reverse (s : string) : string := String.string_of_list_ascii (rev (String.list_ascii_of_string s)).
Definition TrimLeft (s : string) : string := trim_with space_encodings (String.length s) s.
Definition TrimSpace (s : string) : string :=
  let r := reverse (TrimLeft s) in
  reverse (trim_with (reverse <$> space_encodings) (String.length r) r).
End GoStrings.

Lemma not_or_and (P Q : Prop) : ¬ (P ∨ Q) ↔ ¬ P ∧ ¬ Q.
Proof. tauto. Qed.

(** Comparisons of literal texts, decided wherever they stand. *)
Ltac decide_text :=
  repeat match goal with
  | |- context [decide (?a = ?b)] =>
    lazymatch type of a with string => idtac end; is_ground a; is_ground b;
    let d := eval vm_compute in (bool_decide (a = b)) in
    lazymatch d with
    | true => rewrite (decide_True (P := a = b)) by reflexivity
    | false => rewrite (decide_False (P := a = b)) by discriminate
    end
  | H : context [decide (?a = ?b)] |- _ =>
    lazymatch type of a with string => idtac end; is_ground a; is_ground b;
    let d := eval vm_compute in (bool_decide (a = b)) in
    lazymatch d with
    | true => rewrite (decide_True (P := a = b)) in H by reflexivity
    | false => rewrite (decide_False (P := a = b)) in H by discriminate
    end
  end.

(** ** Map iteration

    Go leaves the order in which [range m] visits a map unspecified.  An
    operation whose result can depend on it takes the visited keys as an
    argument, [range_of m ks] saying that they enumerate the map's keys. *)
Section range.
Context {V : Type}.
Implicit Types (m : gmap string V) (ks : list string).

Definition range_of m ks : Prop := NoDup ks ∧ ∀ k, k ∈ ks ↔ is_Some (m !! k).

(** The first visited entry that satisfies [P]: a loop with a [break]. *)
Fixpoint range_first m (P : V → Prop) {D : ∀ v, Decision (P v)} ks : option (string * V) :=
  match ks with
  | [] => None
  | k :: ks' =>
    match m !! k with
    | Some v => if decide (P v) then Some (k, v) else range_first m P ks'
    | None => range_first m P ks'
    end
  end.

(** Every visited entry that satisfies [P], in the visited order. *)
Fixpoint range_filter m (P : V → Prop) {D : ∀ v, Decision (P v)} ks : list (string * V) :=
  match ks with
  | [] => []
  | k :: ks' =>
    match m !! k with
    | Some v => if decide (P v) then (k, v) :: range_filter m P ks' else range_filter m P ks'
    | None => range_filter m P ks'
    end
  end.

Lemma range_first_Some m P {D : ∀ v, Decision (P v)} ks k v :
  range_first m P ks = Some (k, v) → k ∈ ks ∧ m !! k = Some v ∧ P v.
Proof.
  induction ks as [|k' ks IH]; simpl; [done|]. rewrite elem_of_cons.
  destruct (m !! k') eqn:E; [case_decide|]; naive_solver.
Qed.

Lemma range_first_None m P {D : ∀ v, Decision (P v)} ks :
  range_of m ks → range_first m P ks = None ↔ ∀ k v, m !! k = Some v → ¬ P v.
Proof.
  intros [_ Hks]. assert (range_first m P ks = None ↔
    ∀ k v, k ∈ ks → m !! k = Some v → ¬ P v) as ->.
  { clear Hks. induction ks as [|k' ks IH]; simpl; [set_solver|].
    setoid_rewrite elem_of_cons. destruct (m !! k') eqn:E; [case_decide|]; naive_solver. }
  split; intros HP k v Hk; [|by apply HP].
  intros Hv. apply (HP k v); [apply Hks; eauto|done..].
Qed.

Lemma range_filter_elem m P {D : ∀ v, Decision (P v)} ks k v :
  range_of m ks → (k, v) ∈ range_filter m P ks ↔ m !! k = Some v ∧ P v.
Proof.
  intros [_ Hks]. assert ((k, v) ∈ range_filter m P ks ↔
    k ∈ ks ∧ m !! k = Some v ∧ P v) as ->.
  { clear Hks. induction ks as [|k' ks IH]; simpl; [set_solver|].
    rewrite elem_of_cons. destruct (m !! k') eqn:E; [case_decide|];
      rewrite ?elem_of_cons; naive_solver. }
  rewrite Hks. naive_solver.
Qed.

Lemma range_filter_subset m P {D : ∀ v, Decision (P v)} ks k :
  k ∈ (range_filter m P ks).*1 → k ∈ ks.
Proof.
  induction ks as [|k' ks IH]; simpl; [done|]. rewrite elem_of_cons.
  destruct (m !! k'); [case_decide|]; simpl; rewrite ?elem_of_cons; naive_solver.
Qed.

Lemma range_filter_NoDup m P {D : ∀ v, Decision (P v)} ks :
  NoDup ks → NoDup (range_filter m P ks).*1.
Proof.
  induction 1 as [|k ks Hk Hnd IH]; simpl; [constructor|].
  destruct (m !! k); [case_decide|]; simpl; try constructor;
    eauto using range_filter_subset.
Qed.

Lemma range_of_keys m : range_of m (map_to_list m).*1.
Proof.
  split; [apply NoDup_fst_map_to_list|]. intros k. rewrite list_elem_of_fmap. split.
  - intros ([k' v] & -> & Hk%elem_of_map_to_list). eauto.
  - intros [v Hv]. exists (k, v). by rewrite elem_of_map_to_list.
Qed.
Lemma range_of_perm m ks : ks ≡ₚ (map_to_list m).*1 → range_of m ks.
Proof.
  intros Hp. destruct (range_of_keys m) as [Hnd Hk]. split; [by rewrite Hp|]. intros k. by rewrite Hp.
Qed.
End range.

(** ** Sorted selections

    Taking a prefix of a sorted selection ([ORDER BY ... LIMIT]) keeps its
    elements and their distinctness. *)
Section sorted_take.
Context {A : Type} (R : relation A) `{!RelDecision R}.
Lemma sorted_take_elem n (l : list A) x : x ∈ take n (merge_sort R l) → x ∈ l.
Proof.
  intros H. apply (elem_of_sublist _ (merge_sort R l)) in H; [|apply sublist_take].
  by rewrite merge_sort_Permutation in H.
Qed.
Lemma sorted_take_complete n (l : list A) x : x ∈ l → (length (take n (merge_sort R l)) < n)%nat → x ∈ take n (merge_sort R l).
Proof.
  intros Hx Hn. rewrite length_take in Hn. rewrite take_ge by lia. by rewrite merge_sort_Permutation.
Qed.
Lemma sorted_take_NoDup {B} (f : A → B) n l :
  NoDup (f <$> l) → NoDup (f <$> take n (merge_sort R l)).
Proof.
  intros H. rewrite fmap_take. eapply sublist_NoDup; [|apply sublist_take].
  by rewrite merge_sort_Permutation.
Qed.
End sorted_take.

(** Filters that keep everything or nothing. *)
Lemma filter_all {A} (P : A → Prop) `{!∀ x, Decision (P x)} (l : list A) : Forall P l → filter P l = l.
Proof. induction 1 as [|x l Hx Hl IH]; [done|]. by rewrite filter_cons, decide_True, IH. Qed.
Lemma filter_none {A} (P : A → Prop) `{!∀ x, Decision (P x)} (l : list A) : Forall (not ∘ P) l → filter P l = [].
Proof. induction 1 as [|x l Hx Hl IH]; [done|]. by rewrite filter_cons, decide_False, IH. Qed.

(** ** Tactics and hints of the development *)
Create HintDb hal.

(** Splits every guard and match of the goal or context. *)
Ltac go_case := repeat (case_decide || case_match); simplify_eq/=.
Ltac go_solve := go_case; try done; try lia; eauto with hal.
