(* ===== verification/GoText.v ===== *)
(** * Text operations of Go's standard library

    The functions of [strings] and [strconv] the modelled packages use, on
    strings of UTF-8 bytes, with the facts their clients share. *)
From Stdlib Require Import String Ascii.
From stdpp Require Import base numbers decidable option list strings pretty.
From S2P Require Import Prelude.
Open Scope Z_scope.

(** ** Prefixes and searches *)
Definition HasPrefix (s p : string) : bool := bool_decide (is_Some (GoStrings.strip p s)).
Definition TrimPrefix (s p : string) : string := default s (GoStrings.strip p s).
Fixpoint Contains (s p : string) : bool :=
  HasPrefix s p || match s with EmptyString => false | String _ s' => Contains s' p end.

Fixpoint has_char (c : ascii) (s : string) : bool :=
  match s with EmptyString => false | String a s' => bool_decide (a = c) || has_char c s' end.
(** [strings.ContainsAny s chars], for [chars] of single-byte characters. *)
Fixpoint ContainsAny (s chars : string) : bool :=
  match s with EmptyString => false | String a s' => has_char a chars || ContainsAny s' chars end.

(** [strings.Split s sep] for a one-byte separator. *)
Fixpoint Split (sep : ascii) (s : string) : list string :=
  match s with
  | EmptyString => [EmptyString]
  | String a s' =>
    if decide (a = sep) then EmptyString :: Split sep s'
    else match Split sep s' with
         | p :: ps => String a p :: ps
         | [] => [String a EmptyString]
         end
  end.

(** ** Case

    [strings.ToLower] and [strings.EqualFold], as far as the code asks them:
    whether the result equals, contains or folds to ASCII text.  Outside ASCII
    only the Kelvin sign, the dotted capital I and the long s have ASCII
    counterparts; every other character keeps its own (non-ASCII) encoding. *)
Definition lower_char (a : ascii) : ascii :=
  let n := nat_of_ascii a in
  if decide (65 ≤ n ≤ 90)%nat then ascii_of_nat (n + 32) else a.

Definition kelvin_sign : string := GoStrings.bytes [226; 132; 170]%nat.
Definition dotted_I : string := GoStrings.bytes [196; 176]%nat.
Definition long_s : string := GoStrings.bytes [197; 191]%nat.

Section map_text.
Context (special : list (string * ascii)).

(** The first special encoding at the head of [s], and what follows it. *)
Fixpoint special_at (ps : list (string * ascii)) (s : string) : option (ascii * string) :=
  match ps with
  | [] => None
  | (p, c) :: ps' => match GoStrings.strip p s with Some r => Some (c, r) | None => special_at ps' s end
  end.

(** One character a round; a string has at most as many as bytes. *)
Fixpoint map_text (fuel : nat) (s : string) : string :=
  match fuel with
  | O => EmptyString
  | S fuel' =>
    match special_at special s with
    | Some (c, r) => String c (map_text fuel' r)
    | None =>
      match s with
      | EmptyString => EmptyString
      | String a s' => String (lower_char a) (map_text fuel' s')
      end
    end
  end.
End map_text.

Definition ToLower (s : string) : string :=
  map_text [(kelvin_sign, "k"%char); (dotted_I, "i"%char)] (String.length s) s.
Definition fold_text (s : string) : string :=
  map_text [(kelvin_sign, "k"%char); (long_s, "s"%char)] (String.length s) s.
Definition EqualFold (s t : string) : bool := bool_decide (fold_text s = fold_text t).

Example ToLower_kWh : ToLower "kWh" = "kwh". Proof. reflexivity. Qed.
Example ToLower_kelvin : ToLower (kelvin_sign +:+ "WH") = "kwh". Proof. reflexivity. Qed.
Example EqualFold_SoC : EqualFold "SOC" "SoC" = true. Proof. reflexivity. Qed.

(** ** Decimal numerals ([strconv.Itoa]) *)
Definition Itoa (n : Z) : string := pretty n.

(** ** Facts *)
Lemma append_nil (r : string) : "" +:+ r = r.
Proof. reflexivity. Qed.
Lemma append_cons a (p r : string) : String a p +:+ r = String a (p +:+ r).
Proof. reflexivity. Qed.
Lemma append_nil_r (p : string) : p +:+ "" = p.
Proof. induction p as [|a p IH]; [done|]. by rewrite append_cons, IH. Qed.
#[export] Hint Rewrite append_nil append_cons : text.
Ltac text := autorewrite with text in *; simpl in *; autorewrite with text in *.

Lemma strip_app p s : GoStrings.strip p (p +:+ s) = Some s.
Proof.
  induction p as [|a p IH]; [done|]. rewrite append_cons. cbn [GoStrings.strip]. by rewrite decide_True.
Qed.

Lemma strip_Some p s r : GoStrings.strip p s = Some r ↔ s = p +:+ r.
Proof.
  revert s. induction p as [|a p IH]; intros s; [rewrite append_nil; simpl; split; congruence|].
  rewrite append_cons. destruct s as [|b s]; [done|]. cbn [GoStrings.strip].
  destruct (decide (a = b)) as [->|Hne]; [rewrite IH|]; split; congruence.
Qed.

Lemma HasPrefix_spec s p : HasPrefix s p = true ↔ ∃ r, s = p +:+ r.
Proof.
  unfold HasPrefix. rewrite bool_decide_eq_true. split.
  - intros [r Hr%strip_Some]. eauto.
  - intros [r ->]. rewrite strip_app. eauto.
Qed.

Lemma TrimPrefix_app p s : TrimPrefix (p +:+ s) p = s.
Proof. unfold TrimPrefix. by rewrite strip_app. Qed.

Lemma Contains_spec s p : Contains s p = true ↔ ∃ a b, s = a +:+ p +:+ b.
Proof.
  induction s as [|c s IH]; simpl; rewrite orb_true_iff, HasPrefix_spec.
  - split; [|by intros ([|] & b & Hs); text; [left; exists b|]].
    intros [[r Hr]|]; [|done]. by exists "", r.
  - rewrite IH. split.
    + intros [[r ->]|(a & b & ->)]; [by exists "", r|by exists (String c a), b].
    + intros (a & b & Hs). destruct a as [|d a]; text; [left; eauto|].
      right. simplify_eq. eauto.
Qed.

Lemma has_char_spec c s : has_char c s = true ↔ ∃ a b, s = a +:+ String c b.
Proof.
  induction s as [|d s IH]; simpl.
  - split; [done|]. by intros ([|] & ? & ?).
  - rewrite orb_true_iff, bool_decide_eq_true, IH. split.
    + intros [->|(a & b & ->)]; [by exists "", s|by exists (String d a), b].
    + intros ([|e a] & b & Hs); text; simplify_eq; [by left|right; eauto].
Qed.

(** Splitting undoes joining with a separator the parts do not have. *)
Fixpoint join (sep : ascii) (ps : list string) : string :=
  match ps with
  | [] => EmptyString
  | [p] => p
  | p :: ps' => p +:+ String sep (join sep ps')
  end.

Lemma Split_clean sep p : has_char sep p = false → Split sep p = [p].
Proof.
  induction p as [|a p IH]; simpl; [done|]. intros [Ha Hp]%orb_false_iff.
  apply bool_decide_eq_false in Ha. rewrite decide_False by done. by rewrite IH.
Qed.

Lemma Split_app sep p s : has_char sep p = false → Split sep (p +:+ String sep s) = p :: Split sep s.
Proof.
  induction p as [|a p IH]; text.
  - by rewrite decide_True.
  - intros [Ha Hp]%orb_false_iff. apply bool_decide_eq_false in Ha.
    rewrite decide_False by done. by rewrite IH.
Qed.

Lemma Split_join sep ps :
  ps ≠ [] → Forall (λ p, has_char sep p = false) ps → Split sep (join sep ps) = ps.
Proof.
  intros Hne Hf. induction Hf as [|p ps Hp Hf IH]; [done|].
  destruct ps as [|q ps]; [by apply Split_clean|].
  change (join sep (p :: q :: ps)) with (p +:+ String sep (join sep (q :: ps))).
  rewrite Split_app by done. by rewrite IH.
Qed.

Lemma join_Split sep s : join sep (Split sep s) = s.
Proof.
  induction s as [|a s IH]; simpl; [done|].
  assert (∀ s', Split sep s' ≠ []) as Hne.
  { intros s'. destruct s' as [|b s']; simpl; [done|]. case_decide; [done|]. by destruct (Split sep s'). }
  specialize (Hne s). case_decide as D.
  - subst. destruct (Split sep s) as [|p ps]; [done|]. simpl in *. by rewrite IH.
  - destruct (Split sep s) as [|p ps]; [done|]. destruct ps; simpl in *; by rewrite <- IH.
Qed.

Lemma Split_parts_clean sep s p : p ∈ Split sep s → has_char sep p = false.
Proof.
  revert p. induction s as [|a s IH]; intros p; simpl.
  - by intros ->%list_elem_of_singleton.
  - case_decide as D.
    + intros [->|Hp]%elem_of_cons; [done|by apply IH].
    + destruct (Split sep s) as [|q qs] eqn:E.
      * intros ->%list_elem_of_singleton. simpl. by rewrite bool_decide_false.
      * intros [->|Hp]%elem_of_cons; [|apply IH; by right].
        simpl. rewrite bool_decide_false by done. simpl. apply IH. by left.
Qed.

Lemma Split_concat sep a s : Split sep (a +:+ String sep s) = Split sep a ++ Split sep s.
Proof.
  induction a as [|c a IH]; text; [by rewrite decide_True|].
  case_decide; [by rewrite IH|]. rewrite IH.
  assert (Split sep a ≠ []) as Hne.
  { destruct a as [|d a]; simpl; [done|]. case_decide; [done|]. by destruct (Split sep a). }
  by destruct (Split sep a).
Qed.

(** ** Reading decimal numerals ([strconv.Atoi]) *)
Definition digit_value (c : ascii) : option Z :=
  let n := Z.of_nat (nat_of_ascii c) in
  if decide (48 ≤ n ≤ 57) then Some (n - 48) else None.
Fixpoint decimal_value (acc : Z) (s : string) : option Z :=
  match s with
  | EmptyString => Some acc
  | String c s' => match digit_value c with Some d => decimal_value (acc * 10 + d) s' | None => None end
  end.
Definition in_int64 (z : Z) : option Z := if decide (Int64.min_value ≤ z ≤ Int64.max_value) then Some z else None.
Definition unsigned_decimal (s : string) : option Z :=
  match s with EmptyString => None | _ => decimal_value 0 s end.
Definition Atoi (s : string) : option Z :=
  match s with
  | String "-" s' => option_map Z.opp (unsigned_decimal s') ≫= in_int64
  | String "+" s' => unsigned_decimal s' ≫= in_int64
  | _ => unsigned_decimal s ≫= in_int64
  end.

Lemma digit_value_pretty x : (x < 10)%N → digit_value (pretty_N_char x) = Some (Z.of_N x).
Proof.
  intros H. assert (x = 0 ∨ x = 1 ∨ x = 2 ∨ x = 3 ∨ x = 4 ∨ x = 5 ∨ x = 6 ∨ x = 7 ∨ x = 8 ∨ x = 9)%N
    as Hx by lia. repeat destruct Hx as [->|Hx]; by subst || done.
Qed.

Lemma decimal_value_pretty x s : decimal_value 0 (pretty_N_go x s) = decimal_value (Z.of_N x) s.
Proof.
  revert s. induction (N.lt_wf_0 x) as [x _ IH]; intros s.
  destruct (decide (x = 0)%N) as [->|Hx]; [by rewrite pretty_N_go_0|].
  rewrite pretty_N_go_step, IH by (try apply N.div_lt; lia). cbn [decimal_value].
  rewrite digit_value_pretty by (apply N.mod_lt; lia). f_equal.
  rewrite (N.div_mod x 10) at 3 by done. lia.
Qed.

Lemma decimal_value_digits s acc v : decimal_value acc s = Some v → has_char "-" s = false ∧ has_char "+" s = false.
Proof.
  revert acc. induction s as [|c s IH]; intros acc; [done|]. cbn [decimal_value has_char].
  destruct (digit_value c) eqn:E; [|done]. intros H. destruct (IH _ H) as [-> ->].
  rewrite !orb_false_r, !bool_decide_eq_false. split; intros ->; vm_compute in E; done.
Qed.

Lemma Atoi_unsigned s v : unsigned_decimal s = Some v → Atoi s = in_int64 v.
Proof.
  destruct s as [|c s]; [done|]. intros H.
  destruct (decimal_value_digits (String c s) 0 v H) as [H1 H2]. cbn [has_char] in H1, H2.
  apply orb_false_iff in H1 as [H1%bool_decide_eq_false _], H2 as [H2%bool_decide_eq_false _].
  unfold Atoi. rewrite H.
  destruct c as [[] [] [] [] [] [] [] []]; try done; exfalso; by apply H1 || by apply H2.
Qed.

Lemma unsigned_decimal_pretty (n : N) : unsigned_decimal (pretty n) = Some (Z.of_N n).
Proof.
  assert (decimal_value 0 (pretty n) = Some (Z.of_N n)) as H.
  { unfold pretty, pretty_N. case_decide; [by subst|]. by rewrite decimal_value_pretty. }
  destruct (pretty n) as [|c s] eqn:E; [|done].
  unfold pretty, pretty_N in E. case_decide as Hn; [done|].
  rewrite pretty_N_go_step in E by lia. exfalso.
  assert (∀ x t, pretty_N_go x t ≠ "" ∨ t = "") as Hne.
  { intros x. induction (N.lt_wf_0 x) as [x _ IH]; intros t.
    destruct (decide (x = 0)%N) as [->|Hx]; [rewrite pretty_N_go_0; destruct t; auto|].
    rewrite pretty_N_go_step by lia. destruct (IH (x `div` 10)%N ltac:(apply N.div_lt; lia)
      (String (pretty_N_char (x `mod` 10)) t)) as [?|?]; [by left|done]. }
  by destruct (Hne (n `div` 10)%N (String (pretty_N_char (n `mod` 10)) "")).
Qed.

Lemma Atoi_Itoa z : Int64.in_range z → Atoi (Itoa z) = Some z.
Proof.
  intros Hz. unfold Itoa. assert (in_int64 z = Some z) as Hin by (unfold in_int64; by rewrite decide_True).
  destruct z as [|p|p]; [done| |]; unfold pretty at 1; cbn.
  - change (pretty p) with (pretty (N.pos p)).
    by rewrite (Atoi_unsigned _ _ (unsigned_decimal_pretty (N.pos p))).
  - change (pretty p) with (pretty (N.pos p)). rewrite append_cons, append_nil. cbn [Atoi].
    rewrite (unsigned_decimal_pretty (N.pos p)). exact Hin.
Qed.

(** ** Text without spaces is its own trim *)
Definition plain (c : ascii) : bool := bool_decide (33 ≤ Z.of_nat (nat_of_ascii c) ≤ 126).
Definition plain_text (s : string) : Prop := Forall (λ c, plain c = true) (String.list_ascii_of_string s).
Definition starts_special (p : string) : bool :=
  match p with String a _ => negb (plain a) | EmptyString => false end.

Lemma first_strip_plain ps c r :
  forallb starts_special ps = true → plain c = true → GoStrings.first_strip ps (String c r) = None.
Proof.
  intros Hps Hc. induction ps as [|p ps IH]; [done|]. cbn in Hps. apply andb_true_iff in Hps as [Hp Hps].
  destruct p as [|a p]; [done|]. cbn [GoStrings.first_strip GoStrings.strip]. cbn in Hp.
  apply negb_true_iff in Hp. rewrite decide_False by congruence. by apply IH.
Qed.

Lemma trim_with_plain ps fuel s :
  forallb starts_special ps = true → plain_text s → s ≠ "" → GoStrings.trim_with ps fuel s = s.
Proof.
  intros Hps Hs Hne. destruct fuel; [done|]. destruct s as [|c r]; [done|]. cbn [GoStrings.trim_with].
  apply Forall_cons in Hs as [Hc _]. by rewrite first_strip_plain.
Qed.

Lemma reverse_reverse s : GoStrings.reverse (GoStrings.reverse s) = s.
Proof.
  unfold GoStrings.reverse. rewrite list_ascii_of_string_of_list_ascii, rev_involutive.
  apply string_of_list_ascii_of_string.
Qed.

Lemma TrimSpace_plain s : plain_text s → GoStrings.TrimSpace s = s.
Proof.
  intros Hs. destruct (decide (s = "")) as [->|Hne]; [done|].
  unfold GoStrings.TrimSpace, GoStrings.TrimLeft.
  assert (forallb starts_special GoStrings.space_encodings = true) as Hsp by (vm_compute; reflexivity).
  rewrite (trim_with_plain _ _ s Hsp Hs Hne).
  assert (plain_text (GoStrings.reverse s)) as Hr.
  { unfold plain_text, GoStrings.reverse. rewrite list_ascii_of_string_of_list_ascii.
    by apply List.Forall_rev. }
  rewrite trim_with_plain; [apply reverse_reverse|vm_compute; reflexivity|done|].
  intros Hnil. apply Hne. rewrite <- (reverse_reverse s), Hnil. done.
Qed.

Lemma plain_text_app s t : plain_text s → plain_text t → plain_text (s +:+ t).
Proof.
  unfold plain_text. intros Hs Ht. induction s as [|c s IH]; [by rewrite append_nil|].
  rewrite append_cons. apply Forall_cons in Hs as [Hc Hs]. constructor; auto.
Qed.

Lemma decimal_plain acc s v : decimal_value acc s = Some v → plain_text s.
Proof.
  revert acc. induction s as [|c s IH]; intros acc; [constructor|]. cbn [decimal_value].
  destruct (digit_value c) as [d|] eqn:E; [|done]. intros Hv. constructor; [|by eapply IH].
  unfold digit_value in E. unfold plain. case_decide; [|done]. apply bool_decide_eq_true. lia.
Qed.

(** ** [strings.Title], as far as the code asks it

    The first letter of each word goes to title case.  Like [ToLower] it is
    asked for results in ASCII: outside ASCII only the dotless i and the long s
    have an ASCII title case; other characters keep their encoding and, as
    bytes of letters, separate nothing. *)
Definition dotless_i : string := GoStrings.bytes [196; 177]%nat.
Definition upper_char (a : ascii) : ascii :=
  let n := nat_of_ascii a in
  if decide (97 ≤ n ≤ 122)%nat then ascii_of_nat (n - 32) else a.
Definition is_separator (a : ascii) : bool :=
  let n := nat_of_ascii a in
  negb (bool_decide (48 ≤ n ≤ 57)%nat || bool_decide (65 ≤ n ≤ 90)%nat ||
        bool_decide (97 ≤ n ≤ 122)%nat || bool_decide (n = 95)%nat || bool_decide (128 ≤ n)%nat).
Fixpoint title_text (fuel : nat) (word_start : bool) (s : string) : string :=
  match fuel with
  | O => EmptyString
  | S fuel' =>
    match (if word_start then special_at [(dotless_i, "I"%char); (long_s, "S"%char)] s else None) with
    | Some (c, r) => String c (title_text fuel' false r)
    | None =>
      match s with
      | EmptyString => EmptyString
      | String a r =>
        String (if word_start then upper_char a else a) (title_text fuel' (is_separator a) r)
      end
    end
  end.
Definition Title (s : string) : string := title_text (String.length s) true s.
Example Title_soft : Title (ToLower "SOFT") = "Soft". Proof. reflexivity. Qed.
Example Title_words : Title "a_b c-d" = "A_b C-D". Proof. reflexivity. Qed.
