(* ===== verification/GoClock.v ===== *)
(** * Clock text and floating point

    The standard-library pieces below the registry and the API: RFC 3339
    formatting of an instant and Go's [float64] with the operations the code
    performs on one (IEEE 754 binary64 in the Standard Library's specification
    floats, round to nearest even). *)
From Stdlib Require Import String Ascii SpecFloat.
From stdpp Require Import base numbers decidable option list sorting strings gmap.
From S2P Require Import Prelude GoText.
Open Scope Z_scope.

(** ** Instants as text ([time.RFC3339Nano] in UTC) *)
Module Clock.
Fixpoint zeros (n : nat) : string := match n with O => EmptyString | S n' => String "0" (zeros n') end.
(** [appendInt]: the digits padded with zeros after the sign. *)
Definition pad (w : nat) (n : Z) : string :=
  let s := Itoa (Z.abs n) in
  (if decide (n < 0) then "-" else "") +:+ zeros (w - String.length s) +:+ s.

Definition seconds_per_day : Z := 86400.

(** Year, month and day of the [days]-th day after January 1, year 1: the
    calendar repeats every 400 years of 146097 days, counted from March 1. *)
Definition civil (days : Z) : Z * Z * Z :=
  let z := days + 306 in
  let era := z / 146097 in
  let doe := z mod 146097 in
  let yoe := (doe - doe / 1460 + doe / 36524 - doe / 146096) / 365 in
  let doy := doe - (365 * yoe + yoe / 4 - yoe / 100) in
  let mp := (5 * doy + 2) / 153 in
  let d := doy - (153 * mp + 2) / 5 + 1 in
  let m := if decide (mp < 10) then mp + 3 else mp - 9 in
  let y := yoe + era * 400 in
  (if decide (m ≤ 2) then y + 1 else y, m, d).

(** The fraction of a second, without trailing zeros. *)
Fixpoint trim_zeros (fuel : nat) (s : string) : string :=
  match fuel with
  | O => s
  | S fuel' =>
    match GoStrings.strip "0" s with
    | Some r => trim_zeros fuel' r
    | None => s
    end
  end.
Definition fraction (nanos : Z) : string :=
  if decide (nanos = 0) then ""
  else "." +:+ GoStrings.reverse (trim_zeros 9 (GoStrings.reverse (pad 9 nanos))).

Definition RFC3339Nano (t : Time) : string :=
  let secs := t / GoTime.Second in
  let day := secs mod seconds_per_day in
  let '(y, m, d) := civil (secs / seconds_per_day) in
  pad 4 y +:+ "-" +:+ pad 2 m +:+ "-" +:+ pad 2 d +:+ "T" +:+
  pad 2 (day / 3600) +:+ ":" +:+ pad 2 (day mod 3600 / 60) +:+ ":" +:+ pad 2 (day mod 60) +:+
  fraction (t mod GoTime.Second) +:+ "Z".

(** The Unix epoch as seconds after year 1. *)
Definition unix_epoch : Z := 62135596800.
Definition Unix (secs nanos : Z) : Time := (unix_epoch + secs) * GoTime.Second + nanos.

Example RFC3339Nano_zero : RFC3339Nano 0 = "0001-01-01T00:00:00Z".
Proof. vm_compute. reflexivity. Qed.
Example RFC3339Nano_epoch : RFC3339Nano (Unix 0 0) = "1970-01-01T00:00:00Z".
Proof. vm_compute. reflexivity. Qed.
Example RFC3339Nano_leap : RFC3339Nano (Unix 1709210096 120000000) = "2024-02-29T12:34:56.12Z".
Proof. vm_compute. reflexivity. Qed.
End Clock.

(** ** [float64] *)
Module Float64.
Definition float64 : Type := spec_float.
Definition prec : Z := 53.
Definition emax : Z := 1024.
Definition of_int (z : Z) : float64 := binary_normalize prec emax z 0 false.
Definition add : float64 → float64 → float64 := SFadd prec emax.
Definition sub : float64 → float64 → float64 := SFsub prec emax.
Definition div : float64 → float64 → float64 := SFdiv prec emax.
(** [a >= b]; false when either is not a number. *)
Definition geb (a b : float64) : bool := SFleb b a.
Definition zero : float64 := S754_zero false.

(** [Duration.Seconds]: Go divides truncating towards zero. *)
Definition Seconds (d : GoTime.Duration) : float64 :=
  add (of_int (Z.quot d GoTime.Second))
      (div (of_int (Z.rem d GoTime.Second)) (of_int 1000000000)).

Example Seconds_quarter : Seconds (250 * GoTime.Millisecond) = div (of_int 1) (of_int 4).
Proof. vm_compute. reflexivity. Qed.
End Float64.
Abbreviation float64 := Float64.float64.
