(* ===== verification/GoDate.v ===== *)
(** * Reading instants

    [time.Parse] of Go's standard library with the layout [time.RFC3339Nano],
    the reader of every timestamp the HAL takes as text, and the proof that it
    reads back what [Clock.RFC3339Nano] writes. *)
From Stdlib Require Import String Ascii.
From stdpp Require Import base numbers decidable option list strings pretty.
From S2P Require Import Prelude GoText GoClock.
Open Scope Z_scope.

Module Date.
(** ** The calendar *)
Definition leap (y : Z) : Prop := y mod 4 = 0 ∧ (y mod 100 ≠ 0 ∨ y mod 400 = 0).
#[global] Instance leap_dec y : Decision (leap y).
Proof. unfold leap. apply _. Defined.
Definition daysIn (m y : Z) : Z :=
  if decide (m = 2) then if decide (leap y) then 29 else 28
  else if decide (m ∈ [4; 6; 9; 11]) then 30 else 31.

(** The day number [Clock.civil] splits. *)
Definition days_of (y m d : Z) : Z :=
  let y' := if decide (m ≤ 2) then y - 1 else y in
  let mp := if decide (m ≤ 2) then m + 9 else m - 3 in
  y' / 400 * 146097 + (y' mod 400 * 365 + y' mod 400 / 4 - y' mod 400 / 100 + ((153 * mp + 2) / 5 + d - 1)) - 306.

(** ** The parser *)
(** [getnum]: one or two digits, exactly two when [fixed]. *)
Definition getnum (s : string) (fixed : bool) : option (Z * string) :=
  match s with
  | EmptyString => None
  | String a r =>
    x ← digit_value a;
    match r with
    | String b r' =>
      match digit_value b with
      | Some y => Some (10 * x + y, r')
      | None => if fixed then None else Some (x, r)
      end
    | EmptyString => if fixed then None else Some (x, r)
    end
  end.
Definition getnum_in (lo hi : Z) (s : string) (fixed : bool) : option (Z * string) :=
  '(n, r) ← getnum s fixed;
  if decide (lo ≤ n ≤ hi) then Some (n, r) else None.

Definition parse_year (s : string) : option (Z * string) :=
  match s with
  | String a (String b (String c (String d r))) =>
    n ← decimal_value 0 (String a (String b (String c (String d EmptyString)))); Some (n, r)
  | _ => None
  end.

Definition commaOrPeriod (c : ascii) : bool := bool_decide (c = "."%char ∨ c = ","%char).
(** The leading digits of a text and the rest. *)
Fixpoint leading_digits (s : string) : string * string :=
  match s with
  | String a r =>
    match digit_value a with
    | Some _ => let '(ds, rest) := leading_digits r in (String a ds, rest)
    | None => (EmptyString, s)
    end
  | EmptyString => (EmptyString, s)
  end.
Fixpoint take_text (n : nat) (s : string) : string :=
  match n, s with S n', String a r => String a (take_text n' r) | _, _ => EmptyString end.
(** [parseNanoseconds] on the digits after the point: nine count. *)
Definition nanoseconds (ds : string) : option Z :=
  let ds := take_text 9 ds in
  (λ v, v * 10 ^ (9 - Z.of_nat (String.length ds))) <$> decimal_value 0 ds.
Definition parse_fraction (s : string) : option (Z * string) :=
  match s with
  | String c r =>
    if commaOrPeriod c then
      let '(ds, rest) := leading_digits r in
      if decide (ds = "") then Some (0, s) else (λ ns, (ns, rest)) <$> nanoseconds ds
    else Some (0, s)
  | EmptyString => Some (0, s)
  end.

(** The zone in seconds east of UTC. *)
Definition parse_zone (s : string) : option (Z * string) :=
  match s with
  | String "Z" r => Some (0, r)
  | String sign (String h1 (String h2 (String ":" (String m1 (String m2 r))))) =>
    '(hr, _) ← getnum_in 0 24 (String h1 (String h2 EmptyString)) true;
    '(mm, _) ← getnum_in 0 60 (String m1 (String m2 EmptyString)) true;
    if decide (sign = "+"%char) then Some ((hr * 60 + mm) * 60, r)
    else if decide (sign = "-"%char) then Some (- ((hr * 60 + mm) * 60), r)
    else None
  | _ => None
  end.

(** [time.Parse(time.RFC3339Nano, value)], as an instant. *)
Definition Parse (value : string) : option Time :=
  '(y, s) ← parse_year value;
  s ← GoStrings.strip "-" s;
  '(m, s) ← getnum_in 1 12 s true;
  s ← GoStrings.strip "-" s;
  '(d, s) ← getnum s true;
  s ← GoStrings.strip "T" s;
  '(hour, s) ← getnum_in 0 23 s false;
  s ← GoStrings.strip ":" s;
  '(minute, s) ← getnum_in 0 59 s true;
  s ← GoStrings.strip ":" s;
  '(sec, s) ← getnum_in 0 59 s true;
  '(nanos, s) ← parse_fraction s;
  '(offset, s) ← parse_zone s;
  if decide (s ≠ "" ∨ d < 1 ∨ daysIn m y < d) then None
  else Some ((days_of y m d * 86400 + hour * 3600 + minute * 60 + sec - offset) * GoTime.Second + nanos).

Example Parse_zone : Parse "2024-02-29T12:34:56,125+05:30" = Some (Clock.Unix 1709190296 125000000).
Proof. vm_compute. reflexivity. Qed.
Example Parse_hour : Parse "2024-02-29T1:34:56Z" = Some (Clock.Unix 1709170496 0).
Proof. vm_compute. reflexivity. Qed.
Example Parse_bad_day : Parse "2023-02-29T12:34:56Z" = None.
Proof. vm_compute. reflexivity. Qed.

(** ** The calendar is read back *)
Lemma civil_parts n :
  let z := n + 306 in let doe := z mod 146097 in
  let yoe := (doe - doe / 1460 + doe / 36524 - doe / 146096) / 365 in
  let doy := doe - (365 * yoe + yoe / 4 - yoe / 100) in
  0 ≤ yoe ≤ 399 ∧ 0 ≤ doy ≤ 365 ∧
  (doy = 365 → (yoe + 1) mod 4 = 0 ∧ ((yoe + 1) mod 100 ≠ 0 ∨ (yoe + 1) mod 400 = 0)).
Proof.
  cbv zeta. pose proof (Z.mod_pos_bound (n + 306) 146097 ltac:(lia)) as H.
  revert H. generalize ((n + 306) mod 146097). intros doe H.
  Z.div_mod_to_equations. lia.
Qed.

(** Month and day of the [doy]-th day after March 1. *)
Definition month_ok (doy : Z) : bool :=
  let mp := (5 * doy + 2) / 153 in
  let d := doy - (153 * mp + 2) / 5 + 1 in
  let m := if decide (mp < 10) then mp + 3 else mp - 9 in
  bool_decide (1 ≤ m ≤ 12 ∧ 1 ≤ d ∧
    d ≤ (if decide (m = 2) then if decide (doy = 365) then 29 else 28
         else if decide (m ∈ [4; 6; 9; 11]) then 30 else 31) ∧
    mp = (if decide (m ≤ 2) then m + 9 else m - 3)).
Lemma months_check : forallb month_ok (seqZ 0 366) = true.
Proof. vm_compute. reflexivity. Qed.

Lemma leap_era y k : leap (y + k * 400) ↔ leap y.
Proof.
  unfold leap. rewrite (Z.mod_add y k 400) by lia.
  replace (y + k * 400) with (y + (k * 100) * 4) at 1 by lia.
  replace (y + k * 400) with (y + (k * 4) * 100) by lia. by rewrite !Z.mod_add by lia.
Qed.

Lemma civil_days n y m d :
  Clock.civil n = (y, m, d) →
  1 ≤ m ≤ 12 ∧ 1 ≤ d ≤ daysIn m y ∧ days_of y m d = n.
Proof.
  unfold Clock.civil. pose proof (civil_parts n) as H. cbv zeta in H |- *.
  pose proof (Z.div_mod (n + 306) 146097 ltac:(lia)) as Hz.
  set (doe := (n + 306) mod 146097) in *. set (era := (n + 306) / 146097) in *.
  set (yoe := (doe - doe / 1460 + doe / 36524 - doe / 146096) / 365) in *.
  set (doy := doe - (365 * yoe + yoe / 4 - yoe / 100)) in *.
  destruct H as (Hyoe & Hdoy & Hleap).
  assert (month_ok doy = true) as Hm.
  { apply (proj1 (forallb_forall month_ok _) months_check). apply list_elem_of_In, elem_of_seqZ. lia. }
  unfold month_ok in Hm. cbv zeta in Hm. apply bool_decide_eq_true in Hm.
  set (mp := (5 * doy + 2) / 153) in *. set (dd := doy - (153 * mp + 2) / 5 + 1) in *.
  set (mm := if decide (mp < 10) then mp + 3 else mp - 9) in *.
  destruct Hm as (Hmm & Hdd & Hlen & Hmp). intros [= <- <- <-]. fold mm.
  assert ((if decide (mm ≤ 2) then (if decide (mm ≤ 2) then yoe + era * 400 + 1 else yoe + era * 400) - 1
           else (if decide (mm ≤ 2) then yoe + era * 400 + 1 else yoe + era * 400)) = yoe + era * 400) as Hy
    by (destruct (decide (mm ≤ 2)); lia).
  split; [done|]. split; [split; [done|]|].
  - unfold daysIn. destruct (decide (mm = 2)) as [Hfeb|].
    + destruct (decide (leap _)) as [|L]; [destruct (decide (doy = 365)); lia|]. destruct (decide (doy = 365)) as [He|]; [|done]. exfalso. apply L.
      destruct (decide (mm ≤ 2)); [|lia]. replace (yoe + era * 400 + 1) with (yoe + 1 + era * 400) by lia.
      apply leap_era, Hleap, He.
    + by destruct (decide (mm ∈ _)).
  - unfold days_of. rewrite Hy, <- Hmp, Z.div_add, Z.mod_add, (Z.div_small yoe), (Z.mod_small yoe) by lia.
    unfold dd. lia.
Qed.

(** ** Padded numerals are read back *)
Definition digit_char (d : Z) : ascii := pretty_N_char (Z.to_N d).
Fixpoint fixed (w : nat) (n : Z) (s : string) : string :=
  match w with
  | O => s
  | S w' => fixed w' (n / 10) (String (digit_char (n mod 10)) s)
  end.

Lemma digit_char_value d : 0 ≤ d ≤ 9 → digit_value (digit_char d) = Some d.
Proof. intros. unfold digit_char. rewrite digit_value_pretty by lia. f_equal. lia. Qed.

Lemma fixed_app w n s r : fixed w n s +:+ r = fixed w n (s +:+ r).
Proof. revert n s. induction w as [|w IH]; intros n s; [done|]. simpl. by rewrite IH. Qed.

Lemma fixed_zero w s : fixed w 0 s = Clock.zeros w +:+ s.
Proof.
  revert s. induction w as [|w IH]; intros s; [done|]. simpl.
  change (0 `div` 10) with 0. change (digit_char (0 `mod` 10)) with "0"%char. rewrite IH.
  clear IH. induction w as [|w IH]; [done|]. simpl. rewrite !append_cons. f_equal. exact IH.
Qed.

Lemma pretty_fixed w (n : N) s :
  Z.of_N n < 10 ^ Z.of_nat w →
  Clock.zeros (w + String.length s - String.length (pretty_N_go n s)) +:+ pretty_N_go n s = fixed w (Z.of_N n) s.
Proof.
  revert n s. induction w as [|w IH]; intros n s Hn.
  - assert (n = 0%N) as -> by (simpl in Hn; lia). rewrite pretty_N_go_0. simpl.
    replace (_ - _)%nat with 0%nat by lia. done.
  - destruct (decide (n = 0%N)) as [->|Hne].
    { rewrite pretty_N_go_0, (fixed_zero (S w)). f_equal. f_equal. lia. }
    rewrite pretty_N_go_step by lia. cbn [fixed].
    change 10 with (Z.of_N 10). rewrite <- N2Z.inj_div, <- N2Z.inj_mod. unfold digit_char. rewrite N2Z.id.
    rewrite <- IH.
    + do 2 f_equal. simpl. lia.
    + rewrite N2Z.inj_div. apply Z.div_lt_upper_bound; [lia|].
      rewrite <- Z.pow_succ_r by lia. rewrite <- Nat2Z.inj_succ. exact Hn.
Qed.

Lemma pad_fixed w n r : (0 < w)%nat → 0 ≤ n < 10 ^ Z.of_nat w → Clock.pad w n +:+ r = fixed w n r.
Proof.
  intros Hw Hn. transitivity (fixed w n "" +:+ r); [f_equal|by rewrite fixed_app].
  unfold Clock.pad, Itoa. rewrite decide_False, append_nil, Z.abs_eq by lia. destruct (decide (n = 0)) as [->|Hne].
  { rewrite fixed_zero. destruct w as [|w]; [lia|]. simpl. rewrite Nat.sub_0_r.
    rewrite append_nil_r. clear. change (pretty 0) with "0".
    induction w as [|w IH]; [done|]. simpl. rewrite append_cons. f_equal. exact IH. }
  rewrite <- (Z2N.id n) by lia.
  assert (pretty (Z.of_N (Z.to_N n)) = pretty_N_go (Z.to_N n) "") as ->.
  { rewrite Z2N.id by lia. destruct n as [|p|p]; [done| |lia].
    transitivity (pretty (N.pos p)); [done|]. unfold pretty, pretty_N. by rewrite decide_False. }
  rewrite <- (pretty_fixed w) by (rewrite Z2N.id by lia; lia). do 2 f_equal. simpl. lia.
Qed.

Lemma decimal_fixed w a n s :
  0 ≤ n < 10 ^ Z.of_nat w → decimal_value a (fixed w n s) = decimal_value (a * 10 ^ Z.of_nat w + n) s.
Proof.
  revert a n s. induction w as [|w IH]; intros a n s Hn.
  { simpl in *. f_equal. lia. }
  cbn [fixed]. rewrite Nat2Z.inj_succ, Z.pow_succ_r in * by lia.
  pose proof (Z.div_mod n 10 ltac:(lia)). pose proof (Z.mod_pos_bound n 10 ltac:(lia)).
  rewrite IH by (split; [apply Z.div_pos; lia|apply Z.div_lt_upper_bound; lia]).
  cbn [decimal_value]. rewrite digit_char_value by lia. f_equal. lia.
Qed.

Lemma getnum_fixed n r b : 0 ≤ n < 100 → getnum (fixed 2 n r) b = Some (n, r).
Proof.
  intros Hn. cbn [fixed getnum]. pose proof (Z.div_mod n 10 ltac:(lia)).
  assert (0 ≤ n / 10 ≤ 9) by (split; [apply Z.div_pos; lia|apply Z.lt_succ_r, Z.div_lt_upper_bound; lia]).
  pose proof (Z.mod_pos_bound n 10 ltac:(lia)).
  rewrite (Z.mod_small (n / 10)) by lia. rewrite !digit_char_value by lia. simpl.
  do 2 f_equal. lia.
Qed.

Lemma getnum_in_pad lo hi n r b :
  lo ≤ n ≤ hi → 0 ≤ lo → hi < 100 → getnum_in lo hi (Clock.pad 2 n +:+ r) b = Some (n, r).
Proof.
  intros Hn Hlo Hhi. rewrite pad_fixed by (simpl; lia). unfold getnum_in.
  rewrite getnum_fixed by lia. simpl. by rewrite decide_True.
Qed.

Lemma parse_year_pad y r : 0 ≤ y ≤ 9999 → parse_year (Clock.pad 4 y +:+ r) = Some (y, r).
Proof.
  intros Hy. rewrite pad_fixed by (simpl; lia).
  pose proof (decimal_fixed 4 0 y "" ltac:(simpl; lia)) as Hd. cbn [fixed] in *.
  unfold parse_year. rewrite Hd. done.
Qed.

(** ** The fraction is read back *)
Lemma leading_digits_app ds r :
  (∀ c, c ∈ String.list_ascii_of_string ds → is_Some (digit_value c)) →
  match r with String c _ => digit_value c = None | EmptyString => True end →
  leading_digits (ds +:+ r) = (ds, r).
Proof.
  intros Hds Hr. induction ds as [|c ds IH].
  - rewrite append_nil. destruct r as [|c r]; [done|]. simpl. by rewrite Hr.
  - rewrite append_cons. simpl. destruct (Hds c) as [x ->]; [by left|].
    rewrite IH; [done|]. intros c' Hc'. apply Hds. by right.
Qed.

Lemma decimal_value_app a p q v :
  decimal_value a p = Some v → decimal_value a (p +:+ q) = decimal_value v q.
Proof.
  revert a. induction p as [|c p IH]; intros a; cbn [decimal_value].
  { intros [= ->]. by rewrite append_nil. }
  rewrite append_cons. cbn [decimal_value]. destruct (digit_value c); [apply IH|done].
Qed.

Lemma decimal_value_digits_all a p v :
  decimal_value a p = Some v → ∀ c, c ∈ String.list_ascii_of_string p → is_Some (digit_value c).
Proof.
  revert a. induction p as [|x p IH]; intros a; cbn [decimal_value]; [by intros _ c []%elem_of_nil|].
  destruct (digit_value x) eqn:E; [|done]. intros H c [->|Hc]%elem_of_cons; [by rewrite E|by eapply IH].
Qed.

Lemma decimal_zeros a k : decimal_value a (Clock.zeros k) = Some (a * 10 ^ Z.of_nat k).
Proof.
  revert a. induction k as [|k IH]; intros a; [simpl; f_equal; lia|].
  change (decimal_value a (Clock.zeros (S k))) with (decimal_value (a * 10 + 0) (Clock.zeros k)). rewrite IH.
  rewrite Nat2Z.inj_succ, Z.pow_succ_r by lia. f_equal. lia.
Qed.

Lemma trim_zeros_split fuel s : ∃ k, s = Clock.zeros k +:+ Clock.trim_zeros fuel s.
Proof.
  revert s. induction fuel as [|fuel IH]; intros s; [by exists 0%nat|]. cbn [Clock.trim_zeros].
  destruct (GoStrings.strip "0" s) as [r|] eqn:E; [|by exists 0%nat].
  apply strip_Some in E as ->. destruct (IH r) as [k Hk]. exists (S k). rewrite Hk at 1. done.
Qed.

Lemma list_ascii_app s t :
  String.list_ascii_of_string (s +:+ t) = String.list_ascii_of_string s ++ String.list_ascii_of_string t.
Proof. induction s as [|c s IH]; [done|]. rewrite append_cons. cbn. by rewrite IH. Qed.
Lemma string_of_app l k :
  String.string_of_list_ascii (l ++ k) = String.string_of_list_ascii l +:+ String.string_of_list_ascii k.
Proof. induction l as [|c l IH]; [by rewrite append_nil|]. cbn. by rewrite append_cons, IH. Qed.
Lemma reverse_app s t : GoStrings.reverse (s +:+ t) = GoStrings.reverse t +:+ GoStrings.reverse s.
Proof. unfold GoStrings.reverse. by rewrite list_ascii_app, rev_app_distr, string_of_app. Qed.
Lemma reverse_length s : String.length (GoStrings.reverse s) = String.length s.
Proof.
  assert (∀ l, String.length (String.string_of_list_ascii l) = length l) as Hl
    by (induction l as [|? l IH]; cbn; [done|by rewrite IH]).
  assert (length (String.list_ascii_of_string s) = String.length s) as Hs
    by (induction s as [|? s IH]; cbn; [done|by rewrite IH]).
  unfold GoStrings.reverse. by rewrite Hl, length_rev, Hs.
Qed.
Lemma reverse_zeros k : GoStrings.reverse (Clock.zeros k) = Clock.zeros k.
Proof.
  unfold GoStrings.reverse. assert (∀ k, String.list_ascii_of_string (Clock.zeros k) = replicate k "0"%char) as Hz
    by (induction k0 as [|n IH]; [done|]; cbn; by rewrite IH).
  rewrite Hz, rev_alt. change (rev_append ?l []) with (reverse l).
  rewrite reverse_replicate, <- Hz. apply string_of_list_ascii_of_string.
Qed.

Lemma take_text_all n s : (String.length s ≤ n)%nat → take_text n s = s.
Proof.
  revert s. induction n as [|n IH]; intros [|c s] H; simpl in *; try done; [lia|]. f_equal. apply IH. lia.
Qed.

(** A nanosecond count printed as a fraction is read back, whatever follows
    that does not start with a digit. *)
Lemma parse_fraction_print nanos r :
  0 ≤ nanos < 10 ^ 9 →
  match r with String c _ => digit_value c = None ∧ commaOrPeriod c = false | EmptyString => True end →
  parse_fraction (Clock.fraction nanos +:+ r) = Some (nanos, r).
Proof.
  intros Hn Hr. unfold Clock.fraction. case_decide as Hz.
  { subst. rewrite append_nil. destruct r as [|c r]; [done|]. simpl. destruct Hr as [_ ->]. done. }
  set (p := Clock.pad 9 nanos). destruct (trim_zeros_split 9 (GoStrings.reverse p)) as [k Hk].
  set (q := GoStrings.reverse (Clock.trim_zeros 9 (GoStrings.reverse p))) in *.
  assert (p = q +:+ Clock.zeros k) as Hp.
  { rewrite <- (reverse_reverse p), Hk, reverse_app, reverse_zeros. done. }
  assert (p = fixed 9 nanos "") as Hf.
  { rewrite <- pad_fixed by (simpl; lia). by rewrite append_nil_r. }
  assert (decimal_value 0 p = Some nanos) as Hv.
  { rewrite Hf, decimal_fixed by (simpl; lia). simpl. done. }
  assert (String.length p = 9%nat) as Hl by (rewrite Hf; done).
  assert (∃ v, decimal_value 0 q = Some v) as [v Hq].
  { assert (∀ a s t w, decimal_value a (s +:+ t) = Some w → ∃ v, decimal_value a s = Some v) as Hpre.
    { intros a s t w. revert a. induction s as [|c s IH]; intros a; [eauto|]. rewrite append_cons.
      cbn [decimal_value]. destruct (digit_value c); [apply IH|done]. }
    rewrite Hp in Hv. by eapply Hpre. }
  rewrite Hp, (decimal_value_app _ _ _ _ Hq), decimal_zeros in Hv. injection Hv as Hv.
  assert (String.length q + k = 9)%nat as Hlen.
  { rewrite <- Hl, Hp. clear. induction q as [|c q IH]; [simpl; rewrite append_nil|].
    - induction k as [|k IH]; [done|]. simpl. by rewrite <- IH.
    - rewrite append_cons. simpl. by rewrite IH. }
  assert (q ≠ "") as Hne by (intros ->; simpl in Hq; injection Hq as <-; lia).
  rewrite append_cons, append_nil. fold q. change (String "." ?x +:+ r) with (String "." (x +:+ r)).
  unfold parse_fraction. change (commaOrPeriod ".") with true. cbv iota.
  rewrite leading_digits_app; [|by eapply decimal_value_digits_all|by destruct r; [|apply Hr]].
  rewrite decide_False by done. unfold nanoseconds. rewrite take_text_all by lia. rewrite Hq. simpl.
  do 3 f_equal. rewrite <- Hv. do 2 f_equal. lia.
Qed.

(** ** The round trip *)
Definition first_instant : Time := -366 * 86400 * GoTime.Second.      (* January 1, year 0 *)
Definition last_instant : Time := 3652059 * 86400 * GoTime.Second.    (* January 1, year 10000 *)

Lemma civil_year n y m d : Clock.civil n = (y, m, d) → -366 ≤ n < 3652059 → 0 ≤ y ≤ 9999.
Proof.
  intros H Hn. destruct (civil_days _ _ _ _ H) as (Hm & Hd & Hdays).
  assert (d ≤ 31) as Hd31.
  { destruct Hd as [_ Hd]. unfold daysIn in Hd. repeat case_decide; lia. }
  assert (0 ≤ (153 * (if decide (m ≤ 2) then m + 9 else m - 3) + 2) / 5 + d - 1 ≤ 367 ∧
          (m ≤ 2 → 306 ≤ (153 * (if decide (m ≤ 2) then m + 9 else m - 3) + 2) / 5 + d - 1) ∧
          (2 < m → (153 * (if decide (m ≤ 2) then m + 9 else m - 3) + 2) / 5 + d - 1 ≤ 305)) as (Hp & Hp1 & Hp2).
  { destruct (decide (m ≤ 2)); Z.div_mod_to_equations; lia. }
  unfold days_of in Hdays.
  set (p := (153 * _ + 2) / 5 + d - 1) in *. clearbody p. destruct (decide (m ≤ 2)) as [Hm2|Hm2].
  all: clear H; Z.div_mod_to_equations; lia.
Qed.


Lemma print_parse t : first_instant ≤ t < last_instant → Parse (Clock.RFC3339Nano t) = Some t.
Proof.
  unfold first_instant, last_instant. intros Ht. unfold Clock.RFC3339Nano.
  assert (GoTime.Second = 1000000000) as Hs by done.
  pose proof (Z.div_mod t GoTime.Second ltac:(lia)) as Hd1. pose proof (Z.mod_pos_bound t GoTime.Second ltac:(lia)) as Hb1.
  set (secs := t / GoTime.Second) in *. set (nanos := t mod GoTime.Second) in *.
  unfold Clock.seconds_per_day.
  pose proof (Z.div_mod secs 86400 ltac:(lia)) as Hd2. pose proof (Z.mod_pos_bound secs 86400 ltac:(lia)) as Hb2.
  set (days := secs / 86400) in *. set (day := secs mod 86400) in *.
  destruct (Clock.civil days) as [[y m] d] eqn:E.
  assert (-366 ≤ days < 3652059) as Hdays by lia.
  pose proof (civil_year _ _ _ _ E Hdays) as Hy. destruct (civil_days _ _ _ _ E) as (Hm & Hd & Hof).
  assert (d ≤ 31) as Hd31 by (destruct Hd as [_ Hd]; unfold daysIn in Hd; repeat case_decide; lia).
  assert (day = day / 3600 * 3600 + day mod 3600 / 60 * 60 + day mod 60 ∧ 0 ≤ day / 3600 ≤ 23 ∧
          0 ≤ day mod 3600 / 60 ≤ 59 ∧ 0 ≤ day mod 60 ≤ 59) as (Hday & Hh & Hmi & Hse)
    by (clear -Hb2; Z.div_mod_to_equations; lia).
  unfold Parse. rewrite parse_year_pad by done. cbn [mbind option_bind].
  rewrite strip_app. cbn [mbind option_bind]. rewrite getnum_in_pad by lia. cbn [mbind option_bind].
  rewrite strip_app. cbn [mbind option_bind]. rewrite pad_fixed by (simpl; lia). rewrite getnum_fixed by lia.
  cbn [mbind option_bind]. rewrite strip_app. cbn [mbind option_bind]. rewrite getnum_in_pad by lia.
  cbn [mbind option_bind]. rewrite strip_app. cbn [mbind option_bind]. rewrite getnum_in_pad by lia.
  cbn [mbind option_bind]. rewrite strip_app. cbn [mbind option_bind]. rewrite getnum_in_pad by lia.
  cbn [mbind option_bind]. rewrite parse_fraction_print by (done || lia). cbn [mbind option_bind parse_zone].
  rewrite decide_False by (intros [?|?]; [done|lia]). f_equal. rewrite Hof. lia.
Qed.
End Date.
