(* ===== verification/GoRat.v ===== *)
(** * Rational numbers as Go reads them

    [big.Rat.SetString] of Go's math/big, the reader behind the charger's meter
    and state-of-charge text: optional sign, base prefixes, digit separators,
    a radix point, decimal and binary exponents, or a fraction. *)
From Stdlib Require Import String Ascii.
From stdpp Require Import base numbers decidable option list strings pretty.
From S2P Require Import Prelude GoText.
Open Scope Z_scope.

(** A rational in lowest terms with a positive denominator. *)
Record Rat : Type := mkRat { num : Z; den : Z }.
Definition norm (a b : Z) : Rat := mkRat (a / Z.gcd a b) (b / Z.gcd a b).
Definition NewRat (a b : Z) : Rat := norm a b.
Definition rat_mul (x y : Rat) : Rat := norm (num x * num y) (den x * den y).
(** [x.Cmp(y) > 0] *)
Definition rat_gt (x y : Rat) : Prop := num y * den x < num x * den y.
#[global] Instance rat_gt_dec x y : Decision (rat_gt x y) := Z_lt_dec _ _.
Definition IsInt (x : Rat) : Prop := den x = 1.
Definition IsInt64 (z : Z) : Prop := Int64.min_value ≤ z ≤ Int64.max_value.

(** ** Digits ([nat.scan]) *)
Definition digit_of (ch : ascii) : option Z :=
  let n := Z.of_nat (nat_of_ascii ch) in
  if decide (48 ≤ n ≤ 57) then Some (n - 48)
  else if decide (97 ≤ n ≤ 122) then Some (n - 97 + 10)
  else if decide (65 ≤ n ≤ 90) then Some (n - 65 + 10)
  else None.

(** What was read last: a digit, a separator, or anything else. *)
Inductive prev_char : Type := prev_digit | prev_sep | prev_other.
#[global] Instance prev_char_eq_dec : EqDecision prev_char.
Proof. solve_decision. Defined.

Record scan_state : Type := mkscan_state {
  sc_value : Z;
  sc_count : Z;
  sc_point : option Z;       (* digits read before the radix point *)
  sc_prev : prev_char;
  sc_invalSep : bool;
  sc_fracOk : bool
}.

(** The digit loop (base 0 was asked for, so separators are allowed); it stops
    before the first byte that is not part of the number. *)
Fixpoint scan_digits (b : Z) (st : scan_state) (s : string) : scan_state * string :=
  match s with
  | EmptyString => (st, EmptyString)
  | String ch s' =>
    let '(mkscan_state value count point prev invalSep fracOk) := st in
    if decide (ch = "."%char ∧ fracOk = true) then
      scan_digits b (mkscan_state value count (Some count) prev_other
        (invalSep || bool_decide (prev = prev_sep)) false) s'
    else if decide (ch = "_"%char) then
      scan_digits b (mkscan_state value count point prev_sep
        (invalSep || bool_decide (prev ≠ prev_digit)) fracOk) s'
    else
      match digit_of ch with
      | Some d =>
        if decide (d < b) then
          scan_digits b (mkscan_state (value * b + d) (count + 1) point prev_digit invalSep fracOk) s'
        else (st, s)
      | None => (st, s)
      end
  end.

(** The base and prefix letter after a leading zero. *)
Definition base_prefix (ch : ascii) : option Z :=
  if decide (ch = "b"%char ∨ ch = "B"%char) then Some 2
  else if decide (ch = "o"%char ∨ ch = "O"%char) then Some 8
  else if decide (ch = "x"%char ∨ ch = "X"%char) then Some 16
  else None.

(** [nat.scan(r, 0, fracOk)]: the value, its base, the digit count (negative:
    how many follow the radix point) and the unread text; [None] is an error. *)
Definition nat_scan (fracOk : bool) (s : string) : option (Z * Z * Z * string) :=
  let finish (b : Z) (octal : bool) (r : scan_state * string) :=
    let '(st, rest) := r in
    if decide (sc_invalSep st = true ∨ sc_prev st = prev_sep) then None
    else if decide (sc_count st = 0) then
      if octal then Some (0, 10, 1, rest) else None
    else
      let count := match sc_point st with Some dp => dp - sc_count st | None => sc_count st end in
      Some (sc_value st, b, count, rest)
  in
  let init count prev := mkscan_state 0 count None prev false fracOk in
  match s with
  | String "0" s' =>
    match s' with
    | EmptyString => Some (0, 10, 1, EmptyString)
    | String ch s'' =>
      match base_prefix ch with
      | Some b => finish b false (scan_digits b (init 0 prev_digit) s'')
      | None =>
        if fracOk then finish 10 false (scan_digits 10 (init 1 prev_digit) s')
        else finish 8 true (scan_digits 8 (init 0 prev_digit) s')
      end
    end
  | _ => finish 10 false (scan_digits 10 (init 0 prev_other) s)
  end.

(** [scanSign]; [None] at the end of the text. *)
Definition scanSign (s : string) : option (bool * string) :=
  match s with
  | EmptyString => None
  | String "-" s' => Some (true, s')
  | String "+" s' => Some (false, s')
  | _ => Some (false, s)
  end.

(** ** Exponents ([scanExponent], with binary exponents and separators) *)
Record exp_state : Type := mkexp_state {
  ex_value : Z;
  ex_hasDigits : bool;
  ex_prev : prev_char;
  ex_invalSep : bool
}.
Fixpoint scan_exp_digits (st : exp_state) (s : string) : exp_state * string :=
  match s with
  | EmptyString => (st, EmptyString)
  | String ch s' =>
    match digit_value ch with
    | Some d => scan_exp_digits (mkexp_state (ex_value st * 10 + d) true prev_digit (ex_invalSep st)) s'
    | None =>
      if decide (ch = "_"%char) then
        scan_exp_digits (mkexp_state (ex_value st) (ex_hasDigits st) prev_sep
          (ex_invalSep st || bool_decide (ex_prev st ≠ prev_digit))) s'
      else (st, s)
    end
  end.
Definition exp_base (ch : ascii) : option Z :=
  if decide (ch = "e"%char ∨ ch = "E"%char) then Some 10
  else if decide (ch = "p"%char ∨ ch = "P"%char) then Some 2
  else None.
Definition scanExponent (s : string) : option (Z * Z * string) :=
  match s with
  | EmptyString => Some (0, 10, EmptyString)
  | String ch s' =>
    match exp_base ch with
    | None => Some (0, 10, s)
    | Some base =>
      let '(neg, digits) := match s' with
                            | String "-" s'' => (true, s'')
                            | String "+" s'' => (false, s'')
                            | _ => (false, s')
                            end in
      let '(st, rest) := scan_exp_digits (mkexp_state 0 false prev_other false) digits in
      let value := if neg : bool then - ex_value st else ex_value st in
      if decide (ex_hasDigits st = false ∨ ¬ IsInt64 value) then None
      else if decide (ex_invalSep st = true ∨ ex_prev st = prev_sep) then None
      else Some (value, base, rest)
    end
  end.

(** ** [Int.SetString(s, 0)] and the two forms of a rational *)
Definition int_scan (s : string) : option Z :=
  match scanSign s with
  | None => None
  | Some (neg, s') =>
    match nat_scan false s' with
    | Some (v, _, _, EmptyString) => Some (if neg : bool then - v else v)
    | _ => None
    end
  end.

Definition SetString_fraction (a b : string) : option Rat :=
  match int_scan a with
  | None => None
  | Some n =>
    match nat_scan false b with
    | Some (d, _, _, EmptyString) => if decide (d = 0) then None else Some (norm n d)
    | _ => None
    end
  end.

Definition SetString_float (s : string) : option Rat :=
  match scanSign s with
  | None => None
  | Some (neg, s1) =>
    match nat_scan true s1 with
    | None => None
    | Some (mant, base, fcount, s2) =>
      match scanExponent s2 with
      | Some (exp, ebase, EmptyString) =>
        if decide (mant = 0) then Some (mkRat 0 1)
        else
          let exp5 := if decide (fcount < 0 ∧ base = 10) then fcount else 0 in
          let exp2 := if decide (fcount < 0) then
                        fcount * (if decide (base = 8) then 3 else if decide (base = 16) then 4 else 1)
                      else 0 in
          let exp5 := if decide (ebase = 10) then Int64.add exp5 exp else exp5 in
          let exp2 := Int64.add exp2 exp in
          if decide (exp5 = Int64.min_value ∨ 1000000 < Z.abs exp5) then None
          else if decide (exp2 < - 10000000 ∨ 10000000 < exp2) then None
          else
            let a := mant * 5 ^ Z.max exp5 0 * 2 ^ Z.max exp2 0 in
            let b := 5 ^ Z.max (- exp5) 0 * 2 ^ Z.max (- exp2) 0 in
            Some (norm (if neg : bool then - a else a) b)
      | _ => None
      end
    end
  end.

(** [strings.Index(s, "/")] cuts a fraction at its first slash. *)
Fixpoint cut_slash (s : string) : option (string * string) :=
  match s with
  | EmptyString => None
  | String ch s' =>
    if decide (ch = "/"%char) then Some (EmptyString, s')
    else match cut_slash s' with Some (a, b) => Some (String ch a, b) | None => None end
  end.

Definition SetString (s : string) : option Rat :=
  match s with
  | EmptyString => None
  | _ =>
    match cut_slash s with
    | Some (a, b) => SetString_fraction a b
    | None => SetString_float s
    end
  end.

Example SetString_decimal : SetString "-12.50" = Some (mkRat (-25) 2). Proof. reflexivity. Qed.
Example SetString_exponent : SetString "1_000e-3" = Some (mkRat 1 1). Proof. reflexivity. Qed.
Example SetString_hex : SetString "0x1.8p1" = Some (mkRat 3 1). Proof. reflexivity. Qed.
Example SetString_octal : SetString "010/0b11" = Some (mkRat 8 3). Proof. reflexivity. Qed.
Example SetString_decimal_zero : SetString "010" = Some (mkRat 10 1). Proof. reflexivity. Qed.
Example SetString_nan : SetString "NaN" = None. Proof. reflexivity. Qed.
Example SetString_sep : SetString "1__0" = None. Proof. reflexivity. Qed.

(** ** Reading plain decimal text *)
Definition after_digits (s : string) (v : Z) (st : scan_state) : scan_state :=
  mkscan_state v (sc_count st + Z.of_nat (String.length s)) (sc_point st)
    (if decide (s = "") then sc_prev st else prev_digit) (sc_invalSep st) (sc_fracOk st).

Lemma digit_of_decimal c d : digit_value c = Some d → digit_of c = Some d ∧ 0 ≤ d < 10 ∧ c ≠ "."%char ∧ c ≠ "_"%char.
Proof.
  unfold digit_value, digit_of. case_decide as D; [|done]. intros [= <-].
  split_and!; try lia; try done; intros ->; vm_compute in D; destruct D; contradiction.
Qed.

Lemma scan_decimal s rest v st :
  decimal_value (sc_value st) s = Some v →
  scan_digits 10 st (s +:+ rest) = scan_digits 10 (after_digits s v st) rest.
Proof.
  revert st. induction s as [|c s IH]; intros [value count point prev inval frac]; cbn [decimal_value sc_value].
  - intros [= <-]. rewrite append_nil. unfold after_digits. rewrite decide_True by done. simpl. by rewrite Z.add_0_r.
  - destruct (digit_value c) as [d|] eqn:E; [|done]. intros Hv.
    destruct (digit_of_decimal _ _ E) as (Hd & Hr & H1 & H2).
    rewrite append_cons. cbn [scan_digits]. rewrite decide_False by tauto. rewrite decide_False by done.
    rewrite Hd, decide_True by lia. rewrite IH by done. f_equal. unfold after_digits. simpl.
    f_equal; [lia|]. by destruct (decide (s = "")).
Qed.

(** A text of decimal digits is not a base prefix after its first one. *)
Lemma decimal_no_prefix s rest v :
  decimal_value 0 s = Some v → s ≠ "" → (∀ c r, rest = String c r → base_prefix c = None) →
  nat_scan true (s +:+ rest) =
  let '(st, rest') := scan_digits 10 (mkscan_state v (Z.of_nat (String.length s)) None prev_digit false true) rest in
  if decide (sc_invalSep st = true ∨ sc_prev st = prev_sep) then None
  else if decide (sc_count st = 0) then None
  else Some (sc_value st, 10,
    match sc_point st with Some dp => dp - sc_count st | None => sc_count st end, rest').
Proof.
  intros Hv Hne Hrest. destruct s as [|c s]; [done|]. rewrite append_cons.
  assert (∀ count, (count = 0 ∧ sc_value (mkscan_state 0 count None prev_other false true) = 0) →
    scan_digits 10 (mkscan_state 0 count None prev_other false true) (String c (s +:+ rest)) =
    scan_digits 10 (mkscan_state v (Z.of_nat (String.length (String c s))) None prev_digit false true) rest) as Hscan.
  { intros count [-> _]. rewrite <- append_cons, (scan_decimal (String c s) rest v) by done.
    unfold after_digits. by rewrite decide_False. }
  destruct (decide (c = "0"%char)) as [->|Hc].
  - cbn [nat_scan]. specialize (Hscan 0 (conj eq_refl eq_refl)).
    change (scan_digits 10 (mkscan_state 0 1 None prev_digit false true) (s +:+ rest) =
      scan_digits 10 (mkscan_state v (Z.of_nat (String.length (String "0" s))) None prev_digit false true) rest)
      in Hscan.
    destruct s as [|c' s'].
    + rewrite append_nil in *. destruct rest as [|c' r].
      * cbn in Hv. injection Hv as <-. reflexivity.
      * rewrite (Hrest _ _ eq_refl), Hscan. done.
    + rewrite append_cons in *. cbn in Hv. destruct (digit_value c') as [d'|] eqn:E; [|done].
      assert (base_prefix c' = None) as ->.
      { unfold digit_value in E. case_decide as D; [|done]. unfold base_prefix.
        rewrite !decide_False; [done|..]; (intros [->| ->]; vm_compute in D; destruct D; contradiction). }
      rewrite Hscan. done.
  - assert (nat_scan true (String c (s +:+ rest)) =
      (let '(st, rest') := scan_digits 10 (mkscan_state 0 0 None prev_other false true) (String c (s +:+ rest)) in
       if decide (sc_invalSep st = true ∨ sc_prev st = prev_sep) then None
       else if decide (sc_count st = 0) then None
       else Some (sc_value st, 10,
         match sc_point st with Some dp => dp - sc_count st | None => sc_count st end, rest'))) as ->.
    { unfold nat_scan. destruct c as [[] [] [] [] [] [] [] []]; try reflexivity. by destruct Hc. }
    by rewrite Hscan.
Qed.

Lemma decimal_value_acc a s f :
  decimal_value 0 s = Some f → decimal_value a s = Some (a * 10 ^ Z.of_nat (String.length s) + f).
Proof.
  assert (∀ x y, decimal_value y s = Some f →
    decimal_value (x + y) s = Some (x * 10 ^ Z.of_nat (String.length s) + f)) as H.
  { clear a. revert f. induction s as [|c s IH]; intros f x y; cbn [decimal_value String.length].
    - intros [= ->]. f_equal. lia.
    - destruct (digit_value c) as [d|]; [|done]. intros Hf.
      replace ((x + y) * 10 + d) with (x * 10 + (y * 10 + d)) by lia. rewrite (IH f _ _ Hf). f_equal.
      rewrite Nat2Z.inj_succ, Z.pow_succ_r by lia. lia. }
  intros Hf. specialize (H a 0 Hf). by rewrite Z.add_0_r in H.
Qed.

Lemma decimal_value_nonneg acc s v : decimal_value acc s = Some v → 0 ≤ acc → 0 ≤ v.
Proof.
  revert acc. induction s as [|c s IH]; intros acc; cbn [decimal_value]; [by intros [= ->]|].
  destruct (digit_value c) as [d|] eqn:E; [|done]. intros Hv Ha. eapply IH; [done|].
  apply digit_of_decimal in E as (_ & ? & _). lia.
Qed.

(** [sign ++ whole ++ "." ++ fraction], without the point when there is no
    fraction. *)
Definition decimal_text (neg : bool) (whole fraction : string) : string :=
  let unsigned := whole +:+ (if decide (fraction = "") then "" else String "." fraction) in
  if neg then String "-" unsigned else unsigned.

Lemma cut_slash_decimal s v rest :
  decimal_value 0 s = Some v → cut_slash rest = None → cut_slash (s +:+ rest) = None.
Proof.
  generalize 0. intros acc. revert acc. induction s as [|c s IH]; intros acc; cbn [decimal_value].
  { by rewrite append_nil. }
  destruct (digit_value c) as [d|] eqn:E; [|done]. intros Hv Hr. rewrite append_cons. cbn [cut_slash].
  rewrite decide_False by (intros ->; vm_compute in E; done). by rewrite (IH _ Hv Hr).
Qed.

Lemma scanSign_decimal s v rest :
  decimal_value 0 s = Some v → s ≠ "" → scanSign (s +:+ rest) = Some (false, s +:+ rest).
Proof.
  intros Hv Hne. destruct s as [|c s]; [done|]. rewrite append_cons. cbn in Hv.
  destruct (digit_value c) as [d|] eqn:E; [|done].
  destruct c as [[] [] [] [] [] [] [] []]; try reflexivity; vm_compute in E; done.
Qed.

Lemma nat_scan_decimal whole fraction a f :
  decimal_value 0 whole = Some a → whole ≠ "" → decimal_value 0 fraction = Some f →
  nat_scan true (decimal_text false whole fraction) =
  Some (a * 10 ^ Z.of_nat (String.length fraction) + f, 10,
        if decide (fraction = "") then Z.of_nat (String.length whole) else - Z.of_nat (String.length fraction), "").
Proof.
  intros Ha Hne Hf. unfold decimal_text. destruct (decide (fraction = "")) as [->|Hfr].
  - rewrite (decimal_no_prefix whole "" a Ha Hne) by done. cbn in Hf. injection Hf as <-. simpl.
    rewrite decide_False by (destruct whole; [done|simpl; lia]). rewrite Z.mul_1_r. by rewrite Z.add_0_r.
  - rewrite (decimal_no_prefix whole (String "." fraction) a Ha Hne) by (intros c r [= <- <-]; reflexivity).
    cbn [scan_digits]. rewrite decide_True by done.
    rewrite <- (append_nil_r fraction) at 1.
    rewrite (scan_decimal fraction "" (a * 10 ^ Z.of_nat (String.length fraction) + f))
      by (simpl; by apply decimal_value_acc).
    unfold after_digits. rewrite (decide_False (P := fraction = "")) by done.
    cbn [scan_digits sc_invalSep sc_prev sc_count sc_point sc_value].
    rewrite decide_False by naive_solver. rewrite decide_False by (destruct whole; [done|simpl; lia]).
    do 3 f_equal. lia.
Qed.

(** A text of decimal digits with an optional sign and fraction denotes the
    number it spells, exactly. *)
Lemma SetString_decimal_text neg whole fraction a f :
  decimal_value 0 whole = Some a → whole ≠ "" → decimal_value 0 fraction = Some f →
  Z.of_nat (String.length fraction) ≤ 1000000 →
  let k := Z.of_nat (String.length fraction) in
  let v := a * 10 ^ k + f in
  SetString (decimal_text neg whole fraction) = Some (norm (if neg then - v else v) (10 ^ k)).
Proof.
  intros Ha Hne Hf Hlen. cbv zeta. set (k := Z.of_nat (String.length fraction)) in *.
  set (v := a * 10 ^ k + f). set (u := decimal_text false whole fraction).
  assert (decimal_text neg whole fraction = if neg then String "-" u else u) as -> by done.
  assert (cut_slash u = None) as Hcut.
  { apply (cut_slash_decimal _ a); [done|]. case_decide; [done|]. cbn [cut_slash]. rewrite decide_False by done.
    pose proof (cut_slash_decimal fraction f "" Hf eq_refl) as Hc. rewrite append_nil_r in Hc. by rewrite Hc. }
  assert (scanSign u = Some (false, u)) as Hsign by (by apply (scanSign_decimal whole a)).
  assert (u ≠ "") as Hu by (intros Hu; by rewrite Hu in Hsign).
  assert (SetString (if neg then String "-" u else u) = SetString_float (if neg then String "-" u else u)) as ->.
  { destruct neg; unfold SetString.
    - cbn [cut_slash]. rewrite decide_False by done. by rewrite Hcut.
    - destruct u; [done|]. by rewrite Hcut. }
  assert (scanSign (if neg then String "-" u else u) = Some (neg, u)) as Hs by (by destruct neg).
  unfold SetString_float. rewrite Hs. unfold u at 1. rewrite (nat_scan_decimal _ _ a f) by done. fold k v.
  cbn [scanExponent]. destruct (decide (v = 0)) as [->|Hv].
  { unfold norm. rewrite (Z.gcd_comm _ (10 ^ k)). replace (if neg then - 0 else 0) with 0 by (by destruct neg).
    rewrite Z.gcd_0_r, Z.abs_eq, Z.div_same by lia. by rewrite Z.div_0_l by lia. }
  assert (0 ≤ k) by lia.
  assert (∀ c, (if decide (fraction = "") then Z.of_nat (String.length whole) else - k) = c →
    (if decide (c < 0 ∧ 10 = 10) then c else 0) = - k ∧
    (if decide (c < 0) then c * (if decide (10 = 8) then 3 else if decide (10 = 16) then 4 else 1) else 0) = - k) as Hc.
  { intros c <-. destruct (decide (fraction = "")) as [->|Hfr].
    - subst k. simpl. rewrite !decide_False by lia. done.
    - assert (0 < k) by (subst k; destruct fraction; [done|simpl; lia]). rewrite !decide_True by lia.
      rewrite !decide_False by lia. lia. }
  destruct (Hc _ eq_refl) as [H5 H2]. rewrite H5, H2, !(decide_True (P := (10 : Z) = 10)) by done.
  assert (Int64.add (- k) 0 = - k) as ->.
  { unfold Int64.add. rewrite Z.add_0_r. apply Int64.wrap64_id. unfold Int64.in_range, Int64.min_value, Int64.max_value. lia. }
  rewrite decide_False by (unfold Int64.min_value; lia). rewrite decide_False by lia.
  rewrite !(Z.max_r (- k)), !Z.opp_involutive, !Z.max_l, !Z.pow_0_r, !Z.mul_1_r by lia.
  rewrite <- Z.pow_mul_l. change (5 * 2) with 10. by destruct neg.
Qed.

(** ** Facts of rationals in lowest terms *)
Lemma norm_spec a b : 0 < b → 0 < den (norm a b) ∧ num (norm a b) * b = a * den (norm a b).
Proof.
  intros Hb. unfold norm. cbn [num den].
  assert (0 < Z.gcd a b) as Hg.
  { pose proof (Z.gcd_nonneg a b). destruct (decide (Z.gcd a b = 0)) as [Hz|]; [|lia].
    apply Z.gcd_eq_0_r in Hz. lia. }
  destruct (Z.gcd_divide_l a b) as [x Hx], (Z.gcd_divide_r a b) as [y Hy].
  assert (a / Z.gcd a b = x) as -> by (rewrite Hx at 1; apply Z.div_mul; lia).
  assert (b / Z.gcd a b = y) as -> by (rewrite Hy at 1; apply Z.div_mul; lia).
  generalize dependent (Z.gcd a b). intros g Hg -> ->. split; [nia|lia].
Qed.

Lemma norm_den_one a b : 0 < b → den (norm a b) = 1 ↔ (b | a).
Proof.
  intros Hb. unfold norm. cbn [den]. split.
  - intros Hd. destruct (Z.gcd_divide_l a b) as [x Hx], (Z.gcd_divide_r a b) as [y Hy].
    assert (b / Z.gcd a b = y) as Hy'.
    { rewrite Hy at 1. apply Z.div_mul. intros Hz. rewrite Hz in Hy. lia. }
    exists x. rewrite Hx at 1. f_equal. rewrite Hy at 2. nia.
  - intros Hdiv. rewrite (Z.gcd_comm a b), (proj1 (Z.divide_gcd_iff b a ltac:(lia)) Hdiv).
    apply Z.div_same. lia.
Qed.

(** Scaling a rational keeps an integer exactly when the denominator divides. *)
Lemma rat_scale_IsInt a b m :
  0 < b → IsInt (rat_mul (norm a b) (NewRat m 1)) ↔ (b | a * m).
Proof.
  intros Hb. destruct (norm_spec a b Hb) as [Hd Hn]. unfold IsInt, rat_mul, NewRat.
  destruct (norm_spec m 1 ltac:(lia)) as [Hd1 Hn1].
  assert (den (norm m 1) = 1) as Hone by (apply norm_den_one; [lia|apply Z.divide_1_l]).
  rewrite Hone in *. rewrite Z.mul_1_r in Hn1. rewrite Z.mul_1_r in Hn1. rewrite Hn1, Z.mul_1_r.
  rewrite norm_den_one by done. split; intros [q Hq].
  - exists q. apply (Z.mul_reg_r _ _ (den (norm a b))); [lia|].
    replace (a * m * den (norm a b)) with (a * den (norm a b) * m) by ring. rewrite <- Hn.
    replace (num (norm a b) * b * m) with (num (norm a b) * m * b) by ring. rewrite Hq. ring.
  - exists q. apply (Z.mul_reg_r _ _ b); [lia|].
    replace (num (norm a b) * m * b) with (num (norm a b) * b * m) by ring. rewrite Hn.
    replace (a * den (norm a b) * m) with (a * m * den (norm a b)) by ring. rewrite Hq. ring.
Qed.

Lemma rat_scale_num a b m q :
  0 < b → a * m = q * b → IsInt (rat_mul (norm a b) (NewRat m 1)) ∧ num (rat_mul (norm a b) (NewRat m 1)) = q.
Proof.
  intros Hb Hq. assert (IsInt (rat_mul (norm a b) (NewRat m 1))) as Hint by (apply rat_scale_IsInt; [done|by exists q]).
  split; [done|]. unfold IsInt, rat_mul, NewRat in *.
  destruct (norm_spec a b Hb) as [Hd Hn], (norm_spec m 1 ltac:(lia)) as [Hd1 Hn1].
  destruct (norm_spec (num (norm a b) * num (norm m 1)) (den (norm a b) * den (norm m 1)) ltac:(nia)) as [_ H].
  rewrite Hint, Z.mul_1_r in H. rewrite Z.mul_1_r in Hn1.
  apply (Z.mul_reg_r _ _ (den (norm a b) * den (norm m 1) * b)); [nia|].
  rewrite Z.mul_assoc, H, Hn1.
  replace (num (norm a b) * (m * den (norm m 1)) * b) with (num (norm a b) * b * m * den (norm m 1)) by ring.
  rewrite Hn. replace (a * den (norm a b) * m * den (norm m 1)) with (a * m * (den (norm a b) * den (norm m 1))) by ring.
  rewrite Hq. ring.
Qed.

Lemma scan_digits_nonneg b st s : 0 < b → 0 ≤ sc_value st → 0 ≤ sc_value (scan_digits b st s).1.
Proof.
  intros Hb. revert st. induction s as [|c s IH]; intros [value count point prev inval frac]; [done|].
  cbn [scan_digits sc_value]. intros Hv. case_decide; [by apply IH|]. case_decide; [by apply IH|].
  destruct (digit_of c) as [d|] eqn:E; [|done]. case_decide; [|done]. apply IH. cbn [sc_value].
  assert (0 ≤ d); [|nia]. unfold digit_of in E. repeat case_decide; simplify_eq; lia.
Qed.

Lemma nat_scan_nonneg frac s v b c rest : nat_scan frac s = Some (v, b, c, rest) → 0 ≤ v.
Proof.
  assert (∀ b0 octal r, 0 ≤ sc_value r.1 →
    (let '(st, rest) := r in
     if decide (sc_invalSep st = true ∨ sc_prev st = prev_sep) then None
     else if decide (sc_count st = 0) then (if octal : bool then Some (0, 10, 1, rest) else None)
     else Some (sc_value st, b0, match sc_point st with Some dp => dp - sc_count st | None => sc_count st end, rest))
    = Some (v, b, c, rest) → 0 ≤ v) as Hfin.
  { intros b0 octal [st r] Hst. simpl in Hst. repeat case_decide; [done| |by intros [= <- _ _ _]].
    destruct octal; [by intros [= <- _ _ _]|done]. }
  unfold nat_scan. destruct s as [|ch s]; [by apply (Hfin 10 false)|].
  destruct (decide (ch = "0"%char)) as [->|Hch].
  - destruct s as [|ch' s']; [by intros [= <- _ _ _]|]. destruct (base_prefix ch') as [b'|] eqn:E.
    + apply (Hfin b' false), scan_digits_nonneg; [|done]. unfold base_prefix in E. repeat case_decide; simplify_eq; lia.
    + destruct frac; [apply (Hfin 10 false)|apply (Hfin 8 true)]; apply scan_digits_nonneg; done || lia.
  - intros H. apply (Hfin 10 false (scan_digits 10 (mkscan_state 0 0 None prev_other false frac) (String ch s))).
    + apply scan_digits_nonneg; [lia|done].
    + rewrite <- H. destruct ch as [[] [] [] [] [] [] [] []]; try reflexivity. by destruct Hch.
Qed.

(** What is read is a rational: its denominator is positive. *)
Lemma SetString_den s r : SetString s = Some r → 0 < den r.
Proof.
  unfold SetString. destruct s as [|ch s]; [done|]. destruct (cut_slash _) as [[a b]|].
  - unfold SetString_fraction. destruct (int_scan a); [|done].
    destruct (nat_scan false b) as [[[[d b0] c0] rest]|] eqn:E; [|done]. destruct rest; [|done].
    case_decide; [done|]. intros [= <-]. apply nat_scan_nonneg in E. apply norm_spec. lia.
  - unfold SetString_float. destruct (scanSign _) as [[neg s1]|]; [|done].
    destruct (nat_scan true s1) as [[[[mant base] fcount] s2]|]; [|done].
    destruct (scanExponent s2) as [[[exp ebase] rest]|]; [|done]. destruct rest; [|done].
    case_decide; [by intros [= <-]|]. cbv zeta.
    destruct (decide (_ ∨ 1000000 < _)); [done|]. destruct (decide (_ ∨ 10000000 < _)); [done|].
    intros [= <-]. apply norm_spec. apply Z.mul_pos_pos; apply Z.pow_pos_nonneg; lia.
Qed.

Lemma rat_scaled_num r m :
  0 < den r → IsInt (rat_mul r (NewRat m 1)) → num (rat_mul r (NewRat m 1)) * den r = num r * m.
Proof.
  intros Hr Hint. unfold IsInt, rat_mul, NewRat in *.
  destruct (norm_spec m 1 ltac:(lia)) as [Hd1 Hn1].
  assert (den (norm m 1) = 1) as Hone by (apply norm_den_one; [lia|apply Z.divide_1_l]).
  rewrite Hone in *. rewrite !Z.mul_1_r in *. rewrite Hn1 in *.
  destruct (norm_spec (num r * m) (den r) Hr) as [_ H]. rewrite Hint, Z.mul_1_r in H. exact H.
Qed.
