(* ===== verification/GoUrl.v ===== *)
(** * net/url and net, as far as the configuration uses them

    Percent-encoding in the four modes the code meets, [url.URL.String] of a
    URL with credentials, host, path and query, and [net.JoinHostPort] with
    [net.SplitHostPort].  A string is its bytes. *)
From Stdlib Require Import String Ascii.
From stdpp Require Import base numbers decidable option list strings pretty.
From S2P Require Import Prelude GoText.
Open Scope Z_scope.

(** ** Cutting ([strings.Cut] at one byte) *)
Fixpoint Cut (sep : ascii) (s : string) : option (string * string) :=
  match s with
  | EmptyString => None
  | String c r =>
    if decide (c = sep) then Some (EmptyString, r)
    else (λ p, (String c p.1, p.2)) <$> Cut sep r
  end.

Lemma Cut_app sep a b : has_char sep a = false → Cut sep (a +:+ String sep b) = Some (a, b).
Proof.
  induction a as [|c a IH]; cbn [has_char]; [intros _; rewrite append_nil; cbn [Cut]; by rewrite decide_True|].
  intros [Hc%bool_decide_eq_false Ha]%orb_false_iff. rewrite append_cons. cbn [Cut].
  rewrite decide_False by (intros ->; done). by rewrite (IH Ha).
Qed.
Lemma Cut_None sep s : has_char sep s = false → Cut sep s = None.
Proof.
  induction s as [|c s IH]; cbn [has_char]; [done|]. intros [Hc%bool_decide_eq_false Hs]%orb_false_iff.
  cbn [Cut]. rewrite decide_False by (intros ->; done). by rewrite IH.
Qed.
Lemma Cut_Some sep s a b : Cut sep s = Some (a, b) → s = a +:+ String sep b ∧ has_char sep a = false.
Proof.
  revert a. induction s as [|c s IH]; intros a; cbn [Cut]; [done|]. case_decide as Hc; [intros [= <- <-]; by subst|].
  destruct (Cut sep s) as [[a' b']|]; [|done]. intros [= <- <-]. destruct (IH a' eq_refl) as [-> Ha].
  split; [done|]. cbn [has_char]. rewrite Ha, orb_false_r. by apply bool_decide_eq_false.
Qed.

Lemma Cut_total sep s : has_char sep s = true → ∃ a b, Cut sep s = Some (a, b).
Proof.
  induction s as [|c s IH]; [done|]. cbn [has_char Cut]. case_decide as Hc; [by eexists _, _|].
  rewrite bool_decide_eq_false_2 by congruence. intros (a & b & ->)%IH. by eexists _, _.
Qed.

(** ** Percent-encoding *)
Inductive encoding : Type := encodePath | encodeUserPassword | encodeHost | encodeQueryComponent.
#[global] Instance encoding_eq_dec : EqDecision encoding.
Proof. solve_decision. Defined.

Definition between (lo hi : nat) (c : ascii) : bool := bool_decide (lo ≤ nat_of_ascii c ≤ hi)%nat.
Definition alphanumeric (c : ascii) : bool := between 97 122 c || between 65 90 c || between 48 57 c.
(** [net/url.shouldEscape]; 34 is the double quote. *)
Definition shouldEscape (c : ascii) (mode : encoding) : bool :=
  if alphanumeric c then false
  else if bool_decide (mode = encodeHost) && (has_char c "!$&'()*+,;=:[]<>" || between 34 34 c) then false
  else if has_char c "-_.~" then false
  else if has_char c "$&+,/:;=?@" then
    match mode with
    | encodePath => bool_decide (c = "?"%char)
    | encodeUserPassword => has_char c "@/?:"
    | encodeQueryComponent | encodeHost => true
    end
  else true.

Definition upperhex (n : nat) : ascii := ascii_of_nat (if decide (n < 10)%nat then 48 + n else 55 + n).
Definition unhex (c : ascii) : option nat :=
  if between 48 57 c then Some (nat_of_ascii c - 48)%nat
  else if between 97 102 c then Some (nat_of_ascii c - 87)%nat
  else if between 65 70 c then Some (nat_of_ascii c - 55)%nat
  else None.
Definition escape_char (mode : encoding) (c : ascii) : string :=
  if shouldEscape c mode then
    if decide (c = " "%char ∧ mode = encodeQueryComponent) then "+"
    else String "%" (String (upperhex (nat_of_ascii c / 16)) (String (upperhex (nat_of_ascii c mod 16)) EmptyString))
  else String c EmptyString.
Fixpoint escape (mode : encoding) (s : string) : string :=
  match s with EmptyString => EmptyString | String c r => escape_char mode c +:+ escape mode r end.

(** [net/url.unescape].  In a host only bytes outside ASCII may be written with a
    percent sign, and the percent sign itself; and bytes that must be escaped may
    not stand there. *)
Definition host_escape (x : nat) (a b : ascii) : bool :=
  bool_decide (8 ≤ x)%nat || bool_decide (a = "2"%char ∧ b = "5"%char).
Definition host_stands (c : ascii) : bool := bool_decide (128 ≤ nat_of_ascii c)%nat || negb (shouldEscape c encodeHost).
Fixpoint unescape (mode : encoding) (s : string) : option string :=
  match s with
  | EmptyString => Some EmptyString
  | String c r =>
    if decide (c = "%"%char) then
      match r with
      | String a (String b r') =>
        match unhex a, unhex b with
        | Some x, Some y =>
          if decide (mode = encodeHost ∧ host_escape x a b = false) then None
          else String (ascii_of_nat (16 * x + y)) <$> unescape mode r'
        | _, _ => None
        end
      | _ => None
      end
    else if decide (c = "+"%char ∧ mode = encodeQueryComponent) then String " " <$> unescape mode r
    else if decide (mode = encodeHost ∧ host_stands c = false) then None
    else String c <$> unescape mode r
  end.

(** A property of single bytes is checked on all 256. *)
Definition all_bytes : list ascii := ascii_of_nat <$> seq 0 256.
Lemma every_byte (P : ascii → bool) : forallb P all_bytes = true → ∀ c, P c = true.
Proof.
  intros H c. apply (proj1 (forallb_forall P all_bytes) H), list_elem_of_In, list_elem_of_fmap.
  exists (nat_of_ascii c). split; [by rewrite ascii_nat_embedding|]. apply elem_of_seq.
  pose proof (nat_ascii_bounded c). lia.
Qed.

(** What escaping can be undone of: anything, but in a host only the bytes that
    stand there and the percent sign of a zone. *)
Definition readable (mode : encoding) (c : ascii) : bool :=
  negb (bool_decide (mode = encodeHost)) || negb (shouldEscape c encodeHost) || bool_decide (c = "%"%char).
Definition escape_undone (mode : encoding) (c : ascii) : bool :=
  match escape_char mode c with
  | String a EmptyString =>
    if decide (a = "%"%char) then false
    else if decide (a = "+"%char ∧ mode = encodeQueryComponent) then bool_decide (c = " "%char)
    else if decide (mode = encodeHost ∧ host_stands a = false) then false else bool_decide (a = c)
  | String p (String h (String l EmptyString)) =>
    bool_decide (p = "%"%char) &&
    match unhex h, unhex l with
    | Some x, Some y =>
      if decide (mode = encodeHost ∧ host_escape x h l = false) then false else bool_decide (ascii_of_nat (16 * x + y) = c)
    | _, _ => false
    end
  | _ => false
  end.
Lemma escape_undone_all mode c : readable mode c = true → escape_undone mode c = true.
Proof.
  intros Hr. assert (negb (readable mode c) || escape_undone mode c = true) as H; [|by rewrite Hr in H].
  clear Hr. revert c. apply every_byte. destruct mode; vm_compute; reflexivity.
Qed.
Lemma unescape_escape_char mode c r : readable mode c = true →
  unescape mode (escape_char mode c +:+ r) = String c <$> unescape mode r.
Proof.
  intros H%escape_undone_all. unfold escape_undone in H.
  destruct (escape_char mode c) as [|a [|h [|l [|]]]]; try done; rewrite ?append_cons, append_nil; cbn [unescape].
  - case_decide; [done|]. case_decide; [apply bool_decide_eq_true in H; by subst|]. case_decide; [done|].
    apply bool_decide_eq_true in H; by subst.
  - apply andb_true_iff in H as [->%bool_decide_eq_true H]. rewrite decide_True by done.
    destruct (unhex h), (unhex l); try done. case_decide; [done|]. apply bool_decide_eq_true in H. by subst.
Qed.
Definition readable_text (mode : encoding) (s : string) : Prop := Forall (λ c, readable mode c = true) (String.list_ascii_of_string s).
Lemma unescape_escape mode s : readable_text mode s → unescape mode (escape mode s) = Some s.
Proof.
  induction s as [|c s IH]; [done|]. intros [Hc Hs]%Forall_cons. cbn [escape]. by rewrite unescape_escape_char, (IH Hs).
Qed.
Lemma any_readable mode s : mode ≠ encodeHost → readable_text mode s.
Proof. intros Hm. apply Forall_forall. intros c _. unfold readable. by rewrite bool_decide_eq_false_2. Qed.
Lemma readable_app mode s t : readable_text mode s → readable_text mode t → readable_text mode (s +:+ t).
Proof.
  unfold readable_text. intros Hs Ht. induction s as [|c s IH]; [done|]. apply Forall_cons in Hs as [Hc Hs].
  rewrite append_cons. apply Forall_cons. split; [done|by apply IH].
Qed.

Lemma has_char_app c s t : has_char c (s +:+ t) = has_char c s || has_char c t.
Proof. induction s as [|d s IH]; [done|]. rewrite append_cons. cbn [has_char]. by rewrite IH, orb_assoc. Qed.
(** What an escaped text is free of. *)
Definition absent (mode : encoding) (d : ascii) : Prop := ∀ c, has_char d (escape_char mode c) = false.
Lemma escape_absent mode d s : absent mode d → has_char d (escape mode s) = false.
Proof. intros Hd. induction s as [|c s IH]; [done|]. cbn [escape]. by rewrite has_char_app, Hd, IH. Qed.
Lemma absent_check mode d : forallb (λ c, negb (has_char d (escape_char mode c))) all_bytes = true → absent mode d.
Proof. intros H c. apply negb_true_iff, (every_byte _ H). Qed.
Ltac absent := apply absent_check; vm_compute; reflexivity.
Lemma user_absent : absent encodeUserPassword ":" ∧ absent encodeUserPassword "@" ∧ absent encodeUserPassword "/".
Proof. split_and!; absent. Qed.
Lemma host_absent : absent encodeHost "@" ∧ absent encodeHost "/".
Proof. split_and!; absent. Qed.
Lemma path_absent : absent encodePath "?".
Proof. absent. Qed.
(** A path keeps its first byte, or escapes it. *)
Lemma path_relative path : path ≠ "" → HasPrefix path "/" = false →
  escape encodePath path ≠ "" ∧ HasPrefix (escape encodePath path) "/" = false.
Proof.
  destruct path as [|c r]; [done|]. intros _ Hc.
  assert (negb (bool_decide (c = "/"%char)) = true) as Hslash.
  { rewrite negb_true_iff, bool_decide_eq_false. intros ->. by destruct r. }
  pose (P := λ c, bool_decide (c = "/"%char) ||
    match escape_char encodePath c with EmptyString => false | String a _ => negb (bool_decide (a = "/"%char)) end).
  assert (P c = true) as HP by (revert c Hc Hslash; intros; apply every_byte; vm_compute; reflexivity).
  unfold P in HP. apply negb_true_iff in Hslash. rewrite Hslash in HP. cbn [orb] in HP. cbn [escape].
  destruct (escape_char encodePath c) as [|a t]; [done|]. apply negb_true_iff, bool_decide_eq_false in HP.
  rewrite append_cons. split; [done|]. unfold HasPrefix. rewrite bool_decide_eq_false. cbn [GoStrings.strip].
  rewrite decide_False by congruence. by intros [].
Qed.

(** ** Hosts and ports *)
Definition JoinHostPort (host port : string) : string :=
  if has_char ":" host then "[" +:+ host +:+ "]:" +:+ port else host +:+ ":" +:+ port.
(** [net.SplitHostPort]; the error texts are left out. *)
Definition SplitHostPort (hostport : string) : option (string * string) :=
  match GoStrings.strip "[" hostport with
  | Some inner =>
    match Cut "]" inner with
    | Some (host, rest) =>
      match GoStrings.strip ":" rest with
      | Some port =>
        if has_char ":" port || has_char "[" inner || has_char "]" port then None else Some (host, port)
      | None => None
      end
    | None => None
    end
  | None =>
    match Cut ":" hostport with
    | Some (host, port) =>
      if has_char ":" port || has_char "[" hostport || has_char "]" hostport then None else Some (host, port)
    | None => None
    end
  end.

Definition clean_host (host : string) : Prop := has_char "[" host = false ∧ has_char "]" host = false.
Definition clean_port (port : string) : Prop :=
  has_char ":" port = false ∧ has_char "[" port = false ∧ has_char "]" port = false.
Lemma strip_absent c s : has_char c s = false → GoStrings.strip (String c EmptyString) s = None.
Proof. destruct s as [|d s]; cbn; [done|]. intros [Hd%bool_decide_eq_false _]%orb_false_iff. by rewrite decide_False by congruence. Qed.
Lemma SplitHostPort_Join host port : clean_host host → clean_port port →
  SplitHostPort (JoinHostPort host port) = Some (host, port).
Proof.
  intros [Ho Hc] (P1 & P2 & P3). unfold JoinHostPort. destruct (has_char ":" host) eqn:Hh.
  - unfold SplitHostPort. rewrite strip_app. change ("]:" +:+ port) with (String "]" (":" +:+ port)).
    rewrite Cut_app, strip_app by done. rewrite P1, P3, append_cons, append_nil, has_char_app, Ho.
    cbn [has_char]. by rewrite P2.
  - unfold SplitHostPort. change (":" +:+ port) with (String ":" port). rewrite strip_absent.
    + rewrite Cut_app, P1 by done. rewrite !has_char_app, Ho, Hc. cbn [has_char]. by rewrite P2, P3.
    + rewrite has_char_app, Ho. cbn [has_char]. by rewrite P2.
Qed.

(** ** URLs with credentials ([url.URL.String]) *)
Definition EscapedPath (path : string) : string := if decide (path = "*") then "*" else escape encodePath path.
Definition url_text (scheme user password host path rawQuery : string) : string :=
  let escaped := EscapedPath path in
  scheme +:+ "://" +:+ escape encodeUserPassword user +:+ ":" +:+ escape encodeUserPassword password +:+ "@" +:+
  escape encodeHost host +:+
  (if decide (escaped ≠ "" ∧ HasPrefix escaped "/" = false ∧ host ≠ "") then "/" +:+ escaped else escaped) +:+
  (if decide (rawQuery ≠ "") then "?" +:+ rawQuery else "").

Record url_parts : Type := mkurl_parts {
  up_user : string; up_password : string; up_host : string; up_path : string; up_query : string
}.
(** RFC 3986 read backwards: authority up to the first slash, user information
    up to the at sign, query after the question mark. *)
Definition read_url (scheme s : string) : option url_parts :=
  rest ← GoStrings.strip (scheme +:+ "://") s;
  '(authority, tail) ← Cut "/" rest;
  '(userinfo, hostport) ← Cut "@" authority;
  '(user, password) ← Cut ":" userinfo;
  '(path, query) ← Cut "?" tail;
  user' ← unescape encodeUserPassword user;
  password' ← unescape encodeUserPassword password;
  host ← unescape encodeHost hostport;
  path' ← unescape encodePath path;
  Some (mkurl_parts user' password' host path' query).

Lemma append_assoc (a b c : string) : (a +:+ b) +:+ c = a +:+ (b +:+ c).
Proof. induction a as [|x a IH]; [done|]. rewrite !append_cons. by rewrite IH. Qed.
Lemma EscapedPath_read path : path ≠ "" → HasPrefix path "/" = false →
  (EscapedPath path ≠ "" ∧ HasPrefix (EscapedPath path) "/" = false) ∧ has_char "?" (EscapedPath path) = false ∧
  unescape encodePath (EscapedPath path) = Some path.
Proof.
  intros Hp Hs. unfold EscapedPath. case_decide as Hstar; [by subst|].
  split; [by apply path_relative|]. split; [by apply escape_absent, path_absent|]. by apply unescape_escape, any_readable.
Qed.
Lemma url_text_read scheme user password host path query :
  host ≠ "" → readable_text encodeHost host → path ≠ "" → HasPrefix path "/" = false → query ≠ "" →
  read_url scheme (url_text scheme user password host path query) = Some (mkurl_parts user password host path query).
Proof.
  intros Hh Hr Hp Hs Hq. destruct user_absent as (U1 & U2 & U3), host_absent as [H1 H2].
  destruct (EscapedPath_read path Hp Hs) as ([Hne Hns] & Hquery & Hpath).
  unfold url_text. rewrite decide_True by done. rewrite decide_True by done.
  set (ui := escape encodeUserPassword user +:+ ":" +:+ escape encodeUserPassword password).
  set (tail := EscapedPath path +:+ "?" +:+ query).
  assert (scheme +:+ "://" +:+ escape encodeUserPassword user +:+ ":" +:+ escape encodeUserPassword password +:+ "@" +:+
    escape encodeHost host +:+ ("/" +:+ EscapedPath path) +:+ "?" +:+ query =
    (scheme +:+ "://") +:+ ((ui +:+ String "@" (escape encodeHost host)) +:+ String "/" tail)) as ->.
  { unfold ui, tail. rewrite !append_assoc. done. }
  unfold read_url. rewrite strip_app. cbn [mbind option_bind].
  assert (has_char "@" ui = false ∧ has_char "/" ui = false) as [Hat Hsl].
  { unfold ui. rewrite !has_char_app, !escape_absent by done. done. }
  rewrite Cut_app by (rewrite has_char_app, Hsl; cbn [has_char]; by rewrite escape_absent). cbn [mbind option_bind].
  rewrite Cut_app by done. unfold ui, tail. cbn [mbind option_bind].
  change (":" +:+ escape encodeUserPassword password) with (String ":" (escape encodeUserPassword password)).
  change ("?" +:+ query) with (String "?" query).
  rewrite (Cut_app ":") by (by apply escape_absent). cbn [mbind option_bind].
  rewrite (Cut_app "?") by done. cbn [mbind option_bind]. rewrite Hpath, !unescape_escape by (done || by apply any_readable).
  done.
Qed.
