(* ===== verification/Config.v ===== *)
(** * Configuration

    internal/config/config.go: the process environment and a local .env file
    read into a validated [Config], and the database URLs built from it (also
    the one of internal/store/postgres.go).  [url.Parse] is the class [UrlLib]:
    the four parts of its answer the code looks at. *)
From Stdlib Require Import String Ascii.
From stdpp Require Import base numbers decidable option list strings gmap pretty.
From S2P Require Import Prelude GoText GoUrl.
Open Scope Z_scope.

(** ** Text *)
(** [strings.Trim s cutset], the cutset being ASCII. *)
Fixpoint drop_chars (cutset s : string) : string :=
  match s with
  | EmptyString => EmptyString
  | String c r => if has_char c cutset then drop_chars cutset r else s
  end.
Definition Trim (s cutset : string) : string :=
  GoStrings.reverse (drop_chars cutset (GoStrings.reverse (drop_chars cutset s))).
Definition newline : ascii := ascii_of_nat 10.
Definition quotes : string := String (ascii_of_nat 34) "'".
Definition blank (s : string) : bool := bool_decide (GoStrings.TrimSpace s = "").

(** What [url.Parse] says of a text; [None] when it fails. *)
Record parsed_url : Type := mkparsed_url {
  pu_Scheme : string;
  pu_Host : string;
  pu_User : bool;          (* User != nil *)
  pu_Path : string;
  pu_Fragment : string
}.
Class UrlLib : Type := { url_Parse : string → option parsed_url }.

(** ** Fallible steps *)
Definition fallible (A : Type) : Type := result A.
#[global] Instance fallible_ret : MRet fallible := λ A a, inl a.
#[global] Instance fallible_bind : MBind fallible := λ A B k c, match c with inl a => k a | inr e => inr e end.
Definition Errorf {A} (message : string) : fallible A := inr (ErrOther message).
Definition check (ok : bool) (message : string) : fallible () := if ok then mret () else Errorf message.

(** ** Settings *)
Record Config : Type := mkConfig {
  cfg_Environment : string;
  cfg_RESTHost : string;
  cfg_RESTPort : string;
  cfg_OCPPListenPort : Z;
  cfg_OCPPListenPath : string;
  cfg_OCPPHeartbeatIntervalSeconds : Z;
  cfg_OCPPMeterSampleIntervalSeconds : Z;
  cfg_OCPPConfigurationReconcileTimeoutSeconds : Z;
  cfg_OCPPVendorConfigurationProfile : string;
  cfg_OCPPVendorConfigurationVendor : string;
  cfg_LogLevel : Z;                         (* slog.Level *)
  cfg_DatabaseURL : string;
  cfg_DBName : string;
  cfg_DBUser : string;
  cfg_DBPassword : string;
  cfg_DBHost : string;
  cfg_DBPort : Z;
  cfg_DBSSLMode : string;
  cfg_V1CMSBearerToken : string;
  cfg_V1FactDeliveryEnabled : bool;
  cfg_V1CMSFactsURL : string;
  cfg_V1CMSFactsBearerToken : string;
  cfg_V1TraceDeliveryEnabled : bool;
  cfg_V1CMSTraceURL : string;
  cfg_V1CMSTraceBearerToken : string;
  cfg_V1TraceRetentionDays : Z;
  cfg_V1TraceRetentionIntervalSeconds : Z;
  cfg_MigrationApplicationRole : string;
  cfg_APIDocsEnabled : bool
}.

Definition defaultEnvironment : string := "development".
Definition defaultRESTHost : string := "127.0.0.1".
Definition defaultRESTPort : string := "18080".
Definition defaultOCPPListenPort : Z := 18081.
Definition defaultOCPPListenPath : string := "/{ws:.*}".
Definition defaultHeartbeatIntervalSeconds : Z := 300.
Definition defaultMeterSampleIntervalSeconds : Z := 15.
Definition defaultConfigurationReconcileTimeoutSeconds : Z := 20.
Definition defaultDBHost : string := "127.0.0.1".
Definition defaultDBPort : Z := 5432.
Definition defaultDBSSLMode : string := "disable".

Abbreviation settings_map := (gmap string string).
Definition value (values : settings_map) (key fallback : string) : string :=
  match values !! key with Some raw => GoStrings.TrimSpace raw | None => fallback end.

Definition parseEnvironment (raw : string) : fallible string :=
  let parsed := ToLower (GoStrings.TrimSpace raw) in
  if decide (parsed ∈ ["development"; "test"; "production"]) then mret parsed
  else Errorf ("invalid HAL_ENVIRONMENT: " +:+ raw +:+ " (supported: development, test, production)").
Definition parseBoundedInt (key raw : string) (minimum maximum : Z) : fallible Z :=
  match Atoi (GoStrings.TrimSpace raw) with
  | Some parsed =>
    if decide (parsed < minimum ∨ maximum < parsed)
    then Errorf ("invalid " +:+ key +:+ ": must be an integer between " +:+ Itoa minimum +:+ " and " +:+ Itoa maximum)
    else mret parsed
  | None => Errorf ("invalid " +:+ key +:+ ": must be an integer between " +:+ Itoa minimum +:+ " and " +:+ Itoa maximum)
  end.
Definition parsePort (key raw : string) : fallible string :=
  port ← parseBoundedInt key raw 1 65535; mret (Itoa port).
(** [strconv.ParseBool] *)
Definition ParseBool (s : string) : option bool :=
  if decide (s ∈ ["1"; "t"; "T"; "true"; "TRUE"; "True"]) then Some true
  else if decide (s ∈ ["0"; "f"; "F"; "false"; "FALSE"; "False"]) then Some false
  else None.
Definition parseBool (key raw : string) : fallible bool :=
  match ParseBool (GoStrings.TrimSpace raw) with
  | Some parsed => mret parsed
  | None => Errorf ("invalid " +:+ key +:+ ": must be true or false")
  end.
Definition parseLogLevel (raw : string) : fallible Z :=
  let level := ToLower (GoStrings.TrimSpace raw) in
  if decide (level = "debug") then mret (-4)
  else if decide (level = "info") then mret 0
  else if decide (level ∈ ["warn"; "warning"]) then mret 4
  else if decide (level = "error") then mret 8
  else Errorf ("invalid LOG_LEVEL: " +:+ raw +:+ " (supported: debug, info, warn, error)").

Section urls.
Context `{UrlLib}.
Definition validateHTTPURL (key raw : string) : fallible () :=
  check (match url_Parse (GoStrings.TrimSpace raw) with
         | Some parsed =>
           bool_decide (pu_Host parsed ≠ "" ∧ pu_Scheme parsed ∈ ["http"; "https"] ∧ pu_User parsed = false ∧
             pu_Fragment parsed = "")
         | None => false
         end)
    ("invalid " +:+ key +:+ ": must be an absolute http or https URL without credentials or fragment").
Definition validatePostgresURL (raw : string) : fallible () :=
  check (match url_Parse (GoStrings.TrimSpace raw) with
         | Some parsed =>
           bool_decide (pu_Scheme parsed ∈ ["postgres"; "postgresql"] ∧ pu_Host parsed ≠ "" ∧ Trim (pu_Path parsed) "/" ≠ "")
         | None => false
         end)
    "invalid DATABASE_URL: must be an absolute postgres URL".

(** [Config.validate], in the order of its checks. *)
Definition validate_delivery (enabled : bool) (url_key url token message : string) : fallible () :=
  if enabled then validateHTTPURL url_key url;; check (negb (blank token)) message else mret ().
Definition validate (c : Config) : fallible () :=
  check (negb (blank (cfg_RESTHost c))) "invalid F_SERVER_HOST: must not be empty";;
  check (HasPrefix (cfg_OCPPListenPath c) "/") "invalid OCPP_LISTEN_PATH: must start with /";;
  check (negb (blank (cfg_V1CMSBearerToken c))) "HAL_V1_CMS_BEARER_TOKEN is required";;
  validate_delivery (cfg_V1FactDeliveryEnabled c) "HAL_V1_CMS_FACTS_URL" (cfg_V1CMSFactsURL c) (cfg_V1CMSFactsBearerToken c)
    "HAL_V1_CMS_FACT_BEARER_TOKEN is required when HAL_V1_FACT_DELIVERY_ENABLED=true";;
  validate_delivery (cfg_V1TraceDeliveryEnabled c) "HAL_V1_CMS_TRACE_URL" (cfg_V1CMSTraceURL c) (cfg_V1CMSTraceBearerToken c)
    "HAL_V1_CMS_TRACE_BEARER_TOKEN is required when HAL_V1_TRACE_DELIVERY_ENABLED=true";;
  (if blank (cfg_DatabaseURL c)
   then check (negb (blank (cfg_DBName c) || blank (cfg_DBUser c) || blank (cfg_DBPassword c) || blank (cfg_DBHost c)))
          "DATABASE_URL or DB_NAME, DB_USER, DB_PASSWORD, and DB_HOST are required"
   else validatePostgresURL (cfg_DatabaseURL c));;
  check (bool_decide (cfg_DBSSLMode c ∈ ["disable"; "allow"; "prefer"; "require"; "verify-ca"; "verify-full"]))
    ("invalid DB_SSLMODE: " +:+ cfg_DBSSLMode c).

Definition parse (values : settings_map) : fallible Config :=
  environment ← parseEnvironment (value values "HAL_ENVIRONMENT" defaultEnvironment);
  restPort ← parsePort "F_SERVER_PORT" (value values "F_SERVER_PORT" defaultRESTPort);
  ocppPortString ← parsePort "OCPP_LISTEN_PORT" (value values "OCPP_LISTEN_PORT" (Itoa defaultOCPPListenPort));
  let ocppPort := default 0 (Atoi ocppPortString) in
  heartbeat ← parseBoundedInt "OCPP_HEARTBEAT_INTERVAL_SECONDS"
    (value values "OCPP_HEARTBEAT_INTERVAL_SECONDS" (Itoa defaultHeartbeatIntervalSeconds)) 1 86400;
  meterSampleInterval ← parseBoundedInt "OCPP_METER_VALUE_SAMPLE_INTERVAL_SECONDS"
    (value values "OCPP_METER_VALUE_SAMPLE_INTERVAL_SECONDS" (Itoa defaultMeterSampleIntervalSeconds)) 1 3600;
  reconcileTimeout ← parseBoundedInt "OCPP_CONFIGURATION_RECONCILE_TIMEOUT_SECONDS"
    (value values "OCPP_CONFIGURATION_RECONCILE_TIMEOUT_SECONDS" (Itoa defaultConfigurationReconcileTimeoutSeconds)) 1 120;
  traceRetentionDays ← parseBoundedInt "HAL_V1_TRACE_RETENTION_DAYS" (value values "HAL_V1_TRACE_RETENTION_DAYS" "30") 1 3650;
  traceRetentionInterval ← parseBoundedInt "HAL_V1_TRACE_RETENTION_INTERVAL_SECONDS"
    (value values "HAL_V1_TRACE_RETENTION_INTERVAL_SECONDS" "3600") 60 86400;
  let vendorProfile := GoStrings.TrimSpace (value values "OCPP_VENDOR_CONFIGURATION_PROFILE" "") in
  check (bool_decide (vendorProfile ∈ [""; "legacy-remote-only"]))
    ("invalid OCPP_VENDOR_CONFIGURATION_PROFILE: " +:+ vendorProfile);;
  let vendorProfileVendor := GoStrings.TrimSpace (value values "OCPP_VENDOR_CONFIGURATION_VENDOR" "") in
  check (bool_decide (vendorProfile = "" ∨ vendorProfileVendor ≠ ""))
    "OCPP_VENDOR_CONFIGURATION_VENDOR is required when OCPP_VENDOR_CONFIGURATION_PROFILE is set";;
  dbPortString ← parsePort "DB_PORT" (value values "DB_PORT" (Itoa defaultDBPort));
  let dbPort := default 0 (Atoi dbPortString) in
  factDelivery ← parseBool "HAL_V1_FACT_DELIVERY_ENABLED" (value values "HAL_V1_FACT_DELIVERY_ENABLED" "false");
  traceDelivery ← parseBool "HAL_V1_TRACE_DELIVERY_ENABLED" (value values "HAL_V1_TRACE_DELIVERY_ENABLED" "false");
  docsEnabled ← parseBool "API_DOCS_ENABLED" (value values "API_DOCS_ENABLED" "false");
  level ← parseLogLevel (value values "LOG_LEVEL" "info");
  let cfg := mkConfig environment (value values "F_SERVER_HOST" defaultRESTHost) restPort ocppPort
    (value values "OCPP_LISTEN_PATH" defaultOCPPListenPath) heartbeat meterSampleInterval reconcileTimeout
    vendorProfile vendorProfileVendor level (value values "DATABASE_URL" "") (value values "DB_NAME" "")
    (value values "DB_USER" "") (value values "DB_PASSWORD" "") (value values "DB_HOST" defaultDBHost) dbPort
    (value values "DB_SSLMODE" defaultDBSSLMode) (value values "HAL_V1_CMS_BEARER_TOKEN" "") factDelivery
    (value values "HAL_V1_CMS_FACTS_URL" "") (value values "HAL_V1_CMS_FACT_BEARER_TOKEN" "") traceDelivery
    (value values "HAL_V1_CMS_TRACE_URL" "") (value values "HAL_V1_CMS_TRACE_BEARER_TOKEN" "") traceRetentionDays
    traceRetentionInterval (GoStrings.TrimSpace (value values "HAL_MIGRATION_APPLICATION_ROLE" "")) docsEnabled in
  validate cfg;; mret cfg.

(** ** Sources *)
Inductive file_read : Type :=
  | NotExist
  | ReadFailed (e : go_error)
  | Contents (data : string).

(** One line of the file, by its number: the entry it adds, or nothing. *)
Definition read_line (number : Z) (line : string) : fallible (option (string * string)) :=
  let line := GoStrings.TrimSpace line in
  if decide (line = "" ∨ HasPrefix line "#" = true) then mret None
  else
    match Cut "=" line with
    | Some (key, raw) =>
      if decide (GoStrings.TrimSpace key = "") then Errorf ("invalid local .env line " +:+ Itoa number)
      else mret (Some (GoStrings.TrimSpace key, Trim (GoStrings.TrimSpace raw) quotes))
    | None => Errorf ("invalid local .env line " +:+ Itoa number)
    end.
Fixpoint read_lines (number : Z) (lines : list string) (values : settings_map) : fallible settings_map :=
  match lines with
  | [] => mret values
  | line :: rest =>
    entry ← read_line number line;
    read_lines (number + 1) rest (match entry with Some (key, raw) => <[key := raw]> values | None => values end)
  end.
Definition readLocalEnv (file : file_read) : fallible settings_map :=
  match file with
  | NotExist => mret ∅
  | ReadFailed e => inr e
  | Contents data => read_lines 1 (Split newline data) ∅
  end.

(** [os.Environ()] as a map; the last of two entries for a key counts. *)
Definition process_values (environ : list string) : settings_map :=
  fold_left (λ values pair, match Cut "=" pair with Some (key, raw) => <[key := raw]> values | None => values end)
    environ ∅.
(** The entries of the file the process leaves undecided. *)
Definition local_defaults (values local : settings_map) : settings_map :=
  values ∪ delete "HAL_ENVIRONMENT" local.
Definition loadValues (environ : list string) (file : file_read) : fallible settings_map :=
  let values := process_values environ in
  production ← match values !! "HAL_ENVIRONMENT" with
               | Some raw => environment ← parseEnvironment raw; mret (bool_decide (environment = "production"))
               | None => mret false
               end;
  if production : bool then mret values
  else local ← readLocalEnv file; mret (local_defaults values local).
Definition Load (environ : list string) (file : file_read) : fallible Config :=
  values ← loadValues environ file; parse values.
End urls.

(** ** Addresses *)
Definition PostgresURL (c : Config) : string :=
  if blank (cfg_DatabaseURL c) then
    url_text "postgres" (cfg_DBUser c) (cfg_DBPassword c) (JoinHostPort (cfg_DBHost c) (Itoa (cfg_DBPort c)))
      (cfg_DBName c) ("sslmode=" +:+ escape encodeQueryComponent (cfg_DBSSLMode c))
  else GoStrings.TrimSpace (cfg_DatabaseURL c).
(** internal/store's own version, of the parts alone. *)
Definition postgresURL (c : Config) : string :=
  url_text "postgres" (cfg_DBUser c) (cfg_DBPassword c) (cfg_DBHost c +:+ ":" +:+ Itoa (cfg_DBPort c))
    (cfg_DBName c) ("sslmode=" +:+ escape encodeQueryComponent (cfg_DBSSLMode c)).
Definition RESTListenAddr (c : Config) : string := JoinHostPort (cfg_RESTHost c) (cfg_RESTPort c).
Definition HasDatabase (c : Config) : bool :=
  negb (blank (cfg_DatabaseURL c)) ||
  (negb (blank (cfg_DBName c)) && negb (blank (cfg_DBUser c)) && negb (blank (cfg_DBHost c)) &&
   bool_decide (0 < cfg_DBPort c)).

(** ** What is accepted *)
Section acceptance.
Context `{HL : UrlLib}.

Lemma fallible_bind_inl {A B} (c : fallible A) (k : A → fallible B) b : (c ≫= k) = inl b ↔ ∃ a, c = inl a ∧ k a = inl b.
Proof. destruct c as [a|e]; cbn; [naive_solver|]. split; [done|]. by intros (? & ? & ?). Qed.
Lemma check_inl ok message (u : ()) : check ok message = inl u ↔ ok = true.
Proof. destruct u, ok; done. Qed.
Lemma parseBoundedInt_inl key raw lo hi n :
  parseBoundedInt key raw lo hi = inl n ↔ Atoi (GoStrings.TrimSpace raw) = Some n ∧ lo ≤ n ≤ hi.
Proof.
  unfold parseBoundedInt. destruct (Atoi _) as [p|]; [|naive_solver]. case_decide as Hd.
  - split; [done|]. intros [[= ->] ?]. lia.
  - split; [intros [= ->]; split; [done|lia]|]. by intros [[= ->] _].
Qed.
Lemma parsePort_inl key raw s :
  parsePort key raw = inl s ↔ ∃ n, Atoi (GoStrings.TrimSpace raw) = Some n ∧ 1 ≤ n ≤ 65535 ∧ s = Itoa n.
Proof.
  unfold parsePort. rewrite fallible_bind_inl. setoid_rewrite parseBoundedInt_inl.
  split; [intros (n & [? ?] & [= <-])|intros (n & ? & ? & ->)]; by exists n.
Qed.
Lemma port_value n : 1 ≤ n ≤ 65535 → default 0 (Atoi (Itoa n)) = n.
Proof. intros Hn. rewrite Atoi_Itoa; [done|]. unfold Int64.in_range, Int64.min_value, Int64.max_value. lia. Qed.

(** A setting is a key, its default and what a value must satisfy. *)
Definition accepts {A} (p : fallible A) : bool := match p with inl _ => true | inr _ => false end.
Definition bounded (minimum maximum : Z) (raw : string) : bool := accepts (parseBoundedInt "" raw minimum maximum).
Definition settings : list (string * string * (string → bool)) :=
  [("HAL_ENVIRONMENT", defaultEnvironment, λ raw, accepts (parseEnvironment raw));
   ("F_SERVER_PORT", defaultRESTPort, bounded 1 65535);
   ("OCPP_LISTEN_PORT", Itoa defaultOCPPListenPort, bounded 1 65535);
   ("OCPP_HEARTBEAT_INTERVAL_SECONDS", Itoa defaultHeartbeatIntervalSeconds, bounded 1 86400);
   ("OCPP_METER_VALUE_SAMPLE_INTERVAL_SECONDS", Itoa defaultMeterSampleIntervalSeconds, bounded 1 3600);
   ("OCPP_CONFIGURATION_RECONCILE_TIMEOUT_SECONDS", Itoa defaultConfigurationReconcileTimeoutSeconds, bounded 1 120);
   ("HAL_V1_TRACE_RETENTION_DAYS", "30", bounded 1 3650);
   ("HAL_V1_TRACE_RETENTION_INTERVAL_SECONDS", "3600", bounded 60 86400);
   ("OCPP_VENDOR_CONFIGURATION_PROFILE", "", λ raw, bool_decide (GoStrings.TrimSpace raw ∈ [""; "legacy-remote-only"]));
   ("DB_PORT", Itoa defaultDBPort, bounded 1 65535);
   ("HAL_V1_FACT_DELIVERY_ENABLED", "false", λ raw, accepts (parseBool "" raw));
   ("HAL_V1_TRACE_DELIVERY_ENABLED", "false", λ raw, accepts (parseBool "" raw));
   ("API_DOCS_ENABLED", "false", λ raw, accepts (parseBool "" raw));
   ("LOG_LEVEL", "info", λ raw, accepts (parseLogLevel raw));
   ("F_SERVER_HOST", defaultRESTHost, λ raw, negb (blank raw));
   ("OCPP_LISTEN_PATH", defaultOCPPListenPath, λ raw, HasPrefix raw "/");
   ("DB_SSLMODE", defaultDBSSLMode,
    λ raw, bool_decide (raw ∈ ["disable"; "allow"; "prefer"; "require"; "verify-ca"; "verify-full"]))].
(** Every supplied setting is valid, whatever the others are. *)
Definition supplied_valid (values : settings_map) : Prop :=
  Forall (λ s, ∀ raw, values !! s.1.1 = Some raw → s.2 (GoStrings.TrimSpace raw) = true) settings.
(** What must be there. *)
Definition delivery_ready (values : settings_map) (enabled url token : string) : Prop :=
  ParseBool (GoStrings.TrimSpace (value values enabled "false")) = Some true →
  accepts (validateHTTPURL "" (value values url "")) = true ∧ blank (value values token "") = false.
Definition required_present (values : settings_map) : Prop :=
  blank (value values "HAL_V1_CMS_BEARER_TOKEN" "") = false ∧
  (GoStrings.TrimSpace (value values "OCPP_VENDOR_CONFIGURATION_PROFILE" "") ≠ "" →
   blank (value values "OCPP_VENDOR_CONFIGURATION_VENDOR" "") = false) ∧
  delivery_ready values "HAL_V1_FACT_DELIVERY_ENABLED" "HAL_V1_CMS_FACTS_URL" "HAL_V1_CMS_FACT_BEARER_TOKEN" ∧
  delivery_ready values "HAL_V1_TRACE_DELIVERY_ENABLED" "HAL_V1_CMS_TRACE_URL" "HAL_V1_CMS_TRACE_BEARER_TOKEN" ∧
  (if blank (value values "DATABASE_URL" "")
   then Forall (λ s, blank (value values s.1 s.2) = false)
          [("DB_NAME", ""); ("DB_USER", ""); ("DB_PASSWORD", ""); ("DB_HOST", defaultDBHost)]
   else accepts (validatePostgresURL (value values "DATABASE_URL" "")) = true).

Lemma setting_value values key fallback (ok : string → bool) : ok fallback = true →
  ok (value values key fallback) = true ↔ ∀ raw, values !! key = Some raw → ok (GoStrings.TrimSpace raw) = true.
Proof. unfold value. intros Hd. destruct (values !! key); naive_solver. Qed.
Lemma defaults_valid : Forall (λ s, s.2 s.1.2 = true) settings.
Proof. repeat constructor; vm_compute; reflexivity. Qed.
(** So supplied and defaulted settings can be looked at together. *)
Lemma supplied_valid_iff values : supplied_valid values ↔ Forall (λ s, s.2 (value values s.1.1 s.1.2) = true) settings.
Proof.
  unfold supplied_valid. pose proof defaults_valid as Hd. rewrite !Forall_forall in *.
  split; intros H s Hs; [apply setting_value; [by apply Hd|by apply H]|].
  apply (setting_value values s.1.1 s.1.2 s.2); [by apply Hd|by apply H].
Qed.

Lemma accepts_iff {A} (p : fallible A) : accepts p = true ↔ ∃ a, p = inl a.
Proof. destruct p; naive_solver. Qed.
Lemma bounded_iff lo hi key raw : bounded lo hi raw = true ↔ ∃ n, parseBoundedInt key raw lo hi = inl n.
Proof. unfold bounded. rewrite accepts_iff. setoid_rewrite parseBoundedInt_inl. done. Qed.
Lemma port_iff key raw : bounded 1 65535 raw = true ↔ ∃ s, parsePort key raw = inl s.
Proof.
  rewrite (bounded_iff _ _ ""). setoid_rewrite parseBoundedInt_inl. setoid_rewrite parsePort_inl. naive_solver.
Qed.
Lemma bool_iff key raw : accepts (parseBool "" raw) = true ↔ ∃ b, parseBool key raw = inl b.
Proof. unfold parseBool. destruct (ParseBool _) as [b|]; cbn; split; [by exists b|done..|by intros [b ?]]. Qed.
Lemma bool_value key raw b : parseBool key raw = inl b ↔ ParseBool (GoStrings.TrimSpace raw) = Some b.
Proof. unfold parseBool. destruct (ParseBool _) as [b'|]; split; try done; by intros [= ->]. Qed.
Lemma delivery_iff values enabled url_key url token message b :
  parseBool enabled (value values enabled "false") = inl b →
  validate_delivery b url_key (value values url "") (value values token "") message = mret () ↔
  delivery_ready values enabled url token.
Proof.
  rewrite bool_value. unfold delivery_ready. intros ->. unfold validate_delivery. destruct b; [|naive_solver].
  unfold validateHTTPURL. match goal with |- context [check ?x _;; check (negb ?y) _] => destruct x, y end;
    cbn; split; try done; try (by intros H; destruct (H eq_refl)); by split.
Qed.

Lemma fallible_run {A B} (c : fallible A) (k : A → fallible B) a : c = inl a → (c ≫= k) = k a.
Proof. by intros ->. Qed.
Lemma validate_iff c : validate c = inl () ↔
  blank (cfg_RESTHost c) = false ∧ HasPrefix (cfg_OCPPListenPath c) "/" = true ∧ blank (cfg_V1CMSBearerToken c) = false ∧
  validate_delivery (cfg_V1FactDeliveryEnabled c) "HAL_V1_CMS_FACTS_URL" (cfg_V1CMSFactsURL c) (cfg_V1CMSFactsBearerToken c)
    "HAL_V1_CMS_FACT_BEARER_TOKEN is required when HAL_V1_FACT_DELIVERY_ENABLED=true" = inl () ∧
  validate_delivery (cfg_V1TraceDeliveryEnabled c) "HAL_V1_CMS_TRACE_URL" (cfg_V1CMSTraceURL c) (cfg_V1CMSTraceBearerToken c)
    "HAL_V1_CMS_TRACE_BEARER_TOKEN is required when HAL_V1_TRACE_DELIVERY_ENABLED=true" = inl () ∧
  (if blank (cfg_DatabaseURL c)
   then blank (cfg_DBName c) = false ∧ blank (cfg_DBUser c) = false ∧ blank (cfg_DBPassword c) = false ∧ blank (cfg_DBHost c) = false
   else accepts (validatePostgresURL (cfg_DatabaseURL c)) = true) ∧
  cfg_DBSSLMode c ∈ ["disable"; "allow"; "prefer"; "require"; "verify-ca"; "verify-full"].
Proof.
  assert (∀ m (k : fallible ()) u, (m;; k) = inl u ↔ m = inl () ∧ k = inl u) as Hseq.
  { intros m k u. rewrite fallible_bind_inl. split; [by intros ([] & ? & ?)|intros [? ?]; by exists ()]. }
  unfold validate. rewrite !Hseq, !check_inl, !negb_true_iff, bool_decide_eq_true.
  assert ((if blank (cfg_DatabaseURL c)
    then check (negb (blank (cfg_DBName c) || blank (cfg_DBUser c) || blank (cfg_DBPassword c) || blank (cfg_DBHost c)))
           "DATABASE_URL or DB_NAME, DB_USER, DB_PASSWORD, and DB_HOST are required"
    else validatePostgresURL (cfg_DatabaseURL c)) = inl () ↔
    (if blank (cfg_DatabaseURL c)
     then blank (cfg_DBName c) = false ∧ blank (cfg_DBUser c) = false ∧ blank (cfg_DBPassword c) = false ∧ blank (cfg_DBHost c) = false
     else accepts (validatePostgresURL (cfg_DatabaseURL c)) = true)) as ->; [|done].
  destruct (blank (cfg_DatabaseURL c)).
  - rewrite check_inl, negb_true_iff, !orb_false_iff. tauto.
  - rewrite accepts_iff. split; [by exists ()|by intros [[] ?]].
Qed.

(** The configuration a set of settings parses to, field by field. *)
Record parsed (values : settings_map) (c : Config) : Prop := {
  p_environment : parseEnvironment (value values "HAL_ENVIRONMENT" defaultEnvironment) = inl (cfg_Environment c);
  p_rest : parsePort "F_SERVER_PORT" (value values "F_SERVER_PORT" defaultRESTPort) = inl (cfg_RESTPort c);
  p_ocpp : ∃ port, parsePort "OCPP_LISTEN_PORT" (value values "OCPP_LISTEN_PORT" (Itoa defaultOCPPListenPort)) = inl port ∧
    cfg_OCPPListenPort c = default 0 (Atoi port);
  p_heartbeat : parseBoundedInt "OCPP_HEARTBEAT_INTERVAL_SECONDS"
    (value values "OCPP_HEARTBEAT_INTERVAL_SECONDS" (Itoa defaultHeartbeatIntervalSeconds)) 1 86400 =
    inl (cfg_OCPPHeartbeatIntervalSeconds c);
  p_sample : parseBoundedInt "OCPP_METER_VALUE_SAMPLE_INTERVAL_SECONDS"
    (value values "OCPP_METER_VALUE_SAMPLE_INTERVAL_SECONDS" (Itoa defaultMeterSampleIntervalSeconds)) 1 3600 =
    inl (cfg_OCPPMeterSampleIntervalSeconds c);
  p_timeout : parseBoundedInt "OCPP_CONFIGURATION_RECONCILE_TIMEOUT_SECONDS"
    (value values "OCPP_CONFIGURATION_RECONCILE_TIMEOUT_SECONDS" (Itoa defaultConfigurationReconcileTimeoutSeconds)) 1 120 =
    inl (cfg_OCPPConfigurationReconcileTimeoutSeconds c);
  p_days : parseBoundedInt "HAL_V1_TRACE_RETENTION_DAYS" (value values "HAL_V1_TRACE_RETENTION_DAYS" "30") 1 3650 =
    inl (cfg_V1TraceRetentionDays c);
  p_interval : parseBoundedInt "HAL_V1_TRACE_RETENTION_INTERVAL_SECONDS"
    (value values "HAL_V1_TRACE_RETENTION_INTERVAL_SECONDS" "3600") 60 86400 = inl (cfg_V1TraceRetentionIntervalSeconds c);
  p_profile : cfg_OCPPVendorConfigurationProfile c = GoStrings.TrimSpace (value values "OCPP_VENDOR_CONFIGURATION_PROFILE" "");
  p_profile_ok : cfg_OCPPVendorConfigurationProfile c ∈ [""; "legacy-remote-only"];
  p_vendor : cfg_OCPPVendorConfigurationVendor c = GoStrings.TrimSpace (value values "OCPP_VENDOR_CONFIGURATION_VENDOR" "");
  p_vendor_ok : cfg_OCPPVendorConfigurationProfile c = "" ∨ cfg_OCPPVendorConfigurationVendor c ≠ "";
  p_db : ∃ port, parsePort "DB_PORT" (value values "DB_PORT" (Itoa defaultDBPort)) = inl port ∧
    cfg_DBPort c = default 0 (Atoi port);
  p_facts : parseBool "HAL_V1_FACT_DELIVERY_ENABLED" (value values "HAL_V1_FACT_DELIVERY_ENABLED" "false") =
    inl (cfg_V1FactDeliveryEnabled c);
  p_traces : parseBool "HAL_V1_TRACE_DELIVERY_ENABLED" (value values "HAL_V1_TRACE_DELIVERY_ENABLED" "false") =
    inl (cfg_V1TraceDeliveryEnabled c);
  p_docs : parseBool "API_DOCS_ENABLED" (value values "API_DOCS_ENABLED" "false") = inl (cfg_APIDocsEnabled c);
  p_level : parseLogLevel (value values "LOG_LEVEL" "info") = inl (cfg_LogLevel c);
  p_texts : [cfg_RESTHost c; cfg_OCPPListenPath c; cfg_DatabaseURL c; cfg_DBName c; cfg_DBUser c; cfg_DBPassword c;
      cfg_DBHost c; cfg_DBSSLMode c; cfg_V1CMSBearerToken c; cfg_V1CMSFactsURL c; cfg_V1CMSFactsBearerToken c;
      cfg_V1CMSTraceURL c; cfg_V1CMSTraceBearerToken c] =
    [value values "F_SERVER_HOST" defaultRESTHost; value values "OCPP_LISTEN_PATH" defaultOCPPListenPath;
     value values "DATABASE_URL" ""; value values "DB_NAME" ""; value values "DB_USER" ""; value values "DB_PASSWORD" "";
     value values "DB_HOST" defaultDBHost; value values "DB_SSLMODE" defaultDBSSLMode;
     value values "HAL_V1_CMS_BEARER_TOKEN" ""; value values "HAL_V1_CMS_FACTS_URL" "";
     value values "HAL_V1_CMS_FACT_BEARER_TOKEN" ""; value values "HAL_V1_CMS_TRACE_URL" "";
     value values "HAL_V1_CMS_TRACE_BEARER_TOKEN" ""];
  p_role : cfg_MigrationApplicationRole c = GoStrings.TrimSpace (value values "HAL_MIGRATION_APPLICATION_ROLE" "");
  p_valid : validate c = inl ()
}.
Lemma parse_inl values c : parse values = inl c → parsed values c.
Proof.
  unfold parse. intros H. repeat (apply fallible_bind_inl in H as (? & ? & H); cbv zeta in H).
  repeat match goal with Hc : check _ _ = inl _ |- _ => apply check_inl, bool_decide_eq_true in Hc end.
  match goal with u : () |- _ => destruct u end. injection H as <-. split; try done; by eexists.
Qed.
Lemma parsed_parse values c : parsed values c → parse values = inl c.
Proof.
  destruct c. intros [? ? (? & ? & ?) ? ? ? ? ? ? ? ? ? (? & ? & ?) ? ? ? ? Ht ? Hv]. cbn in *. injection Ht as -> -> -> -> -> -> -> -> -> -> -> -> ->.
  subst. unfold parse. cbv zeta.
  repeat first [erewrite fallible_run by eassumption|erewrite fallible_run by (apply check_inl, bool_decide_eq_true; eassumption)].
  done. Unshelve. all: exact ().
Qed.
Lemma parseEnvironment_inl raw environment : parseEnvironment raw = inl environment →
  environment ∈ ["development"; "test"; "production"].
Proof. unfold parseEnvironment. case_decide; [|done]. by intros [= <-]. Qed.
Lemma parseLogLevel_inl raw level : parseLogLevel raw = inl level → level ∈ [-4; 0; 4; 8].
Proof. unfold parseLogLevel. repeat case_decide; try done; intros [= <-]; set_solver. Qed.

#[local] Arguments Itoa : simpl never.
Lemma parsed_accepted values c : parsed values c → supplied_valid values ∧ required_present values.
Proof.
  intros [He Hr (op & Ho & _) Hh Hs Hti Hd Hi Hp Hpo Hv Hvo (dp & Hb & _) Hf Ht Hdo Hl Htx _ Hval].
  injection Htx as E1 E2 E3 E4 E5 E6 E7 E8 E9 E10 E11 E12 E13.
  apply validate_iff in Hval as (V1 & V2 & V3 & V4 & V5 & V6 & V7).
  rewrite E10, E11 in V4. rewrite E12, E13 in V5. rewrite E3, E4, E5, E6, E7 in V6.
  apply (delivery_iff _ _ _ _ _ _ _ Hf) in V4. apply (delivery_iff _ _ _ _ _ _ _ Ht) in V5. split.
  - apply supplied_valid_iff. unfold settings. repeat (apply Forall_cons_2; [cbn [fst snd]|]); [..|apply Forall_nil_2].
    + apply accepts_iff. by eexists.
    + apply (port_iff "F_SERVER_PORT"). by eexists.
    + apply (port_iff "OCPP_LISTEN_PORT"). by eexists.
    + eapply bounded_iff. by eexists.
    + eapply bounded_iff. by eexists.
    + eapply bounded_iff. by eexists.
    + eapply bounded_iff. by eexists.
    + eapply bounded_iff. by eexists.
    + apply bool_decide_eq_true. by rewrite <- Hp.
    + apply (port_iff "DB_PORT"). by eexists.
    + eapply bool_iff. by eexists.
    + eapply bool_iff. by eexists.
    + eapply bool_iff. by eexists.
    + apply accepts_iff. by eexists.
    + by rewrite <- E1, V1.
    + by rewrite <- E2.
    + apply bool_decide_eq_true. by rewrite <- E8.
  - unfold required_present. rewrite <- E9, <- Hp. split_and!; [done| |done|done|].
    + intros Hne. destruct Hvo as [Hvo|Hvo]; [done|]. unfold blank. by rewrite bool_decide_eq_false, <- Hv.
    + destruct (blank (value values "DATABASE_URL" "")); [|done]. repeat constructor; cbn; tauto.
Qed.
Lemma Forall_head {A} (P : A → Prop) x l : Forall P (x :: l) → P x ∧ Forall P l.
Proof. apply Forall_cons. Qed.
Lemma accepted_parsed values : supplied_valid values ∧ required_present values → ∃ c, parsed values c.
Proof.
  rewrite supplied_valid_iff. unfold settings, required_present. intros [H (R1 & R2 & R3 & R4 & R5)].
  pose proof I as H0. do 17 (apply Forall_head in H as [? H]; cbn [fst snd] in *).
  apply accepts_iff in H1 as [environment ?], H14 as [level ?].
  apply (port_iff "F_SERVER_PORT") in H2 as [rest ?]. apply (port_iff "OCPP_LISTEN_PORT") in H3 as [ocpp ?].
  apply (port_iff "DB_PORT") in H10 as [db ?].
  apply (bounded_iff _ _ "OCPP_HEARTBEAT_INTERVAL_SECONDS") in H4 as [heartbeat ?].
  apply (bounded_iff _ _ "OCPP_METER_VALUE_SAMPLE_INTERVAL_SECONDS") in H5 as [sample ?].
  apply (bounded_iff _ _ "OCPP_CONFIGURATION_RECONCILE_TIMEOUT_SECONDS") in H6 as [timeout ?].
  apply (bounded_iff _ _ "HAL_V1_TRACE_RETENTION_DAYS") in H7 as [days ?].
  apply (bounded_iff _ _ "HAL_V1_TRACE_RETENTION_INTERVAL_SECONDS") in H8 as [interval ?].
  apply (bool_iff "HAL_V1_FACT_DELIVERY_ENABLED") in H11 as [facts ?].
  apply (bool_iff "HAL_V1_TRACE_DELIVERY_ENABLED") in H12 as [traces ?]. apply (bool_iff "API_DOCS_ENABLED") in H13 as [docs ?].
  apply bool_decide_eq_true in H9, H17. apply negb_true_iff in H15.
  eexists (mkConfig environment _ rest (default 0 (Atoi ocpp)) _ heartbeat sample timeout _ _ level _ _ _ _ _
    (default 0 (Atoi db)) _ _ facts _ _ traces _ _ days interval _ docs).
  split; cbn; try done; [by eexists|..].
  - destruct (decide (GoStrings.TrimSpace (value values "OCPP_VENDOR_CONFIGURATION_PROFILE" "") = "")) as [|Hne]; [by left|].
    right. by apply R2, bool_decide_eq_false in Hne.
  - by eexists.
  - apply validate_iff. cbn. split_and!; try done; try (by eapply delivery_iff).
    destruct (blank (value values "DATABASE_URL" "")); [|done]. rewrite !Forall_cons in R5. cbn in R5. tauto.
Qed.

(** C38: Startup accepts exactly the valid settings: parsing succeeds if and only
    if every supplied setting is valid on its own, as the parser and the bounds
    of its own key say - a supplied empty or malformed one is never replaced by
    its default - and the required ones (bearer token,
    receivers of enabled deliveries, database) are present.  The order of the
    checks does not matter. *)
Theorem parse_accepts values : (∃ c, parse values = inl c) ↔ supplied_valid values ∧ required_present values.
Proof.
  split; [intros [c H%parse_inl]; by eapply parsed_accepted|]. intros [c H%parsed_parse]%accepted_parsed. by exists c.
Qed.

(** What the rest of the process may rely on. *)
Definition receiver_ok (enabled : bool) (url token : string) : Prop :=
  enabled = true → blank token = false ∧
  ∃ parsed, url_Parse (GoStrings.TrimSpace url) = Some parsed ∧ pu_Host parsed ≠ "" ∧ pu_Scheme parsed ∈ ["http"; "https"] ∧
    pu_User parsed = false ∧ pu_Fragment parsed = "".
Record config_ok (c : Config) : Prop := {
  ok_environment : cfg_Environment c ∈ ["development"; "test"; "production"];
  ok_rest : ∃ port, cfg_RESTPort c = Itoa port ∧ 1 ≤ port ≤ 65535;
  ok_ports : 1 ≤ cfg_OCPPListenPort c ≤ 65535 ∧ 1 ≤ cfg_DBPort c ≤ 65535;
  ok_intervals : 1 ≤ cfg_OCPPHeartbeatIntervalSeconds c ≤ 86400 ∧ 1 ≤ cfg_OCPPMeterSampleIntervalSeconds c ≤ 3600 ∧
    1 ≤ cfg_OCPPConfigurationReconcileTimeoutSeconds c ≤ 120 ∧ 1 ≤ cfg_V1TraceRetentionDays c ≤ 3650 ∧
    60 ≤ cfg_V1TraceRetentionIntervalSeconds c ≤ 86400;
  ok_level : cfg_LogLevel c ∈ [-4; 0; 4; 8];
  ok_profile : cfg_OCPPVendorConfigurationProfile c = "" ∨
    cfg_OCPPVendorConfigurationProfile c = "legacy-remote-only" ∧ cfg_OCPPVendorConfigurationVendor c ≠ "";
  ok_token : blank (cfg_V1CMSBearerToken c) = false;
  ok_facts : receiver_ok (cfg_V1FactDeliveryEnabled c) (cfg_V1CMSFactsURL c) (cfg_V1CMSFactsBearerToken c);
  ok_traces : receiver_ok (cfg_V1TraceDeliveryEnabled c) (cfg_V1CMSTraceURL c) (cfg_V1CMSTraceBearerToken c);
  ok_database : HasDatabase c = true
}.
Lemma parsed_port key raw port n :
  parsePort key raw = inl port → n = default 0 (Atoi port) → 1 ≤ n ≤ 65535 ∧ port = Itoa n.
Proof. intros (m & _ & Hm & ->)%parsePort_inl ->. by rewrite port_value. Qed.
Lemma delivery_receiver enabled url_key url token message :
  validate_delivery enabled url_key url token message = inl () → receiver_ok enabled url token.
Proof.
  unfold validate_delivery, receiver_ok, validateHTTPURL. destruct enabled; [|done].
  intros (? & Hu%check_inl & Ht%check_inl)%fallible_bind_inl _. apply negb_true_iff in Ht. split; [done|].
  destruct (url_Parse _) as [u|]; [|done]. apply bool_decide_eq_true in Hu. by exists u.
Qed.
Lemma parsed_ok values c : parsed values c → config_ok c.
Proof.
  intros [He Hr (op & Ho & Eo) Hh Hs Ht Hd Hi _ Hp _ Hv (dp & Hb & Eb) _ _ _ Hl _ _ Hval].
  apply validate_iff in Hval as (_ & _ & V3 & V4 & V5 & V6 & _).
  apply parseBoundedInt_inl in Hh as [_ ?], Hs as [_ ?], Ht as [_ ?], Hd as [_ ?], Hi as [_ ?].
  pose proof (parsed_port _ _ _ _ Ho Eo) as [? _]. pose proof (parsed_port _ _ _ _ Hb Eb) as [? _].
  split; try done.
  - by eapply parseEnvironment_inl.
  - apply parsePort_inl in Hr as (n & _ & ? & ?). by exists n.
  - by eapply parseLogLevel_inl.
  - set_solver.
  - by eapply delivery_receiver.
  - by eapply delivery_receiver.
  - unfold HasDatabase. destruct (blank (cfg_DatabaseURL c)); [|done]. destruct V6 as (-> & -> & _ & ->).
    rewrite bool_decide_eq_true_2 by lia. done.
Qed.

(** A process that gets past its configuration has one the rest of the code
    may rely on: ports, intervals and retention within their bounds, a known
    environment, log level and vendor profile, a bearer token that is not blank,
    and for each enabled delivery an absolute http(s) receiver without
    credentials and a token for it. *)
Theorem load_config_ok environ file c : Load environ file = inl c → config_ok c.
Proof. unfold Load. intros (values & _ & H%parse_inl)%fallible_bind_inl. by eapply parsed_ok. Qed.

(** ** Precedence *)
Lemma local_defaults_agree values local local' :
  (∀ key, values !! key = None → key ≠ "HAL_ENVIRONMENT" → local !! key = local' !! key) →
  local_defaults values local = local_defaults values local'.
Proof.
  intros H. apply map_eq. intros key. unfold local_defaults. rewrite !lookup_union.
  destruct (values !! key) eqn:Hv; [by destruct (delete _ local !! key), (delete _ local' !! key)|].
  rewrite !lookup_delete. case_decide; [done|]. by rewrite H by congruence.
Qed.

(** The process environment decides: the local file can change neither a
    setting the process supplies, an empty one included, nor the environment
    class, and a production process does not even look at it. *)
Theorem process_environment_decides environ file file' :
  (∃ raw, process_values environ !! "HAL_ENVIRONMENT" = Some raw ∧ parseEnvironment raw = inl "production") ∨
  (∃ local local', readLocalEnv file = inl local ∧ readLocalEnv file' = inl local' ∧
    ∀ key, process_values environ !! key = None → key ≠ "HAL_ENVIRONMENT" → local !! key = local' !! key) →
  Load environ file = Load environ file'.
Proof.
  unfold Load, loadValues. cbv zeta. intros [(raw & -> & Hp)|(local & local' & El & El' & Hk)].
  - by rewrite Hp.
  - rewrite El, El'. destruct (match process_values environ !! _ with Some _ => _ | None => _ end) as [[]|]; [done| |done].
    unfold mbind, fallible_bind, mret, fallible_ret. by rewrite (local_defaults_agree _ _ _ Hk).
Qed.
End acceptance.
