(* ===== verification/ConfigText.v ===== *)
(** * The texts of the configuration

    What the local .env file and the database URLs of [Config] say: a written
    file is read back, and a URL built from the parts of a configuration names
    the same parts, whatever bytes the credentials contain. *)
From Stdlib Require Import String Ascii.
From stdpp Require Import base numbers decidable option list strings gmap pretty.
From S2P Require Import Prelude GoText GoDate GoUrl Config.
Open Scope Z_scope.

(** ** Trimming *)
Lemma has_char_reverse c s : has_char c (GoStrings.reverse s) = has_char c s.
Proof.
  induction s as [|d s IH]; [done|]. change (String d s) with (String d EmptyString +:+ s) at 1. rewrite Date.reverse_app, has_char_app, IH.
  change (GoStrings.reverse (String d EmptyString)) with (String d EmptyString). cbn [has_char].
  rewrite orb_false_r. apply orb_comm.
Qed.
(** Text without a byte of the cutset. *)
Definition clear_of (cutset s : string) : Prop := ∀ c, has_char c s = true → has_char c cutset = false.
Lemma drop_clear cutset s : clear_of cutset s → drop_chars cutset s = s.
Proof.
  destruct s as [|c s]; [done|]. intros H. cbn [drop_chars]. rewrite H; [done|]. cbn [has_char].
  by rewrite bool_decide_eq_true_2.
Qed.
Lemma clear_reverse cutset s : clear_of cutset s → clear_of cutset (GoStrings.reverse s).
Proof. intros H c. rewrite has_char_reverse. apply H. Qed.
Lemma Trim_clear cutset s : clear_of cutset s → Trim s cutset = s.
Proof. intros H. unfold Trim. rewrite (drop_clear _ s), drop_clear by auto using clear_reverse. apply reverse_reverse. Qed.
(** One byte of the cutset at each end is cut. *)
Lemma Trim_around cutset q s : has_char q cutset = true → clear_of cutset s →
  Trim (String q s +:+ String q EmptyString) cutset = s.
Proof.
  intros Hq Hs. unfold Trim. rewrite append_cons. cbn [drop_chars]. rewrite Hq. destruct s as [|c s].
  - rewrite append_nil. cbn [drop_chars]. by rewrite Hq.
  - rewrite append_cons. cbn [drop_chars].
    rewrite (Hs c) by (cbn [has_char]; by rewrite bool_decide_eq_true_2). rewrite <- append_cons, Date.reverse_app.
    change (GoStrings.reverse (String q EmptyString)) with (String q EmptyString). rewrite append_cons, append_nil.
    cbn [drop_chars]. rewrite Hq, drop_clear by auto using clear_reverse. apply reverse_reverse.
Qed.

(** ** The local file *)
Inductive env_line : Type :=
  | Entry (key raw : string)
  | Quoted (quote : ascii) (key raw : string)
  | Comment (text : string)
  | Blank.
Definition line_text (line : env_line) : string :=
  match line with
  | Entry key raw => key +:+ String "=" raw
  | Quoted q key raw => key +:+ String "=" (String q raw +:+ String q EmptyString)
  | Comment text => String "#" text
  | Blank => ""
  end.
Definition line_entry (line : env_line) : option (string * string) :=
  match line with Entry key raw | Quoted _ key raw => Some (key, raw) | Comment _ | Blank => None end.
(** Keys and values of printable bytes without spaces, values without quotes. *)
Definition clean_key (key : string) : Prop :=
  plain_text key ∧ key ≠ "" ∧ has_char "=" key = false ∧ HasPrefix key "#" = false.
Definition clean_value (raw : string) : Prop := plain_text raw ∧ clear_of quotes raw.
Definition clean_line (line : env_line) : Prop :=
  match line with
  | Entry key raw => clean_key key ∧ clean_value raw
  | Quoted q key raw => clean_key key ∧ clean_value raw ∧ has_char q quotes = true
  | Comment text => plain_text text
  | Blank => True
  end.
Definition file_text (lines : list env_line) : string := join newline (line_text <$> lines).
Definition entries (lines : list env_line) : settings_map :=
  fold_left (λ values line, match line_entry line with Some (key, raw) => <[key := raw]> values | None => values end) lines ∅.

Lemma plain_cons c s : plain_text (String c s) ↔ plain c = true ∧ plain_text s.
Proof. unfold plain_text. cbn. by rewrite Forall_cons. Qed.
Lemma plain_no_newline s : plain_text s → has_char newline s = false.
Proof.
  induction s as [|c s IH]; [done|]. intros [Hc Hs]%plain_cons. cbn [has_char]. rewrite IH, orb_false_r by done.
  apply bool_decide_eq_false. intros ->. by vm_compute in Hc.
Qed.
Lemma quote_plain q : has_char q quotes = true → plain q = true.
Proof. unfold quotes. cbn [has_char]. rewrite orb_false_r. intros [<-%bool_decide_eq_true|<-%bool_decide_eq_true]%orb_true_iff; reflexivity. Qed.
Lemma plain_String c s : plain c = true → plain_text s → plain_text (String c s).
Proof. intros. by apply plain_cons. Qed.
Lemma plain_empty : plain_text "".
Proof. apply Forall_nil_2. Qed.
#[local] Hint Resolve plain_text_app plain_String plain_empty quote_plain eq_refl : plain.
Lemma line_plain line : clean_line line → plain_text (line_text line).
Proof.
  destruct line as [key raw|q key raw|text|]; cbn [clean_line line_text]; auto with plain.
  - intros [(Hk & _) [Hr _]]. auto with plain.
  - intros [(Hk & _) [[Hr _] Hq]]. auto 8 with plain.
Qed.
Lemma prefix_app_false (c : ascii) s t : s ≠ "" → HasPrefix s (String c EmptyString) = false →
  HasPrefix (s +:+ t) (String c EmptyString) = false.
Proof.
  destruct s as [|d s]; [done|]. intros _. rewrite append_cons. unfold HasPrefix. cbn [GoStrings.strip].
  case_decide; [|done]. by destruct s.
Qed.
Lemma read_entry n key raw text : clean_key key → plain_text (key +:+ String "=" text) → plain_text text →
  Trim text quotes = raw → read_line n (key +:+ String "=" text) = inl (Some (key, raw)).
Proof.
  intros (Hk & Hne & Heq & Hc) Hp Ht Hr. unfold read_line. cbv zeta. rewrite TrimSpace_plain by done.
  rewrite decide_False.
  - rewrite Cut_app by done. rewrite !TrimSpace_plain by done. rewrite decide_False by done. by rewrite Hr.
  - rewrite prefix_app_false by done. intros [H|]; [|done]. destruct key; [done|]. by rewrite append_cons in H.
Qed.
Lemma read_line_text n line : clean_line line → read_line n (line_text line) = inl (line_entry line).
Proof.
  intros Hl. pose proof (line_plain line Hl) as Hp. destruct line as [key raw|q key raw|text|].
  - destruct Hl as [Hk [Hr Hq]]. by apply read_entry; auto using Trim_clear.
  - destruct Hl as [Hk [[Hr Hq] Hqq]]. apply read_entry; auto using Trim_around.
    auto 8 with plain.
  - unfold read_line. cbv zeta. rewrite TrimSpace_plain by done. rewrite decide_True; [done|]. right. by destruct text.
  - done.
Qed.

(** A local file is read as written: entries, quoted or not, in any order
    with comments and empty lines between them give the map of its entries, the
    last one of a key counting. *)
Theorem local_file_roundtrip lines : lines ≠ [] → Forall clean_line lines →
  readLocalEnv (Contents (file_text lines)) = inl (entries lines).
Proof.
  intros Hne Hl. unfold readLocalEnv, file_text, entries. rewrite Split_join.
  - generalize 1 as n, (∅ : settings_map) as m. clear Hne. induction Hl as [|line lines Hc _ IH]; intros n m; [done|].
    cbn [fmap list_fmap read_lines fold_left]. rewrite (fallible_run _ _ _ (read_line_text n line Hc)). apply IH.
  - by destruct lines.
  - apply Forall_fmap. eapply Forall_impl; [exact Hl|]. intros line Hc. by apply plain_no_newline, line_plain.
Qed.

(** ** Database URLs *)
Lemma decimal_no_char d acc s v : digit_value d = None → decimal_value acc s = Some v → has_char d s = false.
Proof.
  intros Hd. revert acc. induction s as [|c s IH]; intros acc; [done|]. cbn [decimal_value has_char].
  destruct (digit_value c) eqn:E; [|done]. intros H. rewrite (IH _ H), orb_false_r, bool_decide_eq_false. congruence.
Qed.
Lemma Itoa_value n : 0 ≤ n → ∃ v, decimal_value 0 (Itoa n) = Some v.
Proof.
  intros Hn. pose proof (unsigned_decimal_pretty (Z.to_N n)) as H. unfold Itoa. destruct n as [|p|p]; [by exists 0| |lia].
  unfold unsigned_decimal in H. cbn in H. change (pretty (Z.pos p)) with (pretty (N.pos p)).
  destruct (pretty (N.pos p)); [done|]. by eexists.
Qed.
Lemma port_clean n : 0 ≤ n → clean_port (Itoa n).
Proof.
  intros [v Hv]%Itoa_value. unfold clean_port. split_and!; by eapply decimal_no_char.
Qed.
Lemma sslmode_read mode :
  GoStrings.strip "sslmode=" ("sslmode=" +:+ escape encodeQueryComponent mode) ≫= unescape encodeQueryComponent = Some mode.
Proof. rewrite strip_app. by apply unescape_escape, any_readable. Qed.
Lemma decimal_readable acc s v : decimal_value acc s = Some v → readable_text encodeHost s.
Proof.
  revert acc. induction s as [|c s IH]; intros acc; [intros _; by apply Forall_nil|]. cbn [decimal_value].
  destruct (digit_value c) as [d|] eqn:E; [|done]. intros H%IH. apply Forall_cons. split; [|done].
  assert (negb (bool_decide (is_Some (digit_value c))) || readable encodeHost c = true) as Hc.
  { clear. revert c. apply every_byte. vm_compute. reflexivity. }
  by rewrite E in Hc.
Qed.
Lemma JoinHostPort_readable host port : readable_text encodeHost host → 0 ≤ port →
  readable_text encodeHost (JoinHostPort host (Itoa port)) ∧ readable_text encodeHost (host +:+ ":" +:+ Itoa port).
Proof.
  intros Hh Hp. destruct (Itoa_value port Hp) as [v Hv]. apply decimal_readable in Hv.
  assert (∀ t, forallb (readable encodeHost) (String.list_ascii_of_string t) = true → readable_text encodeHost t) as Ht.
  { intros t Ht. apply Forall_forall. intros c Hc%list_elem_of_In. exact (proj1 (forallb_forall _ _) Ht c Hc). }
  assert (readable_text encodeHost (host +:+ ":" +:+ Itoa port)) as Hj.
  { apply readable_app; [done|]. apply readable_app; [by apply Ht|done]. }
  split; [|done]. unfold JoinHostPort. destruct (has_char ":" host); [|done].
  apply readable_app; [by apply Ht|]. apply readable_app; [done|]. apply readable_app; [by apply Ht|done].
Qed.
Lemma JoinHostPort_ne host port : JoinHostPort host port ≠ "".
Proof. unfold JoinHostPort. destruct (has_char ":" host); [done|]. by destruct host. Qed.

(** A host a URL can name: no brackets of its own, and nothing but the bytes that
    net/url leaves as they are in a host, and the percent sign of an IPv6 zone. *)
Definition url_host (host : string) : Prop := clean_host host ∧ readable_text encodeHost host.

(** C36: Where DATABASE_URL is not set, the URL built from the parts of a
    configuration names exactly those parts: whatever bytes user, password and SSL
    mode contain, and a database name that is not empty and does not begin with a
    slash - at signs, slashes, spaces, control bytes - the reader of a URL, with
    net/url's rules for each part, gets them back; and the port and the host too,
    IPv6 hosts included, if the host has no brackets and none of the bytes net/url
    does not let stand in one.  (A host with a space is refused by the reader, and
    a database "/hal" is read as "hal": [spaced_host] and [rooted_name] below.) *)
Theorem PostgresURL_roundtrip c :
  blank (cfg_DatabaseURL c) = true → url_host (cfg_DBHost c) → 0 ≤ cfg_DBPort c →
  cfg_DBName c ≠ "" → HasPrefix (cfg_DBName c) "/" = false →
  ∃ parts, read_url "postgres" (PostgresURL c) = Some parts ∧
    up_user parts = cfg_DBUser c ∧ up_password parts = cfg_DBPassword c ∧ up_path parts = cfg_DBName c ∧
    SplitHostPort (up_host parts) = Some (cfg_DBHost c, Itoa (cfg_DBPort c)) ∧
    GoStrings.strip "sslmode=" (up_query parts) ≫= unescape encodeQueryComponent = Some (cfg_DBSSLMode c).
Proof.
  intros Hd [Hh Hr] Hp Hn Hs. unfold PostgresURL. rewrite Hd. eexists. split.
  - apply url_text_read; [apply JoinHostPort_ne|by apply JoinHostPort_readable|done..].
  - cbn. split_and!; [done..| |apply sslmode_read]. by apply SplitHostPort_Join, port_clean.
Qed.

(** The store's own version agrees with it except on IPv6 hosts, which it leaves
    without brackets: the host and port of its URL cannot be told apart. *)
Theorem postgresURL_spec c :
  blank (cfg_DatabaseURL c) = true → url_host (cfg_DBHost c) → 0 ≤ cfg_DBPort c →
  cfg_DBName c ≠ "" → HasPrefix (cfg_DBName c) "/" = false →
  if has_char ":" (cfg_DBHost c)
  then ∃ parts, read_url "postgres" (postgresURL c) = Some parts ∧ SplitHostPort (up_host parts) = None
  else postgresURL c = PostgresURL c.
Proof.
  intros Hd [[Ho Hc] Hr] Hp Hn Hs. unfold PostgresURL, postgresURL, JoinHostPort. rewrite Hd.
  destruct (has_char ":" (cfg_DBHost c)) eqn:Hcolon; [|done].
  eexists. split; [apply url_text_read; try done; [by destruct (cfg_DBHost c)|by apply JoinHostPort_readable]|]. cbn.
  unfold SplitHostPort. rewrite strip_absent.
  - destruct (Cut_total _ _ Hcolon) as (a & b & [E Ha]%Cut_Some). rewrite E, append_assoc, append_cons, Cut_app by done.
    rewrite has_char_app. change (":" +:+ Itoa (cfg_DBPort c)) with (String ":" (Itoa (cfg_DBPort c))). cbn [has_char].
    rewrite (bool_decide_eq_true_2 (":"%char = ":"%char)) by done. by rewrite orb_true_r.
  - destruct (port_clean _ Hp) as (_ & P & _). rewrite has_char_app, Ho.
    change (":" +:+ Itoa (cfg_DBPort c)) with (String ":" (Itoa (cfg_DBPort c))). cbn [has_char]. by rewrite P.
Qed.

(** Concrete texts are checked by computation. *)
Lemma clear_check cutset s :
  forallb (λ c, negb (has_char c cutset)) (String.list_ascii_of_string s) = true → clear_of cutset s.
Proof.
  induction s as [|d s IH]; [done|]. cbn. intros [Hd Hs]%andb_true_iff c [<-%bool_decide_eq_true|Hc]%orb_true_iff;
    [by apply negb_true_iff|by apply IH].
Qed.
Lemma plain_check s : forallb plain (String.list_ascii_of_string s) = true → plain_text s.
Proof. intros H. unfold plain_text. apply Forall_forall. intros c Hc%list_elem_of_In. exact (proj1 (forallb_forall _ _) H c Hc). Qed.

(** ** Runs *)
Module ConfigRuns.
#[local] Instance urls : UrlLib := {|
  url_Parse s := if decide (s = "https://cms.example/facts")
                 then Some (mkparsed_url "https" "cms.example" false "/facts" "") else None
|}.
Definition environ : list string :=
  ["HAL_V1_CMS_BEARER_TOKEN=secret"; "DB_NAME=hal"; "DB_USER=hal"; "DB_PASSWORD=p@ss/w:rd"; "DB_HOST=::1";
   "HAL_V1_FACT_DELIVERY_ENABLED=true"; "HAL_V1_CMS_FACTS_URL= https://cms.example/facts ";
   "HAL_V1_CMS_FACT_BEARER_TOKEN=t"; "OCPP_HEARTBEAT_INTERVAL_SECONDS=60"].
Definition lines : list env_line :=
  [Comment "dev"; Entry "F_SERVER_PORT" "19999"; Blank; Quoted "'" "LOG_LEVEL" "debug";
   Entry "OCPP_HEARTBEAT_INTERVAL_SECONDS" "120"; Entry "HAL_ENVIRONMENT" "production"].
Definition local : file_read := Contents (file_text lines).
Definition config : Config :=
  mkConfig "development" "127.0.0.1" "19999" 18081 "/{ws:.*}" 60 15 20 "" "" (-4) "" "hal" "hal" "p@ss/w:rd" "::1" 5432
    "disable" "secret" true "https://cms.example/facts" "t" false "" "" 30 3600 "" false.
Lemma loaded : Load environ local = inl config.
Proof. vm_compute. reflexivity. Qed.
(** An empty setting of the process is refused, not replaced by the file's. *)
Example empty_refused : Load ("F_SERVER_PORT=" :: environ) local =
  Errorf "invalid F_SERVER_PORT: must be an integer between 1 and 65535".
Proof. vm_compute. reflexivity. Qed.
Example wildly_escaped : PostgresURL config = "postgres://hal:p%40ss%2Fw%3Ard@[::1]:5432/hal?sslmode=disable".
Proof. vm_compute. reflexivity. Qed.
Example store_url : postgresURL config = "postgres://hal:p%40ss%2Fw%3Ard@::1:5432/hal?sslmode=disable".
Proof. vm_compute. reflexivity. Qed.
Definition at_host (host name : string) : Config :=
  mkConfig "development" "127.0.0.1" "19999" 18081 "/{ws:.*}" 60 15 20 "" "" (-4) "" name "hal" "p" host 5432
    "disable" "secret" true "https://cms.example/facts" "t" false "" "" 30 3600 "" false.
Example spaced_host : (PostgresURL (at_host "my host" "hal"), read_url "postgres" (PostgresURL (at_host "my host" "hal"))) =
  ("postgres://hal:p@my%20host:5432/hal?sslmode=disable", None).
Proof. vm_compute. reflexivity. Qed.
Example rooted_name : up_path <$> read_url "postgres" (PostgresURL (at_host "db" "/hal")) = Some "hal".
Proof. vm_compute. reflexivity. Qed.
Example starred_name : PostgresURL (at_host "db" "*") = "postgres://hal:p@db:5432/*?sslmode=disable".
Proof. vm_compute. reflexivity. Qed.
Lemma loopback_host : url_host (cfg_DBHost config).
Proof. split; [split; vm_compute; reflexivity|]. repeat (apply Forall_cons; split; [vm_compute; reflexivity|]). apply Forall_nil_2. Qed.
Lemma clean : Forall clean_line lines.
Proof.
  repeat (apply Forall_cons; split); try apply Forall_nil_2; cbn [clean_line]; unfold clean_key, clean_value;
    try split_and!; first [apply plain_check|apply clear_check|done]; vm_compute; reflexivity.
Qed.
End ConfigRuns.
#[local] Existing Instance ConfigRuns.urls.

Lemma load_config_ok_witness : Load ConfigRuns.environ ConfigRuns.local = inl ConfigRuns.config ∧
  config_ok ConfigRuns.config.
Proof. split; [apply ConfigRuns.loaded|]. exact (load_config_ok _ _ _ ConfigRuns.loaded). Defined.

Lemma process_environment_decides_witness :
  Load ("HAL_ENVIRONMENT=production" :: ConfigRuns.environ) ConfigRuns.local =
    Load ("HAL_ENVIRONMENT=production" :: ConfigRuns.environ) (Contents "nonsense") ∧
  Load ConfigRuns.environ (Contents "DB_HOST=other") = Load ConfigRuns.environ NotExist.
Proof.
  split; apply process_environment_decides.
  - left. exists "production". split; vm_compute; reflexivity.
  - right. exists {["DB_HOST" := "other"]}, ∅. split_and!; [vm_compute; reflexivity..|]. intros key Hk _.
    destruct (decide (key = "DB_HOST")) as [->|]; [by vm_compute in Hk|]. by rewrite lookup_singleton_ne.
Defined.

Lemma local_file_roundtrip_witness : readLocalEnv ConfigRuns.local = inl (entries ConfigRuns.lines) ∧
  entries ConfigRuns.lines !! "LOG_LEVEL" = Some "debug".
Proof. split; [apply (local_file_roundtrip ConfigRuns.lines); [done|apply ConfigRuns.clean]|vm_compute; reflexivity]. Defined.

Lemma PostgresURL_roundtrip_witness :
  ∃ parts, read_url "postgres" (PostgresURL ConfigRuns.config) = Some parts ∧ up_password parts = "p@ss/w:rd" ∧
    SplitHostPort (up_host parts) = Some ("::1", "5432").
Proof.
  destruct (PostgresURL_roundtrip ConfigRuns.config) as (parts & H & _ & Hp & _ & Hs & _); [vm_compute; reflexivity|exact ConfigRuns.loopback_host|vm_compute; discriminate|discriminate|reflexivity|].
  exists parts. split_and!; [exact H|exact Hp|exact Hs].
Defined.
