(* ===== verification/V1Types.v ===== *)
(** * Data model of the v1 store (internal/store/v1.go, v1_trace.go)

    One record per Go struct, one field per Go field in declaration order, a
    nil-able pointer as an [option].  The record prefix replaces Go's receiver
    name space: [tx_StopState t] is [t.StopState].  [any] is the dynamic value
    carried by trace data. *)
From Stdlib Require Import String.
From stdpp Require Import base numbers decidable option list strings gmap.
From S2P Require Import Prelude.
Open Scope Z_scope.

(** [V1SoCPercent]: thousandths of a percent, an [int64]. *)
Definition V1SoCPercent : Type := Z.
Definition v1SoCScale : Z := 1000.

Record V1ConnectorMappingInput : Type := mkV1ConnectorMappingInput {
  cmi_CMSConnectorID : string;
  cmi_OCPPConnectorNumber : Z
}.
#[global] Instance eta_V1ConnectorMappingInput : Eta V1ConnectorMappingInput := fun r =>
  mkV1ConnectorMappingInput (cmi_CMSConnectorID r) (cmi_OCPPConnectorNumber r).

Record V1ConnectorMapping : Type := mkV1ConnectorMapping {
  com_CPOID : string;
  com_CMSChargerID : string;
  com_CMSConnectorID : string;
  com_ChargerOCPPIdentity : string;
  com_OCPPConnectorNumber : Z
}.
#[global] Instance eta_V1ConnectorMapping : Eta V1ConnectorMapping := fun r =>
  mkV1ConnectorMapping (com_CPOID r) (com_CMSChargerID r) (com_CMSConnectorID r) 
    (com_ChargerOCPPIdentity r) (com_OCPPConnectorNumber r).

Record V1ConnectorRuntime : Type := mkV1ConnectorRuntime {
  cort_CPOID : string;
  cort_CMSChargerID : string;
  cort_CMSConnectorID : string;
  cort_ChargerOCPPIdentity : string;
  cort_OCPPConnectorNumber : Z;
  cort_Status : string;
  cort_ErrorCode : string;
  cort_Info : string;
  cort_VendorID : string;
  cort_VendorErrorCode : string;
  cort_ObservedAt : option Time;
  cort_StatusSequence : Z;
  cort_UpdatedAt : Time
}.
#[global] Instance eta_V1ConnectorRuntime : Eta V1ConnectorRuntime := fun r =>
  mkV1ConnectorRuntime (cort_CPOID r) (cort_CMSChargerID r) (cort_CMSConnectorID r) 
    (cort_ChargerOCPPIdentity r) (cort_OCPPConnectorNumber r) (cort_Status r) 
    (cort_ErrorCode r) (cort_Info r) (cort_VendorID r) (cort_VendorErrorCode r) 
    (cort_ObservedAt r) (cort_StatusSequence r) (cort_UpdatedAt r).

Record V1ChargerOperationInput : Type := mkV1ChargerOperationInput {
  oi_CMSOperationID : string;
  oi_TraceID : string;
  oi_RequestDigest : string;
  oi_CPOID : string;
  oi_CMSChargerID : string;
  oi_CMSConnectorID : string;
  oi_ChargerOCPPIdentity : string;
  oi_OCPPConnectorNumber : Z;
  oi_Kind : string;
  oi_Parameters : gmap string string;
  oi_ConfigurationKeys : option (list string);
  oi_CorrelationID : string
}.
#[global] Instance eta_V1ChargerOperationInput : Eta V1ChargerOperationInput := fun r =>
  mkV1ChargerOperationInput (oi_CMSOperationID r) (oi_TraceID r) (oi_RequestDigest r) (oi_CPOID r) 
    (oi_CMSChargerID r) (oi_CMSConnectorID r) (oi_ChargerOCPPIdentity r) 
    (oi_OCPPConnectorNumber r) (oi_Kind r) (oi_Parameters r) 
    (oi_ConfigurationKeys r) (oi_CorrelationID r).

Record V1ChargerOperation : Type := mkV1ChargerOperation {
  op_HALOperationID : string;
  op_CMSOperationID : string;
  op_TraceID : string;
  op_RequestDigest : string;
  op_CPOID : string;
  op_CMSChargerID : string;
  op_CMSConnectorID : string;
  op_ChargerOCPPIdentity : string;
  op_OCPPConnectorNumber : Z;
  op_Kind : string;
  op_Parameters : gmap string string;
  op_ConfigurationKeys : option (list string);
  op_CorrelationID : string;
  op_State : string;
  op_DeliveryAttempts : Z;
  op_OCPPResult : string;
  op_ErrorCategory : string;
  op_CreatedAt : Time;
  op_UpdatedAt : Time;
  op_CompletedAt : option Time
}.
#[global] Instance eta_V1ChargerOperation : Eta V1ChargerOperation := fun r =>
  mkV1ChargerOperation (op_HALOperationID r) (op_CMSOperationID r) (op_TraceID r) 
    (op_RequestDigest r) (op_CPOID r) (op_CMSChargerID r) (op_CMSConnectorID r) 
    (op_ChargerOCPPIdentity r) (op_OCPPConnectorNumber r) (op_Kind r) 
    (op_Parameters r) (op_ConfigurationKeys r) (op_CorrelationID r) (op_State r) 
    (op_DeliveryAttempts r) (op_OCPPResult r) (op_ErrorCategory r) 
    (op_CreatedAt r) (op_UpdatedAt r) (op_CompletedAt r).

Record V1StartCommandInput : Type := mkV1StartCommandInput {
  si_CMSCommandID : string;
  si_RequestDigest : string;
  si_CPOID : string;
  si_CustomerID : string;
  si_CorrelationID : string;
  si_CMSStartIntentID : string;
  si_CMSChargerID : string;
  si_CMSConnectorID : string;
  si_ChargerOCPPIdentity : string;
  si_OCPPConnectorNumber : Z;
  si_IDTag : string;
  si_CredentialExpiresAt : Time;
  si_CommandExpiresAt : Time;
  si_LimitType : string;
  si_EnergyLimitWh : option Z;
  si_EnergyLimitSource : string;
  si_MaxDurationSeconds : option Z;
  si_DurationLimitSource : string
}.
#[global] Instance eta_V1StartCommandInput : Eta V1StartCommandInput := fun r =>
  mkV1StartCommandInput (si_CMSCommandID r) (si_RequestDigest r) (si_CPOID r) (si_CustomerID r) 
    (si_CorrelationID r) (si_CMSStartIntentID r) (si_CMSChargerID r) 
    (si_CMSConnectorID r) (si_ChargerOCPPIdentity r) (si_OCPPConnectorNumber r) 
    (si_IDTag r) (si_CredentialExpiresAt r) (si_CommandExpiresAt r) 
    (si_LimitType r) (si_EnergyLimitWh r) (si_EnergyLimitSource r) 
    (si_MaxDurationSeconds r) (si_DurationLimitSource r).

Record V1MappingInput : Type := mkV1MappingInput {
  mi_CPOID : string;
  mi_CMSChargerID : string;
  mi_ChargerOCPPIdentity : string;
  mi_ExpectedSerial : string;
  mi_Enabled : bool;
  mi_Connectors : list V1ConnectorMappingInput;
  mi_CorrelationID : string;
  mi_RequestDigest : string
}.
#[global] Instance eta_V1MappingInput : Eta V1MappingInput := fun r =>
  mkV1MappingInput (mi_CPOID r) (mi_CMSChargerID r) (mi_ChargerOCPPIdentity r) 
    (mi_ExpectedSerial r) (mi_Enabled r) (mi_Connectors r) (mi_CorrelationID r) 
    (mi_RequestDigest r).

Record V1ChargerMapping : Type := mkV1ChargerMapping {
  cm_CPOID : string;
  cm_CMSChargerID : string;
  cm_ChargerOCPPIdentity : string;
  cm_ExpectedSerial : string;
  cm_Enabled : bool;
  cm_Connectors : list V1ConnectorMapping
}.
#[global] Instance eta_V1ChargerMapping : Eta V1ChargerMapping := fun r =>
  mkV1ChargerMapping (cm_CPOID r) (cm_CMSChargerID r) (cm_ChargerOCPPIdentity r) 
    (cm_ExpectedSerial r) (cm_Enabled r) (cm_Connectors r).

Record V1StopCommandInput : Type := mkV1StopCommandInput {
  pi_CMSCommandID : string;
  pi_RequestDigest : string;
  pi_CPOID : string;
  pi_CustomerID : string;
  pi_CorrelationID : string;
  pi_CMSChargingSessionID : string;
  pi_CMSChargerID : string;
  pi_CMSConnectorID : string;
  pi_ChargerOCPPIdentity : string;
  pi_OCPPConnectorNumber : Z;
  pi_HALTransactionID : string;
  pi_OCPPTransactionID : Z;
  pi_RequestedStopInitiator : string;
  pi_RequestedStopReason : string;
  pi_CommandExpiresAt : Time
}.
#[global] Instance eta_V1StopCommandInput : Eta V1StopCommandInput := fun r =>
  mkV1StopCommandInput (pi_CMSCommandID r) (pi_RequestDigest r) (pi_CPOID r) (pi_CustomerID r) 
    (pi_CorrelationID r) (pi_CMSChargingSessionID r) (pi_CMSChargerID r) 
    (pi_CMSConnectorID r) (pi_ChargerOCPPIdentity r) (pi_OCPPConnectorNumber r) 
    (pi_HALTransactionID r) (pi_OCPPTransactionID r) 
    (pi_RequestedStopInitiator r) (pi_RequestedStopReason r) 
    (pi_CommandExpiresAt r).

Record V1RemoteCommand : Type := mkV1RemoteCommand {
  cmd_HALCommandID : string;
  cmd_CMSCommandID : string;
  cmd_Kind : string;
  cmd_RequestDigest : string;
  cmd_CPOID : string;
  cmd_CustomerID : string;
  cmd_CorrelationID : string;
  cmd_CMSStartIntentID : string;
  cmd_CMSChargingSessionID : string;
  cmd_CMSChargerID : string;
  cmd_CMSConnectorID : string;
  cmd_ChargerOCPPIdentity : string;
  cmd_OCPPConnectorNumber : Z;
  cmd_IDTag : string;
  cmd_CredentialExpiresAt : option Time;
  cmd_CommandExpiresAt : Time;
  cmd_LimitType : string;
  cmd_EnergyLimitWh : option Z;
  cmd_EnergyLimitSource : string;
  cmd_MaxDurationSeconds : option Z;
  cmd_DurationLimitSource : string;
  cmd_RequestedStopInitiator : string;
  cmd_RequestedStopReason : string;
  cmd_HALTransactionID : string;
  cmd_OCPPTransactionID : option Z;
  cmd_State : string;
  cmd_DeliveryAttempts : Z;
  cmd_LastOCPPResult : string;
  cmd_LastErrorCategory : string;
  cmd_LastErrorDetail : string;
  cmd_CreatedAt : Time;
  cmd_UpdatedAt : Time
}.
#[global] Instance eta_V1RemoteCommand : Eta V1RemoteCommand := fun r =>
  mkV1RemoteCommand (cmd_HALCommandID r) (cmd_CMSCommandID r) (cmd_Kind r) (cmd_RequestDigest r) 
    (cmd_CPOID r) (cmd_CustomerID r) (cmd_CorrelationID r) 
    (cmd_CMSStartIntentID r) (cmd_CMSChargingSessionID r) (cmd_CMSChargerID r) 
    (cmd_CMSConnectorID r) (cmd_ChargerOCPPIdentity r) 
    (cmd_OCPPConnectorNumber r) (cmd_IDTag r) (cmd_CredentialExpiresAt r) 
    (cmd_CommandExpiresAt r) (cmd_LimitType r) (cmd_EnergyLimitWh r) 
    (cmd_EnergyLimitSource r) (cmd_MaxDurationSeconds r) 
    (cmd_DurationLimitSource r) (cmd_RequestedStopInitiator r) 
    (cmd_RequestedStopReason r) (cmd_HALTransactionID r) 
    (cmd_OCPPTransactionID r) (cmd_State r) (cmd_DeliveryAttempts r) 
    (cmd_LastOCPPResult r) (cmd_LastErrorCategory r) (cmd_LastErrorDetail r) 
    (cmd_CreatedAt r) (cmd_UpdatedAt r).

Record V1Credential : Type := mkV1Credential {
  cred_IDTag : string;
  cred_CMSStartIntentID : string;
  cred_CPOID : string;
  cred_CMSChargerID : string;
  cred_CMSConnectorID : string;
  cred_ChargerOCPPIdentity : string;
  cred_OCPPConnectorNumber : Z;
  cred_ExpiresAt : Time;
  cred_ConsumedAt : option Time;
  cred_HALTransactionID : string
}.
#[global] Instance eta_V1Credential : Eta V1Credential := fun r =>
  mkV1Credential (cred_IDTag r) (cred_CMSStartIntentID r) (cred_CPOID r) 
    (cred_CMSChargerID r) (cred_CMSConnectorID r) (cred_ChargerOCPPIdentity r) 
    (cred_OCPPConnectorNumber r) (cred_ExpiresAt r) (cred_ConsumedAt r) 
    (cred_HALTransactionID r).

Record V1Transaction : Type := mkV1Transaction {
  tx_HALTransactionID : string;
  tx_CMSStartIntentID : string;
  tx_CMSCommandID : string;
  tx_CPOID : string;
  tx_CustomerID : string;
  tx_CMSChargerID : string;
  tx_CMSConnectorID : string;
  tx_ChargerOCPPIdentity : string;
  tx_OCPPConnectorNumber : Z;
  tx_IDTag : string;
  tx_OCPPTransactionID : Z;
  tx_ActualStartedAt : Time;
  tx_ObservedStartedAt : Time;
  tx_MeterStartWh : Z;
  tx_LimitType : string;
  tx_LatestMeterWh : option Z;
  tx_ConsumedWh : option Z;
  tx_MeterObservedAt : option Time;
  tx_MeterSequence : Z;
  tx_InitialSoCPercent : option V1SoCPercent;
  tx_LatestSoCPercent : option V1SoCPercent;
  tx_SoCObservedAt : option Time;
  tx_SoCSequence : Z;
  tx_EnergyLimitWh : option Z;
  tx_EnergyLimitSource : string;
  tx_MaxDurationSeconds : option Z;
  tx_DurationLimitSource : string;
  tx_StopDeadlineAt : option Time;
  tx_StopState : string;
  tx_RequestedStopInitiator : string;
  tx_RequestedStopReason : string;
  tx_OCPPStopReason : string;
  tx_CompletedAt : option Time;
  tx_ObservedCompletedAt : option Time;
  tx_MeterStopWh : option Z;
  tx_RawMeterStopWh : option Z;
  tx_MeterStopAdjustmentWh : option Z;
  tx_MeterStopEvidence : string;
  tx_MeterQuantizationAnomalyCount : Z
}.
#[global] Instance eta_V1Transaction : Eta V1Transaction := fun r =>
  mkV1Transaction (tx_HALTransactionID r) (tx_CMSStartIntentID r) (tx_CMSCommandID r) 
    (tx_CPOID r) (tx_CustomerID r) (tx_CMSChargerID r) (tx_CMSConnectorID r) 
    (tx_ChargerOCPPIdentity r) (tx_OCPPConnectorNumber r) (tx_IDTag r) 
    (tx_OCPPTransactionID r) (tx_ActualStartedAt r) (tx_ObservedStartedAt r) 
    (tx_MeterStartWh r) (tx_LimitType r) (tx_LatestMeterWh r) (tx_ConsumedWh r) 
    (tx_MeterObservedAt r) (tx_MeterSequence r) (tx_InitialSoCPercent r) 
    (tx_LatestSoCPercent r) (tx_SoCObservedAt r) (tx_SoCSequence r) 
    (tx_EnergyLimitWh r) (tx_EnergyLimitSource r) (tx_MaxDurationSeconds r) 
    (tx_DurationLimitSource r) (tx_StopDeadlineAt r) (tx_StopState r) 
    (tx_RequestedStopInitiator r) (tx_RequestedStopReason r) 
    (tx_OCPPStopReason r) (tx_CompletedAt r) (tx_ObservedCompletedAt r) 
    (tx_MeterStopWh r) (tx_RawMeterStopWh r) (tx_MeterStopAdjustmentWh r) 
    (tx_MeterStopEvidence r) (tx_MeterQuantizationAnomalyCount r).

Record V1MeterTelemetry : Type := mkV1MeterTelemetry {
  tel_EnergyWh : option Z;
  tel_EnergyObservedAt : option Time;
  tel_SoCPercent : option V1SoCPercent;
  tel_SoCObservedAt : option Time
}.
#[global] Instance eta_V1MeterTelemetry : Eta V1MeterTelemetry := fun r =>
  mkV1MeterTelemetry (tel_EnergyWh r) (tel_EnergyObservedAt r) (tel_SoCPercent r) 
    (tel_SoCObservedAt r).

Record V1TelemetryUpdateResult : Type := mkV1TelemetryUpdateResult {
  tur_EnergyAccepted : bool;
  tur_SoCAccepted : bool
}.
#[global] Instance eta_V1TelemetryUpdateResult : Eta V1TelemetryUpdateResult := fun r =>
  mkV1TelemetryUpdateResult (tur_EnergyAccepted r) (tur_SoCAccepted r).

Record V1StopWorkflow : Type := mkV1StopWorkflow {
  wf_HALTransactionID : string;
  wf_RequestedStopInitiator : string;
  wf_RequestedStopReason : string;
  wf_State : string;
  wf_DeliveryAttempts : Z;
  wf_LastOCPPResult : string;
  wf_LastErrorCategory : string;
  wf_LastErrorDetail : string;
  wf_CreatedAt : Time;
  wf_UpdatedAt : Time;
  wf_CompletedAt : option Time
}.
#[global] Instance eta_V1StopWorkflow : Eta V1StopWorkflow := fun r =>
  mkV1StopWorkflow (wf_HALTransactionID r) (wf_RequestedStopInitiator r) 
    (wf_RequestedStopReason r) (wf_State r) (wf_DeliveryAttempts r) 
    (wf_LastOCPPResult r) (wf_LastErrorCategory r) (wf_LastErrorDetail r) 
    (wf_CreatedAt r) (wf_UpdatedAt r) (wf_CompletedAt r).

Record V1Fact : Type := mkV1Fact {
  fact_FactID : string;
  fact_FactType : string;
  fact_SchemaVersion : Z;
  fact_OccurredAt : Time;
  fact_Producer : string;
  fact_ContentSHA256 : string;
  fact_Payload : string;
  fact_Status : string;
  fact_Retries : Z;
  fact_NextRetryAt : Time;
  fact_ClaimedUntil : option Time;
  fact_ClaimToken : string;
  fact_DeliveryStatus : option Z;
  fact_LastError : string
}.
#[global] Instance eta_V1Fact : Eta V1Fact := fun r =>
  mkV1Fact (fact_FactID r) (fact_FactType r) (fact_SchemaVersion r) (fact_OccurredAt r) 
    (fact_Producer r) (fact_ContentSHA256 r) (fact_Payload r) (fact_Status r) 
    (fact_Retries r) (fact_NextRetryAt r) (fact_ClaimedUntil r) 
    (fact_ClaimToken r) (fact_DeliveryStatus r) (fact_LastError r).

Record V1ChargerRuntime : Type := mkV1ChargerRuntime {
  crt_CPOID : string;
  crt_CMSChargerID : string;
  crt_ChargerOCPPIdentity : string;
  crt_ConnectionState : string;
  crt_ConnectionGeneration : Z;
  crt_ConnectionSequence : Z;
  crt_ConnectedAt : option Time;
  crt_LastObservedAt : option Time;
  crt_UpdatedAt : Time;
  crt_Connectors : list V1ConnectorRuntime
}.
#[global] Instance eta_V1ChargerRuntime : Eta V1ChargerRuntime := fun r =>
  mkV1ChargerRuntime (crt_CPOID r) (crt_CMSChargerID r) (crt_ChargerOCPPIdentity r) 
    (crt_ConnectionState r) (crt_ConnectionGeneration r) 
    (crt_ConnectionSequence r) (crt_ConnectedAt r) (crt_LastObservedAt r) 
    (crt_UpdatedAt r) (crt_Connectors r).

Record V1BootEvidence : Type := mkV1BootEvidence {
  boot_PathSerial : string;
  boot_ChargeBoxSerialNumber : string;
  boot_ChargePointSerialNumber : string;
  boot_ChargePointVendor : string;
  boot_ChargePointModel : string;
  boot_FirmwareVersion : string;
  boot_ObservedAt : Time
}.
#[global] Instance eta_V1BootEvidence : Eta V1BootEvidence := fun r =>
  mkV1BootEvidence (boot_PathSerial r) (boot_ChargeBoxSerialNumber r) 
    (boot_ChargePointSerialNumber r) (boot_ChargePointVendor r) 
    (boot_ChargePointModel r) (boot_FirmwareVersion r) (boot_ObservedAt r).

Record V1StartMaterialization : Type := mkV1StartMaterialization {
  mat_ChargerOCPPIdentity : string;
  mat_OCPPConnectorNumber : Z;
  mat_IDTag : string;
  mat_MeterStartWh : Z;
  mat_ActualStartedAt : Time;
  mat_ObservedAt : Time;
  mat_OCPPTransactionID : Z
}.
#[global] Instance eta_V1StartMaterialization : Eta V1StartMaterialization := fun r =>
  mkV1StartMaterialization (mat_ChargerOCPPIdentity r) (mat_OCPPConnectorNumber r) (mat_IDTag r) 
    (mat_MeterStartWh r) (mat_ActualStartedAt r) (mat_ObservedAt r) 
    (mat_OCPPTransactionID r).

(** [telemetry.Empty()] *)
Definition Empty (telemetry : V1MeterTelemetry) : Prop :=
  tel_EnergyWh telemetry = None ∧ tel_SoCPercent telemetry = None.
#[global] Instance Empty_dec t : Decision (Empty t).
Proof.
  unfold Empty. apply and_dec.
  - destruct (tel_EnergyWh t); [right | left]; done.
  - destruct (tel_SoCPercent t); [right | left]; done.
Defined.

(** ** Trace data

    Go's [any] restricted to the dynamic types trace data takes: the scalars,
    [map[string]any], [[]any] and the two concrete slices the sanitiser
    distinguishes.  A [float64] is kept by its value when it is integral and
    opaquely otherwise, which is all the code can tell apart. *)
Inductive any : Type :=
  | ANil
  | ABool (b : bool)
  | AInt (n : Z)
  | AInt64 (n : Z)
  | AFloatInt (n : Z)              (* a float64 equal to the integer n *)
  | AFloatFrac (floor : Z)         (* a non-integral float64, by its floor *)
  | AString (s : string)
  | ATime (t : Time)               (* time.Time *)
  | AMap (m : gmap string any)     (* map[string]any *)
  | AList (l : list any)           (* []any *)
  | AStrings (l : list string)     (* []string *)
  | AMaps (l : list (gmap string any)). (* []map[string]any *)
Abbreviation data_map := (gmap string any).

Record V1Trace : Type := mkV1Trace {
  tr_TraceID : string;
  tr_CPOID : string;
  tr_CMSStartIntentID : string;
  tr_CMSChargingSessionID : string;
  tr_CMSCommandID : string;
  tr_CMSChargerOperationID : string;
  tr_HALChargerOperationID : string;
  tr_HALTransactionID : string;
  tr_OCPPTransactionID : option Z;
  tr_ChargerOCPPIdentity : string;
  tr_OCPPConnectorNumber : Z;
  tr_CreatedAt : Time
}.
#[global] Instance eta_V1Trace : Eta V1Trace := fun r =>
  mkV1Trace (tr_TraceID r) (tr_CPOID r) (tr_CMSStartIntentID r)
    (tr_CMSChargingSessionID r) (tr_CMSCommandID r) (tr_CMSChargerOperationID r)
    (tr_HALChargerOperationID r) (tr_HALTransactionID r) (tr_OCPPTransactionID r)
    (tr_ChargerOCPPIdentity r) (tr_OCPPConnectorNumber r) (tr_CreatedAt r).

Record V1TraceEvent : Type := mkV1TraceEvent {
  ev_EventID : string;
  ev_TraceID : string;
  ev_Source : string;
  ev_Target : string;
  ev_Category : string;
  ev_Protocol : string;
  ev_Phase : string;
  ev_Summary : string;
  ev_OccurredAt : Time;
  ev_RecordedAt : Time;
  ev_StateBefore : string;
  ev_StateAfter : string;
  ev_CorrelationID : string;
  ev_Data : any
}.

#[global] Instance eta_V1TraceEvent : Eta V1TraceEvent := fun r =>
  mkV1TraceEvent (ev_EventID r) (ev_TraceID r) (ev_Source r) (ev_Target r) (ev_Category r) (ev_Protocol r)
    (ev_Phase r) (ev_Summary r) (ev_OccurredAt r) (ev_RecordedAt r) (ev_StateBefore r) (ev_StateAfter r)
    (ev_CorrelationID r) (ev_Data r).

Record V1TraceEventInput : Type := mkV1TraceEventInput {
  evi_Source : string;
  evi_Target : string;
  evi_Category : string;
  evi_Protocol : string;
  evi_Phase : string;
  evi_Summary : string;
  evi_OccurredAt : Time;
  evi_StateBefore : string;
  evi_StateAfter : string;
  evi_CorrelationID : string;
  evi_Data : any
}.

#[global] Instance eta_V1TraceEventInput : Eta V1TraceEventInput := fun r =>
  mkV1TraceEventInput (evi_Source r) (evi_Target r) (evi_Category r) (evi_Protocol r) (evi_Phase r)
    (evi_Summary r) (evi_OccurredAt r) (evi_StateBefore r) (evi_StateAfter r) (evi_CorrelationID r) (evi_Data r).

Record V1TriggerMessageFollowOnWindow : Type := mkV1TriggerMessageFollowOnWindow {
  win_TraceID : string;
  win_RequestedMessage : string;
  win_ChargerOCPPIdentity : string;
  win_OCPPConnectorNumber : Z;
  win_AcceptedAt : Time;
  win_DeadlineAt : Time;
  win_State : string
}.
#[global] Instance eta_V1TriggerMessageFollowOnWindow :
    Eta V1TriggerMessageFollowOnWindow := fun r =>
  mkV1TriggerMessageFollowOnWindow (win_TraceID r) (win_RequestedMessage r)
    (win_ChargerOCPPIdentity r) (win_OCPPConnectorNumber r) (win_AcceptedAt r)
    (win_DeadlineAt r) (win_State r).
