(* ===== verification/Evidence.v ===== *)
(** * Protocol evidence (internal/store/v1_evidence.go, v1_meter_evidence.go)

    The two checks the v1 stores apply to what a charger reports: whether a
    charger clock is close enough to the receiver's, and how a raw meter
    register compares with the registers already accepted. *)
From Stdlib Require Import String.
From stdpp Require Import base numbers decidable option list strings gmap.
From S2P Require Import Prelude V1Types.
Open Scope Z_scope.

(** ** Definitions *)
Definition v1MaxProtocolClockSkew : GoTime.Duration := 15 * GoTime.Minute.

Definition plausibleV1ProtocolTime (protocolAt receivedAt : Time) : bool :=
  if decide (GoTime.IsZero protocolAt ∨ GoTime.IsZero receivedAt) then false
  else
    let delta := GoTime.Sub protocolAt receivedAt in
    let delta := if decide (delta < 0) then Int64.neg delta else delta in
    bool_decide (delta ≤ v1MaxProtocolClockSkew).

Definition v1MeterQuantizationToleranceWh : Z := 1.

Inductive v1MeterEvidenceClass : Type :=
  | v1MeterEvidenceExact
  | v1MeterEvidenceForward
  | v1MeterEvidenceQuantizationNormalized
  | v1MeterEvidenceContradictory.
#[global] Instance v1MeterEvidenceClass_eq_dec : EqDecision v1MeterEvidenceClass.
Proof. solve_decision. Defined.

(** The constants' string values, as [string(classification.Class)]. *)
Definition class_string (c : v1MeterEvidenceClass) : string :=
  match c with
  | v1MeterEvidenceExact => "EXACT"
  | v1MeterEvidenceForward => "FORWARD"
  | v1MeterEvidenceQuantizationNormalized => "QUANTIZATION_NORMALIZED"
  | v1MeterEvidenceContradictory => "CONTRADICTORY"
  end.

Record v1MeterEvidence : Type := mkv1MeterEvidence {
  me_Class : v1MeterEvidenceClass;
  me_EffectiveWh : Z;
  me_AdjustmentWh : Z
}.

Definition classifyV1MeterEvidence (meterStartWh : Z) (latestMeterWh : option Z)
    (rawMeterWh : Z) : v1MeterEvidence * option go_error :=
  if decide (rawMeterWh < meterStartWh) then
    (mkv1MeterEvidence v1MeterEvidenceContradictory 0 0, Some ErrV1InvalidEvidence)
  else
    match latestMeterWh with
    | None => (mkv1MeterEvidence v1MeterEvidenceExact rawMeterWh 0, None)
    | Some latest =>
      if decide (rawMeterWh = latest) then
        (mkv1MeterEvidence v1MeterEvidenceExact rawMeterWh 0, None)
      else if decide (rawMeterWh > latest) then
        (mkv1MeterEvidence v1MeterEvidenceForward rawMeterWh 0, None)
      else
        let adjustment := Int64.sub latest rawMeterWh in
        if decide (adjustment ≤ v1MeterQuantizationToleranceWh) then
          (mkv1MeterEvidence v1MeterEvidenceQuantizationNormalized latest adjustment, None)
        else
          (mkv1MeterEvidence v1MeterEvidenceContradictory 0 0,
           Some (ErrJoin ErrV1InvalidEvidence
                   (ErrOther "meter rollback exceeds quantization tolerance")))
    end.

(** ** Clock plausibility *)

Lemma Sub_neg t u :
  GoTime.Sub t u < 0 →
  Int64.neg (GoTime.Sub t u) =
    if decide (t - u ≤ Int64.min_value) then Int64.min_value else u - t.
Proof.
  unfold GoTime.Sub, Int64.neg. intros H. case_decide as D.
  - rewrite Z.max_l by (unfold Int64.min_value, Int64.max_value in *; lia).
    reflexivity.
  - rewrite Z.max_r, Z.min_r by (unfold Int64.min_value, Int64.max_value in *; lia).
    rewrite Int64.wrap64_id; unfold Int64.in_range, Int64.min_value, Int64.max_value in *; lia.
Qed.

(** The whole input-output behaviour of [plausibleV1ProtocolTime].  Two
    set instants are plausible exactly when they are at most fifteen minutes
    apart, or when the charger's instant is at least 2^63 ns (292 years)
    before the receiver's: there the saturated difference is its own negation
    and passes the bound. *)
Theorem plausibleV1ProtocolTime_spec protocolAt receivedAt :
  plausibleV1ProtocolTime protocolAt receivedAt = true ↔
  protocolAt ≠ 0 ∧ receivedAt ≠ 0 ∧
  (Z.abs (protocolAt - receivedAt) ≤ v1MaxProtocolClockSkew ∨
   protocolAt - receivedAt ≤ Int64.min_value).
Proof.
  unfold plausibleV1ProtocolTime, GoTime.IsZero.
  case_decide as Z; [split; [done | naive_solver]|].
  rewrite bool_decide_eq_true. case_decide as N.
  - rewrite Sub_neg by done. unfold GoTime.Sub in N. case_decide;
      unfold v1MaxProtocolClockSkew, GoTime.Minute, GoTime.Second,
        GoTime.Millisecond, GoTime.Microsecond, GoTime.Nanosecond,
        Int64.min_value, Int64.max_value in *; lia.
  - unfold GoTime.Sub, v1MaxProtocolClockSkew, GoTime.Minute, GoTime.Second,
      GoTime.Millisecond, GoTime.Microsecond, GoTime.Nanosecond,
      Int64.min_value, Int64.max_value in *. lia.
Qed.

(** ** Meter classification *)

(** What an accepted classification guarantees: the effective register never
    falls below the start nor the latest accepted register, and differs from
    the raw one by the recorded adjustment of at most one tolerance. *)
Lemma classify_accepted start latest raw ev :
  (∀ l, latest = Some l → start ≤ l) →
  Int64.in_range raw → Int64.in_range start → (∀ l, latest = Some l → Int64.in_range l) →
  0 ≤ start →
  classifyV1MeterEvidence start latest raw = (ev, None) →
  start ≤ raw ∧ me_EffectiveWh ev = Z.max raw (default raw latest) ∧
  me_AdjustmentWh ev = me_EffectiveWh ev - raw ∧
  0 ≤ me_AdjustmentWh ev ≤ v1MeterQuantizationToleranceWh ∧
  (me_Class ev = v1MeterEvidenceQuantizationNormalized ↔ me_AdjustmentWh ev ≠ 0) ∧
  me_Class ev ≠ v1MeterEvidenceContradictory.
Proof.
  unfold classifyV1MeterEvidence, Int64.sub. intros Hl Hr Hs Hlr Hs0 H.
  case_decide; [done|]. destruct latest as [l|]; simplify_eq/=.
  - specialize (Hl l eq_refl). specialize (Hlr l eq_refl).
    unfold Int64.in_range, Int64.min_value, Int64.max_value in *.
    case_decide; simplify_eq/=; [repeat split; try done; lia|].
    case_decide; simplify_eq/=; [repeat split; try done; lia|].
    rewrite Int64.wrap64_id in H
      by (unfold Int64.in_range, Int64.min_value, Int64.max_value; lia).
    case_decide; simplify_eq/=. repeat split; try done; lia.
  - repeat split; try done; unfold v1MeterQuantizationToleranceWh; lia.
Qed.
