(* ===== verification/V1Memory.v ===== *)
(** * The in-memory v1 store (internal/store/v1_memory.go, util.go)

    [V1MemoryStore] with its commands, credentials, transactions and charger
    operations.  Each method locks the store for its whole body, so it is one
    step of a state transformer.  What the method reads from outside the store
    is an argument: the clock ([now]), the generated identifier ([generated],
    the answer of uuid.NewRandom) and, where a loop over a map can stop early,
    the order in which the map is visited ([ks]). *)
From Stdlib Require Import String.
From stdpp Require Import base numbers decidable option list sorting strings gmap.
From S2P Require Import Prelude V1Types Evidence.
Open Scope Z_scope.

(** ** State *)
Record V1MemoryStore : Type := mkV1MemoryStore {
  ms_commands : gmap string V1RemoteCommand;
  ms_operations : gmap string V1ChargerOperation;
  ms_credentials : gmap string V1Credential;
  ms_transactions : gmap string V1Transaction;
  ms_traces : gmap string V1Trace;
  ms_traceEvents : gmap string (list V1TraceEvent);
  ms_followOnWindows : gmap string V1TriggerMessageFollowOnWindow;
  ms_followOnWindowErr : option go_error
}.
#[global] Instance eta_V1MemoryStore : Eta V1MemoryStore := fun r =>
  mkV1MemoryStore (ms_commands r) (ms_operations r) (ms_credentials r)
    (ms_transactions r) (ms_traces r) (ms_traceEvents r)
    (ms_followOnWindows r) (ms_followOnWindowErr r).

Definition NewV1MemoryStore : V1MemoryStore :=
  mkV1MemoryStore ∅ ∅ ∅ ∅ ∅ ∅ ∅ None.

(** ** Identifiers (util.go) *)
Definition uuid_Nil : string := "00000000-0000-0000-0000-000000000000".

(** [generated] is the answer of the third-party generator uuid.NewRandom. *)
Definition NewSecureUUIDString (generated : result string) : result string :=
  match generated with
  | inr err => inr ErrRandomness
  | inl id =>
    if decide (id = uuid_Nil) then inr (ErrOther "generate UUID: zero UUID") else inl id
  end.

(** ** Commands and credentials *)
Definition CreateV1StartCommand (s : V1MemoryStore) (now : Time) (generated : result string)
    (input : V1StartCommandInput) : V1MemoryStore * result (V1RemoteCommand * bool) :=
  match ms_commands s !! si_CMSCommandID input with
  | Some existing =>
    if decide (cmd_RequestDigest existing ≠ si_RequestDigest input) then
      (s, inr ErrV1IdempotencyConflict)
    else (s, inl (existing, true))
  | None =>
    match NewSecureUUIDString generated with
    | inr err => (s, inr err)
    | inl halCommandID =>
      let command := {|
        cmd_HALCommandID := halCommandID;
        cmd_CMSCommandID := si_CMSCommandID input;
        cmd_Kind := "START";
        cmd_RequestDigest := si_RequestDigest input;
        cmd_CPOID := si_CPOID input;
        cmd_CustomerID := "";
        cmd_CorrelationID := "";
        cmd_CMSStartIntentID := si_CMSStartIntentID input;
        cmd_CMSChargingSessionID := "";
        cmd_CMSChargerID := si_CMSChargerID input;
        cmd_CMSConnectorID := si_CMSConnectorID input;
        cmd_ChargerOCPPIdentity := si_ChargerOCPPIdentity input;
        cmd_OCPPConnectorNumber := si_OCPPConnectorNumber input;
        cmd_IDTag := si_IDTag input;
        cmd_CredentialExpiresAt := Some (si_CredentialExpiresAt input);
        cmd_CommandExpiresAt := si_CommandExpiresAt input;
        cmd_LimitType := si_LimitType input;
        cmd_EnergyLimitWh := si_EnergyLimitWh input;
        cmd_EnergyLimitSource := si_EnergyLimitSource input;
        cmd_MaxDurationSeconds := si_MaxDurationSeconds input;
        cmd_DurationLimitSource := si_DurationLimitSource input;
        cmd_RequestedStopInitiator := "";
        cmd_RequestedStopReason := "";
        cmd_HALTransactionID := "";
        cmd_OCPPTransactionID := None;
        cmd_State := "PERSISTED";
        cmd_DeliveryAttempts := 0;
        cmd_LastOCPPResult := "";
        cmd_LastErrorCategory := "";
        cmd_LastErrorDetail := "";
        cmd_CreatedAt := now;
        cmd_UpdatedAt := now
      |} in
      let credential := {|
        cred_IDTag := si_IDTag input;
        cred_CMSStartIntentID := si_CMSStartIntentID input;
        cred_CPOID := si_CPOID input;
        cred_CMSChargerID := si_CMSChargerID input;
        cred_CMSConnectorID := si_CMSConnectorID input;
        cred_ChargerOCPPIdentity := si_ChargerOCPPIdentity input;
        cred_OCPPConnectorNumber := si_OCPPConnectorNumber input;
        cred_ExpiresAt := si_CredentialExpiresAt input;
        cred_ConsumedAt := None;
        cred_HALTransactionID := ""
      |} in
      (s <| ms_commands ::= <[si_CMSCommandID input := command]> |>
         <| ms_credentials ::= <[si_IDTag input := credential]> |>,
       inl (command, false))
    end
  end.

Definition CreateV1StopCommand (s : V1MemoryStore) (now : Time) (generated : result string)
    (input : V1StopCommandInput) : V1MemoryStore * result (V1RemoteCommand * bool) :=
  match ms_commands s !! pi_CMSCommandID input with
  | Some existing =>
    if decide (cmd_RequestDigest existing ≠ pi_RequestDigest input) then
      (s, inr ErrV1IdempotencyConflict)
    else (s, inl (existing, true))
  | None =>
    match NewSecureUUIDString generated with
    | inr err => (s, inr err)
    | inl halCommandID =>
      let command := {|
        cmd_HALCommandID := halCommandID;
        cmd_CMSCommandID := pi_CMSCommandID input;
        cmd_Kind := "STOP";
        cmd_RequestDigest := pi_RequestDigest input;
        cmd_CPOID := pi_CPOID input;
        cmd_CustomerID := "";
        cmd_CorrelationID := "";
        cmd_CMSStartIntentID := "";
        cmd_CMSChargingSessionID := pi_CMSChargingSessionID input;
        cmd_CMSChargerID := pi_CMSChargerID input;
        cmd_CMSConnectorID := pi_CMSConnectorID input;
        cmd_ChargerOCPPIdentity := pi_ChargerOCPPIdentity input;
        cmd_OCPPConnectorNumber := pi_OCPPConnectorNumber input;
        cmd_IDTag := "";
        cmd_CredentialExpiresAt := None;
        cmd_CommandExpiresAt := pi_CommandExpiresAt input;
        cmd_LimitType := "";
        cmd_EnergyLimitWh := None;
        cmd_EnergyLimitSource := "";
        cmd_MaxDurationSeconds := None;
        cmd_DurationLimitSource := "";
        cmd_RequestedStopInitiator := pi_RequestedStopInitiator input;
        cmd_RequestedStopReason := pi_RequestedStopReason input;
        cmd_HALTransactionID := pi_HALTransactionID input;
        cmd_OCPPTransactionID := Some (pi_OCPPTransactionID input);
        cmd_State := "PERSISTED";
        cmd_DeliveryAttempts := 0;
        cmd_LastOCPPResult := "";
        cmd_LastErrorCategory := "";
        cmd_LastErrorDetail := "";
        cmd_CreatedAt := now;
        cmd_UpdatedAt := now
      |} in
      (s <| ms_commands ::= <[pi_CMSCommandID input := command]> |>, inl (command, false))
    end
  end.

Definition GetV1Command (s : V1MemoryStore) (cmsCommandID : string) : result V1RemoteCommand :=
  match ms_commands s !! cmsCommandID with
  | Some command => inl command
  | None => inr ErrV1CommandNotFound
  end.

Definition GetV1Credential (s : V1MemoryStore) (idTag : string) : result V1Credential :=
  match ms_credentials s !! idTag with
  | Some credential => inl credential
  | None => inr ErrV1CredentialRejected
  end.

(** ** Starting a transaction *)

(** The guards a credential must pass: [credential == nil || ...] negated. *)
Definition credential_usable (input : V1StartMaterialization) (credential : V1Credential) : Prop :=
  GoTime.After (cred_ExpiresAt credential) (mat_ObservedAt input) ∧
  cred_ChargerOCPPIdentity credential = mat_ChargerOCPPIdentity input ∧
  (cred_OCPPConnectorNumber credential = 0 ∨
   cred_OCPPConnectorNumber credential = mat_OCPPConnectorNumber input).
#[global] Instance credential_usable_dec i c : Decision (credential_usable i c).
Proof. unfold credential_usable. apply _. Defined.

(** [input.ObservedAt.Add(time.Duration(seconds) * time.Second)] *)
Definition stop_deadline (observedAt : Time) (maxDurationSeconds : option Z) : option Time :=
  (λ seconds, GoTime.Add observedAt (Int64.mul seconds GoTime.Second)) <$> maxDurationSeconds.

Definition new_transaction (halTransactionID : string) (input : V1StartMaterialization)
    (credential : V1Credential) (command : V1RemoteCommand) : V1Transaction := {|
  tx_HALTransactionID := halTransactionID;
  tx_CMSStartIntentID := cred_CMSStartIntentID credential;
  tx_CMSCommandID := cmd_CMSCommandID command;
  tx_CPOID := cred_CPOID credential;
  tx_CustomerID := "";
  tx_CMSChargerID := cred_CMSChargerID credential;
  tx_CMSConnectorID := cred_CMSConnectorID credential;
  tx_ChargerOCPPIdentity := mat_ChargerOCPPIdentity input;
  tx_OCPPConnectorNumber := mat_OCPPConnectorNumber input;
  tx_IDTag := mat_IDTag input;
  tx_OCPPTransactionID := mat_OCPPTransactionID input;
  tx_ActualStartedAt := mat_ActualStartedAt input;
  tx_ObservedStartedAt := mat_ObservedAt input;
  tx_MeterStartWh := mat_MeterStartWh input;
  tx_LimitType := cmd_LimitType command;
  tx_LatestMeterWh := None;
  tx_ConsumedWh := None;
  tx_MeterObservedAt := None;
  tx_MeterSequence := 0;
  tx_InitialSoCPercent := None;
  tx_LatestSoCPercent := None;
  tx_SoCObservedAt := None;
  tx_SoCSequence := 0;
  tx_EnergyLimitWh := cmd_EnergyLimitWh command;
  tx_EnergyLimitSource := cmd_EnergyLimitSource command;
  tx_MaxDurationSeconds := cmd_MaxDurationSeconds command;
  tx_DurationLimitSource := cmd_DurationLimitSource command;
  tx_StopDeadlineAt := stop_deadline (mat_ObservedAt input) (cmd_MaxDurationSeconds command);
  tx_StopState := "NONE";
  tx_RequestedStopInitiator := "";
  tx_RequestedStopReason := "";
  tx_OCPPStopReason := "";
  tx_CompletedAt := None;
  tx_ObservedCompletedAt := None;
  tx_MeterStopWh := None;
  tx_RawMeterStopWh := None;
  tx_MeterStopAdjustmentWh := None;
  tx_MeterStopEvidence := "";
  tx_MeterQuantizationAnomalyCount := 0
|}.

Definition MaterializeV1Start (s : V1MemoryStore) (ks : list string) (generated : result string)
    (input : V1StartMaterialization) : V1MemoryStore * result (V1Transaction * bool) :=
  if decide (mat_MeterStartWh input < 0 ∨ mat_OCPPTransactionID input ≤ 0 ∨
             mat_OCPPConnectorNumber input ≤ 0 ∨
             plausibleV1ProtocolTime (mat_ActualStartedAt input) (mat_ObservedAt input) = false)
  then (s, inr ErrV1InvalidEvidence)
  else
    match ms_credentials s !! mat_IDTag input with
    | None => (s, inr ErrV1CredentialRejected)
    | Some credential =>
      if decide (¬ credential_usable input credential) then (s, inr ErrV1CredentialRejected)
      else if decide (cred_HALTransactionID credential ≠ "") then
        match ms_transactions s !! cred_HALTransactionID credential with
        | Some tx =>
          if decide (tx_MeterStartWh tx = mat_MeterStartWh input) then (s, inl (tx, true))
          else (s, inr ErrV1CredentialRejected)
        | None => (s, inr ErrV1CredentialRejected)
        end
      else
        match range_first (ms_commands s)
                (λ candidate, cmd_Kind candidate = "START" ∧ cmd_IDTag candidate = mat_IDTag input) ks
        with
        | None => (s, inr ErrV1CredentialRejected)
        | Some (key, command) =>
          if decide (¬ GoTime.After (cmd_CommandExpiresAt command) (mat_ObservedAt input)) then
            (s, inr ErrV1CredentialRejected)
          else
            match NewSecureUUIDString generated with
            | inr err => (s, inr err)
            | inl halTransactionID =>
              let tx := new_transaction halTransactionID input credential command in
              let credential' := credential <| cred_HALTransactionID := halTransactionID |>
                                            <| cred_ConsumedAt := Some (mat_ObservedAt input) |> in
              let command' := command <| cmd_HALTransactionID := halTransactionID |>
                                      <| cmd_OCPPTransactionID := Some (mat_OCPPTransactionID input) |>
                                      <| cmd_State := "MATERIALIZED" |>
                                      <| cmd_UpdatedAt := mat_ObservedAt input |> in
              (s <| ms_credentials ::= <[mat_IDTag input := credential']> |>
                 <| ms_commands ::= <[key := command']> |>
                 <| ms_transactions ::= <[halTransactionID := tx]> |>,
               inl (tx, false))
            end
        end
    end.

(** ** Meter and telemetry evidence *)
Definition UpdateV1Meter (s : V1MemoryStore) (halTransactionID : string)
    (ocppTransactionID meterWh : Z) (observedAt : Time) :
    V1MemoryStore * (option V1Transaction * option go_error) :=
  match ms_transactions s !! halTransactionID with
  | None => (s, (None, Some ErrV1TransactionNotFound))
  | Some tx =>
    if decide (tx_OCPPTransactionID tx ≠ ocppTransactionID ∨ is_Some (tx_CompletedAt tx) ∨
               meterWh < tx_MeterStartWh tx)
    then (s, (None, Some ErrV1TransactionNotFound))
    else if decide (some_and (tx_LatestMeterWh tx) (λ latest, meterWh < latest)) then
      let '(classification, err) :=
        classifyV1MeterEvidence (tx_MeterStartWh tx) (tx_LatestMeterWh tx) meterWh in
      if decide (err ≠ None ∨ me_Class classification ≠ v1MeterEvidenceQuantizationNormalized)
      then (s, (Some tx, Some ErrV1InvalidEvidence))
      else
        let tx' := tx <| tx_MeterQuantizationAnomalyCount ::= λ n, Int64.add n 1 |> in
        (s <| ms_transactions ::= <[halTransactionID := tx']> |>, (Some tx', None))
    else
      let tx' := tx <| tx_LatestMeterWh := Some meterWh |>
                    <| tx_ConsumedWh := Some (Int64.sub meterWh (tx_MeterStartWh tx)) |>
                    <| tx_MeterObservedAt ::= λ previous,
                         match previous with
                         | None => Some observedAt
                         | Some p => if decide (GoTime.After observedAt p) then Some observedAt
                                     else Some p
                         end |>
                    <| tx_MeterSequence ::= λ n, Int64.add n 1 |> in
      (s <| ms_transactions ::= <[halTransactionID := tx']> |>, (Some tx', None))
  end.

(** The energy half of [UpdateV1TelemetryForOCPP] on one open transaction. *)
Definition apply_energy (telemetry : V1MeterTelemetry) (transaction : V1Transaction)
    (result : V1TelemetryUpdateResult) : V1Transaction * V1TelemetryUpdateResult :=
  match tel_EnergyWh telemetry, tel_EnergyObservedAt telemetry with
  | Some meter, Some at_ =>
    if decide (tx_MeterStartWh transaction ≤ meter ∧
               (tx_LatestMeterWh transaction = None ∨
                some_and (tx_LatestMeterWh transaction) (λ latest, latest ≤ meter)))
    then
      let observed :=
        match tx_MeterObservedAt transaction with
        | Some previous => if decide (GoTime.Before at_ previous) then previous else at_
        | None => at_
        end in
      (transaction <| tx_LatestMeterWh := Some meter |>
                   <| tx_ConsumedWh := Some (Int64.sub meter (tx_MeterStartWh transaction)) |>
                   <| tx_MeterObservedAt := Some observed |>
                   <| tx_MeterSequence ::= λ n, Int64.add n 1 |>,
       result <| tur_EnergyAccepted := true |>)
    else (transaction, result)
  | _, _ => (transaction, result)
  end.

(** The state-of-charge half. *)
Definition apply_soc (telemetry : V1MeterTelemetry) (transaction : V1Transaction)
    (result : V1TelemetryUpdateResult) : V1Transaction * V1TelemetryUpdateResult :=
  match tel_SoCPercent telemetry, tel_SoCObservedAt telemetry with
  | Some soc, Some observed =>
    if decide (tx_SoCObservedAt transaction = None ∨
               some_and (tx_SoCObservedAt transaction) (λ previous, GoTime.After observed previous))
    then
      (transaction <| tx_InitialSoCPercent ::= λ initial,
                        match initial with None => Some soc | Some v => Some v end |>
                   <| tx_LatestSoCPercent := Some soc |>
                   <| tx_SoCObservedAt := Some observed |>
                   <| tx_SoCSequence ::= λ n, Int64.add n 1 |>,
       result <| tur_SoCAccepted := true |>)
    else (transaction, result)
  | _, _ => (transaction, result)
  end.

Definition UpdateV1TelemetryForOCPP (s : V1MemoryStore) (ks : list string) (identity : string)
    (ocppTransactionID : Z) (telemetry : V1MeterTelemetry) :
    V1MemoryStore * (option V1Transaction * V1TelemetryUpdateResult * option go_error) :=
  let result := mkV1TelemetryUpdateResult false false in
  match range_first (ms_transactions s)
          (λ transaction, tx_ChargerOCPPIdentity transaction = identity ∧
                          tx_OCPPTransactionID transaction = ocppTransactionID) ks with
  | None => (s, (None, result, Some ErrV1TransactionNotFound))
  | Some (key, transaction) =>
    if decide (is_Some (tx_CompletedAt transaction)) then (s, (Some transaction, result, None))
    else
      let '(transaction, result) := apply_energy telemetry transaction result in
      let '(transaction, result) := apply_soc telemetry transaction result in
      (s <| ms_transactions ::= <[key := transaction]> |>, (Some transaction, result, None))
  end.

(** ** Stopping and completing *)
Definition RequestV1Stop (s : V1MemoryStore) (halTransactionID initiator reason : string) :
    V1MemoryStore * result (V1Transaction * bool) :=
  match ms_transactions s !! halTransactionID with
  | None => (s, inr ErrV1TransactionNotFound)
  | Some tx =>
    if decide (is_Some (tx_CompletedAt tx)) then (s, inr ErrV1TransactionNotFound)
    else if decide (tx_StopState tx ≠ "NONE") then (s, inl (tx, false))
    else
      let tx' := tx <| tx_StopState := "PENDING_DELIVERY" |>
                    <| tx_RequestedStopInitiator := initiator |>
                    <| tx_RequestedStopReason := reason |> in
      (s <| ms_transactions ::= <[halTransactionID := tx']> |>, inl (tx', true))
  end.

(** The projection written when a completion is accepted. *)
Definition complete_with (tx : V1Transaction) (classification : v1MeterEvidence)
    (meterStopWh : Z) (ocppReason : string) (completedAt observedAt : Time) : V1Transaction :=
  let effectiveStopWh := me_EffectiveWh classification in
  tx <| tx_MeterStopWh := Some effectiveStopWh |>
     <| tx_RawMeterStopWh := Some meterStopWh |>
     <| tx_MeterStopAdjustmentWh := Some (me_AdjustmentWh classification) |>
     <| tx_MeterStopEvidence := class_string (me_Class classification) |>
     <| tx_LatestMeterWh := Some effectiveStopWh |>
     <| tx_ConsumedWh := Some (Int64.sub effectiveStopWh (tx_MeterStartWh tx)) |>
     <| tx_MeterObservedAt ::= λ previous,
          match previous with
          | None => Some completedAt
          | Some p => if decide (GoTime.After completedAt p) then Some completedAt else Some p
          end |>
     <| tx_OCPPStopReason := ocppReason |>
     <| tx_StopState := "COMPLETED" |>
     <| tx_CompletedAt := Some completedAt |>
     <| tx_ObservedCompletedAt := Some observedAt |>.

(** A replay matches when it repeats the stored raw register, reason and time. *)
Definition replay_matches (tx : V1Transaction) (meterStopWh : Z) (ocppReason : string)
    (completedAt : Time) : Prop :=
  let expectedRaw :=
    match tx_RawMeterStopWh tx with Some raw => Some raw | None => tx_MeterStopWh tx end in
  expectedRaw = Some meterStopWh ∧ tx_OCPPStopReason tx = ocppReason ∧
  some_and (tx_CompletedAt tx) (λ at_, GoTime.Equal at_ completedAt).
#[global] Instance replay_matches_dec tx m r c : Decision (replay_matches tx m r c).
Proof. unfold replay_matches. apply _. Defined.

Definition CompleteV1Transaction (s : V1MemoryStore) (halTransactionID : string)
    (meterStopWh : Z) (ocppReason : string) (completedAt observedAt : Time) :
    V1MemoryStore * result V1Transaction :=
  match ms_transactions s !! halTransactionID with
  | None => (s, inr ErrV1TransactionNotFound)
  | Some tx =>
    if decide (is_Some (tx_CompletedAt tx)) then
      if decide (replay_matches tx meterStopWh ocppReason completedAt) then (s, inl tx)
      else (s, inr ErrV1InvalidEvidence)
    else if decide (GoTime.Before completedAt (tx_ActualStartedAt tx) ∨
                    GoTime.Before observedAt (tx_ObservedStartedAt tx) ∨
                    plausibleV1ProtocolTime completedAt observedAt = false)
    then (s, inr ErrV1InvalidEvidence)
    else if decide (some_and (tx_MeterObservedAt tx) (λ at_, GoTime.After at_ completedAt) ∧
                    some_and (tx_LatestMeterWh tx) (λ latest, meterStopWh < latest))
    then (s, inr ErrV1InvalidEvidence)
    else
      match classifyV1MeterEvidence (tx_MeterStartWh tx) (tx_LatestMeterWh tx) meterStopWh with
      | (_, Some _) => (s, inr ErrV1InvalidEvidence)
      | (classification, None) =>
        let tx' := complete_with tx classification meterStopWh ocppReason completedAt observedAt in
        (s <| ms_transactions ::= <[halTransactionID := tx']> |>, inl tx')
      end
  end.

Definition GetV1Transaction (s : V1MemoryStore) (id : string) : result V1Transaction :=
  match ms_transactions s !! id with
  | Some tx => inl tx
  | None => inr ErrV1TransactionNotFound
  end.

(** The memory store has no fact outbox. *)
Definition RequeueV1Fact (s : V1MemoryStore) (factID correlationID : string) :
    V1MemoryStore * option go_error := (s, Some ErrV1FactNotFound).

(** * Theorems *)

(** ** Well-formed transactions *)

(** What every stored transaction satisfies: registers never fall below the
    start register, the consumption is derived from the latest register, the
    completion fields are set together and the stop register is the raw one
    plus the recorded adjustment. *)
Definition wf_meter (tx : V1Transaction) : Prop :=
  0 ≤ tx_MeterStartWh tx ∧ Int64.in_range (tx_MeterStartWh tx) ∧
  match tx_LatestMeterWh tx with
  | None => tx_ConsumedWh tx = None ∧ tx_MeterObservedAt tx = None
  | Some latest =>
    tx_MeterStartWh tx ≤ latest ∧ Int64.in_range latest ∧
    tx_ConsumedWh tx = Some (latest - tx_MeterStartWh tx) ∧ is_Some (tx_MeterObservedAt tx)
  end.

Definition wf_completion (tx : V1Transaction) : Prop :=
  match tx_CompletedAt tx with
  | None =>
    (tx_StopState tx = "NONE" ∨ tx_StopState tx = "PENDING_DELIVERY") ∧
    tx_MeterStopWh tx = None ∧ tx_RawMeterStopWh tx = None ∧
    tx_MeterStopAdjustmentWh tx = None ∧ tx_ObservedCompletedAt tx = None
  | Some completedAt =>
    tx_StopState tx = "COMPLETED" ∧ tx_ActualStartedAt tx ≤ completedAt ∧
    is_Some (tx_ObservedCompletedAt tx) ∧
    ∃ raw adjustment,
      tx_RawMeterStopWh tx = Some raw ∧ tx_MeterStopAdjustmentWh tx = Some adjustment ∧
      tx_MeterStopWh tx = Some (raw + adjustment) ∧ tx_LatestMeterWh tx = Some (raw + adjustment) ∧
      0 ≤ adjustment ≤ v1MeterQuantizationToleranceWh
  end.

Definition wf_soc (tx : V1Transaction) : Prop :=
  (tx_SoCObservedAt tx = None ↔ tx_LatestSoCPercent tx = None) ∧
  (tx_LatestSoCPercent tx = None ↔ tx_InitialSoCPercent tx = None).

Definition wf_tx (tx : V1Transaction) : Prop := wf_meter tx ∧ wf_completion tx ∧ wf_soc tx.

(** The fields fixed when the transaction is materialized. *)
Definition tx_identity (tx : V1Transaction) :=
  (tx_HALTransactionID tx, tx_CMSStartIntentID tx, tx_CMSCommandID tx, tx_CPOID tx,
   tx_CMSChargerID tx, tx_CMSConnectorID tx, tx_ChargerOCPPIdentity tx,
   tx_OCPPConnectorNumber tx, tx_IDTag tx, tx_OCPPTransactionID tx,
   tx_ActualStartedAt tx, tx_ObservedStartedAt tx, tx_MeterStartWh tx,
   (tx_LimitType tx, tx_EnergyLimitWh tx, tx_EnergyLimitSource tx,
    tx_MaxDurationSeconds tx, tx_DurationLimitSource tx, tx_StopDeadlineAt tx)).

(** How a stored transaction may change: its identity never does, its register
    and observation clocks only move forward, the initial state of charge is
    kept, and nothing changes after completion. *)
Definition opt_le (o o' : option Z) : Prop :=
  match o, o' with
  | None, _ => True
  | Some a, Some b => a ≤ b
  | Some _, None => False
  end.
#[global] Instance opt_le_refl : Reflexive opt_le.
Proof. intros [a|]; simpl; lia. Qed.
#[global] Instance opt_le_trans : Transitive opt_le.
Proof. intros [a|] [b|] [c|]; simpl; lia || done. Qed.

Record tx_evolves (tx tx' : V1Transaction) : Prop := {
  evolves_identity : tx_identity tx' = tx_identity tx;
  evolves_meter : opt_le (tx_LatestMeterWh tx) (tx_LatestMeterWh tx');
  evolves_observed : opt_le (tx_MeterObservedAt tx) (tx_MeterObservedAt tx');
  evolves_soc : opt_le (tx_SoCObservedAt tx) (tx_SoCObservedAt tx');
  evolves_initial : is_Some (tx_InitialSoCPercent tx) →
                    tx_InitialSoCPercent tx' = tx_InitialSoCPercent tx;
  evolves_stop : tx_StopState tx ≠ "NONE" → tx_StopState tx' ≠ "NONE";
  evolves_final : is_Some (tx_CompletedAt tx) → tx' = tx
}.
#[global] Instance tx_evolves_refl : Reflexive tx_evolves.
Proof. intros tx. by split. Qed.
#[global] Instance tx_evolves_trans : Transitive tx_evolves.
Proof.
  intros t1 t2 t3 [i m o c n p f] [i' m' o' c' n' p' f']. split.
  - congruence.
  - by trans (tx_LatestMeterWh t2).
  - by trans (tx_MeterObservedAt t2).
  - by trans (tx_SoCObservedAt t2).
  - intros Hs. rewrite n'; [by apply n|]. by rewrite n.
  - auto.
  - intros Hc. rewrite f' by (rewrite f; done). auto.
Qed.

(** [advances tx tx']: from a well-formed open transaction to a well-formed
    successor of it. *)
Definition advances (tx tx' : V1Transaction) : Prop :=
  wf_tx tx → tx_CompletedAt tx = None → wf_tx tx' ∧ tx_evolves tx tx'.

Ltac wf_unfold := unfold wf_tx, wf_meter, wf_completion, wf_soc in *; simpl in *.
Ltac int64_unfold := unfold Int64.in_range, Int64.min_value, Int64.max_value in *.

Lemma sub_in_range a b :
  0 ≤ b → b ≤ a → Int64.in_range a → Int64.sub a b = a - b.
Proof. intros. unfold Int64.sub. rewrite Int64.wrap64_id; [done|]. int64_unfold. lia. Qed.

(** Storing a register that is not below the latest one. *)
Lemma advance_meter tx meter (observed : Time) :
  Int64.in_range meter → tx_MeterStartWh tx ≤ meter →
  opt_le (tx_LatestMeterWh tx) (Some meter) →
  opt_le (tx_MeterObservedAt tx) (Some observed) →
  advances tx (tx <| tx_LatestMeterWh := Some meter |>
                  <| tx_ConsumedWh := Some (Int64.sub meter (tx_MeterStartWh tx)) |>
                  <| tx_MeterObservedAt := Some observed |>
                  <| tx_MeterSequence ::= λ n, Int64.add n 1 |>).
Proof.
  intros Hr Hs Hl Ho Hwf Hopen. split.
  - wf_unfold. rewrite Hopen in *. destruct Hwf as ((H0 & Hsr & _) & Hc & Hsoc).
    rewrite sub_in_range by done. split_and!; first [tauto | done | by eauto].
  - split; simpl; try done. intros [? ?]. congruence.
Qed.

Lemma advance_anomaly tx f :
  advances tx (tx <| tx_MeterQuantizationAnomalyCount ::= f |>).
Proof.
  intros Hwf Hopen. split; [done|]. split; simpl; try done. intros [? ?]; congruence.
Qed.

Lemma apply_energy_advances tel tx r :
  (∀ w, tel_EnergyWh tel = Some w → Int64.in_range w) →
  advances tx (apply_energy tel tx r).1.
Proof.
  intros Hr. unfold apply_energy.
  destruct (tel_EnergyWh tel) as [w|]; [|by intros ? ?].
  destruct (tel_EnergyObservedAt tel) as [at_|]; [|by intros ? ?].
  case_decide as D; [|by intros ? ?]. destruct D as [Hs Hl].
  apply advance_meter; [by auto|done|..].
  - destruct Hl as [->|Hl]; [done|]. destruct (tx_LatestMeterWh tx); simpl in *; lia || done.
  - destruct (tx_MeterObservedAt tx) as [p|]; [simpl|done]. unfold GoTime.Before. case_decide; lia.
Qed.

Lemma apply_soc_advances tel tx r : advances tx (apply_soc tel tx r).1.
Proof.
  unfold apply_soc.
  destruct (tel_SoCPercent tel) as [soc|]; [|by intros ? ?].
  destruct (tel_SoCObservedAt tel) as [at_|]; [|by intros ? ?].
  case_decide as D; [|by intros ? ?]. intros Hwf Hopen. split.
  - wf_unfold. rewrite Hopen in *. split_and!; try tauto.
    all: destruct (tx_InitialSoCPercent tx); done.
  - split; simpl; try done.
    + destruct D as [->|D]; [done|]. destruct (tx_SoCObservedAt tx); simpl in *;
        [unfold GoTime.After in D; lia|done].
    + by intros [? ->].
    + intros [? ?]. congruence.
Qed.

Lemma apply_energy_open tel tx r :
  tx_CompletedAt (apply_energy tel tx r).1 = tx_CompletedAt tx.
Proof. unfold apply_energy. repeat case_match; done. Qed.

Lemma advances_trans t1 t2 t3 :
  tx_CompletedAt t2 = tx_CompletedAt t1 → advances t1 t2 → advances t2 t3 → advances t1 t3.
Proof.
  intros Hc A B W O. destruct (A W O) as [W2 E2].
  destruct (B W2) as [W3 E3]; [congruence|]. split; [done|by trans t2].
Qed.

(** The hypotheses of [classify_accepted] hold at a well-formed transaction. *)
Lemma classify_wf tx raw ev :
  wf_tx tx → Int64.in_range raw →
  classifyV1MeterEvidence (tx_MeterStartWh tx) (tx_LatestMeterWh tx) raw = (ev, None) →
  tx_MeterStartWh tx ≤ me_EffectiveWh ev ∧ Int64.in_range (me_EffectiveWh ev) ∧
  opt_le (tx_LatestMeterWh tx) (Some (me_EffectiveWh ev)) ∧
  me_AdjustmentWh ev = me_EffectiveWh ev - raw ∧
  0 ≤ me_AdjustmentWh ev ≤ v1MeterQuantizationToleranceWh.
Proof.
  intros ((H0 & Hr0 & Hm) & _) Hr Hc.
  assert (∀ l, tx_LatestMeterWh tx = Some l → tx_MeterStartWh tx ≤ l ∧ Int64.in_range l) as Hl.
  { intros l El. rewrite El in Hm. tauto. }
  apply classify_accepted in Hc as (Hs & He & Ha & Hb & _);
    [|by intros; apply Hl|done|done|by intros; apply Hl|done].
  rewrite He in *. destruct (tx_LatestMeterWh tx) as [l|]; simpl in *.
  - destruct (Hl l eq_refl). int64_unfold. split_and!; lia.
  - split_and!; [lia|int64_unfold; lia|done|lia..].
Qed.

Lemma complete_advances tx ev raw reason completedAt observedAt :
  Int64.in_range raw → tx_ActualStartedAt tx ≤ completedAt →
  classifyV1MeterEvidence (tx_MeterStartWh tx) (tx_LatestMeterWh tx) raw = (ev, None) →
  advances tx (complete_with tx ev raw reason completedAt observedAt).
Proof.
  intros Hr Hstart Hcl Hwf Hopen.
  destruct (classify_wf _ _ _ Hwf Hr Hcl) as (He & Her & Hle & Ha & Hb).
  pose proof Hwf as ((H0 & Hr0 & Hm) & Hc & Hsoc). split.
  - unfold wf_tx, wf_meter, wf_completion, wf_soc. simpl. rewrite sub_in_range by done.
    split_and!; try done; [by repeat case_match| |by apply Hsoc..].
    exists raw, (me_AdjustmentWh ev). rewrite Ha in *. split_and!; try done; f_equal; lia.
  - split; simpl; try done.
    + destruct (tx_MeterObservedAt tx) as [p|]; simpl; [|done].
      unfold GoTime.After. case_decide; simpl; lia.
    + intros [? ?]. congruence.
Qed.

(** ** The store as a transition system *)

(** One call of a mutating method, with the answers of its environment. *)
Inductive mem_call : Type :=
  | CallStart (now : Time) (generated : result string) (input : V1StartCommandInput)
  | CallStop (now : Time) (generated : result string) (input : V1StopCommandInput)
  | CallMaterialize (ks : list string) (generated : result string)
      (input : V1StartMaterialization)
  | CallMeter (id : string) (ocppID meterWh : Z) (observedAt : Time)
  | CallTelemetry (ks : list string) (identity : string) (ocppID : Z)
      (telemetry : V1MeterTelemetry)
  | CallRequestStop (id initiator reason : string)
  | CallComplete (id : string) (meterStopWh : Z) (reason : string)
      (completedAt observedAt : Time).

Definition mem_exec (s : V1MemoryStore) (c : mem_call) : V1MemoryStore :=
  match c with
  | CallStart now g i => (CreateV1StartCommand s now g i).1
  | CallStop now g i => (CreateV1StopCommand s now g i).1
  | CallMaterialize ks g i => (MaterializeV1Start s ks g i).1
  | CallMeter id o m a => (UpdateV1Meter s id o m a).1
  | CallTelemetry ks i o t => (UpdateV1TelemetryForOCPP s ks i o t).1
  | CallRequestStop id i r => (RequestV1Stop s id i r).1
  | CallComplete id m r c o => (CompleteV1Transaction s id m r c o).1
  end.

(** What the Go types and the generator guarantee of a call: [int64]
    registers, non-empty identifiers that no transaction uses yet. *)
Definition mem_call_ok (s : V1MemoryStore) (c : mem_call) : Prop :=
  match c with
  | CallMaterialize _ g i =>
    Int64.in_range (mat_MeterStartWh i) ∧
    (∀ id, NewSecureUUIDString g = inl id → id ≠ "" ∧ ms_transactions s !! id = None)
  | CallMeter _ _ m _ => Int64.in_range m
  | CallTelemetry _ _ _ t => ∀ w, tel_EnergyWh t = Some w → Int64.in_range w
  | CallComplete _ m _ _ _ => Int64.in_range m
  | _ => True
  end.

Inductive mem_reachable : V1MemoryStore → Prop :=
  | mem_init : mem_reachable NewV1MemoryStore
  | mem_step s c : mem_reachable s → mem_call_ok s c → mem_reachable (mem_exec s c).

(** Every call leaves the transactions alone, advances one of them, or adds a
    fresh well-formed one. *)
Inductive txs_change (m : gmap string V1Transaction) : gmap string V1Transaction → Prop :=
  | txs_same : txs_change m m
  | txs_advance k tx tx' :
      m !! k = Some tx → tx_CompletedAt tx = None → advances tx tx' →
      txs_change m (<[k := tx']> m)
  | txs_fresh k tx :
      m !! k = None → tx_HALTransactionID tx = k → wf_tx tx →
      txs_change m (<[k := tx]> m).
#[export] Hint Constructors txs_change : hal.

Lemma UpdateV1Meter_change s id o m at_ :
  Int64.in_range m →
  txs_change (ms_transactions s) (ms_transactions (UpdateV1Meter s id o m at_).1).
Proof.
  intros Hr. unfold UpdateV1Meter. destruct (ms_transactions s !! id) as [tx|] eqn:E; [|constructor].
  case_decide as G; [constructor|].
  assert (tx_CompletedAt tx = None) as Ho.
  { destruct (tx_CompletedAt tx) eqn:?; [exfalso; apply G; eauto|done]. }
  assert (tx_MeterStartWh tx ≤ m) by (destruct (decide (m < tx_MeterStartWh tx)); [tauto|lia]).
  case_decide as L.
  - destruct (classifyV1MeterEvidence _ _ _) as [ev err]. case_decide; [constructor|]. simpl.
    eapply txs_advance; [done..|]. apply advance_anomaly.
  - simpl. eapply txs_advance; [done..|].
    assert (opt_le (tx_LatestMeterWh tx) (Some m)).
    { destruct (tx_LatestMeterWh tx); simpl in *; lia || done. }
    destruct (tx_MeterObservedAt tx) as [p|] eqn:Ep.
    + unfold set_field at 2. simpl. rewrite Ep. unfold GoTime.After.
      case_decide; apply (advance_meter tx m); rewrite ?Ep; simpl; done || lia.
    + unfold set_field at 2. simpl. rewrite Ep. apply (advance_meter tx m); rewrite ?Ep; done.
Qed.

Lemma UpdateV1Telemetry_change s ks i o t :
  (∀ w, tel_EnergyWh t = Some w → Int64.in_range w) →
  txs_change (ms_transactions s) (ms_transactions (UpdateV1TelemetryForOCPP s ks i o t).1).
Proof.
  intros Hr. unfold UpdateV1TelemetryForOCPP.
  destruct (range_first _ _ ks) as [[k tx]|] eqn:E; [|constructor].
  apply range_first_Some in E as (_ & E & _). case_decide as G; [constructor|].
  assert (tx_CompletedAt tx = None) as Ho.
  { destruct (tx_CompletedAt tx) eqn:?; [exfalso; apply G; eauto|done]. }
  destruct (apply_energy _ _ _) as [tx1 r1] eqn:E1.
  destruct (apply_soc _ _ _) as [tx2 r2] eqn:E2. simpl.
  eapply txs_advance; [done..|]. apply advances_trans with tx1.
  - pose proof (apply_energy_open t tx (mkV1TelemetryUpdateResult false false)) as H.
    by rewrite E1 in H.
  - pose proof (apply_energy_advances t tx (mkV1TelemetryUpdateResult false false) Hr) as H.
    by rewrite E1 in H.
  - pose proof (apply_soc_advances t tx1 r1) as H. by rewrite E2 in H.
Qed.

Lemma RequestV1Stop_change s id i r :
  txs_change (ms_transactions s) (ms_transactions (RequestV1Stop s id i r).1).
Proof.
  unfold RequestV1Stop. destruct (ms_transactions s !! id) as [tx|] eqn:E; [|constructor].
  case_decide as G; [constructor|]. case_decide as N; [constructor|]. simpl.
  assert (tx_CompletedAt tx = None) as Ho.
  { destruct (tx_CompletedAt tx) eqn:?; [exfalso; apply G; eauto|done]. }
  eapply txs_advance; [done..|]. intros Hwf _. split.
  - wf_unfold. rewrite Ho in Hwf |- *. tauto.
  - by split; simpl.
Qed.

Lemma CompleteV1Transaction_change s id m r c o :
  Int64.in_range m →
  txs_change (ms_transactions s) (ms_transactions (CompleteV1Transaction s id m r c o).1).
Proof.
  intros Hr. unfold CompleteV1Transaction.
  destruct (ms_transactions s !! id) as [tx|] eqn:E; [|constructor].
  case_decide as G; [case_decide; constructor|].
  case_decide as B; [constructor|]. case_decide; [constructor|].
  destruct (classifyV1MeterEvidence _ _ _) as [ev [err|]] eqn:Ec; [constructor|]. simpl.
  eapply txs_advance; [done|by destruct (tx_CompletedAt tx); [exfalso; eauto|]|].
  apply complete_advances; [done| |done].
  unfold GoTime.Before in B. destruct (decide (c < tx_ActualStartedAt tx)); [tauto|lia].
Qed.

Lemma new_transaction_wf id input credential command :
  0 ≤ mat_MeterStartWh input → Int64.in_range (mat_MeterStartWh input) →
  wf_tx (new_transaction id input credential command).
Proof. intros H0 Hr. unfold wf_tx, wf_meter, wf_completion, wf_soc. simpl. naive_solver. Qed.

(** The successful branch of [MaterializeV1Start], inverted. *)
Lemma MaterializeV1Start_inv s ks g input s' tx :
  MaterializeV1Start s ks g input = (s', inl (tx, false)) →
  ∃ credential key command id,
    0 ≤ mat_MeterStartWh input ∧ 0 < mat_OCPPTransactionID input ∧
    0 < mat_OCPPConnectorNumber input ∧
    plausibleV1ProtocolTime (mat_ActualStartedAt input) (mat_ObservedAt input) = true ∧
    ms_credentials s !! mat_IDTag input = Some credential ∧
    credential_usable input credential ∧ cred_HALTransactionID credential = "" ∧
    ms_commands s !! key = Some command ∧ cmd_Kind command = "START" ∧
    cmd_IDTag command = mat_IDTag input ∧
    GoTime.After (cmd_CommandExpiresAt command) (mat_ObservedAt input) ∧
    NewSecureUUIDString g = inl id ∧
    tx = new_transaction id input credential command ∧
    ms_transactions s' = <[id := tx]> (ms_transactions s) ∧
    ms_credentials s' = <[mat_IDTag input :=
      credential <| cred_HALTransactionID := id |>
                 <| cred_ConsumedAt := Some (mat_ObservedAt input) |>]> (ms_credentials s) ∧
    (∃ command', ms_commands s' = <[key := command']> (ms_commands s) ∧
       cmd_State command' = "MATERIALIZED" ∧ cmd_HALTransactionID command' = id ∧
       cmd_OCPPTransactionID command' = Some (mat_OCPPTransactionID input)).
Proof.
  unfold MaterializeV1Start. intros H.
  case_decide as G; [simplify_eq|].
  destruct (ms_credentials s !! mat_IDTag input) as [c|] eqn:Ec; [|simplify_eq].
  case_decide as U; [simplify_eq|]. case_decide as N; [by repeat case_match; simplify_eq|].
  destruct (range_first _ _ ks) as [[key command]|] eqn:Er; [|simplify_eq].
  apply range_first_Some in Er as (_ & Hcmd & Hk & Ht).
  case_decide as X; [simplify_eq|].
  destruct (NewSecureUUIDString g) as [id|] eqn:Eu; simplify_eq/=.
  exists c, key, command, id.
  assert (plausibleV1ProtocolTime (mat_ActualStartedAt input) (mat_ObservedAt input) = true).
  { destruct (plausibleV1ProtocolTime _ _); [done|tauto]. }
  split_and!; try lia; try done; [by apply dec_stable..|]. eauto 10.
Qed.

(** Any other answer leaves the store as it was. *)
Lemma MaterializeV1Start_frame s ks g input :
  match (MaterializeV1Start s ks g input).2 with
  | inl (_, false) => True
  | _ => (MaterializeV1Start s ks g input).1 = s
  end.
Proof.
  unfold MaterializeV1Start. repeat (case_decide || case_match; simplify_eq/=; try done).
Qed.

Lemma MaterializeV1Start_change s ks g input :
  mem_call_ok s (CallMaterialize ks g input) →
  txs_change (ms_transactions s) (ms_transactions (MaterializeV1Start s ks g input).1).
Proof.
  intros [Hr Hfresh]. pose proof (MaterializeV1Start_frame s ks g input) as Hf.
  destruct (MaterializeV1Start s ks g input) as [s' [[tx []]|err]] eqn:E; simpl in *;
    [by subst; constructor| |by subst; constructor].
  apply MaterializeV1Start_inv in E
    as (c & key & command & id & H0 & _ & _ & _ & _ & _ & _ & _ & _ & _ & _ & Hid & -> & -> & _).
  destruct (Hfresh id Hid). apply txs_fresh; [done..|]. by apply new_transaction_wf.
Qed.

Lemma mem_exec_change s c :
  mem_call_ok s c → txs_change (ms_transactions s) (ms_transactions (mem_exec s c)).
Proof.
  destruct c; simpl; intros Hok.
  - unfold CreateV1StartCommand. repeat (case_match || case_decide); constructor.
  - unfold CreateV1StopCommand. repeat (case_match || case_decide); constructor.
  - by apply MaterializeV1Start_change.
  - by apply UpdateV1Meter_change.
  - by apply UpdateV1Telemetry_change.
  - apply RequestV1Stop_change.
  - by apply CompleteV1Transaction_change.
Qed.

Lemma txs_change_lookup m m' k tx :
  txs_change m m' → m !! k = Some tx → wf_tx tx → ∃ tx', m' !! k = Some tx' ∧ tx_evolves tx tx'.
Proof.
  intros Hc Hk Hwf. destruct Hc as [|k' t t' E Ho A|k' t E Hid W].
  - by exists tx.
  - rewrite lookup_insert. case_decide as D; subst; [|by exists tx].
    assert (t = tx) as -> by congruence. destruct (A Hwf Ho). eauto.
  - exists tx. split; [|done]. rewrite lookup_insert_ne; [done|congruence].
Qed.

(** ** Properties of the transition system *)

(** Every transaction of every reachable store is filed under its own
    identifier and well formed: registers are never below the start register,
    consumption is latest minus start, and the completion fields are set
    together with the stop register equal to the raw one plus an adjustment of
    at most one watt-hour. *)
Theorem mem_reachable_wf s :
  mem_reachable s →
  ∀ k tx, ms_transactions s !! k = Some tx → tx_HALTransactionID tx = k ∧ wf_tx tx.
Proof.
  induction 1 as [|s c Hs IH Hok]; intros k tx; [done|].
  destruct (mem_exec_change s c Hok) as [|k' t t' E Ho A|k' t E Hid W]; intros Hk; [by auto|..].
  - apply lookup_insert_Some in Hk as [[-> <-]|[_ Hk]]; [|by auto].
    destruct (IH _ _ E) as [Hid Hwf]. destruct (A Hwf Ho) as [W' Ev]. split; [|done].
    pose proof (evolves_identity _ _ Ev) as Hi. unfold tx_identity in Hi. congruence.
  - apply lookup_insert_Some in Hk as [[-> <-]|[_ Hk]]; by auto.
Qed.

(** No call ever loses a transaction, changes what it was materialized
    with, moves its register or its observation clocks backwards, or changes
    it at all once it is completed. *)
Theorem mem_exec_evolves s c k tx :
  mem_reachable s → mem_call_ok s c → ms_transactions s !! k = Some tx →
  ∃ tx', ms_transactions (mem_exec s c) !! k = Some tx' ∧ tx_evolves tx tx'.
Proof.
  intros Hs Hok Hk. apply (txs_change_lookup (ms_transactions s)); [by apply mem_exec_change|done|].
  by eapply mem_reachable_wf.
Qed.

(** A completion is accepted at most once and is then the transaction's
    only accepted evidence: repeating the same register, reason and charger
    time (at any later receiver time) returns the stored transaction and leaves
    the store unchanged, any other evidence is refused. *)
Theorem CompleteV1Transaction_replay s id m r c o s' tx m' r' c' o' :
  mem_reachable s → Int64.in_range m →
  CompleteV1Transaction s id m r c o = (s', inl tx) →
  CompleteV1Transaction s' id m' r' c' o' =
    if decide (m' = m ∧ r' = r ∧ c' = c) then (s', inl tx) else (s', inr ErrV1InvalidEvidence).
Proof.
  intros Hs Hm Hc. assert (ms_transactions s' !! id = Some tx ∧ is_Some (tx_CompletedAt tx) ∧
    replay_matches tx m r c ∧ is_Some (tx_RawMeterStopWh tx)) as (Hk & Hcomp & Hrep & Hraw).
  { unfold CompleteV1Transaction in Hc.
    destruct (ms_transactions s !! id) as [t|] eqn:E; [|simplify_eq].
    destruct (mem_reachable_wf s Hs _ _ E) as [_ (_ & Hcompl & _)].
    case_decide as G.
    - case_decide as R; simplify_eq. split_and!; try done. destruct G as [at_ G].
      unfold wf_completion in Hcompl. rewrite G in Hcompl. naive_solver.
    - case_decide; [simplify_eq|]. case_decide; [simplify_eq|].
      destruct (classifyV1MeterEvidence _ _ _) as [ev [|]]; simplify_eq/=.
      rewrite lookup_insert_eq. split_and!; done || by eauto. }
  unfold CompleteV1Transaction. rewrite Hk, decide_True by done.
  destruct Hrep as (Hr1 & Hr2 & Hr3). destruct Hraw as [raw Hraw], Hcomp as [at_ Hat].
  unfold replay_matches, GoTime.Equal in *. rewrite Hraw, Hat in *. simpl in *.
  injection Hr1 as ->. subst.
  case_decide as D1; case_decide as D2; try done; exfalso; rewrite Hraw, Hat in D1; simpl in D1.
  - destruct D1 as (D & <- & <-). apply D2. split_and!; congruence.
  - destruct D2 as (-> & -> & ->). by apply D1.
Qed.

(** Starting is idempotent per credential: once a credential has been
    turned into a transaction, presenting it again while it is valid returns
    that transaction unchanged when the start register is the same, and is
    refused when it differs; neither changes the store. *)
Theorem MaterializeV1Start_replay s ks g input s' tx ks' g' input' :
  MaterializeV1Start s ks g input = (s', inl (tx, false)) →
  mem_call_ok s (CallMaterialize ks g input) →
  mat_IDTag input' = mat_IDTag input → 0 ≤ mat_MeterStartWh input' →
  0 < mat_OCPPTransactionID input' → 0 < mat_OCPPConnectorNumber input' →
  plausibleV1ProtocolTime (mat_ActualStartedAt input') (mat_ObservedAt input') = true →
  (∀ c, ms_credentials s !! mat_IDTag input = Some c → credential_usable input' c) →
  MaterializeV1Start s' ks' g' input' =
    (s', if decide (mat_MeterStartWh input' = mat_MeterStartWh input)
         then inl (tx, true) else inr ErrV1CredentialRejected).
Proof.
  intros Hm [_ Hfresh] Ht H0 H1 H2 Hp Hu.
  apply MaterializeV1Start_inv in Hm
    as (c & key & command & id & _ & _ & _ & _ & Hc & _ & _ & _ & _ & _ & _ & Hid & -> & Htx & Hcred & _).
  specialize (Hu _ Hc). destruct (Hfresh _ Hid) as [Hne _].
  unfold MaterializeV1Start. rewrite decide_False by (rewrite Hp; intros [?|[?|[?|?]]]; lia || done).
  rewrite Ht, Hcred, lookup_insert_eq. simpl.
  rewrite decide_False by (intros n; apply n; done).
  rewrite decide_True by done. rewrite Htx, lookup_insert_eq. simpl.
  repeat case_decide; congruence.
Qed.

(** Reachability under an issuer that never reuses an id tag for a second
    start command, as PostgreSQL's primary key on id_tag enforces. *)
Definition issues_fresh_tag (s : V1MemoryStore) (c : mem_call) : Prop :=
  match c with
  | CallStart _ _ i => ms_credentials s !! si_IDTag i = None
  | _ => True
  end.

Inductive mem_reachable_fresh : V1MemoryStore → Prop :=
  | fresh_init : mem_reachable_fresh NewV1MemoryStore
  | fresh_step s c :
      mem_reachable_fresh s → mem_call_ok s c → issues_fresh_tag s c →
      mem_reachable_fresh (mem_exec s c).

(** The credential of a transaction's tag names that transaction. *)
Definition tags_bound (s : V1MemoryStore) : Prop :=
  ∀ k tx, ms_transactions s !! k = Some tx →
  k ≠ "" ∧ ∃ c, ms_credentials s !! tx_IDTag tx = Some c ∧ cred_HALTransactionID c = k.

(** A call that only touches transactions keeps the binding. *)
Lemma tags_bound_txs s s' :
  tags_bound s → ms_credentials s' = ms_credentials s →
  (∀ k tx', ms_transactions s' !! k = Some tx' →
     ∃ tx, ms_transactions s !! k = Some tx ∧ tx_IDTag tx' = tx_IDTag tx) →
  tags_bound s'.
Proof. intros Hs Hc Ht k tx' Hk. destruct (Ht _ _ Hk) as (tx & E & ->). rewrite Hc. eauto. Qed.

Lemma mem_reachable_fresh_reachable s : mem_reachable_fresh s → mem_reachable s.
Proof. induction 1; by constructor. Qed.
#[export] Hint Resolve mem_reachable_fresh_reachable : hal.

Lemma credentials_frame s c :
  match c with CallStart _ _ _ | CallMaterialize _ _ _ => True
  | _ => ms_credentials (mem_exec s c) = ms_credentials s end.
Proof.
  destruct c; try done; simpl;
    unfold CreateV1StopCommand, UpdateV1Meter, UpdateV1TelemetryForOCPP, RequestV1Stop,
      CompleteV1Transaction; repeat (case_match || case_decide); try done.
Qed.

(** Without a fresh transaction, every transaction has a predecessor with its tag. *)
Lemma txs_advance_tag s c k tx' :
  mem_reachable s → mem_call_ok s c →
  match c with CallStart _ _ _ | CallMaterialize _ _ _ => False | _ => True end →
  ms_transactions (mem_exec s c) !! k = Some tx' →
  ∃ tx, ms_transactions s !! k = Some tx ∧ tx_IDTag tx' = tx_IDTag tx.
Proof.
  intros Hs Hok Hc Hk. destruct (ms_transactions s !! k) as [tx|] eqn:E.
  - destruct (mem_exec_evolves s c k tx Hs Hok E) as (tx1 & Hk1 & Hev).
    exists tx. split; [done|]. pose proof (evolves_identity _ _ Hev) as Hid.
    unfold tx_identity in Hid. congruence.
  - exfalso. destruct c; try done; simpl in Hk;
      unfold CreateV1StopCommand, UpdateV1Meter, UpdateV1TelemetryForOCPP, RequestV1Stop,
        CompleteV1Transaction in Hk;
      repeat (case_decide || case_match; simplify_eq/=; try congruence);
      try match goal with H : range_first _ _ _ = Some _ |- _ =>
        apply range_first_Some in H as (_ & ? & _) end;
      apply lookup_insert_Some in Hk as [[-> _]|[_ ?]]; congruence.
Qed.

Lemma tags_bound_start s now g i :
  tags_bound s → ms_credentials s !! si_IDTag i = None →
  tags_bound (CreateV1StartCommand s now g i).1.
Proof.
  intros Hb Hn. unfold CreateV1StartCommand.
  destruct (ms_commands s !! _); [case_decide; done|].
  destruct (NewSecureUUIDString g); [|done]. intros k tx Hk. simpl in *.
  destruct (Hb _ _ Hk) as (Hne & c & Hc & <-). split; [done|]. exists c.
  rewrite lookup_insert_ne; [done|congruence].
Qed.

Lemma tags_bound_materialize s ks g i :
  tags_bound s → mem_call_ok s (CallMaterialize ks g i) →
  tags_bound (MaterializeV1Start s ks g i).1.
Proof.
  intros Hb [_ Hfresh]. pose proof (MaterializeV1Start_frame s ks g i) as Hf.
  destruct (MaterializeV1Start s ks g i) as [s' [[tx []]|err]] eqn:E; simpl in *;
    [by subst| |by subst].
  apply MaterializeV1Start_inv in E
    as (c & key & command & id & _ & _ & _ & _ & Hc & _ & He & _ & _ & _ & _ & Hid & -> & Htx & Hcr & _).
  destruct (Hfresh _ Hid) as [Hne _]. intros k t. rewrite Htx, Hcr.
  intros [[<- <-]|[_ Hk]]%lookup_insert_Some.
  - split; [done|]. simpl. rewrite lookup_insert_eq. eauto.
  - destruct (Hb _ _ Hk) as (Hk0 & c' & Hc' & <-). split; [done|].
    exists c'. rewrite lookup_insert_ne; [done|]. intros Heq. rewrite Heq in Hc. congruence.
Qed.

(** A start credential is single-use: when no id tag is issued twice, no
    sequence of calls produces two transactions for one id tag, however often
    and in whatever order charger starts are presented or replayed. *)
Theorem credential_single_use s k1 k2 tx1 tx2 :
  mem_reachable_fresh s →
  ms_transactions s !! k1 = Some tx1 → ms_transactions s !! k2 = Some tx2 →
  tx_IDTag tx1 = tx_IDTag tx2 → k1 = k2.
Proof.
  intros Hs H1 H2 Ht. assert (tags_bound s) as Hb; last first.
  { destruct (Hb _ _ H1) as (_ & c1 & Hc1 & <-), (Hb _ _ H2) as (_ & c2 & Hc2 & <-). congruence. }
  clear -Hs. induction Hs as [|s c Hs IH Hok Hi]; [done|].
  pose proof (credentials_frame s c) as Hcr.
  pose proof (λ k tx, txs_advance_tag s c k tx (mem_reachable_fresh_reachable _ Hs) Hok) as Htag.
  destruct c; try (by eapply tags_bound_txs; eauto); simpl in *.
  - by apply tags_bound_start.
  - by apply tags_bound_materialize.
Qed.

(** ** Deadlines *)

(** The automatic stop deadline is the receiver's start time plus the
    commanded number of seconds as long as that duration fits in an int64 of
    nanoseconds (about 292 years); from the first number of seconds that does
    not fit, the multiplication wraps and the deadline precedes the start. *)
Theorem stop_deadline_spec observedAt seconds :
  (0 ≤ seconds ≤ 9223372036 →
   stop_deadline observedAt (Some seconds) = Some (observedAt + seconds * 1000000000)) ∧
  ∃ deadline, stop_deadline observedAt (Some 9223372037) = Some deadline ∧ deadline < observedAt.
Proof.
  unfold stop_deadline, GoTime.Add, Int64.mul. split.
  - intros H. simpl. f_equal. f_equal. rewrite Int64.wrap64_id; [done|].
    unfold GoTime.Second, GoTime.Millisecond, GoTime.Microsecond, GoTime.Nanosecond.
    int64_unfold. lia.
  - eexists. split; [reflexivity|].
    assert (wrap64 (9223372037 * GoTime.Second) < 0) by (vm_compute; done). lia.
Qed.

(** ** Command creation *)

(** Command creation is idempotent on the CMS command identifier: after a
    start command is created, every further start or stop creation under that
    identifier leaves the store unchanged and returns the stored command when
    the request digest is the same, and an idempotency conflict otherwise. *)
Theorem CreateV1StartCommand_idempotent s now g input s' command now' g' input' :
  CreateV1StartCommand s now g input = (s', inl (command, false)) →
  si_CMSCommandID input' = si_CMSCommandID input →
  CreateV1StartCommand s' now' g' input' =
    (s', if decide (si_RequestDigest input' = si_RequestDigest input)
         then inl (command, true) else inr ErrV1IdempotencyConflict) ∧
  ∀ stop, pi_CMSCommandID stop = si_CMSCommandID input →
    CreateV1StopCommand s' now' g' stop =
      (s', if decide (pi_RequestDigest stop = si_RequestDigest input)
           then inl (command, true) else inr ErrV1IdempotencyConflict).
Proof.
  intros H Hid.
  assert (ms_commands s' !! si_CMSCommandID input = Some command ∧
          cmd_RequestDigest command = si_RequestDigest input) as [Hk Hd].
  { unfold CreateV1StartCommand in H. destruct (ms_commands s !! _); [by case_decide|].
    destruct (NewSecureUUIDString g); [|done]. injection H as <- <-. simpl.
    by rewrite lookup_insert_eq. }
  unfold CreateV1StartCommand, CreateV1StopCommand. rewrite Hid, Hk, Hd. split.
  - by repeat case_decide; congruence.
  - intros stop ->. rewrite Hk, Hd. by repeat case_decide; congruence.
Qed.

(** * Concrete runs *)
Module MemoryRuns.
Definition start_input : V1StartCommandInput :=
  mkV1StartCommandInput "cmd-1" "digest" "cpo" "cust" "corr" "intent" "charger" "connector"
    "CP-1" 1 "appv1_tag" (1000 * GoTime.Second) (2000 * GoTime.Second) "AUTO"
    (Some 500) "WALLET" (Some 3600) "CUSTOMER_TIME".
Definition uuid (n : nat) : result string :=
  inl (match n with 0 => "uuid-0" | 1 => "uuid-1" | _ => "uuid-n" end)%nat.
Definition s1 : V1MemoryStore := mem_exec NewV1MemoryStore (CallStart 1 (uuid 0) start_input).
Definition start (meter : Z) : V1StartMaterialization :=
  mkV1StartMaterialization "CP-1" 1 "appv1_tag" meter (500 * GoTime.Second)
    (501 * GoTime.Second) 77.
Definition call2 : mem_call := CallMaterialize ["cmd-1"] (uuid 1) (start 100).
Definition s2 : V1MemoryStore := mem_exec s1 call2.
Definition call3 : mem_call := CallMeter "uuid-1" 77 160 (600 * GoTime.Second).
Definition s3 : V1MemoryStore := mem_exec s2 call3.
Definition call4 : mem_call :=
  CallComplete "uuid-1" 159 "Remote" (700 * GoTime.Second) (701 * GoTime.Second).
Definition s4 : V1MemoryStore := mem_exec s3 call4.

Lemma call2_ok : mem_call_ok s1 call2.
Proof.
  split; [by int64_unfold; vm_compute|]. intros id Hid. vm_compute in Hid. by simplify_eq.
Defined.

Lemma s2_fresh : mem_reachable_fresh s2.
Proof.
  apply fresh_step; [|apply call2_ok|done].
  apply fresh_step; [constructor|done|reflexivity].
Defined.

Lemma s3_reachable : mem_reachable s3.
Proof.
  apply mem_step; [apply mem_reachable_fresh_reachable, s2_fresh|]. by int64_unfold; vm_compute.
Defined.

Lemma s4_reachable : mem_reachable s4.
Proof. apply mem_step; [apply s3_reachable|]. by int64_unfold; vm_compute. Defined.

Definition the_tx (s : V1MemoryStore) : option V1Transaction := ms_transactions s !! "uuid-1".

(** The run starts, meters 160 Wh and stops one watt-hour lower. *)
Example run_result :
  (λ t, (tx_MeterStopWh t, tx_RawMeterStopWh t, tx_MeterStopAdjustmentWh t, tx_ConsumedWh t,
         tx_MeterStopEvidence t, tx_StopState t)) <$> the_tx s4 =
  Some (Some 160, Some 159, Some 1, Some 60, "QUANTIZATION_NORMALIZED", "COMPLETED").
Proof. vm_compute. reflexivity. Qed.
End MemoryRuns.

Lemma mem_reachable_wf_witness :
  ∃ tx, ms_transactions MemoryRuns.s4 !! "uuid-1" = Some tx ∧ tx_HALTransactionID tx = "uuid-1" ∧ wf_tx tx.
Proof.
  eexists. split; [vm_compute; reflexivity|].
  apply (mem_reachable_wf MemoryRuns.s4 MemoryRuns.s4_reachable "uuid-1"). vm_compute. reflexivity.
Defined.

Lemma mem_exec_evolves_witness :
  ∃ tx tx', ms_transactions MemoryRuns.s3 !! "uuid-1" = Some tx ∧
    ms_transactions MemoryRuns.s4 !! "uuid-1" = Some tx' ∧ tx_evolves tx tx'.
Proof.
  eexists. destruct (mem_exec_evolves MemoryRuns.s3 MemoryRuns.call4 "uuid-1" _
    MemoryRuns.s3_reachable ltac:(by int64_unfold; vm_compute) ltac:(vm_compute; reflexivity))
    as (tx' & H & E).
  exists tx'. split; [vm_compute; reflexivity|]. split; [exact H|exact E].
Defined.

Lemma CompleteV1Transaction_replay_witness :
  ∃ tx, CompleteV1Transaction MemoryRuns.s4 "uuid-1" 159 "Remote" (700 * GoTime.Second)
          (900 * GoTime.Second) = (MemoryRuns.s4, inl tx) ∧
        CompleteV1Transaction MemoryRuns.s4 "uuid-1" 160 "Remote" (700 * GoTime.Second)
          (900 * GoTime.Second) = (MemoryRuns.s4, inr ErrV1InvalidEvidence).
Proof.
  eexists. split.
  - exact (CompleteV1Transaction_replay MemoryRuns.s3 "uuid-1" 159 "Remote" (700 * GoTime.Second)
      (701 * GoTime.Second) MemoryRuns.s4 _ 159 "Remote" (700 * GoTime.Second) (900 * GoTime.Second)
      MemoryRuns.s3_reachable ltac:(by int64_unfold; vm_compute) ltac:(vm_compute; reflexivity)).
  - exact (CompleteV1Transaction_replay MemoryRuns.s3 "uuid-1" 159 "Remote" (700 * GoTime.Second)
      (701 * GoTime.Second) MemoryRuns.s4 _ 160 "Remote" (700 * GoTime.Second) (900 * GoTime.Second)
      MemoryRuns.s3_reachable ltac:(by int64_unfold; vm_compute) ltac:(vm_compute; reflexivity)).
Defined.

Lemma MaterializeV1Start_replay_witness :
  MaterializeV1Start MemoryRuns.s2 [] (MemoryRuns.uuid 2) (MemoryRuns.start 101) =
    (MemoryRuns.s2, inr ErrV1CredentialRejected).
Proof.
  refine (MaterializeV1Start_replay MemoryRuns.s1 ["cmd-1"] (MemoryRuns.uuid 1)
    (MemoryRuns.start 100) MemoryRuns.s2 _ [] (MemoryRuns.uuid 2) (MemoryRuns.start 101)
    _ MemoryRuns.call2_ok _ _ _ _ _ _); try (vm_compute; congruence).
  - vm_compute. reflexivity.
  - intros c Hc. vm_compute in Hc. injection Hc as <-. vm_compute. naive_solver.
Defined.

Lemma credential_single_use_witness :
  ∃ tx, ms_transactions MemoryRuns.s2 !! "uuid-1" = Some tx ∧ "uuid-1" = "uuid-1".
Proof.
  eexists. split; [vm_compute; reflexivity|].
  eapply (credential_single_use MemoryRuns.s2 "uuid-1" "uuid-1" _ _ MemoryRuns.s2_fresh);
    vm_compute; reflexivity.
Defined.

Lemma CreateV1StartCommand_idempotent_witness :
  ∃ command, CreateV1StartCommand MemoryRuns.s1 9 (MemoryRuns.uuid 2) MemoryRuns.start_input =
    (MemoryRuns.s1, inl (command, true)).
Proof.
  eexists. refine (proj1 (CreateV1StartCommand_idempotent NewV1MemoryStore 1 (MemoryRuns.uuid 0)
    MemoryRuns.start_input MemoryRuns.s1 _ 9 (MemoryRuns.uuid 2) MemoryRuns.start_input _ _));
    vm_compute; reflexivity.
Defined.
