(* ===== verification/Operations.v ===== *)
(** * Charger operations: persistence, claim and dispatch

    The CPO charger-operation ledger in both stores (v1_memory.go,
    v1_operations_postgres.go) behind the interface
    [v1ChargerOperationRecoveryStore] of internal/ocpp16hal/v1.go, and the
    dispatcher that is its client.  The at-most-once theorem is proved once,
    against the interface's laws; each store discharges the laws. *)
From Stdlib Require Import String.
From stdpp Require Import base numbers decidable option list sorting strings gmap.
From S2P Require Import Prelude V1Types V1Memory.
Open Scope Z_scope.

(** ** The memory ledger (v1_memory.go) *)
Definition new_operation (id : string) (now : Time) (input : V1ChargerOperationInput) :
    V1ChargerOperation := {|
  op_HALOperationID := id;
  op_CMSOperationID := oi_CMSOperationID input;
  op_TraceID := oi_TraceID input;
  op_RequestDigest := oi_RequestDigest input;
  op_CPOID := oi_CPOID input;
  op_CMSChargerID := oi_CMSChargerID input;
  op_CMSConnectorID := oi_CMSConnectorID input;
  op_ChargerOCPPIdentity := oi_ChargerOCPPIdentity input;
  op_OCPPConnectorNumber := oi_OCPPConnectorNumber input;
  op_Kind := oi_Kind input;
  op_Parameters := oi_Parameters input;
  op_ConfigurationKeys :=
    (* append([]string(nil), keys...) is nil when there is nothing to append *)
    match oi_ConfigurationKeys input with Some [] => None | keys => keys end;
  op_CorrelationID := oi_CorrelationID input;
  op_State := "PERSISTED";
  op_DeliveryAttempts := 0;
  op_OCPPResult := "";
  op_ErrorCategory := "";
  op_CreatedAt := now;
  op_UpdatedAt := now;
  op_CompletedAt := None
|}.

Definition CreateV1ChargerOperation (s : V1MemoryStore) (now : Time) (generated : result string)
    (input : V1ChargerOperationInput) : V1MemoryStore * result (V1ChargerOperation * bool) :=
  match ms_operations s !! oi_CMSOperationID input with
  | Some existing =>
    if decide (op_RequestDigest existing ≠ oi_RequestDigest input) then
      (s, inr ErrV1IdempotencyConflict)
    else (s, inl (existing, true))
  | None =>
    match NewSecureUUIDString generated with
    | inr err => (s, inr err)
    | inl id =>
      let op := new_operation id now input in
      (s <| ms_operations ::= <[oi_CMSOperationID input := op]> |>, inl (op, false))
    end
  end.

Definition GetV1ChargerOperation (s : V1MemoryStore) (id : string) : result V1ChargerOperation :=
  match ms_operations s !! id with
  | Some operation => inl operation
  | None => inr ErrV1OperationNotFound
  end.

Definition ClaimV1ChargerOperationDelivery (s : V1MemoryStore) (now : Time) (id : string) :
    V1MemoryStore * result (V1ChargerOperation * bool) :=
  match ms_operations s !! id with
  | None => (s, inr ErrV1OperationNotFound)
  | Some op =>
    if decide (op_State op ≠ "PERSISTED") then (s, inl (op, false))
    else
      let op' := op <| op_State := "DELIVERY_ATTEMPTED" |>
                    <| op_DeliveryAttempts ::= λ n, Int64.add n 1 |>
                    <| op_UpdatedAt := now |> in
      (s <| ms_operations ::= <[id := op']> |>, inl (op', true))
  end.

Definition MarkV1ChargerOperationDelivery (s : V1MemoryStore) (now : Time)
    (id state result_ category : string) : V1MemoryStore * result V1ChargerOperation :=
  match ms_operations s !! id with
  | None => (s, inr ErrV1OperationNotFound)
  | Some op =>
    if decide (op_State op ≠ "DELIVERY_ATTEMPTED") then (s, inl op)
    else
      let op' := op <| op_State := state |> <| op_OCPPResult := result_ |>
                    <| op_ErrorCategory := category |> <| op_UpdatedAt := now |> in
      let op' := if decide (state = "OCPP_CONFIRMED" ∨ state = "RECONCILIATION_REQUIRED")
                 then op' <| op_CompletedAt := Some now |> else op' in
      (s <| ms_operations ::= <[id := op']> |>, inl op')
  end.

Definition recover_operation (now : Time) (op : V1ChargerOperation) : V1ChargerOperation :=
  if decide (op_State op = "DELIVERY_ATTEMPTED") then
    op <| op_State := "RECONCILIATION_REQUIRED" |>
       <| op_ErrorCategory := "recovery_ambiguous" |>
       <| op_UpdatedAt := now |> <| op_CompletedAt := Some now |>
  else op.

Definition RecoverV1ChargerOperationDelivery (s : V1MemoryStore) (now : Time) : V1MemoryStore :=
  s <| ms_operations ::= fmap (recover_operation now) |>.

(** The comparison of slices.SortFunc: creation time, then identifier. *)
Definition op_before (left_ right_ : V1ChargerOperation) : Prop :=
  GoTime.Before (op_CreatedAt left_) (op_CreatedAt right_) ∨
  (op_CreatedAt left_ = op_CreatedAt right_ ∧
   String.le (op_CMSOperationID left_) (op_CMSOperationID right_)).
#[global] Instance op_before_dec : RelDecision op_before.
Proof. intros l r. unfold op_before. apply _. Defined.

Definition dispatchable (identity : string) (op : V1ChargerOperation) : Prop :=
  op_State op = "PERSISTED" ∧ (identity = "" ∨ op_ChargerOCPPIdentity op = identity).
#[global] Instance dispatchable_dec i op : Decision (dispatchable i op).
Proof. unfold dispatchable. apply _. Defined.

(** [ks] is the order in which the map is visited; see
    [ListV1Dispatchable_order] for its irrelevance. *)
Definition ListV1DispatchableChargerOperations (s : V1MemoryStore) (ks : list string)
    (identity : string) (limit : Z) : list V1ChargerOperation :=
  if decide (limit ≤ 0) then []
  else
    let operations := merge_sort op_before
                        (range_filter (ms_operations s) (dispatchable identity) ks).*2 in
    if decide (Z.of_nat (length operations) > limit) then take (Z.to_nat limit) operations
    else operations.

(** ** The PostgreSQL ledger (v1_operations_postgres.go)

    One table keyed by cms_operation_id (UNIQUE in migration 020).  Every
    method issues at most one writing statement, which PostgreSQL runs
    atomically; that statement is the method's step. *)
Module PgOperations.
Record table : Type := mktable { rows : gmap string V1ChargerOperation }.

Definition normalizeV1ConfigurationKeys (keys : option (list string)) : option (list string) :=
  match keys with None => Some [] | Some l => Some l end.

Definition Get (t : table) (id : string) : result V1ChargerOperation :=
  match rows t !! id with
  | Some operation =>
    inl (operation <| op_ConfigurationKeys ::= normalizeV1ConfigurationKeys |>)
  | None => inr ErrV1OperationNotFound
  end.

(** INSERT ... ON CONFLICT (cms_operation_id) DO NOTHING, then the lookup. *)
Definition Create (t : table) (now : Time) (generated : result string)
    (input : V1ChargerOperationInput) : table * result (V1ChargerOperation * bool) :=
  match NewSecureUUIDString generated with
  | inr err => (t, inr err)
  | inl id =>
    match rows t !! oi_CMSOperationID input with
    | Some _ =>
      match Get t (oi_CMSOperationID input) with
      | inr err => (t, inr err)
      | inl existing =>
        if decide (op_RequestDigest existing ≠ oi_RequestDigest input) then
          (t, inr ErrV1IdempotencyConflict)
        else (t, inl (existing, true))
      end
    | None =>
      let row := (new_operation id now input)
        <| op_ConfigurationKeys := normalizeV1ConfigurationKeys (oi_ConfigurationKeys input) |> in
      let t' := mktable (<[oi_CMSOperationID input := row]> (rows t)) in
      match Get t' (oi_CMSOperationID input) with
      | inl op => (t', inl (op, false))
      | inr err => (t', inr err)
      end
    end
  end.

Definition Claim (t : table) (now : Time) (id : string) :
    table * result (V1ChargerOperation * bool) :=
  let '(t', affected) :=
    match rows t !! id with
    | Some op =>
      if decide (op_State op = "PERSISTED") then
        (mktable (<[id := op <| op_State := "DELIVERY_ATTEMPTED" |>
                             <| op_DeliveryAttempts ::= λ n, n + 1 |>
                             <| op_UpdatedAt := now |>]> (rows t)), 1)
      else (t, 0)
    | None => (t, 0)
    end in
  match Get t' id with
  | inr err => (t', inr err)
  | inl op => (t', inl (op, bool_decide (affected = 1)))
  end.

Definition Mark (t : table) (now : Time) (id state result_ category : string) :
    table * result V1ChargerOperation :=
  let t' :=
    match rows t !! id with
    | Some op =>
      if decide (op_State op = "DELIVERY_ATTEMPTED") then
        mktable (<[id := op <| op_State := state |> <| op_OCPPResult := result_ |>
                            <| op_ErrorCategory := category |>
                            <| op_CompletedAt := Some now |>
                            <| op_UpdatedAt := now |>]> (rows t))
      else t
    | None => t
    end in
  (t', Get t' id).

Definition Recover (t : table) (now : Time) : table :=
  mktable (recover_operation now <$> rows t).

(** SELECT ... ORDER BY created_at, cms_operation_id LIMIT n, then one Get per id. *)
Definition List (t : table) (identity : string) (limit : Z) : list V1ChargerOperation :=
  if decide (limit ≤ 0) then []
  else
    (λ op, op <| op_ConfigurationKeys ::= normalizeV1ConfigurationKeys |>) <$>
    take (Z.to_nat limit)
      (merge_sort op_before (filter (dispatchable identity) (map_to_list (rows t)).*2)).
End PgOperations.

(** ** The interface the dispatcher relies on

    [v1ChargerOperationRecoveryStore], extended with the recovery write, over
    an abstract store state [S] with its visible rows. *)
Class OperationStore (S : Type) := {
  os_rows : S → gmap string V1ChargerOperation;
  os_create : S → Time → result string → V1ChargerOperationInput →
    S * result (V1ChargerOperation * bool);
  os_claim : S → Time → string → S * result (V1ChargerOperation * bool);
  os_mark : S → Time → string → string → string → string → S * result V1ChargerOperation;
  os_recover : S → Time → S;
  os_list : S → string → Z → list V1ChargerOperation
}.

Definition op_identity (op : V1ChargerOperation) :=
  (op_HALOperationID op, op_CMSOperationID op, op_TraceID op, op_RequestDigest op, op_CPOID op,
   op_CMSChargerID op, op_CMSConnectorID op, op_ChargerOCPPIdentity op,
   op_OCPPConnectorNumber op, op_Kind op, op_Parameters op, op_CorrelationID op).
Arguments op_identity : simpl never.

(** Each law states one method's contract on the visible rows. *)
Class OperationStoreLaws (S : Type) `{OperationStore S} : Prop := {
  law_create s now generated input :
    os_rows (os_create s now generated input).1 = os_rows s ∨
    os_rows s !! oi_CMSOperationID input = None ∧
    ∃ op, os_rows (os_create s now generated input).1 =
            <[oi_CMSOperationID input := op]> (os_rows s) ∧
      op_CMSOperationID op = oi_CMSOperationID input ∧
      op_State op = "PERSISTED" ∧ op_DeliveryAttempts op = 0;
  law_create_existing s now generated id input op :
    os_rows s !! oi_CMSOperationID input = Some op → NewSecureUUIDString generated = inl id →
    os_create s now generated input =
      (s, if decide (op_RequestDigest op ≠ oi_RequestDigest input)
          then inr ErrV1IdempotencyConflict else inl (op, true));
  law_claim_absent s now id :
    os_rows s !! id = None → os_claim s now id = (s, inr ErrV1OperationNotFound);
  law_claim_open s now id op :
    os_rows s !! id = Some op → op_State op = "PERSISTED" → op_DeliveryAttempts op = 0 →
    ∃ s' op', os_claim s now id = (s', inl (op', true)) ∧
      os_rows s' = <[id := op']> (os_rows s) ∧ op_State op' = "DELIVERY_ATTEMPTED" ∧
      op_DeliveryAttempts op' = 1 ∧ op_identity op' = op_identity op;
  law_claim_closed s now id op :
    os_rows s !! id = Some op → op_State op ≠ "PERSISTED" →
    os_claim s now id = (s, inl (op, false));
  law_mark_absent s now id st r c :
    os_rows s !! id = None → os_mark s now id st r c = (s, inr ErrV1OperationNotFound);
  law_mark_open s now id st r c op :
    os_rows s !! id = Some op → op_State op = "DELIVERY_ATTEMPTED" →
    ∃ s' op', os_mark s now id st r c = (s', inl op') ∧
      os_rows s' = <[id := op']> (os_rows s) ∧ op_State op' = st ∧
      op_OCPPResult op' = r ∧ op_ErrorCategory op' = c ∧
      op_DeliveryAttempts op' = op_DeliveryAttempts op ∧ op_identity op' = op_identity op;
  law_mark_closed s now id st r c op :
    os_rows s !! id = Some op → op_State op ≠ "DELIVERY_ATTEMPTED" →
    os_mark s now id st r c = (s, inl op);
  law_recover s now :
    os_rows (os_recover s now) = recover_operation now <$> os_rows s;
  law_list s identity limit op :
    (∀ k o, os_rows s !! k = Some o → op_CMSOperationID o = k) →
    op ∈ os_list s identity limit →
    os_rows s !! op_CMSOperationID op = Some op ∧ dispatchable identity op;
  law_list_NoDup s identity limit :
    (∀ k o, os_rows s !! k = Some o → op_CMSOperationID o = k) →
    NoDup (op_CMSOperationID <$> os_list s identity limit);
  law_list_complete s identity limit k op :
    os_rows s !! k = Some op → dispatchable identity op →
    Z.of_nat (length (os_list s identity limit)) < limit → op ∈ os_list s identity limit;
  law_list_bounded s identity limit : Z.of_nat (length (os_list s identity limit)) ≤ Z.max 0 limit
}.

(** ** Both ledgers implement the interface *)

(** The memory list, with the store's own key order as the visiting order. *)
#[global] Instance memory_operation_store : OperationStore V1MemoryStore := {|
  os_rows := ms_operations;
  os_create := CreateV1ChargerOperation;
  os_claim := ClaimV1ChargerOperationDelivery;
  os_mark := MarkV1ChargerOperationDelivery;
  os_recover := RecoverV1ChargerOperationDelivery;
  os_list s := ListV1DispatchableChargerOperations s (map_to_list (ms_operations s)).*1
|}.

(** The rows of the PostgreSQL table as [Get] returns them. *)
#[global] Instance pg_operation_store : OperationStore PgOperations.table := {|
  os_rows t := (λ op, op <| op_ConfigurationKeys ::= PgOperations.normalizeV1ConfigurationKeys |>)
                 <$> PgOperations.rows t;
  os_create := PgOperations.Create;
  os_claim := PgOperations.Claim;
  os_mark := PgOperations.Mark;
  os_recover := PgOperations.Recover;
  os_list := PgOperations.List
|}.

Lemma ListV1_take s ks identity limit :
  ListV1DispatchableChargerOperations s ks identity limit =
  take (Z.to_nat limit)
    (merge_sort op_before (range_filter (ms_operations s) (dispatchable identity) ks).*2).
Proof.
  unfold ListV1DispatchableChargerOperations. case_decide as L.
  - by replace (Z.to_nat limit) with 0%nat by lia.
  - case_decide; [done|]. rewrite take_ge; [done|lia].
Qed.

(** With rows filed under their identifiers, selected rows have distinct ones. *)
Lemma filter_rows_NoDup (m : gmap string V1ChargerOperation) P `{!∀ o, Decision (P o)} ks :
  (∀ k o, m !! k = Some o → op_CMSOperationID o = k) → range_of m ks →
  NoDup (op_CMSOperationID <$> (range_filter m P ks).*2).
Proof.
  intros Hk [Hnd Hr]. rewrite <- list_fmap_compose.
  rewrite (list_fmap_ext _ fst); [by apply range_filter_NoDup|].
  intros i [k o] Hi. simpl. apply Hk. apply list_elem_of_lookup_2 in Hi.
  by apply (range_filter_elem m P ks k o) in Hi as [? _].
Qed.

#[global] Instance memory_operation_laws : OperationStoreLaws V1MemoryStore.
Proof.
  split; simpl.
  - intros s now g i. unfold CreateV1ChargerOperation.
    destruct (ms_operations s !! _) eqn:E; [left; by case_decide|].
    destruct (NewSecureUUIDString g) as [id|]; [right|by left].
    split; [done|]. by exists (new_operation id now i).
  - intros s now g id i op H _. unfold CreateV1ChargerOperation. rewrite H. by case_decide.
  - intros s now id H. unfold ClaimV1ChargerOperationDelivery. by rewrite H.
  - intros s now id op H Hst Ha. unfold ClaimV1ChargerOperationDelivery.
    rewrite H, decide_False by (intros n; by apply n). do 2 eexists. split; [done|]. simpl.
    by rewrite Ha.
  - intros s now id op H Hst. unfold ClaimV1ChargerOperationDelivery.
    by rewrite H, decide_True.
  - intros s now id st r c H. unfold MarkV1ChargerOperationDelivery. by rewrite H.
  - intros s now id st r c op H Hst. unfold MarkV1ChargerOperationDelivery.
    rewrite H, decide_False by (intros n; by apply n).
    do 2 eexists. split; [done|]. simpl. by case_decide.
  - intros s now id st r c op H Hst. unfold MarkV1ChargerOperationDelivery.
    by rewrite H, decide_True.
  - done.
  - intros s identity limit op Hk. rewrite ListV1_take. intros Hop%sorted_take_elem.
    apply list_elem_of_fmap in Hop as ([k o] & -> & Ho).
    apply range_filter_elem in Ho as [Ho Hd]; [|apply range_of_keys].
    simpl. by rewrite (Hk _ _ Ho).
  - intros s identity limit Hk. rewrite ListV1_take. apply sorted_take_NoDup.
    apply filter_rows_NoDup; [done|apply range_of_keys].
  - intros s identity limit k op E Hd. rewrite ListV1_take. intros Hn. apply sorted_take_complete; [|lia].
    apply (list_elem_of_fmap_2 snd _ (k, op)). by apply range_filter_elem; [apply range_of_keys|].
  - intros s identity limit. rewrite ListV1_take, length_take. lia.
Qed.

Definition pg_view (op : V1ChargerOperation) : V1ChargerOperation :=
  op <| op_ConfigurationKeys ::= PgOperations.normalizeV1ConfigurationKeys |>.

Lemma pg_Get_view t id :
  PgOperations.Get t id =
  match (pg_view <$> PgOperations.rows t) !! id with
  | Some op => inl op | None => inr ErrV1OperationNotFound end.
Proof. unfold PgOperations.Get. rewrite lookup_fmap. by destruct (_ !! id). Qed.

Lemma pg_lookup t id op :
  (pg_view <$> PgOperations.rows t) !! id = Some op →
  ∃ row, PgOperations.rows t !! id = Some row ∧ op = pg_view row.
Proof. rewrite lookup_fmap. intros (row & -> & ->)%fmap_Some. eauto. Qed.

Lemma pg_None t id :
  (pg_view <$> PgOperations.rows t) !! id = None → PgOperations.rows t !! id = None.
Proof. rewrite lookup_fmap. by intros ?%fmap_None. Qed.

#[global] Instance pg_operation_laws : OperationStoreLaws PgOperations.table.
Proof.
  split; change (os_rows (S:=PgOperations.table)) with (λ t, pg_view <$> PgOperations.rows t); simpl.
  - intros t now g i. unfold PgOperations.Create.
    destruct (NewSecureUUIDString g) as [id|]; [|by left].
    destruct (PgOperations.rows t !! _) eqn:E.
    + left. destruct (PgOperations.Get _ _); [by case_decide|done].
    + right. rewrite lookup_fmap, E. split; [done|].
      unfold PgOperations.Get. simpl. rewrite lookup_insert_eq. simpl. rewrite fmap_insert.
      eexists. split; [done|]. done.
  - intros t now g id i op H Hg. pose proof H as Hv. apply pg_lookup in H as (row & H & ->).
    unfold PgOperations.Create. rewrite Hg, H, pg_Get_view, Hv. simpl.
    by repeat case_decide.
  - intros t now id H. unfold PgOperations.Claim. rewrite (pg_None _ _ H).
    by rewrite pg_Get_view, H.
  - intros t now id op H Hst Ha. apply pg_lookup in H as (row & H & ->).
    unfold PgOperations.Claim. rewrite H, decide_True by done.
    rewrite pg_Get_view. simpl. rewrite lookup_fmap, lookup_insert_eq. simpl.
    do 2 eexists. split; [done|]. simpl in *. rewrite fmap_insert, Ha. done.
  - intros t now id op H Hst. pose proof H as Hv. apply pg_lookup in H as (row & H & ->).
    unfold PgOperations.Claim. rewrite H, decide_False by done. by rewrite pg_Get_view, Hv.
  - intros t now id st r c H. unfold PgOperations.Mark. rewrite (pg_None _ _ H).
    by rewrite pg_Get_view, H.
  - intros t now id st r c op H Hst. apply pg_lookup in H as (row & H & ->).
    unfold PgOperations.Mark. rewrite H, decide_True by done.
    rewrite pg_Get_view. simpl. rewrite lookup_fmap, lookup_insert_eq. simpl.
    do 2 eexists. split; [done|]. simpl. by rewrite fmap_insert.
  - intros t now id st r c op H Hst. pose proof H as Hv. apply pg_lookup in H as (row & H & ->).
    unfold PgOperations.Mark. rewrite H, decide_False by done. by rewrite pg_Get_view, Hv.
  - intros t now. rewrite <- !map_fmap_compose. apply map_fmap_ext. intros id op _. simpl.
    unfold recover_operation. simpl. by case_decide.
  - intros t identity limit op Hk Hop. unfold PgOperations.List in Hop.
    case_decide; [set_solver|]. apply list_elem_of_fmap in Hop as (row & -> & Hr).
    apply sorted_take_elem, list_elem_of_filter in Hr as [Hd Hr].
    apply list_elem_of_fmap in Hr as ([k o] & -> & Ho%elem_of_map_to_list). simpl in *.
    assert (op_CMSOperationID o = k) as -> by (apply (Hk k (pg_view o)); by rewrite lookup_fmap, Ho).
    by rewrite lookup_fmap, Ho.
  - intros t identity limit Hk. unfold PgOperations.List. case_decide; [constructor|].
    rewrite <- list_fmap_compose. change (op_CMSOperationID ∘ _) with op_CMSOperationID.
    apply sorted_take_NoDup. eapply sublist_NoDup; [|apply fmap_sublist, sublist_filter].
    rewrite <- list_fmap_compose. rewrite (list_fmap_ext _ fst); [apply NoDup_fst_map_to_list|].
    intros i [k o] Hi%list_elem_of_lookup_2%elem_of_map_to_list. simpl.
    apply (Hk k (pg_view o)). by rewrite lookup_fmap, Hi.
  - intros t identity limit k op (row & E & ->)%pg_lookup Hd. unfold PgOperations.List.
    case_decide; [simpl; lia|]. rewrite length_fmap. intros Hn. apply list_elem_of_fmap_2, sorted_take_complete; [|lia].
    apply list_elem_of_filter. split; [done|]. apply (list_elem_of_fmap_2 snd _ (k, row)). by apply elem_of_map_to_list.
  - intros t identity limit. unfold PgOperations.List. case_decide; [simpl; lia|]. rewrite length_fmap, length_take. lia.
Qed.

(** ** Arbitrary interleavings of claims, results and recoveries

    Any number of workers and processes issue these atomic writes in any
    order.  A worker whose claim is granted goes on to send the command, so
    the granted claims are the commands that may cross the OCPP boundary. *)
Inductive op_event : Type :=
  | EvCreate (now : Time) (generated : result string) (input : V1ChargerOperationInput)
  | EvClaim (now : Time) (id : string)
  | EvMark (now : Time) (id state result_ category : string)
  | EvRecover (now : Time).

(** The dispatcher never marks an operation as dispatchable again. *)
Definition ev_ok (e : op_event) : Prop :=
  match e with EvMark _ _ state _ _ => state ≠ "PERSISTED" | _ => True end.

Section client.
Context {S : Type} `{OperationStoreLaws S}.

Definition op_event_step (w : S * list string) (e : op_event) : S * list string :=
  let '(s, sent) := w in
  match e with
  | EvCreate now g i => ((os_create s now g i).1, sent)
  | EvClaim now id =>
    match os_claim s now id with
    | (s', inl (_, true)) => (s', sent ++ [id])
    | (s', _) => (s', sent)
    end
  | EvMark now id st r c => ((os_mark s now id st r c).1, sent)
  | EvRecover now => (os_recover s now, sent)
  end.

Definition op_run (w : S * list string) (es : list op_event) : S * list string :=
  foldl op_event_step w es.

(** Rows are filed under their identifiers and a row is dispatchable exactly
    while it has not been attempted. *)
Definition ledger_ok (rows : gmap string V1ChargerOperation) : Prop :=
  ∀ id op, rows !! id = Some op →
    op_CMSOperationID op = id ∧ 0 ≤ op_DeliveryAttempts op ≤ 1 ∧
    (op_State op = "PERSISTED" ↔ op_DeliveryAttempts op = 0).

Definition sent_ok (w : S * list string) : Prop :=
  NoDup w.2 ∧ ledger_ok (os_rows w.1) ∧
  ∀ id, id ∈ w.2 → ∃ op, os_rows w.1 !! id = Some op ∧ op_State op ≠ "PERSISTED".

Lemma ledger_ok_insert (rows : gmap string V1ChargerOperation) id op :
  ledger_ok rows → op_CMSOperationID op = id → 0 ≤ op_DeliveryAttempts op ≤ 1 →
  (op_State op = "PERSISTED" ↔ op_DeliveryAttempts op = 0) →
  ledger_ok (<[id := op]> rows).
Proof. intros Hl ? ? ? k o [[-> <-]|[_ ?]]%lookup_insert_Some; [done|by apply Hl]. Qed.

(** A write that keeps every other row and closes the written one keeps the
    record of what was sent. *)
Lemma sent_ok_insert s s' sent id op :
  sent_ok (s, sent) → os_rows s' = <[id := op]> (os_rows s) →
  ledger_ok (os_rows s') → op_State op ≠ "PERSISTED" → sent_ok (s', sent).
Proof.
  intros (Hnd & Hl & Hs) Hr Hl' Hp. split_and!; [done|done|]. simpl in *. intros k Hk.
  rewrite Hr. destruct (decide (id = k)) as [->|].
  - rewrite lookup_insert_eq. eauto.
  - rewrite lookup_insert_ne by done. auto.
Qed.

Lemma claim_step s sent now id :
  sent_ok (s, sent) → sent_ok (op_event_step (s, sent) (EvClaim now id)).
Proof.
  intros Hok. pose proof Hok as (Hnd & Hl & Hs). simpl in *.
  destruct (os_rows s !! id) as [op|] eqn:E; [|by rewrite law_claim_absent].
  destruct (decide (op_State op = "PERSISTED")) as [Hst|Hst];
    [|by erewrite law_claim_closed].
  destruct (Hl _ _ E) as (Hid & Ha & Hiff).
  destruct (law_claim_open s now id op E Hst (proj1 Hiff Hst))
    as (s' & op' & -> & Hr & Hst' & Ha' & Hi).
  assert (ledger_ok (os_rows s')) as Hl'.
  { rewrite Hr. apply ledger_ok_insert; [done|unfold op_identity in Hi; congruence|lia|].
    rewrite Hst', Ha'. done. }
  assert (sent_ok (s', sent)) as (Hnd' & _ & Hs').
  { apply (sent_ok_insert s s' sent id op'); congruence || done. }
  split_and!; [|done|].
  - apply NoDup_app. split_and!; [done| |apply NoDup_singleton].
    intros k Hk ->%list_elem_of_singleton. destruct (Hs _ Hk) as (o & ? & ?). congruence.
  - simpl. intros k [Hk| ->%list_elem_of_singleton]%elem_of_app; [auto|].
    rewrite Hr, lookup_insert_eq. exists op'. split; congruence.
Qed.

Lemma mark_step s sent now id st r c :
  st ≠ "PERSISTED" → sent_ok (s, sent) →
  sent_ok (op_event_step (s, sent) (EvMark now id st r c)).
Proof.
  intros Hp Hok. pose proof Hok as (Hnd & Hl & Hs). simpl in *.
  destruct (os_rows s !! id) as [op|] eqn:E; [|by rewrite law_mark_absent].
  destruct (decide (op_State op = "DELIVERY_ATTEMPTED")) as [Hst|Hst];
    [|by erewrite law_mark_closed].
  destruct (Hl _ _ E) as (Hid & Ha & Hiff).
  destruct (law_mark_open s now id st r c op E Hst)
    as (s' & op' & -> & Hr & Hst' & _ & _ & Ha' & Hi).
  apply (sent_ok_insert s s' sent id op'); try done; [|congruence].
  rewrite Hr. apply ledger_ok_insert; [done|unfold op_identity in Hi; congruence|lia|].
  rewrite Hst', Ha'. rewrite <- Hiff, Hst. split; congruence.
Qed.

Lemma op_event_step_ok w e : ev_ok e → sent_ok w → sent_ok (op_event_step w e).
Proof.
  destruct w as [s sent], e as [now g i|now id|now id st r c|now]; intros He Hok.
  - pose proof Hok as (Hnd & Hl & Hs). simpl.
    destruct (law_create s now g i) as [Hr|(Hn & op & Hr & Hid & Hst & Ha)];
      split_and!; simpl in *; rewrite ?Hr; try done.
    + apply ledger_ok_insert; try done; lia.
    + intros k Hk. destruct (Hs k Hk) as (o & Ho & ?). exists o.
      rewrite lookup_insert_ne; [done|congruence].
  - by apply claim_step.
  - by apply mark_step.
  - destruct Hok as (Hnd & Hl & Hs). simpl. split_and!; simpl in *; rewrite ?law_recover; [done|..].
    + intros k o. rewrite lookup_fmap. intros (o' & Ho & ->)%fmap_Some.
      destruct (Hl _ _ Ho) as (? & ? & Hiff). unfold recover_operation.
      case_decide as D; [|done]. simpl. rewrite <- Hiff, D. done.
    + intros k Hk. destruct (Hs k Hk) as (o & Ho & Hst). rewrite lookup_fmap, Ho.
      eexists. split; [done|]. unfold recover_operation. by case_decide.
Qed.

Lemma op_run_sent_ok s es :
  ledger_ok (os_rows s) → Forall ev_ok es → sent_ok (op_run (s, []) es).
Proof.
  intros Hl Hes. assert (sent_ok (s, [])) as Hok.
  { split_and!; [constructor|done|]. intros id []%elem_of_nil. }
  revert Hok. generalize (s, @nil string). unfold op_run.
  induction Hes as [|e es He Hes IH]; intros w Hw; simpl; [done|].
  apply IH. by apply op_event_step_ok.
Qed.

(** No event removes a row or changes what identifies it. *)
Lemma op_event_step_identity w e id op :
  ledger_ok (os_rows w.1) → os_rows w.1 !! id = Some op →
  ∃ op', os_rows (op_event_step w e).1 !! id = Some op' ∧ op_identity op' = op_identity op.
Proof.
  destruct w as [s sent]. intros Hl E. simpl in Hl, E.
  assert (∀ k v v', os_rows s !! k = Some v → op_identity v' = op_identity v →
    ∃ op', <[k := v']> (os_rows s) !! id = Some op' ∧ op_identity op' = op_identity op) as Hins.
  { intros k v v' Hk Hi. destruct (decide (k = id)) as [->|].
    - rewrite E in Hk. injection Hk as ->. exists v'. by rewrite lookup_insert_eq.
    - exists op. by rewrite lookup_insert_ne. }
  destruct e as [now g i|now k|now k st r c|now]; simpl.
  - destruct (law_create s now g i) as [->|(Hn & o & -> & _)]; [eauto|].
    rewrite lookup_insert_ne; [eauto|congruence].
  - destruct (os_rows s !! k) as [o|] eqn:Ek; [|rewrite (law_claim_absent _ _ _ Ek); simpl; eauto].
    destruct (decide (op_State o = "PERSISTED")) as [Hst|Hst];
      [|rewrite (law_claim_closed _ _ _ _ Ek Hst); simpl; eauto].
    destruct (Hl _ _ Ek) as (_ & _ & Hiff).
    destruct (law_claim_open s now k o Ek Hst (proj1 Hiff Hst)) as (s' & o' & -> & Hr & _ & _ & Hi).
    simpl. rewrite Hr. by eapply Hins.
  - destruct (os_rows s !! k) as [o|] eqn:Ek; [|rewrite (law_mark_absent _ _ _ _ _ _ Ek); simpl; eauto].
    destruct (decide (op_State o = "DELIVERY_ATTEMPTED")) as [Hst|Hst];
      [|rewrite (law_mark_closed _ _ _ _ _ _ _ Ek Hst); simpl; eauto].
    destruct (law_mark_open s now k st r c o Ek Hst) as (s' & o' & -> & Hr & _ & _ & _ & _ & Hi).
    simpl. rewrite Hr. by eapply Hins.
  - rewrite law_recover, lookup_fmap, E. eexists. split; [done|].
    unfold recover_operation. by case_decide.
Qed.

Lemma op_run_identity s es id op :
  ledger_ok (os_rows s) → Forall ev_ok es → os_rows s !! id = Some op →
  ∃ op', os_rows (op_run (s, []) es).1 !! id = Some op' ∧ op_identity op' = op_identity op.
Proof.
  intros Hl Hes E. induction es as [|e es IH] using rev_ind; [simpl; eauto|].
  apply Forall_app in Hes as [Hes _]. destruct (IH Hes) as (o & Ho & Hi).
  destruct (op_run_sent_ok s es Hl Hes) as (_ & Hl' & _).
  unfold op_run. rewrite foldl_snoc. fold (op_run (s, []) es).
  destruct (op_event_step_identity _ e id o Hl' Ho) as (o' & ? & ?). exists o'. split; congruence.
Qed.
End client.

(** ** The dispatcher (internal/ocpp16hal/v1.go)

    [Conf] is ocpp-go's GetConfigurationConfirmation.  A [dispatch_env] is what
    one dispatch meets outside the store: the clock at the two writes, the
    OCPP answer, and whether the finalizing write reaches the store. *)
Definition v1ChargerOperationRecoveryBatch : Z := 100.

Section dispatcher.
Context {S : Type} `{OperationStoreLaws S} {Conf : Type}.

Record dispatch_env : Type := {
  de_claimAt : Time;
  de_markAt : Time;
  de_answer : V1ChargerOperation → result (string * option Conf);
  de_markErr : option go_error
}.

(** Returns the store, the operations handed to the OCPP transport and Go's
    four results. *)
Definition dispatchClaimedV1ChargerOperation (env : dispatch_env) (s : S) (cmsOperationID : string) :
    S * list V1ChargerOperation *
    (option V1ChargerOperation * option Conf * bool * option go_error) :=
  match os_claim s (de_claimAt env) cmsOperationID with
  | (s1, inr err) => (s1, [], (None, None, false, Some err))
  | (s1, inl (op, claimed)) =>
    if negb claimed then (s1, [], (Some op, None, false, None))
    else
      let '(state, category, result, configuration) :=
        match de_answer env op with
        | inl (result, configuration) => ("OCPP_CONFIRMED", "", result, configuration)
        | inr _ => ("RECONCILIATION_REQUIRED", "delivery_ambiguous", "", None)
        end in
      match de_markErr env with
      | Some err => (s1, [op], (None, configuration, true, Some err))
      | None =>
        match os_mark s1 (de_markAt env) cmsOperationID state result category with
        | (s2, inl completed) => (s2, [op], (Some completed, configuration, true, None))
        | (s2, inr err) => (s2, [op], (None, configuration, true, Some err))
        end
      end
  end.

(** The batch loop; [ctxErr] is what ctx.Err() answers before an operation. *)
Fixpoint recover_loop (ctxErr : string → option go_error) (env : string → dispatch_env)
    (connected : V1ChargerOperation → bool) (pending : list V1ChargerOperation)
    (s : S) (sent : list V1ChargerOperation) :
    S * list V1ChargerOperation * option go_error :=
  match pending with
  | [] => (s, sent, None)
  | operation :: rest =>
    match ctxErr (op_CMSOperationID operation) with
    | Some err => (s, sent, Some err)
    | None =>
      if connected operation then
        let '(s', out, _) :=
          dispatchClaimedV1ChargerOperation (env (op_CMSOperationID operation)) s
            (op_CMSOperationID operation) in
        recover_loop ctxErr env connected rest s' (sent ++ out)
      else recover_loop ctxErr env connected rest s sent
    end
  end.

Definition recoverDispatchableV1ChargerOperations (ctxErr : string → option go_error)
    (env : string → dispatch_env) (connected : V1ChargerOperation → bool)
    (s : S) (chargerOCPPIdentity : string) : S * list V1ChargerOperation * option go_error :=
  recover_loop ctxErr env connected
    (os_list s chargerOCPPIdentity v1ChargerOperationRecoveryBatch) s [].

(** What one dispatch of a dispatchable operation does. *)
Lemma dispatch_open env s id op :
  ledger_ok (os_rows s) → os_rows s !! id = Some op → op_State op = "PERSISTED" →
  ∃ s' op1 op', (dispatchClaimedV1ChargerOperation env s id).1 = (s', [op1]) ∧
    op_identity op1 = op_identity op ∧
    os_rows s' = <[id := op']> (os_rows s) ∧ op_identity op' = op_identity op ∧
    op_DeliveryAttempts op' = 1 ∧
    op_State op' =
      match de_markErr env, de_answer env op1 with
      | Some _, _ => "DELIVERY_ATTEMPTED"
      | None, inl _ => "OCPP_CONFIRMED"
      | None, inr _ => "RECONCILIATION_REQUIRED"
      end ∧
    (de_markErr env = None → (op_OCPPResult op', op_ErrorCategory op') =
       match de_answer env op1 with
       | inl (r, _) => (r, "") | inr _ => ("", "delivery_ambiguous") end).
Proof.
  intros Hl E Hst. destruct (Hl _ _ E) as (_ & _ & Hiff).
  destruct (law_claim_open s (de_claimAt env) id op E Hst (proj1 Hiff Hst))
    as (s1 & op1 & Hc & Hr1 & Hst1 & Ha1 & Hi1).
  unfold dispatchClaimedV1ChargerOperation. rewrite Hc. simpl.
  assert (os_rows s1 !! id = Some op1) as E1 by (by rewrite Hr1, lookup_insert_eq).
  destruct (de_markErr env) as [err|] eqn:Em.
  { exists s1, op1, op1. destruct (de_answer env op1) as [[r cf]|e]; split_and!; done || congruence. }
  destruct (de_answer env op1) as [[r cf]|e] eqn:Ea.
  - destruct (law_mark_open s1 (de_markAt env) id "OCPP_CONFIRMED" r "" op1 E1 Hst1)
      as (s2 & op2 & -> & Hr2 & Hst2 & ? & ? & Ha2 & Hi2).
    exists s2, op1, op2. rewrite Hr1, insert_insert_eq in Hr2. rewrite Ea. split_and!; done || congruence.
  - destruct (law_mark_open s1 (de_markAt env) id "RECONCILIATION_REQUIRED" ""
      "delivery_ambiguous" op1 E1 Hst1) as (s2 & op2 & -> & Hr2 & Hst2 & ? & ? & Ha2 & Hi2).
    exists s2, op1, op2. rewrite Hr1, insert_insert_eq in Hr2. rewrite Ea. split_and!; done || congruence.
Qed.

(** A dispatch of anything else sends nothing and writes nothing. *)
Lemma dispatch_closed env s id :
  (∀ op, os_rows s !! id = Some op → op_State op ≠ "PERSISTED") →
  (dispatchClaimedV1ChargerOperation env s id).1 = (s, []).
Proof.
  intros Hn. unfold dispatchClaimedV1ChargerOperation.
  destruct (os_rows s !! id) as [op|] eqn:E.
  - by rewrite (law_claim_closed s _ id op E (Hn _ eq_refl)).
  - by rewrite law_claim_absent.
Qed.

Lemma dispatch_ledger_ok env s id :
  ledger_ok (os_rows s) → ledger_ok (os_rows (dispatchClaimedV1ChargerOperation env s id).1.1).
Proof.
  intros Hl. destruct (os_rows s !! id) as [op|] eqn:E;
    [destruct (decide (op_State op = "PERSISTED")) as [Hst|Hst]|].
  - destruct (dispatch_open env s id op Hl E Hst) as (s' & op1 & op' & -> & _ & Hr & Hi & Ha & Hs' & _).
    destruct (Hl _ _ E) as (Hid & _). simpl. rewrite Hr.
    apply ledger_ok_insert; [done|unfold op_identity in Hi; congruence|lia|].
    rewrite Hs', Ha. repeat case_match; done.
  - rewrite dispatch_closed; [done|]. intros o Ho. congruence.
  - rewrite dispatch_closed; [done|]. intros o Ho. congruence.
Qed.

(** The loop over a batch of distinct dispatchable operations. *)
Lemma recover_loop_spec ctxErr env connected pending s sent :
  ledger_ok (os_rows s) → (∀ id, ctxErr id = None) →
  NoDup (op_CMSOperationID <$> pending) →
  (∀ op, op ∈ pending → os_rows s !! op_CMSOperationID op = Some op ∧ op_State op = "PERSISTED") →
  ∃ s' out, recover_loop ctxErr env connected pending s sent = (s', sent ++ out, None) ∧
    op_identity <$> out = op_identity <$> filter (λ op, connected op = true) pending ∧
    (∀ op, op ∈ pending → connected op = true →
       ∃ op', os_rows s' !! op_CMSOperationID op = Some op' ∧ op_State op' ≠ "PERSISTED") ∧
    (∀ id, (∀ op, op ∈ pending → connected op = true → op_CMSOperationID op ≠ id) →
       os_rows s' !! id = os_rows s !! id).
Proof.
  intros Hl Hctx. revert s sent Hl. induction pending as [|op rest IH]; intros s sent Hl Hnd Hp; simpl.
  { exists s, []. rewrite app_nil_r. split_and!; set_solver. }
  rewrite Hctx. apply NoDup_cons in Hnd as [Hni Hnd].
  destruct (Hp op) as [E Hst]; [by left|]. rewrite filter_cons.
  destruct (connected op) eqn:Hc; [rewrite decide_True by done|rewrite decide_False by done].
  - destruct (dispatch_open (env (op_CMSOperationID op)) s _ op Hl E Hst)
      as (s1 & op1 & op' & Hd & Hi1 & Hr & Hi & _ & Hs' & _).
    pose proof (dispatch_ledger_ok (env (op_CMSOperationID op)) s (op_CMSOperationID op) Hl) as Hl1.
    destruct (dispatchClaimedV1ChargerOperation _ _ _) as [[s1' out1] r]. simpl in Hd, Hl1. injection Hd as -> ->.
    destruct (IH s1 (sent ++ [op1]) Hl1 Hnd) as (s' & out & -> & Ho & Hdone & Hframe).
    { intros o Ho. destruct (Hp o) as [Eo So]; [by right|]. rewrite Hr, lookup_insert_ne; [done|].
      intros Heq. apply Hni. rewrite Heq. by apply list_elem_of_fmap_2. }
    exists s', (op1 :: out). rewrite <- app_assoc. split_and!; [done|by rewrite !fmap_cons, Ho, Hi1| |].
    + intros o [->|Ho']%elem_of_cons Hco; [|by apply Hdone].
      exists op'. rewrite Hframe.
      * rewrite Hr, lookup_insert_eq. split; [done|]. rewrite Hs'. by repeat case_match.
      * intros o2 Ho2 _ Heq. apply Hni. rewrite <- Heq. by apply list_elem_of_fmap_2.
    + intros id Hid. rewrite Hframe.
      * rewrite Hr, lookup_insert_ne; [done|]. apply Hid; [by left|done].
      * intros o Ho' Hco. apply Hid; [by right|done].
  - destruct (IH s sent Hl Hnd) as (s' & out & -> & Ho & Hdone & Hframe); [set_solver|].
    exists s', out. split_and!; [done|done| |].
    + intros o [->|Ho']%elem_of_cons Hco; [congruence|by apply Hdone].
    + intros id Hid. apply Hframe. set_solver.
Qed.
End dispatcher.
Arguments dispatch_env : clear implicits.

(** ** Properties *)

(** C19: However claims, results, retried creations and restart recoveries of
    any number of workers interleave, the OCPP command of a charger operation
    is handed to the transport at most once, and an operation that was handed
    over is never dispatchable again.  Proved for every store that meets the
    interface; the witness runs it on both stores of the repository. *)
Theorem operation_sent_at_most_once {S} `{OperationStoreLaws S} (s : S) (es : list op_event) :
  ledger_ok (os_rows s) → Forall ev_ok es →
  let w := op_run (s, []) es in
  NoDup w.2 ∧ ledger_ok (os_rows w.1) ∧
  ∀ id, id ∈ w.2 → ∃ op, os_rows w.1 !! id = Some op ∧ op_State op ≠ "PERSISTED".
Proof. intros Hl Hes. by apply op_run_sent_ok. Qed.

(** The same operation identity with the same request digest always
    returns the operation first created, whatever happened to it since, and
    writes nothing; another digest is refused as an idempotency conflict. *)
Theorem operation_creation_idempotent {S} `{OperationStoreLaws S} (s : S) (input : V1ChargerOperationInput) op
    (es : list op_event) (now' : Time) generated id (input' : V1ChargerOperationInput) :
  ledger_ok (os_rows s) → Forall ev_ok es →
  os_rows s !! oi_CMSOperationID input = Some op → op_RequestDigest op = oi_RequestDigest input →
  oi_CMSOperationID input' = oi_CMSOperationID input → NewSecureUUIDString generated = inl id →
  let s' := (op_run (s, []) es).1 in
  ∃ op', op_identity op' = op_identity op ∧
    os_create s' now' generated input' =
      (s', if decide (oi_RequestDigest input = oi_RequestDigest input')
           then inl (op', true) else inr ErrV1IdempotencyConflict).
Proof.
  intros Hl Hes E Hd Hk Hg s'. destruct (op_run_identity s es _ op Hl Hes E) as (op' & E' & Hi).
  exists op'. split; [done|]. rewrite <- Hk in E'.
  rewrite (law_create_existing _ _ _ _ _ _ E' Hg).
  assert (op_RequestDigest op' = oi_RequestDigest input) as -> by (unfold op_identity in Hi; congruence).
  do 2 case_decide; done || congruence.
Qed.

(** One dispatch of a dispatchable operation hands exactly that operation
    to the OCPP transport and leaves it confirmed with the charger's answer,
    needing reconciliation when the transport failed, or marked as attempted
    when the finalizing write failed; in each case every later dispatch of it,
    by any process, sends nothing and changes nothing. *)
Theorem dispatch_sends_once {S Conf} `{OperationStoreLaws S} (env env' : dispatch_env Conf)
    (s : S) (id : string) op :
  ledger_ok (os_rows s) → os_rows s !! id = Some op → op_State op = "PERSISTED" →
  (∀ o, de_answer env o = de_answer env op) →
  ∃ s' op1 op', (dispatchClaimedV1ChargerOperation env s id).1 = (s', [op1]) ∧
    op_identity op1 = op_identity op ∧
    os_rows s' = <[id := op']> (os_rows s) ∧ op_identity op' = op_identity op ∧
    op_DeliveryAttempts op' = 1 ∧
    (op_State op', op_OCPPResult op', op_ErrorCategory op') =
      match de_markErr env, de_answer env op with
      | Some _, _ => ("DELIVERY_ATTEMPTED", op_OCPPResult op', op_ErrorCategory op')
      | None, inl (r, _) => ("OCPP_CONFIRMED", r, "")
      | None, inr _ => ("RECONCILIATION_REQUIRED", "", "delivery_ambiguous")
      end ∧
    (dispatchClaimedV1ChargerOperation env' s' id).1 = (s', []).
Proof.
  intros Hl E Hst Hans.
  destruct (dispatch_open env s id op Hl E Hst) as (s' & op1 & op' & Hd & Hi1 & Hr & Hi & Ha & Hs & Hc).
  exists s', op1, op'. rewrite (Hans op1) in Hs, Hc. split_and!; try done.
  - rewrite Hs. destruct (de_markErr env); [done|]. specialize (Hc eq_refl).
    destruct (de_answer env op) as [[r c]|e]; by injection Hc as -> ->.
  - apply dispatch_closed. intros o. rewrite Hr, lookup_insert_eq. intros [= <-].
    rewrite Hs. by repeat case_match.
Qed.

(** A recovery pass over a reconnected charger hands each connected listed
    operation to the transport exactly once, in list order, and nothing else;
    every one of them stops being dispatchable, and no other row changes. *)
Theorem recovery_pass_spec {S Conf} `{OperationStoreLaws S} ctxErr
    (env : string → dispatch_env Conf) (connected : V1ChargerOperation → bool) (s : S)
    (identity : string) :
  ledger_ok (os_rows s) → (∀ id, ctxErr id = None) →
  let pending := os_list s identity v1ChargerOperationRecoveryBatch in
  ∃ s' out, recoverDispatchableV1ChargerOperations ctxErr env connected s identity = (s', out, None) ∧
    op_identity <$> out = op_identity <$> filter (λ op, connected op = true) pending ∧
    (∀ op, op ∈ pending → connected op = true →
       ∃ op', os_rows s' !! op_CMSOperationID op = Some op' ∧ op_State op' ≠ "PERSISTED") ∧
    (∀ id, (∀ op, op ∈ pending → connected op = true → op_CMSOperationID op ≠ id) →
       os_rows s' !! id = os_rows s !! id).
Proof.
  intros Hl Hctx. apply (recover_loop_spec ctxErr env connected _ s [] Hl Hctx).
  - apply law_list_NoDup. intros k o Hk. by destruct (Hl _ _ Hk).
  - intros op Hop. apply law_list in Hop as [? [? _]]; [done|].
    intros k o Hk. by destruct (Hl _ _ Hk).
Qed.

Lemma op_before_antisym (o1 o2 : V1ChargerOperation) :
  op_before o1 o2 → op_before o2 o1 → op_CMSOperationID o1 = op_CMSOperationID o2.
Proof.
  unfold op_before, GoTime.Before. intros [?|[E1 ?]] [?|[E2 ?]]; try lia.
  by apply (anti_symm String.le).
Qed.

#[global] Instance op_before_trans : Transitive op_before.
Proof.
  unfold op_before, GoTime.Before. intros o1 o2 o3 [?|[E1 ?]] [?|[E2 ?]]; [left; lia..|].
  right. split; [lia|]. by etrans.
Qed.
#[global] Instance op_before_total : Total op_before.
Proof.
  unfold op_before, GoTime.Before. intros o1 o2.
  destruct (Z.lt_total (op_CreatedAt o1) (op_CreatedAt o2)) as [?|[?|?]]; [auto| |auto].
  destruct (total String.le (op_CMSOperationID o1) (op_CMSOperationID o2)); auto.
Qed.

Lemma range_filter_perm (m : gmap string V1ChargerOperation) P `{!∀ o, Decision (P o)} ks ks' :
  range_of m ks → range_of m ks' → range_filter m P ks ≡ₚ range_filter m P ks'.
Proof.
  intros Hr Hr'. apply NoDup_Permutation.
  - apply NoDup_fmap_1 with fst, range_filter_NoDup, Hr.
  - apply NoDup_fmap_1 with fst, range_filter_NoDup, Hr'.
  - intros [k o]. by rewrite !range_filter_elem.
Qed.

(** The dispatchable list is the same whatever order Go visits the map in:
    its entries are sorted by creation time and then identifier, each is a
    dispatchable row, there are at most [limit], and a dispatchable row is left
    out only when [limit] earlier ones are listed. *)
Theorem ListV1Dispatchable_order (s : V1MemoryStore) ks ks' identity limit :
  ledger_ok (ms_operations s) → range_of (ms_operations s) ks → range_of (ms_operations s) ks' →
  let l := ListV1DispatchableChargerOperations s ks identity limit in
  l = ListV1DispatchableChargerOperations s ks' identity limit ∧
  StronglySorted op_before l ∧ Z.of_nat (length l) ≤ Z.max 0 limit ∧
  ∀ id op, ms_operations s !! id = Some op → dispatchable identity op →
    op ∈ l ∨ (Z.max 0 limit ≤ Z.of_nat (length l) ∧ ∀ o, o ∈ l → op_before o op).
Proof.
  intros Hl Hk Hk' l. unfold l. rewrite !ListV1_take. set (sel := range_filter _ _).
  assert (∀ ks, StronglySorted op_before (merge_sort op_before (sel ks).*2)) as Hs.
  { intros k. apply Sorted_StronglySorted; [apply _|]. apply Sorted_merge_sort, _. }
  split_and!.
  - f_equal. apply StronglySorted_unique_strong with op_before; [|apply Hs..|].
    + intros o1 o2 H1 H2 H12 H21. rewrite merge_sort_Permutation in H1, H2.
      apply list_elem_of_fmap in H1 as ([k1 o1'] & -> & H1), H2 as ([k2 o2'] & -> & H2).
      apply range_filter_elem in H1 as [H1 _], H2 as [H2 _]; [|done..]. simpl in *.
      pose proof (op_before_antisym _ _ H12 H21) as Hid.
      destruct (Hl _ _ H1) as [<- _], (Hl _ _ H2) as [<- _]. congruence.
    + rewrite !merge_sort_Permutation. apply fmap_Permutation. by apply range_filter_perm.
  - specialize (Hs ks). rewrite <- (take_drop (Z.to_nat limit) (merge_sort _ _)) in Hs.
    by apply StronglySorted_app_1_l in Hs.
  - rewrite length_take. lia.
  - intros id op Hop Hd.
    assert (op ∈ merge_sort op_before (sel ks).*2) as Hin.
    { rewrite merge_sort_Permutation. apply list_elem_of_fmap. exists (id, op).
      split; [done|]. by apply range_filter_elem. }
    specialize (Hs ks). rewrite <- (take_drop (Z.to_nat limit) (merge_sort _ _)) in Hs, Hin.
    apply elem_of_app in Hin as [?|Hin]; [by left|right]. split.
    + rewrite length_take. destruct (decide (Z.to_nat limit ≤ length (merge_sort op_before (sel ks).*2))%nat);
        [lia|]. rewrite drop_ge in Hin by lia. by apply elem_of_nil in Hin.
    + intros o Ho. by eapply StronglySorted_app_1_elem_of.
Qed.

(** ** Concrete runs *)
Module OperationRuns.
Definition input (id digest : string) : V1ChargerOperationInput := {|
  oi_CMSOperationID := id; oi_TraceID := "trace"; oi_RequestDigest := digest;
  oi_CPOID := "cpo"; oi_CMSChargerID := "charger"; oi_CMSConnectorID := "";
  oi_ChargerOCPPIdentity := "CP-1"; oi_OCPPConnectorNumber := 1; oi_Kind := "RESET";
  oi_Parameters := ∅; oi_ConfigurationKeys := None; oi_CorrelationID := "corr" |}.
Definition op1 : V1ChargerOperation := new_operation "hal-1" 10 (input "op-1" "d").
Definition mem : V1MemoryStore := NewV1MemoryStore <| ms_operations := {["op-1" := op1]} |>.
Definition pg : PgOperations.table := PgOperations.mktable {["op-1" := op1]}.
(** Two workers race for the operation, one restarts, one reports. *)
Definition race : list op_event :=
  [EvClaim 20 "op-1"; EvClaim 21 "op-1"; EvRecover 22; EvClaim 23 "op-1";
   EvMark 24 "op-1" "OCPP_CONFIRMED" "Accepted" ""; EvCreate 25 (inl "hal-2") (input "op-1" "d")].
Definition env : dispatch_env unit := {|
  de_claimAt := 20; de_markAt := 30; de_answer _ := inl ("Accepted", None); de_markErr := None |}.

Lemma rows_ok (rows : gmap string V1ChargerOperation) op :
  rows = {["op-1" := op]} → op_CMSOperationID op = "op-1" →
  op_State op = "PERSISTED" → op_DeliveryAttempts op = 0 → ledger_ok rows.
Proof.
  intros -> Hi Hs Ha id o [<- <-]%lookup_singleton_Some. rewrite Hs, Ha. split_and!; done || lia.
Qed.
Lemma mem_ok : ledger_ok (os_rows mem). Proof. by apply (rows_ok _ op1). Qed.
Lemma pg_ok : ledger_ok (os_rows pg).
Proof. by eapply rows_ok; [by apply map_fmap_singleton|..]. Qed.
Lemma race_ok : Forall ev_ok race. Proof. repeat constructor; done. Qed.
End OperationRuns.

Lemma operation_sent_at_most_once_witness :
  NoDup (op_run (OperationRuns.mem, []) OperationRuns.race).2 ∧
  NoDup (op_run (OperationRuns.pg, []) OperationRuns.race).2 ∧
  (op_run (OperationRuns.pg, []) OperationRuns.race).2 = ["op-1"].
Proof.
  split_and!; [| |vm_compute; reflexivity].
  - exact (proj1 (operation_sent_at_most_once OperationRuns.mem OperationRuns.race
      OperationRuns.mem_ok OperationRuns.race_ok)).
  - exact (proj1 (operation_sent_at_most_once OperationRuns.pg OperationRuns.race
      OperationRuns.pg_ok OperationRuns.race_ok)).
Defined.

Lemma operation_creation_idempotent_witness :
  let s' := (op_run (OperationRuns.mem, []) OperationRuns.race).1 in
  ∃ op', op_identity op' = op_identity OperationRuns.op1 ∧
    os_create s' 40 (inl "hal-3") (OperationRuns.input "op-1" "other") =
      (s', inr ErrV1IdempotencyConflict).
Proof.
  destruct (operation_creation_idempotent OperationRuns.mem (OperationRuns.input "op-1" "d")
    OperationRuns.op1 OperationRuns.race 40 (inl "hal-3") "hal-3"
    (OperationRuns.input "op-1" "other")) as (op' & Hi & Hc);
    [exact OperationRuns.mem_ok|exact OperationRuns.race_ok|reflexivity..|].
  exists op'. split; [exact Hi|exact Hc].
Defined.

Lemma dispatch_sends_once_witness :
  ∃ s' op1 op',
    (dispatchClaimedV1ChargerOperation OperationRuns.env OperationRuns.pg "op-1").1 = (s', [op1]) ∧
    (op_State op', op_OCPPResult op', op_ErrorCategory op') = ("OCPP_CONFIRMED", "Accepted", "") ∧
    os_rows s' !! "op-1" = Some op' ∧
    (dispatchClaimedV1ChargerOperation OperationRuns.env s' "op-1").1 = (s', []).
Proof.
  destruct (dispatch_sends_once OperationRuns.env OperationRuns.env OperationRuns.pg "op-1"
    (pg_view OperationRuns.op1)) as (s' & op1 & op' & Hd & _ & Hr & _ & _ & Hs & Hc);
    [exact OperationRuns.pg_ok|vm_compute; reflexivity|reflexivity|reflexivity|].
  exists s', op1, op'. rewrite Hr, lookup_insert_eq. split_and!; [exact Hd|exact Hs|done|exact Hc].
Defined.

Lemma recovery_pass_spec_witness :
  ∃ s' out, recoverDispatchableV1ChargerOperations (λ _, None) (λ _, OperationRuns.env)
      (λ _, true) OperationRuns.mem "CP-1" = (s', out, None) ∧
    op_identity <$> out = [op_identity OperationRuns.op1].
Proof.
  destruct (recovery_pass_spec (λ _, None) (λ _, OperationRuns.env) (λ _, true)
    OperationRuns.mem "CP-1") as (s' & out & Hr & Ho & _);
    [exact OperationRuns.mem_ok|reflexivity|].
  exists s', out. split; [exact Hr|]. rewrite Ho. vm_compute. reflexivity.
Defined.

Lemma ListV1Dispatchable_order_witness :
  ListV1DispatchableChargerOperations OperationRuns.mem ["op-1"] "CP-1" 5 = [OperationRuns.op1] ∧
  StronglySorted op_before
    (ListV1DispatchableChargerOperations OperationRuns.mem ["op-1"] "CP-1" 5).
Proof.
  split; [vm_compute; reflexivity|].
  assert (range_of (ms_operations OperationRuns.mem) ["op-1"]) as Hr.
  { split; [apply NoDup_singleton|]. intros k. rewrite list_elem_of_singleton.
    unfold OperationRuns.mem. simpl. split; [intros ->; rewrite lookup_singleton_eq; eauto|].
    by intros [o [<- _]%lookup_singleton_Some]. }
  exact (proj1 (proj2 (ListV1Dispatchable_order OperationRuns.mem ["op-1"] ["op-1"] "CP-1" 5
    OperationRuns.mem_ok Hr Hr))).
Defined.
