(* ===== verification/PgSchema.v ===== *)
(** * The PostgreSQL tables and the fact builders

    The tables of migrations/ that internal/store's v1 code keeps, the rows as
    the code reads them, the constraints a statement can violate, and the
    facts of v1_lifecycle_postgres.go with [insertV1FactTx], through which
    every component appends to the fact outbox.  A table is a map keyed by its
    primary or conflict key; a nullable text column that the code reads as a
    Go string holds [""] for NULL, as [nullString] writes it. *)
From Stdlib Require Import String Ascii.
From stdpp Require Import base numbers decidable option list strings gmap pretty.
From S2P Require Import Prelude V1Types V1Memory.
Open Scope Z_scope.

(** ** Column types *)

(** TIMESTAMPTZ has microsecond precision; the driver cuts the rest off. *)
Definition timestamptz (t : Time) : Time := t - t mod GoTime.Microsecond.

(** [normalizeV1FactOccurredAt]: [UTC().Truncate(time.Microsecond)]. *)
Definition normalizeV1FactOccurredAt (occurredAt : Time) : Time :=
  occurredAt - occurredAt mod GoTime.Microsecond.

Lemma timestamptz_idem t : timestamptz (timestamptz t) = timestamptz t.
Proof.
  unfold timestamptz. rewrite (Zminus_mod t), Zmod_mod, Z.sub_diag, Zmod_0_l. lia.
Qed.
Lemma timestamptz_bound t : timestamptz t ≤ t < timestamptz t + GoTime.Microsecond.
Proof.
  unfold timestamptz. pose proof (Z.mod_pos_bound t GoTime.Microsecond). unfold GoTime.Microsecond in *.
  unfold GoTime.Nanosecond in *. lia.
Qed.
Lemma timestamptz_mono t u : t ≤ u → timestamptz t ≤ timestamptz u.
Proof.
  intros H. unfold timestamptz. rewrite !Z.mod_eq by done. unfold GoTime.Microsecond, GoTime.Nanosecond.
  pose proof (Z.div_le_mono t u (1000 * 1)). lia.
Qed.

(** ** Rows *)
Record command_row : Type := mkcommand_row {
  cr_command : V1RemoteCommand;
  cr_stopWorkflow : option string     (* stop_workflow_transaction_id *)
}.
#[global] Instance eta_command_row : Eta command_row := fun r =>
  mkcommand_row (cr_command r) (cr_stopWorkflow r).

Record fact_row : Type := mkfact_row {
  fr_fact : V1Fact;
  fr_aggregate : string;
  fr_sequence : option Z;
  fr_createdAt : Time;
  fr_sentAt : option Time
}.
#[global] Instance eta_fact_row : Eta fact_row := fun r =>
  mkfact_row (fr_fact r) (fr_aggregate r) (fr_sequence r) (fr_createdAt r) (fr_sentAt r).

Record charger_runtime_row : Type := mkcharger_runtime_row {
  rt_state : string;
  rt_generation : Z;
  rt_sequence : Z;
  rt_connectedAt : option Time;
  rt_lastObservedAt : option Time;
  rt_updatedAt : Time
}.
#[global] Instance eta_charger_runtime_row : Eta charger_runtime_row := fun r =>
  mkcharger_runtime_row (rt_state r) (rt_generation r) (rt_sequence r) (rt_connectedAt r)
    (rt_lastObservedAt r) (rt_updatedAt r).

Record boot_evidence_row : Type := mkboot_evidence_row {
  br_evidence : V1BootEvidence;
  br_serialConflict : bool
}.

Record mapping_audit_row : Type := mkmapping_audit_row {
  ma_id : string; ma_cpoID : string; ma_cmsChargerID : string;
  ma_correlationID : string; ma_requestDigest : string; ma_action : string
}.

Record fact_audit_row : Type := mkfact_audit_row {
  fa_id : string; fa_factID : string; fa_correlationID : string;
  fa_previousStatus : string; fa_previousError : string
}.

(** ** The database *)
Record pg : Type := mkpg {
  pg_commands : gmap string command_row;              (* by cms_command_id *)
  pg_credentials : gmap string V1Credential;          (* by id_tag *)
  pg_transactions : gmap string V1Transaction;        (* by hal_transaction_id *)
  pg_workflows : gmap string V1StopWorkflow;          (* by hal_transaction_id *)
  pg_facts : gmap string fact_row;                    (* by fact_id *)
  pg_completionKeys : gmap string (option string);    (* aggregate_key to fact_id *)
  pg_factAudit : list fact_audit_row;
  pg_mappings : gmap string V1ChargerMapping;         (* by cms_charger_id *)
  pg_connectors : gmap string V1ConnectorMapping;     (* by cms_connector_id *)
  pg_runtime : gmap string charger_runtime_row;       (* by charger_ocpp_identity *)
  pg_connectorRuntime : gmap (string * Z) V1ConnectorRuntime;
  pg_bootEvidence : gmap string boot_evidence_row;    (* by charger_ocpp_identity *)
  pg_mappingAudit : list mapping_audit_row
}.
#[global] Instance eta_pg : Eta pg := fun r =>
  mkpg (pg_commands r) (pg_credentials r) (pg_transactions r) (pg_workflows r) (pg_facts r)
    (pg_completionKeys r) (pg_factAudit r) (pg_mappings r) (pg_connectors r) (pg_runtime r)
    (pg_connectorRuntime r) (pg_bootEvidence r) (pg_mappingAudit r).
Definition pg_empty : pg := mkpg ∅ ∅ ∅ ∅ ∅ ∅ [] ∅ ∅ ∅ ∅ ∅ [].

(** SQLSTATEs *)
Definition unique_violation : go_error := ErrPg "23505".
Definition check_violation : go_error := ErrPg "23514".
Definition isDuplicate (err : go_error) : bool :=
  match errors_AsPg err with Some code => bool_decide (code = "23505") | None => false end.

(** A SELECT by a unique condition. *)
Definition find_row {K} `{Countable K} {V} (P : V → Prop) `{!∀ v, Decision (P v)} (m : gmap K V) :
    option (K * V) :=
  head (filter (λ kv, P kv.2) (map_to_list m)).

Lemma find_row_Some {K} `{Countable K} {V} (P : V → Prop) `{!∀ v, Decision (P v)} (m : gmap K V) k v :
  find_row P m = Some (k, v) → m !! k = Some v ∧ P v.
Proof.
  unfold find_row. intros Hh. assert ((k, v) ∈ filter (λ kv : K * V, P kv.2) (map_to_list m)) as Hin.
  { destruct (filter _ _); [done|]. simpl in Hh. simplify_eq. by left. }
  apply list_elem_of_filter in Hin as [HP Hin%elem_of_map_to_list]. done.
Qed.

Lemma find_row_None {K} `{Countable K} {V} (P : V → Prop) `{!∀ v, Decision (P v)} (m : gmap K V) :
  find_row P m = None → ∀ k v, m !! k = Some v → ¬ P v.
Proof.
  unfold find_row. intros Hh k v Hk HP.
  assert ((k, v) ∈ filter (λ kv : K * V, P kv.2) (map_to_list m)) as Hin.
  { apply list_elem_of_filter. split; [done|]. by apply elem_of_map_to_list. }
  destruct (filter _ _); [by apply elem_of_nil in Hin|done].
Qed.

(** ** JSON and digests

    [canonicalV1JSON] marshals a value and puts it in RFC 8785 form (the jcs
    package), the digest is SHA-256 in hexadecimal, and a JSONB column keeps a
    document but not its text: these three are parameters. *)
Record v1ImmutableFactEnvelope : Type := mkv1ImmutableFactEnvelope {
  ie_FactID : string;
  ie_FactType : string;
  ie_SchemaVersion : Z;
  ie_OccurredAt : Time;
  ie_Producer : string;
  ie_Payload : string
}.
Record V1FactEnvelope : Type := mkV1FactEnvelope {
  fe_FactID : string;
  fe_FactType : string;
  fe_SchemaVersion : Z;
  fe_OccurredAt : Time;
  fe_Producer : string;
  fe_ImmutableContentSHA256 : string;
  fe_Payload : string
}.

Inductive json_value : Type :=
  | JPayload (payload : data_map)
  | JImmutableEnvelope (e : v1ImmutableFactEnvelope).

Class FactCodec : Type := {
  canonicalV1JSON : json_value → result string;
  sha256_hex : string → string;
  jsonb_text : string → string      (* $1::jsonb read back with ::text *)
}.

Definition v1FactProducer : string := "ocpp-hal-go-new".

Definition Envelope (f : V1Fact) : V1FactEnvelope := {|
  fe_FactID := fact_FactID f; fe_FactType := fact_FactType f;
  fe_SchemaVersion := fact_SchemaVersion f; fe_OccurredAt := fact_OccurredAt f;
  fe_Producer := fact_Producer f; fe_ImmutableContentSHA256 := fact_ContentSHA256 f;
  fe_Payload := fact_Payload f
|}.

Definition immutableEnvelope (f : V1Fact) : v1ImmutableFactEnvelope := {|
  ie_FactID := fact_FactID f; ie_FactType := fact_FactType f;
  ie_SchemaVersion := fact_SchemaVersion f; ie_OccurredAt := fact_OccurredAt f;
  ie_Producer := fact_Producer f; ie_Payload := fact_Payload f
|}.

(** ** Fact payloads *)
Definition nullString (v : string) : any := if decide (v = "") then ANil else AString v.
Definition set_when (c : bool) (k : string) (v : any) (payload : data_map) : data_map :=
  if c then <[k := v]> payload else payload.

Definition v1CommandFact (command : V1RemoteCommand) : data_map :=
  let payload : data_map := list_to_map [
    ("hal_command_id", AString (cmd_HALCommandID command));
    ("cms_command_id", AString (cmd_CMSCommandID command));
    ("kind", AString (cmd_Kind command)); ("state", AString (cmd_State command));
    ("charger_ocpp_identity", AString (cmd_ChargerOCPPIdentity command));
    ("ocpp_connector_number", AInt (cmd_OCPPConnectorNumber command));
    ("delivery_attempts", AInt (cmd_DeliveryAttempts command));
    ("ocpp_result", nullString (cmd_LastOCPPResult command));
    ("last_error_category", nullString (cmd_LastErrorCategory command));
    ("last_error_detail", nullString (cmd_LastErrorDetail command));
    ("occurred_at", ATime (cmd_UpdatedAt command))] in
  let payload := set_when (bool_decide (cmd_HALTransactionID command ≠ "")) "hal_transaction_id"
                   (AString (cmd_HALTransactionID command)) payload in
  match cmd_OCPPTransactionID command with
  | Some id => <["ocpp_transaction_id" := AInt64 id]> payload
  | None => payload
  end.

Definition v1StartedFact (t : V1Transaction) (commandID : string) : data_map := list_to_map [
  ("hal_transaction_id", AString (tx_HALTransactionID t));
  ("ocpp_transaction_id", AInt64 (tx_OCPPTransactionID t));
  ("hal_command_id", AString commandID); ("cms_command_id", AString (tx_CMSCommandID t));
  ("cms_start_intent_id", AString (tx_CMSStartIntentID t)); ("cpo_id", AString (tx_CPOID t));
  ("cms_charger_id", AString (tx_CMSChargerID t));
  ("cms_connector_id", AString (tx_CMSConnectorID t));
  ("charger_ocpp_identity", AString (tx_ChargerOCPPIdentity t));
  ("ocpp_connector_number", AInt (tx_OCPPConnectorNumber t));
  ("id_tag", AString (tx_IDTag t)); ("meter_start_wh", AInt64 (tx_MeterStartWh t));
  ("started_at", ATime (tx_ActualStartedAt t)); ("limit_type", AString (tx_LimitType t));
  ("energy_limit_source", AString (tx_EnergyLimitSource t));
  ("duration_limit_source", AString (tx_DurationLimitSource t))].

(** Called only when the meter fields are set; [default 0] stands for the
    dereference, which would panic on nil. *)
Definition v1MeterFact (t : V1Transaction) : data_map := list_to_map [
  ("hal_transaction_id", AString (tx_HALTransactionID t));
  ("ocpp_transaction_id", AInt64 (tx_OCPPTransactionID t));
  ("cms_start_intent_id", AString (tx_CMSStartIntentID t));
  ("cms_charger_id", AString (tx_CMSChargerID t));
  ("cms_connector_id", AString (tx_CMSConnectorID t));
  ("charger_ocpp_identity", AString (tx_ChargerOCPPIdentity t));
  ("ocpp_connector_number", AInt (tx_OCPPConnectorNumber t));
  ("meter_sequence", AInt64 (tx_MeterSequence t));
  ("meter_value_wh", AInt64 (default 0 (tx_LatestMeterWh t)));
  ("consumed_wh", AInt64 (Int64.sub (default 0 (tx_LatestMeterWh t)) (tx_MeterStartWh t)));
  ("meter_observed_at", ATime (default 0 (tx_MeterObservedAt t)))].

(** [V1SoCPercent.String]: [fmt.Sprintf("%03d", fraction)] without its
    trailing zeros after the whole part.  Negation wraps like Go's. *)
Definition sprintf_03d (n : Z) : string :=
  String (pretty_N_char (Z.to_N (n / 100 mod 10)))
    (String (pretty_N_char (Z.to_N (n / 10 mod 10)))
      (String (pretty_N_char (Z.to_N (n mod 10))) EmptyString)).
Fixpoint trim_right_zeros (s : string) : string :=
  match s with
  | EmptyString => EmptyString
  | String c s' =>
    match trim_right_zeros s' with
    | EmptyString => if decide (c = "0"%char) then EmptyString else String c EmptyString
    | t => String c t
    end
  end.
Definition soc_string (value : V1SoCPercent) : string :=
  let negative := bool_decide (value < 0) in
  let abs := if negative then Int64.neg value else value in
  let whole := Z.quot abs v1SoCScale in
  let fraction := Z.rem abs v1SoCScale in
  let text := pretty whole in
  let text := if decide (fraction ≠ 0) then text +:+ "." +:+ trim_right_zeros (sprintf_03d fraction)
              else text in
  if negative then "-" +:+ text else text.

Definition v1SoCFact (t : V1Transaction) : data_map := list_to_map [
  ("hal_transaction_id", AString (tx_HALTransactionID t));
  ("ocpp_transaction_id", AInt64 (tx_OCPPTransactionID t));
  ("cms_start_intent_id", AString (tx_CMSStartIntentID t));
  ("cms_charger_id", AString (tx_CMSChargerID t));
  ("cms_connector_id", AString (tx_CMSConnectorID t));
  ("charger_ocpp_identity", AString (tx_ChargerOCPPIdentity t));
  ("ocpp_connector_number", AInt (tx_OCPPConnectorNumber t));
  ("soc_sequence", AInt64 (tx_SoCSequence t));
  ("soc_percent", AString (soc_string (default 0 (tx_LatestSoCPercent t))));
  ("soc_observed_at", ATime (default 0 (tx_SoCObservedAt t)))].

Definition v1CompletedFact (t : V1Transaction) (command : option V1RemoteCommand) : data_map :=
  let payload : data_map := list_to_map [
    ("hal_transaction_id", AString (tx_HALTransactionID t));
    ("ocpp_transaction_id", AInt64 (tx_OCPPTransactionID t));
    ("hal_command_id", ANil); ("cms_command_id", ANil);
    ("cms_start_intent_id", AString (tx_CMSStartIntentID t));
    ("cms_charger_id", AString (tx_CMSChargerID t));
    ("cms_connector_id", AString (tx_CMSConnectorID t));
    ("charger_ocpp_identity", AString (tx_ChargerOCPPIdentity t));
    ("ocpp_connector_number", AInt (tx_OCPPConnectorNumber t));
    ("meter_start_wh", AInt64 (tx_MeterStartWh t));
    ("meter_stop_wh", AInt64 (default 0 (tx_MeterStopWh t)));
    ("stopped_at", ATime (default 0 (tx_CompletedAt t))); ("limit_type", AString (tx_LimitType t));
    ("energy_limit_source", AString (tx_EnergyLimitSource t));
    ("duration_limit_source", AString (tx_DurationLimitSource t));
    ("ocpp_stop_reason", nullString (tx_OCPPStopReason t));
    ("requested_stop_initiator", ANil); ("requested_stop_reason", ANil)] in
  let payload :=
    match command with
    | Some c => <["hal_command_id" := AString (cmd_HALCommandID c)]>
                  (<["cms_command_id" := AString (cmd_CMSCommandID c)]> payload)
    | None => payload
    end in
  let payload := set_when (bool_decide (tx_RequestedStopInitiator t ≠ "")) "requested_stop_initiator"
                   (AString (tx_RequestedStopInitiator t)) payload in
  let payload := set_when (bool_decide (tx_RequestedStopReason t ≠ "")) "requested_stop_reason"
                   (AString (tx_RequestedStopReason t)) payload in
  match tx_RawMeterStopWh t, tx_MeterStopAdjustmentWh t with
  | Some raw, Some adjustment =>
    if decide (tx_MeterStopEvidence t ≠ "") then
      <["raw_meter_stop_wh" := AInt64 raw]>
        (<["meter_stop_adjustment_wh" := AInt64 adjustment]>
          (<["meter_stop_evidence" := AString (tx_MeterStopEvidence t)]> payload))
    else payload
  | _, _ => payload
  end.

Definition v1ConnectionFact (cpoID cmsChargerID identity state : string)
    (generation sequence : Z) (observedAt : Time) : data_map := list_to_map [
  ("cpo_id", AString cpoID); ("cms_charger_id", AString cmsChargerID);
  ("charger_ocpp_identity", AString identity); ("connection_state", AString state);
  ("connection_generation", AInt64 generation); ("connection_sequence", AInt64 sequence);
  ("observed_at", ATime observedAt)].

Definition v1StatusFact (runtime : V1ConnectorRuntime) : data_map :=
  let payload : data_map := list_to_map [
    ("cpo_id", AString (cort_CPOID runtime)); ("cms_charger_id", AString (cort_CMSChargerID runtime));
    ("cms_connector_id", AString (cort_CMSConnectorID runtime));
    ("charger_ocpp_identity", AString (cort_ChargerOCPPIdentity runtime));
    ("ocpp_connector_number", AInt (cort_OCPPConnectorNumber runtime));
    ("ocpp_connector_status", AString (cort_Status runtime));
    ("connector_status_sequence", AInt64 (cort_StatusSequence runtime));
    ("observed_at", ATime (default 0 (cort_ObservedAt runtime)))] in
  let opt k v := set_when (bool_decide (v ≠ "")) k (AString v) in
  opt "vendor_error_code" (cort_VendorErrorCode runtime)
    (opt "vendor_id" (cort_VendorID runtime)
      (opt "info" (cort_Info runtime)
        (opt "error_code" (cort_ErrorCode runtime) payload))).

(** ** Appending a fact *)
Section insert.
Context `{FactCodec}.

(** The rows the outbox's UNIQUE (fact_type, aggregate_key, sequence) makes
    conflict; a NULL sequence never does. *)
Definition same_fact_key (factType aggregate : string) (sequence : option Z) (r : fact_row) : Prop :=
  fact_FactType (fr_fact r) = factType ∧ fr_aggregate r = aggregate ∧
  is_Some sequence ∧ fr_sequence r = sequence.
#[global] Instance same_fact_key_dec ty ag sq r : Decision (same_fact_key ty ag sq r).
Proof. unfold same_fact_key. apply _. Defined.

Definition insert_fact_row (row : fact_row) : txm pg () := λ s,
  if decide (is_Some (pg_facts s !! fact_FactID (fr_fact row))) then inr unique_violation
  else
    match find_row (same_fact_key (fact_FactType (fr_fact row)) (fr_aggregate row) (fr_sequence row))
            (pg_facts s) with
    | Some _ => inl ((), s)                     (* ON CONFLICT ... DO NOTHING *)
    | None => inl ((), s <| pg_facts ::= <[fact_FactID (fr_fact row) := row]> |>)
    end.

Definition new_fact (factID factType body : string) (occurredAt : Time) : V1Fact := {|
  fact_FactID := factID; fact_FactType := factType; fact_SchemaVersion := 1;
  fact_OccurredAt := occurredAt; fact_Producer := v1FactProducer; fact_ContentSHA256 := "";
  fact_Payload := body; fact_Status := "PENDING"; fact_Retries := 0;
  fact_NextRetryAt := occurredAt; fact_ClaimedUntil := None; fact_ClaimToken := "";
  fact_DeliveryStatus := None; fact_LastError := "" |}.

(** The row of the INSERT: the digest of the envelope, the stored payload. *)
Definition new_fact_row (now : Time) (fact : V1Fact) (envelope aggregate : string)
    (sequence : option Z) : fact_row := {|
  fr_fact := fact <| fact_ContentSHA256 := sha256_hex envelope |>
                  <| fact_Payload := jsonb_text (fact_Payload fact) |>;
  fr_aggregate := aggregate; fr_sequence := sequence;
  fr_createdAt := timestamptz now; fr_sentAt := None |}.

Definition insertV1FactTx (now : Time) (generated : result string) (factType aggregate : string)
    (sequence : option Z) (occurredAt : Time) (payload : data_map) : txm pg () :=
  let occurredAt := normalizeV1FactOccurredAt occurredAt in
  body ← tx_lift (canonicalV1JSON (JPayload payload));
  factID ← tx_lift (NewSecureUUIDString generated);
  let fact := new_fact factID factType body occurredAt in
  envelope ← tx_lift (canonicalV1JSON (JImmutableEnvelope (immutableEnvelope fact)));
  let row := new_fact_row now fact envelope aggregate sequence in
  if decide (factType = "transaction.completed") then
    s ← tx_get;
    match pg_completionKeys s !! aggregate with
    | Some _ => mret ()
    | None =>
      tx_modify (λ s, s <| pg_completionKeys ::= <[aggregate := None]> |>);;
      insert_fact_row row;;
      tx_modify (λ s, s <| pg_completionKeys ::=
        alter (λ id, match id with None => Some factID | _ => id end) aggregate |>)
    end
  else insert_fact_row row.

(** What a successful append does: nothing when its key is taken, else one new
    row, whose identifier and key were free. *)
Definition appended (now : Time) (factType aggregate : string) (sequence : option Z)
    (occurredAt : Time) (payload : data_map) (s : pg) (row : fact_row) : Prop :=
  ∃ factID body envelope,
    let fact := new_fact factID factType body (normalizeV1FactOccurredAt occurredAt) in
    canonicalV1JSON (JPayload payload) = inl body ∧
    canonicalV1JSON (JImmutableEnvelope (immutableEnvelope fact)) = inl envelope ∧
    row = new_fact_row now fact envelope aggregate sequence ∧ pg_facts s !! factID = None ∧
    ∀ id r, pg_facts s !! id = Some r → ¬ same_fact_key factType aggregate sequence r.

Lemma insertV1FactTx_inv now g factType aggregate sequence occurredAt payload s s' :
  factType ≠ "transaction.completed" →
  insertV1FactTx now g factType aggregate sequence occurredAt payload s = inl ((), s') →
  (s' = s ∧ ∃ id r, pg_facts s !! id = Some r ∧ same_fact_key factType aggregate sequence r) ∨
  (∃ row, appended now factType aggregate sequence occurredAt payload s row ∧
     s' = s <| pg_facts ::= <[fact_FactID (fr_fact row) := row]> |>).
Proof.
  intros Ht Hi. unfold insertV1FactTx in Hi.
  apply tx_bind_inv in Hi as (body & s1 & Hb & Hi). unfold tx_lift in Hb.
  destruct (canonicalV1JSON (JPayload payload)) as [b|] eqn:Eb; [|done]. simplify_eq.
  apply tx_bind_inv in Hi as (id & s2 & Hg & Hi). unfold tx_lift in Hg.
  destruct (NewSecureUUIDString g) as [i|]; [|done]. simplify_eq.
  apply tx_bind_inv in Hi as (en & s3 & He & Hi). unfold tx_lift in He.
  destruct (canonicalV1JSON (JImmutableEnvelope _)) as [e|] eqn:Ee; [|done]. simplify_eq.
  rewrite decide_False in Hi by done. unfold insert_fact_row in Hi. simpl in Hi.
  case_decide as Hid; [done|]. destruct (find_row _ _) as [[k r]|] eqn:Ef; simplify_eq.
  - left. split; [done|]. apply find_row_Some in Ef. eauto.
  - right. exists (new_fact_row now (new_fact id factType body
      (normalizeV1FactOccurredAt occurredAt)) en aggregate sequence). split; [|done].
    exists id, body, en. split_and!; [done|done|done|by apply eq_None_not_Some|].
    exact (find_row_None _ _ Ef).
Qed.

(** The single terminal fact of an aggregate. *)
Lemma insertV1FactTx_completed_inv now g aggregate occurredAt payload s s' :
  insertV1FactTx now g "transaction.completed" aggregate None occurredAt payload s = inl ((), s') →
  (is_Some (pg_completionKeys s !! aggregate) ∧ s' = s) ∨
  (pg_completionKeys s !! aggregate = None ∧
   ∃ row, appended now "transaction.completed" aggregate None occurredAt payload s row ∧
     s' = s <| pg_facts ::= <[fact_FactID (fr_fact row) := row]> |>
            <| pg_completionKeys ::= <[aggregate := Some (fact_FactID (fr_fact row))]> |>).
Proof.
  intros Hi. unfold insertV1FactTx in Hi.
  apply tx_bind_inv in Hi as (body & s1 & Hb & Hi). unfold tx_lift in Hb.
  destruct (canonicalV1JSON (JPayload payload)) as [b|] eqn:Eb; [|done]. simplify_eq.
  apply tx_bind_inv in Hi as (id & s2 & Hg & Hi). unfold tx_lift in Hg.
  destruct (NewSecureUUIDString g) as [i|]; [|done]. simplify_eq.
  apply tx_bind_inv in Hi as (en & s3 & He & Hi). unfold tx_lift in He.
  destruct (canonicalV1JSON (JImmutableEnvelope _)) as [e|] eqn:Ee; [|done]. simplify_eq.
  rewrite decide_True in Hi by done. tx_simpl Hi.
  destruct (pg_completionKeys s3 !! aggregate) eqn:Ek; tx_simpl Hi;
    [injection Hi as ->; left; by eauto|].
  right. split; [done|]. apply tx_bind_inv in Hi as (u & s4 & Hr & Hi).
  unfold insert_fact_row in Hr. cbn in Hr.
  case_decide as Hid; [done|]. destruct (find_row _ _) as [[k r]|] eqn:Ef.
  { apply find_row_Some in Ef as (_ & _ & _ & [? ?] & _). done. }
  injection Hr as <- <-. tx_simpl Hi. injection Hi as <-.
  exists (new_fact_row now (new_fact id "transaction.completed" body
    (normalizeV1FactOccurredAt occurredAt)) en aggregate None). split.
  - exists id, body, en. split_and!; [done|done|done|by apply eq_None_not_Some|].
    exact (find_row_None _ _ Ef).
  - unfold set_field. simpl. f_equal. apply map_eq. intros k. destruct (decide (k = aggregate)) as [->|].
    + by rewrite lookup_alter_eq, !lookup_insert_eq.
    + by rewrite lookup_alter_ne, !lookup_insert_ne.
Qed.
End insert.

Example soc_string_63500 : soc_string 63500 = "63.5". Proof. vm_compute. reflexivity. Qed.
Example soc_string_7 : soc_string 7 = "0.007". Proof. vm_compute. reflexivity. Qed.
Example soc_string_100 : soc_string 100000 = "100". Proof. vm_compute. reflexivity. Qed.

(** ** The keys of the stored facts *)
Definition has_fact (s : pg) (factType aggregate : string) (sequence : option Z) : Prop :=
  ∃ id r, pg_facts s !! id = Some r ∧ fact_FactType (fr_fact r) = factType ∧
    fr_aggregate r = aggregate ∧ fr_sequence r = sequence.

(** The facts of one kind about one aggregate carry exactly the sequences 1..n. *)
Definition facts_upto (s : pg) (factType aggregate : string) (n : Z) : Prop :=
  ∀ q, has_fact s factType aggregate q ↔ ∃ k, q = Some k ∧ 1 ≤ k ≤ n.

(** No two rows share a type, aggregate and sequence. *)
Definition facts_distinct (s : pg) (factType : string) : Prop :=
  ∀ id1 r1 id2 r2, pg_facts s !! id1 = Some r1 → pg_facts s !! id2 = Some r2 →
    fact_FactType (fr_fact r1) = factType → fact_FactType (fr_fact r2) = factType →
    fr_aggregate r1 = fr_aggregate r2 → fr_sequence r1 = fr_sequence r2 → id1 = id2.

(** Two databases that differ in the outbox only. *)
Definition outbox_only (s s' : pg) : Prop :=
  s' = s <| pg_facts := pg_facts s' |> <| pg_completionKeys := pg_completionKeys s' |>.

Lemma outbox_only_refl s : outbox_only s s.
Proof. by destruct s. Qed.
Lemma outbox_only_facts s F K :
  outbox_only s (s <| pg_facts := F |> <| pg_completionKeys := K |>).
Proof. by destruct s. Qed.

Section fact_keys.
Context `{FactCodec}.

Lemma appended_has_fact now ty ag q at_ p s s' row ty' ag' q' :
  appended now ty ag q at_ p s row →
  pg_facts s' = <[fact_FactID (fr_fact row) := row]> (pg_facts s) →
  has_fact s' ty' ag' q' ↔ has_fact s ty' ag' q' ∨ (ty' = ty ∧ ag' = ag ∧ q' = q).
Proof.
  intros (factID & body & en & _ & _ & -> & Hn & _) HF. unfold has_fact. rewrite HF. simpl. split.
  - intros (id & r & Hr & Ht & Ha & Hq).
    apply lookup_insert_Some in Hr as [[<- <-]|[_ Hr]]; [right; done|left; eauto 6].
  - intros [(id & r & Hr & Ht & Ha & Hq)|(-> & -> & ->)].
    + exists id, r. rewrite lookup_insert_ne; [done|congruence].
    + exists factID. eexists. rewrite lookup_insert_eq. split; [done|]. done.
Qed.

(** Appending under any key but a completion's. *)
Lemma insert_fact_keys now g ty ag q at_ p s s' :
  ty ≠ "transaction.completed" → insertV1FactTx now g ty ag q at_ p s = inl ((), s') →
  outbox_only s s' ∧ pg_completionKeys s' = pg_completionKeys s ∧
  (∀ ty' ag' q', has_fact s' ty' ag' q' ↔ has_fact s ty' ag' q' ∨ (ty' = ty ∧ ag' = ag ∧ q' = q)).
Proof.
  intros Ht Hi. apply insertV1FactTx_inv in Hi as [[-> (id & r & Hr & Hk)]|(row & Happ & ->)]; [|..|done].
  - split_and!; [apply outbox_only_refl|done|]. intros ty' ag' q'.
    split; [by left|]. intros [?|(-> & -> & ->)]; [done|].
    destruct Hk as (? & ? & _ & ?). by exists id, r.
  - split_and!; [by destruct s|done|]. intros ty' ag' q'. by eapply appended_has_fact.
Qed.

Lemma insert_fact_distinct now g ty ag q at_ p s s' ty' :
  ty ≠ "transaction.completed" → is_Some q ∨ ty ≠ ty' →
  insertV1FactTx now g ty ag q at_ p s = inl ((), s') →
  facts_distinct s ty' → facts_distinct s' ty'.
Proof.
  intros Ht Hq Hi Hd.
  apply insertV1FactTx_inv in Hi as [[-> _]|(row & (factID & body & en & _ & _ & -> & Hn & Hf) & ->)];
    [done| |done].
  intros id1 r1 id2 r2. simpl.
  assert (∀ id r, pg_facts s !! id = Some r → ty' = ty → fact_FactType (fr_fact r) = ty' →
    fr_aggregate r = ag → fr_sequence r = q → False) as Hnew.
  { intros id r Hr -> Hty Ha Hs. destruct Hq as [[k ->]|]; [|done].
    apply (Hf id r Hr). split_and!; eauto. }
  intros [[<- <-]|[_ H1]]%lookup_insert_Some [[<- <-]|[_ H2]]%lookup_insert_Some; simpl; try done.
  - intros <- Hty Ha Hs. exfalso. by eapply Hnew.
  - intros Hty <- Ha Hs. exfalso. by eapply Hnew.
  - intros. by eapply Hd.
Qed.

(** The next sequence of an aggregate is never swallowed as a conflict. *)
Lemma insert_fact_next now g ty ag n at_ p s s' :
  ty ≠ "transaction.completed" → 0 ≤ n → facts_upto s ty ag n →
  insertV1FactTx now g ty ag (Some (n + 1)) at_ p s = inl ((), s') →
  facts_upto s' ty ag (n + 1) ∧
  ∃ row, appended now ty ag (Some (n + 1)) at_ p s row ∧
    pg_facts s' = <[fact_FactID (fr_fact row) := row]> (pg_facts s).
Proof.
  intros Ht Hn0 Hu Hi. pose proof Hi as Hi'.
  apply insert_fact_keys in Hi' as (_ & _ & Hk); [|done]. split.
  - intros q. rewrite Hk, (Hu q). split.
    + intros [(k & -> & ?)|(_ & _ & ->)]; [exists k|exists (n + 1)]; split; done || lia.
    + intros (k & -> & ?). destruct (decide (k = n + 1)) as [->|]; [by right|].
      left. exists k. split; [done|lia].
  - apply insertV1FactTx_inv in Hi as [[_ (id & r & Hr & Hs)]|(row & Happ & ->)]; [|by exists row|done].
    exfalso. destruct Hs as (Hty & Ha & _ & Hs).
    destruct (proj1 (Hu (Some (n + 1)))) as (k & [= <-] & ?); [|lia]. by exists id, r.
Qed.
End fact_keys.
