(* ===== verification/HttpValidation.v ===== *)
(** * What the HTTP API accepts

    internal/httpapi: the checks of v1.go and v1_operations.go that a request
    passes before the store sees it.  UUID parsing (github.com/google/uuid) is
    the class [UuidLib].  A check that ranges over the runes of a text and
    admits ASCII only is a check of its bytes: a byte above 127 is part of a
    rune above 127 or of the replacement character. *)
From Stdlib Require Import String Ascii.
From stdpp Require Import base numbers decidable option list strings gmap.
From S2P Require Import Prelude GoText V1Types.
Open Scope Z_scope.

Class UuidLib : Type := {
  uuid : Type;
  uuid_eq_dec :: EqDecision uuid;
  uuid_Nil : uuid;
  uuid_Parse : string → option uuid;
  uuid_String : uuid → string
}.

Section uuids.
Context `{UuidLib}.
Definition validUUID (value : string) : bool :=
  match uuid_Parse value with
  | Some parsed => bool_decide (parsed ≠ uuid_Nil ∧ uuid_String parsed = value)
  | None => false
  end.
End uuids.

(** ** Limits (v1.go) *)
Definition validV1LimitType (value : string) : bool :=
  bool_decide (value ∈ ["AUTO"; "ENERGY"; "TIME"; "MONEY"]).
Definition validV1LimitSource (value : string) : bool :=
  bool_decide (value ∈ ["NONE"; "CUSTOMER_ENERGY"; "CUSTOMER_TIME"; "CUSTOMER_MONEY"; "WALLET"]).

(** The source a request that names none stands for. *)
Definition implied_source (limitType source : string) (energy : bool) : string :=
  if decide (source = "") then
    if decide (limitType = "AUTO") then "WALLET"
    else if decide (limitType = "MONEY") then "CUSTOMER_MONEY"
    else if decide (limitType = "ENERGY" ∧ energy = true) then "CUSTOMER_ENERGY"
    else if decide (limitType = "TIME" ∧ energy = false) then "CUSTOMER_TIME"
    else source
  else source.

Definition normalizeV1LimitSource (limitType source : string) (threshold : Z) (energy : bool) : string * bool :=
  if decide (threshold = 0) then ("NONE", bool_decide (source = "" ∨ source = "NONE"))
  else
    let source := implied_source limitType source energy in
    if decide (validV1LimitSource source = false ∨ source = "NONE") then ("", false)
    else if decide (energy = true ∧ source = "CUSTOMER_TIME") then ("", false)
    else if decide (energy = false ∧ source = "CUSTOMER_ENERGY") then ("", false)
    else (source, true).

Definition validV1StopInitiator (value : string) : bool :=
  bool_decide (value = "CUSTOMER" ∨ value = "CPO").

(** ** Texts *)
Definition byte_in (lo hi : nat) (c : ascii) : bool := bool_decide (lo ≤ nat_of_ascii c ≤ hi)%nat.
Definition all_bytes (p : ascii → bool) (s : string) : bool := forallb p (String.list_ascii_of_string s).

Definition validIdentityEvidence (value : string) : bool :=
  let value := GoStrings.TrimSpace value in
  if decide (Z.of_nat (String.length value) > 100) then false
  else all_bytes (λ c, byte_in 33 126 c && negb (bool_decide (c = "/"%char))) value.

(** ** Charger operations (v1_operations.go) *)
Definition key_byte (c : ascii) : bool :=
  byte_in 97 122 c || byte_in 65 90 c || byte_in 48 57 c ||
  bool_decide (c = "_"%char) || bool_decide (c = "-"%char) || bool_decide (c = "."%char).
Definition validV1ConfigurationKey (value : string) : bool :=
  let n := Z.of_nat (String.length value) in
  if decide (n < 1 ∨ n > 100) then false else all_bytes key_byte value.
Definition printableV1ConfigurationValue (value : string) : bool := all_bytes (byte_in 32 126) value.

Definition v1HALOwnedConfigurationKey (key : string) : bool :=
  bool_decide (ToLower key ∈ ["heartbeatinterval"; "metervalueinterval"; "metervaluesampleinterval";
    "authorizeremotetxrequests"; "localauthorizeoffline"; "localpreauthorize"; "authorizationcacheenabled";
    "allowofflinetxforunknownid"; "stoptransactiononinvalidid"; "chargepointauthenable"; "freevendenabled"]).
Definition v1SensitiveConfigurationKey (key : string) : bool :=
  let key := ToLower key in
  Contains key "password" || Contains key "secret" || Contains key "token" || Contains key "privatekey" ||
  Contains key "certificate" || bool_decide (key = "authorizationkey").

Definition value_of (m : gmap string string) (k : string) : string := default "" (m !! k).

Definition validV1ConfigurationChange (parameters : gmap string string) : bool :=
  if decide (size parameters ≠ 2%nat) then false
  else
    let key := GoStrings.TrimSpace (value_of parameters "key") in
    let value := value_of parameters "value" in
    validV1ConfigurationKey key && bool_decide (Z.of_nat (String.length value) ≤ 500) &&
    printableV1ConfigurationValue value && negb (v1HALOwnedConfigurationKey key) &&
    negb (v1SensitiveConfigurationKey key).

Definition v1TriggerMessageAllowlist : list string :=
  ["BootNotification"; "DiagnosticsStatusNotification"; "FirmwareStatusNotification"; "Heartbeat";
   "MeterValues"; "StatusNotification"].

Record v1ChargerOperationRequest : Type := mkv1ChargerOperationRequest {
  cor_CMSOperationID : string;
  cor_TraceID : string;
  cor_CPOID : string;
  cor_CMSChargerID : string;
  cor_CMSConnectorID : string;
  cor_ChargerOCPPIdentity : string;
  cor_OCPPConnectorNumber : Z;
  cor_Kind : string;
  cor_Parameters : gmap string string;
  cor_ConfigurationKeys : option (list string)   (* None: a nil slice *)
}.

(** The switch on the kind. *)
Definition valid_kind (kind : string) (connector : Z) (parameters : gmap string string) (keys : list string) : bool :=
  let type_in (l : list string) := bool_decide (value_of parameters "type" ∈ l) in
  if decide (kind = "RESET") then bool_decide (connector = 0) && type_in ["SOFT"; "HARD"]
  else if decide (kind = "UNLOCK_CONNECTOR") then bool_decide (0 < connector ∧ parameters = ∅)
  else if decide (kind = "CHANGE_AVAILABILITY") then type_in ["OPERATIVE"; "INOPERATIVE"]
  else if decide (kind = "CLEAR_CACHE") then bool_decide (connector = 0 ∧ parameters = ∅)
  else if decide (kind = "CHANGE_CONFIGURATION") then
    bool_decide (connector = 0) && validV1ConfigurationChange parameters
  else if decide (kind = "TRIGGER_MESSAGE") then
    bool_decide (value_of parameters "requested_message" ∈ v1TriggerMessageAllowlist ∧ size parameters = 1%nat)
  else if decide (kind = "GET_CONFIGURATION") then
    bool_decide (connector = 0 ∧ parameters = ∅ ∧ Z.of_nat (length keys) ≤ 64) &&
    forallb validV1ConfigurationKey keys
  else false.

Definition validV1ChargerOperation `{UuidLib} (request : v1ChargerOperationRequest) : bool :=
  validUUID (cor_CMSOperationID request) && validUUID (cor_TraceID request) && validUUID (cor_CPOID request) &&
  validUUID (cor_CMSChargerID request) &&
  bool_decide (GoStrings.TrimSpace (cor_ChargerOCPPIdentity request) ≠ "" ∧
    Z.of_nat (String.length (cor_ChargerOCPPIdentity request)) ≤ 255 ∧
    0 ≤ cor_OCPPConnectorNumber request) &&
  (if decide (cor_OCPPConnectorNumber request = 0) then bool_decide (cor_CMSConnectorID request = "")
   else validUUID (cor_CMSConnectorID request)) &&
  valid_kind (cor_Kind request) (cor_OCPPConnectorNumber request) (cor_Parameters request)
    (default [] (cor_ConfigurationKeys request)).

(** ** Properties of the checks *)
Lemma all_bytes_plain p s :
  (∀ c, p c = true → plain c = true) → all_bytes p s = true → plain_text s.
Proof.
  intros Hp Hs. unfold plain_text. apply Forall_forall. intros c Hc. apply Hp.
  unfold all_bytes in Hs. by apply (proj1 (forallb_forall _ _) Hs), list_elem_of_In.
Qed.

Lemma key_byte_plain c : key_byte c = true → plain c = true.
Proof.
  unfold key_byte, byte_in, plain. intros H. apply bool_decide_eq_true.
  repeat (apply orb_true_iff in H as [H|H]); apply bool_decide_eq_true in H; try lia; subst; vm_compute; split; discriminate.
Qed.

Lemma validV1ConfigurationKey_spec s :
  validV1ConfigurationKey s = true → 1 ≤ Z.of_nat (String.length s) ≤ 100 ∧ plain_text s.
Proof.
  unfold validV1ConfigurationKey. case_decide; [done|]. intros Hs. split; [lia|].
  eapply all_bytes_plain; [apply key_byte_plain|done].
Qed.
