(* ===== verification/TraceData.v ===== *)
(** * What diagnostic evidence may carry

    internal/store/v1_trace.go: the sanitiser every trace event passes before
    it is stored; internal/ocpp16hal/operation_observer.go: the evidence the
    HAL builds for charger operations; internal/store's follow-on evidence.  A
    Go pair (value, ok) whose value is only read when ok holds is an option. *)
From Stdlib Require Import String Ascii.
From stdpp Require Import base numbers decidable option list strings gmap.
From S2P Require Import Prelude GoText GoClock GoDate V1Types HttpValidation.
Open Scope Z_scope.

(** [m[k]]: nil for a missing key. *)
Definition at_key (m : data_map) (k : string) : any := default ANil (m !! k).
Definition obj (fields : list (string * any)) : data_map := list_to_map fields.

(** ** Vocabulary (v1_trace.go) *)
Definition V1TriggerMessageAction (action : string) : bool :=
  bool_decide (action ∈ ["BootNotification"; "DiagnosticsStatusNotification"; "FirmwareStatusNotification";
    "Heartbeat"; "MeterValues"; "StatusNotification"]).
Definition V1TriggerMessageConnectorScoped (action : string) : bool :=
  bool_decide (action = "MeterValues" ∨ action = "StatusNotification").
Definition v1OperationAction (action : string) : bool :=
  bool_decide (action ∈ ["Reset"; "UnlockConnector"; "ChangeAvailability"; "ClearCache";
    "ChangeConfiguration"; "TriggerMessage"; "GetConfiguration"]).

Definition text_length (s : string) : Z := Z.of_nat (String.length s).

Definition v1SafeText (value : any) (maximum : Z) : option string :=
  match value with
  | AString s =>
    let text := GoStrings.TrimSpace s in
    if decide (text ≠ "" ∧ text_length text ≤ maximum) then Some text else None
  | _ => None
  end.

Definition v1SafeConnector (value : any) : option Z :=
  match value with
  | AInt n | AFloatInt n => if decide (0 ≤ n ≤ 999) then Some n else None
  | _ => None
  end.

Definition v1SafeStringList (value : any) (maximum itemMaximum : Z) : option (list string) :=
  items ← match value with
          | AList l => Some l
          | AStrings l => Some (AString <$> l)
          | _ => None
          end;
  if decide (maximum < Z.of_nat (length items)) then None
  else mapM (λ item, v1SafeText item itemMaximum) items.

(** ** Configuration results *)
Definition as_map (v : any) : option data_map := match v with AMap m => Some m | _ => None end.
Definition as_bool (v : any) : option bool := match v with ABool b => Some b | _ => None end.
Definition as_string (v : any) : option string := match v with AString s => Some s | _ => None end.
Definition as_list (v : any) : option (list any) := match v with AList l => Some l | _ => None end.

Definition safe_item (raw : any) : option data_map :=
  item ← as_map raw;
  if decide (Z.of_nat (size item) < 2 ∨ 3 < Z.of_nat (size item)) then None
  else
    key ← v1SafeText (at_key item "key") 100;
    redacted ← as_bool (at_key item "redacted");
    let safe := obj [("key", AString key); ("redacted", ABool redacted)] in
    match item !! "value" with
    | None => Some safe
    | Some value =>
      if redacted then None
      else
        text ← as_string value;
        if decide (500 < text_length text) then None else Some (<["value" := AString text]> safe)
    end.

Definition v1SafeConfigurationResult (payload : data_map) : option data_map :=
  items ← as_list (at_key payload "configuration_keys");
  if decide (64 < Z.of_nat (length items)) then None
  else
    keys ← mapM safe_item items;
    unknown ← v1SafeStringList (at_key payload "unknown_keys") 64 100;
    if decide (size payload ≠ 2%nat) then None
    else Some (obj [("configuration_keys", AMaps keys); ("unknown_keys", AStrings unknown)]).

(** ** Operation payloads *)
Definition guarded {A} (P : Prop) `{Decision P} (a : A) : option A := if decide P then Some a else None.

Definition v1SafeOperationPayload (action messageType : string) (payload : data_map) : option data_map :=
  let n := Z.of_nat (size payload) in
  if decide (messageType = "CALLERROR") then
    code ← v1SafeText (at_key payload "error_code") 64;
    guarded (n = 1) (obj [("error_code", AString code)])
  else if decide (messageType = "CALLRESULT") then
    if decide (action = "GetConfiguration") then v1SafeConfigurationResult payload
    else
      status ← v1SafeText (at_key payload "status") 64;
      guarded (n = 1) (obj [("status", AString status)])
  else if decide (action = "Reset") then
    value ← v1SafeText (at_key payload "type") 16;
    guarded ((value = "Soft" ∨ value = "Hard") ∧ n = 1) (obj [("type", AString value)])
  else if decide (action = "UnlockConnector") then
    connector ← v1SafeConnector (at_key payload "connectorId");
    guarded (n = 1) (obj [("connectorId", AInt connector)])
  else if decide (action = "ChangeAvailability") then
    connector ← v1SafeConnector (at_key payload "connectorId");
    value ← v1SafeText (at_key payload "type") 16;
    guarded ((value = "Operative" ∨ value = "Inoperative") ∧ n = 2)
      (obj [("connectorId", AInt connector); ("type", AString value)])
  else if decide (action = "ClearCache") then guarded (n = 0) ∅
  else if decide (action = "ChangeConfiguration") then
    key ← v1SafeText (at_key payload "key") 100;
    redacted ← as_bool (at_key payload "redacted");
    guarded (redacted = true ∧ n = 2) (obj [("key", AString key); ("redacted", ABool true)])
  else if decide (action = "TriggerMessage") then
    message ← v1SafeText (at_key payload "requestedMessage") 64;
    let safe := obj [("requestedMessage", AString message)] in
    safe ← match payload !! "connectorId" with
           | Some connector => (λ number, <["connectorId" := AInt number]> safe) <$> v1SafeConnector connector
           | None => Some safe
           end;
    guarded (n = 1 ∨ n = 2) safe
  else if decide (action = "GetConfiguration") then
    keys ← v1SafeStringList (at_key payload "configuration_keys") 64 100;
    guarded (n = 1) (obj [("configuration_keys", AStrings keys)])
  else None.

Definition message_types : list string := ["CALL"; "CALLRESULT"; "CALLERROR"].

Definition sanitizeV1OperationEvidence (input : data_map) : data_map :=
  default ∅ (
    uniqueID ← v1SafeText (at_key input "unique_id") 128;
    action ← v1SafeText (at_key input "action") 64;
    messageType ← as_string (at_key input "message_type");
    payload ← as_map (at_key input "payload");
    if decide (v1OperationAction action = false ∨ messageType ∉ message_types) then None
    else
      safePayload ← v1SafeOperationPayload action messageType payload;
      Some (obj [("unique_id", AString uniqueID); ("action", AString action);
                 ("message_type", AString messageType); ("payload", AMap safePayload)])).

(** ** Follow-on evidence *)
Definition with_connector (input : data_map) (expected : string) (safe : data_map) : option data_map :=
  if V1TriggerMessageConnectorScoped expected then
    connector ← v1SafeConnector (at_key input "connector_number");
    guarded (1 ≤ connector ∧ size input = 5%nat) (<["connector_number" := AInt connector]> safe)
  else guarded (size input = 4%nat) safe.

Definition sanitizeV1TriggerMessageFollowOnClosure (input : data_map) : data_map :=
  default ∅ (
    closed ← as_bool (at_key input "follow_on_closed");
    expected ← v1SafeText (at_key input "expected_message") 64;
    identity ← v1SafeText (at_key input "charger_ocpp_identity") 255;
    acceptedAt ← as_string (at_key input "accepted_at");
    parsed ← Date.Parse acceptedAt;
    if decide (closed = false ∨ V1TriggerMessageAction expected = false) then None
    else with_connector input expected
      (obj [("expected_message", AString expected); ("charger_ocpp_identity", AString identity);
            ("accepted_at", AString (Clock.RFC3339Nano parsed))])).

Definition sanitizeV1TriggerMessageFollowOn (input : data_map) : data_map :=
  default ∅ (
    followOn ← as_bool (at_key input "follow_on");
    expected ← v1SafeText (at_key input "expected_message") 64;
    observed ← v1SafeText (at_key input "observed_action") 64;
    identity ← v1SafeText (at_key input "charger_ocpp_identity") 255;
    if decide (followOn = false ∨ expected ≠ observed ∨ V1TriggerMessageAction expected = false) then None
    else with_connector input expected
      (obj [("expected_message", AString expected); ("observed_action", AString observed);
            ("charger_ocpp_identity", AString identity)])).

Definition trace_keys : list string :=
  ["action"; "result"; "status"; "transaction_id"; "connector_id"; "meter_wh"; "reason"; "error_class";
   "unique_id"; "message_type"; "direction"; "payload"].

(** The final persistence boundary for diagnostic data. *)
Definition sanitizeV1TraceData (data : any) : data_map :=
  match data with
  | AMap input =>
    if decide (is_Some (input !! "follow_on")) then sanitizeV1TriggerMessageFollowOn input
    else if decide (is_Some (input !! "follow_on_closed")) then sanitizeV1TriggerMessageFollowOnClosure input
    else if decide (is_Some (input !! "message_type")) then sanitizeV1OperationEvidence input
    else filter (λ p, p.1 ∈ trace_keys) input
  | _ => ∅
  end.

Definition validV1AcceptedTriggerMessageTrace (input : V1TraceEventInput) (requestedMessage : string) : bool :=
  if decide (V1TriggerMessageAction requestedMessage = false ∨ GoTime.IsZero (evi_OccurredAt input) ∨
             evi_Category input ≠ "CHARGER_OPERATION_OCPP") then false
  else
    let safe := sanitizeV1TraceData (evi_Data input) in
    bool_decide (as_string (at_key safe "action") = Some "TriggerMessage" ∧
      as_string (at_key safe "message_type") = Some "CALLRESULT" ∧
      (payload ← as_map (at_key safe "payload"); as_string (at_key payload "status")) = Some "Accepted").

(** ** The evidence the HAL builds (operation_observer.go) *)
Definition operationAction (kind : string) : string :=
  default "" (list_to_map (M := gmap string string)
    [("RESET", "Reset"); ("UNLOCK_CONNECTOR", "UnlockConnector"); ("CHANGE_AVAILABILITY", "ChangeAvailability");
     ("CLEAR_CACHE", "ClearCache"); ("CHANGE_CONFIGURATION", "ChangeConfiguration");
     ("TRIGGER_MESSAGE", "TriggerMessage"); ("GET_CONFIGURATION", "GetConfiguration")] !! kind).

Definition parameter (o : V1ChargerOperation) (k : string) : string := default "" (op_Parameters o !! k).

Definition safeOperationCall (o : V1ChargerOperation) : data_map :=
  let kind := op_Kind o in
  let titled := AString (Title (ToLower (parameter o "type"))) in
  let connector := AInt (op_OCPPConnectorNumber o) in
  if decide (kind = "RESET") then obj [("type", titled)]
  else if decide (kind = "UNLOCK_CONNECTOR") then obj [("connectorId", connector)]
  else if decide (kind = "CHANGE_AVAILABILITY") then obj [("connectorId", connector); ("type", titled)]
  else if decide (kind = "CLEAR_CACHE") then ∅
  else if decide (kind = "CHANGE_CONFIGURATION") then
    obj [("key", AString (parameter o "key")); ("redacted", ABool true)]
  else if decide (kind = "TRIGGER_MESSAGE") then
    let p := obj [("requestedMessage", AString (parameter o "requested_message"))] in
    if decide (0 < op_OCPPConnectorNumber o) then <["connectorId" := connector]> p else p
  else if decide (kind = "GET_CONFIGURATION") then
    obj [("configuration_keys", AList (AString <$> default [] (op_ConfigurationKeys o)))]
  else ∅.

Definition sensitiveConfigurationKey (key : string) : bool :=
  let key := ToLower key in
  Contains key "password" || Contains key "secret" || Contains key "token" || Contains key "privatekey" ||
  Contains key "certificate" || bool_decide (key = "authorizationkey").

(** One reported configuration item; a sensitive key's value is left out. *)
Definition safe_reported (raw : any) : data_map :=
  let item := default ∅ (as_map raw) in
  let key := default "" (as_string (at_key item "key")) in
  let v := obj [("key", AString key)] in
  if sensitiveConfigurationKey key then <["redacted" := ABool true]> v
  else <["redacted" := ABool false]> (<["value" := at_key item "value"]> v).

Definition safeOperationResponse (action messageType : string) (payload : data_map) : data_map :=
  if decide (messageType = "CALLERROR") then obj [("error_code", at_key payload "error_code")]
  else if decide (action = "GetConfiguration") then
    let keys := default [] (as_list (at_key payload "configurationKey")) in
    let unknown := default [] (as_list (at_key payload "unknownKey")) in
    obj [("configuration_keys", AList (AMap ∘ safe_reported <$> keys)); ("unknown_keys", AList unknown)]
  else obj [("status", at_key payload "status")].

Definition operationDirection (messageType : string) : string :=
  if decide (messageType = "CALL") then "OUTBOUND" else "INBOUND".

(** The data of the trace event of one OCPP message of an operation. *)
Definition operation_data (uniqueID action messageType : string) (payload : data_map) : data_map :=
  obj [("unique_id", AString uniqueID); ("action", AString action); ("message_type", AString messageType);
       ("direction", AString (operationDirection messageType)); ("payload", AMap payload)].

(** ** The follow-on evidence the stores build (v1_trigger_message_follow_on_store.go) *)
Definition v1TriggerMessageFollowOnData (window : V1TriggerMessageFollowOnWindow) (action : string)
    (connector : Z) : data_map :=
  let data := obj [("follow_on", ABool true); ("expected_message", AString (win_RequestedMessage window));
    ("observed_action", AString action); ("charger_ocpp_identity", AString (win_ChargerOCPPIdentity window))] in
  if V1TriggerMessageConnectorScoped action then <["connector_number" := AInt connector]> data else data.

Definition v1TriggerMessageFollowOnClosureData (window : V1TriggerMessageFollowOnWindow) : data_map :=
  let data := obj [("follow_on_closed", ABool true); ("expected_message", AString (win_RequestedMessage window));
    ("charger_ocpp_identity", AString (win_ChargerOCPPIdentity window));
    ("accepted_at", AString (Clock.RFC3339Nano (win_AcceptedAt window)))] in
  if V1TriggerMessageConnectorScoped (win_RequestedMessage window)
  then <["connector_number" := AInt (win_OCPPConnectorNumber window)]> data else data.

(** ** Objects with literal keys *)
Fixpoint assoc (k : string) (l : list (string * any)) : option any :=
  match l with [] => None | (k', v) :: l' => if decide (k' = k) then Some v else assoc k l' end.

Lemma obj_lookup l k : obj l !! k = assoc k l.
Proof.
  unfold obj. induction l as [|[k' v] l IH]; [done|]. cbn [list_to_map foldr assoc fst snd uncurry].
  case_decide as D; [subst; by rewrite lookup_insert_eq|by rewrite lookup_insert_ne].
Qed.
Lemma at_key_obj l k : at_key (obj l) k = default ANil (assoc k l).
Proof. unfold at_key. by rewrite obj_lookup. Qed.
Lemma obj_cons k v l : <[k := v]> (obj l) = obj ((k, v) :: l).
Proof. done. Qed.
Lemma obj_size l : NoDup l.*1 → size (obj l) = length l.
Proof.
  induction l as [|[k v] l IH]; [done|]. cbn [fmap list_fmap fst]. intros [Hk Hl]%NoDup_cons.
  rewrite <- obj_cons, map_size_insert_None; [by rewrite IH|]. by apply not_elem_of_list_to_map_1.
Qed.

(** Evaluates reads of an object whose keys are literals. *)
Ltac obj_simpl :=
  repeat first
    [ rewrite at_key_obj | rewrite obj_lookup | rewrite obj_cons
    | rewrite obj_size by (clear; refine (bool_decide_unpack (NoDup _) _); vm_compute; exact I) ];
  cbn [assoc default from_option fst snd length];
  decide_text;
  cbn [default from_option id as_map as_bool as_string as_list mbind option_bind].

(** ** Configuration results: what a charger's report leaves behind *)
Definition reported_items (payload : data_map) : list any :=
  default [] (as_list (at_key payload "configurationKey")).
Definition reported_unknown (payload : data_map) : list any :=
  default [] (as_list (at_key payload "unknownKey")).
Definition item_key (raw : any) : string := default "" (as_string (at_key (default ∅ (as_map raw)) "key")).
Definition item_value (raw : any) : any := at_key (default ∅ (as_map raw)) "value".

Definition short_text (n : Z) (v : any) : Prop := is_Some (v1SafeText v n).
Definition trimmed (v : any) : string := GoStrings.TrimSpace (default "" (as_string v)).

(** An item whose evidence can be kept: a usable key and, unless the key is
    sensitive, a text value of at most 500 bytes. *)
Definition reportable (raw : any) : Prop :=
  short_text 100 (AString (item_key raw)) ∧
  (sensitiveConfigurationKey (item_key raw) = true ∨ ∃ t, item_value raw = AString t ∧ text_length t ≤ 500).

(** What is kept of it. *)
Definition kept_item (raw : any) : data_map :=
  let key := GoStrings.TrimSpace (item_key raw) in
  if sensitiveConfigurationKey (item_key raw) then obj [("key", AString key); ("redacted", ABool true)]
  else obj [("value", item_value raw); ("key", AString key); ("redacted", ABool false)].

(** A reader applied to a list: all or nothing. *)
Lemma mapM_option {A B} (f : A → option B) (P : A → Prop) (g : A → B) l :
  (∀ x, f x = Some (g x) ∧ P x ∨ f x = None ∧ ¬ P x) →
  mapM f l = Some (g <$> l) ∧ Forall P l ∨ mapM f l = None ∧ ¬ Forall P l.
Proof.
  intros Hf. induction l as [|x l IH]; [left; by split|]. cbn [mapM fmap list_fmap].
  destruct (Hf x) as [[-> Hx]|[-> Hx]]; cbn [mbind option_bind].
  - destruct IH as [[-> Hl]|[-> Hl]]; cbn; [left|right]; (split; [done|]).
    + by constructor.
    + by intros [_ ?]%Forall_cons.
  - right. split; [done|]. by intros [? _]%Forall_cons.
Qed.

Lemma safe_text_cases v n :
  v1SafeText v n = Some (trimmed v) ∧ short_text n v ∨ v1SafeText v n = None ∧ ¬ short_text n v.
Proof.
  unfold short_text. destruct (v1SafeText v n) as [t|] eqn:E; [left|right; split; [done|by intros []]].
  split; [|done]. unfold v1SafeText in E. destruct v; try done. case_decide; [|done]. by injection E as <-.
Qed.

Lemma string_list_cases l n m :
  v1SafeStringList (AList l) n m = Some (trimmed <$> l) ∧ Z.of_nat (length l) ≤ n ∧ Forall (short_text m) l ∨
  v1SafeStringList (AList l) n m = None ∧ ¬ (Z.of_nat (length l) ≤ n ∧ Forall (short_text m) l).
Proof.
  unfold v1SafeStringList. cbn [mbind option_bind]. case_decide as D; [right; split; [done|lia]|].
  destruct (mapM_option (λ item, v1SafeText item m) (short_text m) trimmed l
    (λ x, safe_text_cases x m)) as [[-> H]|[-> H]]; [left|right]; (split; [done|]).
  - split; [lia|done].
  - tauto.
Qed.

Lemma safe_item_cases raw :
  safe_item (AMap (safe_reported raw)) = Some (kept_item raw) ∧ reportable raw ∨
  safe_item (AMap (safe_reported raw)) = None ∧ ¬ reportable raw.
Proof.
  unfold safe_item, safe_reported, kept_item, reportable. fold (item_key raw). fold (item_value raw).
  destruct (sensitiveConfigurationKey (item_key raw)); cbn [mbind option_bind as_map].
  - obj_simpl. rewrite decide_False by lia.
    destruct (safe_text_cases (AString (item_key raw)) 100) as [[-> Hk]|[-> Hk]]; cbn [mbind option_bind as_bool].
    + left. obj_simpl. split; [done|]. auto.
    + right. split; [done|]. tauto.
  - obj_simpl. rewrite decide_False by lia.
    destruct (safe_text_cases (AString (item_key raw)) 100) as [[-> Hk]|[-> Hk]]; cbn [mbind option_bind as_bool].
    2:{ right. split; [done|]. tauto. }
    obj_simpl. destruct (item_value raw) eqn:E; cbn [mbind option_bind as_string].
    all: try (right; split; [done|]; intros [_ [?|(? & ? & ?)]]; done).
    case_decide as D; [right|left]; (split; [done|]).
    + intros [_ [?|(? & [= <-] & ?)]]; [done|lia].
    + split; [done|]. right. eexists. split; [done|]. lia.
Qed.

(** Operation evidence that reaches the sanitiser as the observer builds it. *)
Lemma sanitize_operation uniqueID action messageType payload :
  v1OperationAction action = true → messageType ∈ message_types →
  sanitizeV1TraceData (AMap (operation_data uniqueID action messageType payload)) =
  match v1SafeText (AString uniqueID) 128, v1SafeOperationPayload action messageType payload with
  | Some u, Some p => obj [("unique_id", AString u); ("action", AString action);
                           ("message_type", AString messageType); ("payload", AMap p)]
  | _, _ => ∅
  end.
Proof.
  intros Ha Hm. unfold sanitizeV1TraceData, operation_data. obj_simpl.
  rewrite !decide_False by (by intros []). rewrite decide_True by done.
  unfold sanitizeV1OperationEvidence. obj_simpl.
  destruct (v1SafeText (AString uniqueID) 128) as [u|]; cbn [mbind option_bind]; [|done].
  assert (v1SafeText (AString action) 64 = Some action) as ->.
  { unfold v1OperationAction in Ha. apply bool_decide_eq_true in Ha.
    repeat (apply elem_of_cons in Ha as [->|Ha]; [vm_compute; reflexivity|]). by apply elem_of_nil in Ha. }
  cbn [mbind option_bind]. rewrite decide_False by (intros [?|?]; [congruence|done]).
  by destruct (v1SafeOperationPayload action messageType payload).
Qed.

(** The evidence of a GetConfiguration answer. *)
Definition configuration_reportable (uniqueID : string) (payload : data_map) : Prop :=
  short_text 128 (AString uniqueID) ∧
  Z.of_nat (length (reported_items payload)) ≤ 64 ∧ Forall reportable (reported_items payload) ∧
  Z.of_nat (length (reported_unknown payload)) ≤ 64 ∧ Forall (short_text 100) (reported_unknown payload).

#[global] Instance short_text_dec n v : Decision (short_text n v).
Proof. unfold short_text. apply _. Defined.
#[global] Instance is_text_dec v (P : string → Prop) `{!∀ t, Decision (P t)} : Decision (∃ t, v = AString t ∧ P t).
Proof.
  destruct v as [| | | | | |t| | | | |]; try (by right; intros (? & ? & _)).
  destruct (decide (P t)); [left; eauto|right; intros (? & [= <-] & ?); done].
Defined.
#[global] Instance reportable_dec raw : Decision (reportable raw).
Proof. unfold reportable. apply _. Defined.
#[global] Instance configuration_reportable_dec u p : Decision (configuration_reportable u p).
Proof. unfold configuration_reportable. apply _. Defined.

(** Two answers that differ in nothing but the values of sensitive keys. *)
Definition alike_item (raw raw' : any) : Prop :=
  item_key raw = item_key raw' ∧ (sensitiveConfigurationKey (item_key raw) = false → item_value raw = item_value raw').
Definition alike (payload payload' : data_map) : Prop :=
  Forall2 alike_item (reported_items payload) (reported_items payload') ∧ reported_unknown payload = reported_unknown payload'.
Lemma alike_response payload payload' : alike payload payload' →
  safeOperationResponse "GetConfiguration" "CALLRESULT" payload = safeOperationResponse "GetConfiguration" "CALLRESULT" payload'.
Proof.
  intros [Hi Hu]. unfold safeOperationResponse. rewrite !(decide_False (P := "CALLRESULT" = "CALLERROR")) by done.
  rewrite !(decide_True (P := "GetConfiguration" = "GetConfiguration")) by done.
  fold (reported_items payload) (reported_unknown payload) (reported_items payload') (reported_unknown payload').
  rewrite Hu. assert (AMap ∘ safe_reported <$> reported_items payload = AMap ∘ safe_reported <$> reported_items payload') as ->; [|done].
  induction Hi as [|x y l l' [Hk Hv] _ IH]; [done|]. rewrite !fmap_cons, IH. f_equal. simpl. f_equal.
  unfold safe_reported. fold (item_key x) (item_key y) (item_value x) (item_value y). rewrite <- Hk.
  destruct (sensitiveConfigurationKey (item_key x)); [done|]. by rewrite Hv.
Qed.

(** C30: What a charger's GetConfiguration answer leaves in the durable trace,
    whatever the charger puts into it: either one item per reported key, in
    order, and the unknown keys, or, when any reported text is unusable or too
    long, nothing at all.  An item keeps the value its key was reported with,
    unless the key as reported, whatever its case, contains "password", "secret",
    "token", "privatekey" or "certificate" or is "authorizationkey"; the values of
    those keys have no influence on the evidence.  The key is compared before it
    is trimmed, so a padded AuthorizationKey keeps its value ([leaked] below), and
    the values of all other keys are durable, where the contract
    (docs/contracts/CMS_HAL_CHARGING_V1.md) calls configuration values transient. *)
Theorem configuration_evidence (uniqueID : string) (payload : data_map) :
  let data := sanitizeV1TraceData (AMap (operation_data uniqueID "GetConfiguration" "CALLRESULT"
    (safeOperationResponse "GetConfiguration" "CALLRESULT" payload))) in
  (configuration_reportable uniqueID payload →
   data = obj [("unique_id", AString (GoStrings.TrimSpace uniqueID)); ("action", AString "GetConfiguration");
     ("message_type", AString "CALLRESULT");
     ("payload", AMap (obj [("configuration_keys", AMaps (kept_item <$> reported_items payload));
                            ("unknown_keys", AStrings (trimmed <$> reported_unknown payload))]))]) ∧
  (¬ configuration_reportable uniqueID payload → data = ∅) ∧
  ∀ payload', alike payload payload' →
    data = sanitizeV1TraceData (AMap (operation_data uniqueID "GetConfiguration" "CALLRESULT"
      (safeOperationResponse "GetConfiguration" "CALLRESULT" payload'))).
Proof.
  cbv zeta. apply and_assoc. split; [|by intros payload' <-%alike_response].
  rewrite sanitize_operation by (done || set_solver).
  unfold configuration_reportable, safeOperationResponse.
  destruct (safe_text_cases (AString uniqueID) 128) as [[-> Hu]|[-> Hu]]; [|tauto].
  rewrite (decide_False (P := "CALLRESULT" = "CALLERROR")) by done.
  fold (reported_items payload) (reported_unknown payload).
  rewrite (decide_True (P := "GetConfiguration" = "GetConfiguration")) by done.
  assert (∀ m, v1SafeOperationPayload "GetConfiguration" "CALLRESULT" m = v1SafeConfigurationResult m) as -> by done.
  unfold v1SafeConfigurationResult. obj_simpl. rewrite length_fmap.
  case_decide as Hlen; [split; [lia|done]|].
  assert (mapM safe_item (AMap ∘ safe_reported <$> reported_items payload) =
    mapM (safe_item ∘ AMap ∘ safe_reported) (reported_items payload)) as ->.
  { generalize (reported_items payload). induction l as [|x l IH]; [done|]. cbn. by rewrite IH. }
  destruct (mapM_option (safe_item ∘ AMap ∘ safe_reported) reportable kept_item (reported_items payload)
    safe_item_cases) as [[-> Hi]|[-> Hi]]; cbn [mbind option_bind]; [|tauto].
  destruct (string_list_cases (reported_unknown payload) 64 100) as [(-> & Hl & Hk)|[-> Hk]];
    cbn [mbind option_bind]; [|tauto].
  rewrite decide_False by (by intros []). split; [done|]. intros []. split_and!; try done. lia.
Qed.
(** ** Operation calls *)
Definition public_call (o : V1ChargerOperation) : data_map :=
  if decide (op_Kind o = "CHANGE_CONFIGURATION") then
    obj [("key", AString (GoStrings.TrimSpace (parameter o "key"))); ("redacted", ABool true)]
  else if decide (op_Kind o = "GET_CONFIGURATION") then
    obj [("configuration_keys", AStrings (default [] (op_ConfigurationKeys o)))]
  else safeOperationCall o.

Definition valid_operation (o : V1ChargerOperation) : Prop :=
  valid_kind (op_Kind o) (op_OCPPConnectorNumber o) (op_Parameters o) (default [] (op_ConfigurationKeys o)) = true.

Definition kinds : list string :=
  ["RESET"; "UNLOCK_CONNECTOR"; "CHANGE_AVAILABILITY"; "CLEAR_CACHE"; "CHANGE_CONFIGURATION"; "TRIGGER_MESSAGE";
   "GET_CONFIGURATION"].
Lemma valid_operation_kind o : valid_operation o → op_Kind o ∈ kinds.
Proof. unfold valid_operation, valid_kind, kinds. intros H. repeat case_decide; try done;
  match goal with E : op_Kind o = _ |- _ => rewrite E end; refine (bool_decide_unpack _ _); vm_compute; exact I. Qed.

Lemma key_text k : validV1ConfigurationKey k = true → v1SafeText (AString k) 100 = Some k.
Proof.
  intros [Hn Hp]%validV1ConfigurationKey_spec. unfold v1SafeText. rewrite TrimSpace_plain by done.
  rewrite decide_True; [done|]. unfold text_length. split; [intros ->; simpl in Hn; lia|lia].
Qed.

Lemma key_texts l : forallb validV1ConfigurationKey l = true → mapM (λ item, v1SafeText item 100) (AString <$> l) = Some l.
Proof.
  induction l as [|k l IH]; [done|]. cbn [forallb]. intros [Hk Hl]%andb_true_iff.
  cbn [fmap list_fmap mapM]. rewrite (key_text _ Hk). cbn. by rewrite IH.
Qed.

Lemma titled_type p l :
  bool_decide (p ∈ l) = true → l ⊆ ["SOFT"; "HARD"; "OPERATIVE"; "INOPERATIVE"] →
  p = "SOFT" ∨ p = "HARD" ∨ p = "OPERATIVE" ∨ p = "INOPERATIVE".
Proof. intros Hp%bool_decide_eq_true Hl. specialize (Hl _ Hp). set_solver. Qed.

Lemma safe_call_payload o :
  valid_operation o → 0 ≤ op_OCPPConnectorNumber o ≤ 999 →
  v1SafeOperationPayload (operationAction (op_Kind o)) "CALL" (safeOperationCall o) = Some (public_call o).
Proof.
  intros Hv Hc. pose proof (valid_operation_kind o Hv) as Hk. unfold valid_operation, valid_kind, value_of in Hv.
  unfold public_call, safeOperationCall, parameter in *. unfold kinds in Hk.
  repeat (apply elem_of_cons in Hk as [Hk|Hk]; [rewrite Hk in *|]); [..|by apply elem_of_nil in Hk].
  all: decide_text; cbv zeta.
  all: match goal with |- context [operationAction ?k] =>
         let a := eval vm_compute in (operationAction k) in change (operationAction k) with a end.
  all: unfold v1SafeOperationPayload, guarded; decide_text; cbv zeta.
  - apply andb_true_iff in Hv as [_ Ht]. apply bool_decide_eq_true in Ht.
    obj_simpl. repeat (apply elem_of_cons in Ht as [->|Ht]; [done|]). by apply elem_of_nil in Ht.
  - obj_simpl. unfold v1SafeConnector. by rewrite decide_True.
  - obj_simpl. unfold v1SafeConnector. rewrite decide_True by done. cbn [mbind option_bind]. apply bool_decide_eq_true in Hv.
    repeat (apply elem_of_cons in Hv as [->|Hv]; [done|]). by apply elem_of_nil in Hv.
  - done.
  - apply andb_true_iff in Hv as [_ Hv]. unfold validV1ConfigurationChange, value_of in Hv.
    case_decide; [done|]. repeat (apply andb_true_iff in Hv as [Hv _]). apply key_text in Hv.
    assert (v1SafeText (AString (default "" (op_Parameters o !! "key"))) 100 =
      Some (GoStrings.TrimSpace (default "" (op_Parameters o !! "key")))) as Hs.
    { unfold v1SafeText in *. revert Hv. case_decide as D; [|done]. intros Ht.
      apply (inj Some) in Ht. rewrite Ht in D. by rewrite decide_True. }
    obj_simpl. rewrite Hs. cbn [mbind option_bind]. obj_simpl. by rewrite decide_True.
  - apply bool_decide_eq_true in Hv as [Hv _]. unfold v1TriggerMessageAllowlist in Hv.
    assert (v1SafeText (AString (default "" (op_Parameters o !! "requested_message"))) 64 =
      Some (default "" (op_Parameters o !! "requested_message"))) as Ht.
    { repeat (apply elem_of_cons in Hv as [->|Hv]; [vm_compute; reflexivity|]). by apply elem_of_nil in Hv. }
    unfold v1SafeConnector.
    destruct (decide (0 < op_OCPPConnectorNumber o)); obj_simpl; rewrite Ht; cbn [mbind option_bind];
      obj_simpl; [rewrite (decide_True (P := 0 ≤ _ ≤ 999)) by done; cbn [fmap option_fmap option_map mbind option_bind]|]; rewrite decide_True by lia; done.
  - apply andb_true_iff in Hv as [Hb Hv]. apply bool_decide_eq_true in Hb as (_ & _ & Hb).
    obj_simpl. unfold v1SafeStringList. obj_simpl. rewrite length_fmap, decide_False by lia.
    by rewrite key_texts.
Qed.

(** The evidence of an operation the API accepts survives the sanitiser:
    what is stored of the CALL is exactly the public call (a configuration key
    with its value struck out, the keys asked for, or the parameters as sent),
    and the value a CPO writes into a configuration key never influences it. *)
Theorem operation_call_evidence (o : V1ChargerOperation) (uniqueID : string) :
  valid_operation o → 0 ≤ op_OCPPConnectorNumber o ≤ 999 → short_text 128 (AString uniqueID) →
  sanitizeV1TraceData (AMap (operation_data uniqueID (operationAction (op_Kind o)) "CALL" (safeOperationCall o))) =
    obj [("unique_id", AString (GoStrings.TrimSpace uniqueID)); ("action", AString (operationAction (op_Kind o)));
         ("message_type", AString "CALL"); ("payload", AMap (public_call o))] ∧
  ∀ v, safeOperationCall (o <| op_Parameters ::= <["value" := v]> |>) = safeOperationCall o.
Proof.
  intros Hv Hc Hu. split.
  - rewrite sanitize_operation; [|clear -Hv|by left].
    2:{ pose proof (valid_operation_kind o Hv) as Hk. unfold kinds in Hk.
        repeat (apply elem_of_cons in Hk as [->|Hk]; [done|]). by apply elem_of_nil in Hk. }
    rewrite safe_call_payload by done.
    by destruct (safe_text_cases (AString uniqueID) 128) as [[-> _]|[_ H]].
  - intros v. unfold safeOperationCall, parameter. cbn [op_Kind op_OCPPConnectorNumber op_ConfigurationKeys op_Parameters
      set_field eta eta_V1ChargerOperation]. by rewrite !lookup_insert_ne.
Qed.

Definition closure_fields (window : V1TriggerMessageFollowOnWindow) : list (string * any) :=
  [("expected_message", AString (win_RequestedMessage window));
   ("charger_ocpp_identity", AString (GoStrings.TrimSpace (win_ChargerOCPPIdentity window)));
   ("accepted_at", AString (Clock.RFC3339Nano (win_AcceptedAt window)))].

Lemma action_text a : V1TriggerMessageAction a = true → v1SafeText (AString a) 64 = Some a.
Proof.
  unfold V1TriggerMessageAction. intros Ha%bool_decide_eq_true.
  repeat (apply elem_of_cons in Ha as [->|Ha]; [vm_compute; reflexivity|]). by apply elem_of_nil in Ha.
Qed.

Lemma closure_data window :
  V1TriggerMessageAction (win_RequestedMessage window) = true →
  short_text 255 (AString (win_ChargerOCPPIdentity window)) →
  Date.first_instant ≤ win_AcceptedAt window < Date.last_instant →
  0 ≤ win_OCPPConnectorNumber window ≤ 999 →
  sanitizeV1TraceData (AMap (v1TriggerMessageFollowOnClosureData window)) =
  if V1TriggerMessageConnectorScoped (win_RequestedMessage window) then
    if decide (win_OCPPConnectorNumber window = 0) then ∅
    else obj (("connector_number", AInt (win_OCPPConnectorNumber window)) :: closure_fields window)
  else obj (closure_fields window).
Proof.
  intros Ha Hi Ht Hc. unfold sanitizeV1TraceData, v1TriggerMessageFollowOnClosureData.
  pose proof (Date.print_parse _ Ht) as Hp. pose proof (action_text _ Ha) as Hm.
  destruct (safe_text_cases (AString (win_ChargerOCPPIdentity window)) 255) as [[Hid _]|[_ H]]; [|done].
  destruct (V1TriggerMessageConnectorScoped (win_RequestedMessage window)) eqn:Hs; obj_simpl.
  all: rewrite (decide_False (P := is_Some None)) by (by intros []).
  all: rewrite (decide_True (P := is_Some (Some _))) by done.
  all: unfold sanitizeV1TriggerMessageFollowOnClosure; obj_simpl.
  all: rewrite Hm; cbn [mbind option_bind]; rewrite Hid; cbn [mbind option_bind]; rewrite Hp; cbn [mbind option_bind].
  all: rewrite (decide_False (P := true = false ∨ _ = false)) by (intros [?|?]; congruence).
  all: unfold with_connector, guarded; rewrite Hs; obj_simpl; try done.
  unfold v1SafeConnector. rewrite (decide_True (P := 0 ≤ _ ≤ 999)) by done. cbn [mbind option_bind].
  destruct (decide (win_OCPPConnectorNumber window = 0)) as [->|Hz]; [done|]. by rewrite decide_True by lia.
Qed.

(** When an accepted TriggerMessage window closes unobserved, the stored
    evidence names the expected message, the charger, the connector of a
    connector-scoped message and the acceptance instant, which reads back as
    the window's own; a connector-scoped window without a connector (the
    operation addressed the whole charger) leaves empty evidence. *)
Theorem closure_evidence (window : V1TriggerMessageFollowOnWindow) :
  V1TriggerMessageAction (win_RequestedMessage window) = true →
  short_text 255 (AString (win_ChargerOCPPIdentity window)) →
  Date.first_instant ≤ win_AcceptedAt window < Date.last_instant →
  0 ≤ win_OCPPConnectorNumber window ≤ 999 →
  let data := sanitizeV1TraceData (AMap (v1TriggerMessageFollowOnClosureData window)) in
  if decide (V1TriggerMessageConnectorScoped (win_RequestedMessage window) = true ∧ win_OCPPConnectorNumber window = 0)
  then data = ∅
  else
    at_key data "expected_message" = AString (win_RequestedMessage window) ∧
    at_key data "charger_ocpp_identity" = AString (GoStrings.TrimSpace (win_ChargerOCPPIdentity window)) ∧
    (t ← as_string (at_key data "accepted_at"); Date.Parse t) = Some (win_AcceptedAt window) ∧
    at_key data "connector_number" =
      (if V1TriggerMessageConnectorScoped (win_RequestedMessage window)
       then AInt (win_OCPPConnectorNumber window) else ANil).
Proof.
  intros Ha Hi Ht Hc. cbv zeta. rewrite (closure_data window Ha Hi Ht Hc). unfold closure_fields.
  destruct (V1TriggerMessageConnectorScoped (win_RequestedMessage window)) eqn:Hs.
  - destruct (decide (win_OCPPConnectorNumber window = 0)) as [Hz|Hz]; [by rewrite decide_True|].
    rewrite decide_False by tauto. obj_simpl. by rewrite Date.print_parse.
  - rewrite decide_False by (by intros [? _]). obj_simpl. by rewrite Date.print_parse.
Qed.

(** ** Concrete evidence *)
Module EvidenceRuns.
Definition reported : data_map :=
  obj [("configurationKey", AList [AMap (obj [("key", AString "HeartbeatInterval"); ("readonly", ABool false); ("value", AString "300")]);
                                   AMap (obj [("key", AString "AuthorizationKey"); ("readonly", ABool false); ("value", AString "secret")])]);
       ("unknownKey", AList [AString "Foo"])].
Definition evidence (payload : data_map) : data_map :=
  sanitizeV1TraceData (AMap (operation_data "u1" "GetConfiguration" "CALLRESULT"
    (safeOperationResponse "GetConfiguration" "CALLRESULT" payload))).
Definition items (m : data_map) : list (string * any * any) :=
  match as_map (at_key m "payload") with
  | Some p => match at_key p "configuration_keys" with
              | AMaps l => (λ i, (default "" (as_string (at_key i "key")), at_key i "redacted", at_key i "value")) <$> l
              | _ => []
              end
  | None => []
  end.
Example kept : items (evidence reported) =
  [("HeartbeatInterval", ABool false, AString "300"); ("AuthorizationKey", ABool true, ANil)].
Proof. vm_compute. reflexivity. Qed.
(** A configuration key without a value (OCPP 1.6 allows it) loses the whole
    evidence: the observer writes a nil value, the sanitiser wants a string. *)
Definition valueless : data_map :=
  obj [("configurationKey", AList [AMap (obj [("key", AString "ConnectorPhaseRotation"); ("readonly", ABool true)])])].
Example lost : size (evidence valueless) = 0%nat.
Proof. vm_compute. reflexivity. Qed.
(** The one sensitive key that is compared whole is missed when it is padded. *)
Definition padded : data_map :=
  obj [("configurationKey", AList [AMap (obj [("key", AString "AuthorizationKey "); ("value", AString "secret")])])].
Example leaked : items (evidence padded) = [("AuthorizationKey", ABool false, AString "secret")].
Proof. vm_compute. reflexivity. Qed.
Definition change : V1ChargerOperation :=
  mkV1ChargerOperation "op1" "cms-op1" "t1" "digest" "cpo" "ch1" "" "CP-1" 0 "CHANGE_CONFIGURATION"
    {["key" := "ConnectionTimeOut"; "value" := "300"]} None "corr" "DISPATCHING" 1 "" "" 0 0 None.
Definition window : V1TriggerMessageFollowOnWindow :=
  mkV1TriggerMessageFollowOnWindow "t1" "Heartbeat" "CP-1" 0 (20000 * 86400 * GoTime.Second)
    (20000 * 86400 * GoTime.Second + 60 * GoTime.Second) "OPEN".
End EvidenceRuns.

Lemma configuration_evidence_witness :
  configuration_reportable "u1" EvidenceRuns.reported ∧
  at_key (sanitizeV1TraceData (AMap (operation_data "u1" "GetConfiguration" "CALLRESULT"
    (safeOperationResponse "GetConfiguration" "CALLRESULT" EvidenceRuns.reported)))) "action" = AString "GetConfiguration".
Proof.
  assert (configuration_reportable "u1" EvidenceRuns.reported) as Hr
    by (refine (bool_decide_unpack _ _); vm_compute; exact I).
  split; [exact Hr|]. rewrite (proj1 (configuration_evidence "u1" EvidenceRuns.reported) Hr).
  obj_simpl. reflexivity.
Defined.

Lemma operation_call_evidence_witness :
  safeOperationCall (EvidenceRuns.change <| op_Parameters ::= <["value" := "600"]> |>) =
    safeOperationCall EvidenceRuns.change.
Proof.
  refine (proj2 (operation_call_evidence EvidenceRuns.change "u1" _ _ _) "600").
  - vm_compute. reflexivity.
  - vm_compute. split; discriminate.
  - refine (bool_decide_unpack _ _). vm_compute. exact I.
Defined.

Lemma closure_evidence_witness :
  at_key (sanitizeV1TraceData (AMap (v1TriggerMessageFollowOnClosureData EvidenceRuns.window))) "expected_message" =
    AString "Heartbeat".
Proof.
  refine (proj1 (closure_evidence EvidenceRuns.window _ _ _ _)).
  - vm_compute. reflexivity.
  - refine (bool_decide_unpack _ _). vm_compute. exact I.
  - vm_compute. split; [discriminate|reflexivity].
  - vm_compute. split; discriminate.
Defined.
