(* ===== verification/MemTraces.v ===== *)
(** * Diagnostic traces in memory

    internal/store: v1_trace_memory.go and v1_trigger_message_follow_on_store.go.
    Every method runs under the store's mutex.  [ks] is the order in which a
    map is visited, [gen] the identifiers drawn, [now] the instant the calls of
    time.Now return. *)
From Stdlib Require Import String.
From stdpp Require Import base numbers decidable option list sorting strings gmap.
From S2P Require Import Prelude V1Types V1Memory TraceData.
Open Scope Z_scope.

Definition v1TracePostStopAssociationWindow : GoTime.Duration := 15 * GoTime.Minute.
Definition v1TriggerMessageFollowOnWindow : GoTime.Duration := GoTime.Minute.

(** ** Trace roots *)
Definition EnsureV1Trace (s : V1MemoryStore) (now : Time) (trace : V1Trace) : V1MemoryStore * V1Trace :=
  match ms_traces s !! tr_TraceID trace with
  | Some existing => (s, existing)
  | None =>
    let trace := if decide (GoTime.IsZero (tr_CreatedAt trace)) then trace <| tr_CreatedAt := now |> else trace in
    (s <| ms_traces ::= <[tr_TraceID trace := trace]> |>, trace)
  end.

Definition bound (trace : V1Trace) (tx : V1Transaction) : V1Trace :=
  trace <| tr_HALTransactionID := tx_HALTransactionID tx |>
        <| tr_OCPPTransactionID := Some (tx_OCPPTransactionID tx) |>.

Definition BindV1TraceTransaction (s : V1MemoryStore) (traceID : string) (tx : V1Transaction) :
    V1MemoryStore * result () :=
  match ms_traces s !! traceID with
  | None => (s, inr ErrV1TransactionNotFound)
  | Some trace => (s <| ms_traces ::= <[traceID := bound trace tx]> |>, inl ())
  end.

(** The loop of EnsureV1TraceForTransaction: the first visited trace that is
    the transaction's, or the unbound root of its start intent. *)
Definition claims_transaction (tx : V1Transaction) (trace : V1Trace) : Prop :=
  tr_HALTransactionID trace = tx_HALTransactionID tx ∨
  (tx_CMSStartIntentID tx ≠ "" ∧ tr_CMSStartIntentID trace = tx_CMSStartIntentID tx ∧
   tr_HALTransactionID trace = "").
#[global] Instance claims_transaction_dec tx trace : Decision (claims_transaction tx trace).
Proof. unfold claims_transaction. apply _. Defined.

Definition transaction_root (id : string) (tx : V1Transaction) : V1Trace :=
  mkV1Trace id (tx_CPOID tx) (tx_CMSStartIntentID tx) "" (tx_CMSCommandID tx) "" "" (tx_HALTransactionID tx)
    (Some (tx_OCPPTransactionID tx)) (tx_ChargerOCPPIdentity tx) (tx_OCPPConnectorNumber tx) 0.

Definition EnsureV1TraceForTransaction (s : V1MemoryStore) (now : Time) (ks : list string)
    (generated : result string) (tx : V1Transaction) : V1MemoryStore * result V1Trace :=
  match range_first (ms_traces s) (claims_transaction tx) ks with
  | Some (id, trace) =>
    if decide (tr_HALTransactionID trace = tx_HALTransactionID tx) then (s, inl trace)
    else (s <| ms_traces ::= <[id := bound trace tx]> |>, inl (bound trace tx))
  | None =>
    match NewSecureUUIDString generated with
    | inr err => (s, inr err)
    | inl id => let '(s', trace) := EnsureV1Trace s now (transaction_root id tx) in (s', inl trace)
    end
  end.

Definition GetV1Trace (s : V1MemoryStore) (id : string) : result V1Trace :=
  match ms_traces s !! id with Some trace => inl trace | None => inr ErrV1TransactionNotFound end.

Definition FindV1TraceByTransaction (s : V1MemoryStore) (ks : list string) (id : string) : result V1Trace :=
  match range_first (ms_traces s) (λ trace, tr_HALTransactionID trace = id) ks with
  | Some (_, trace) => inl trace
  | None => inr ErrV1TransactionNotFound
  end.

(** ** The trace of a connector *)
Definition traceAssociationPriority (transaction : option V1Transaction) : Z :=
  match transaction with
  | None => 1
  | Some t => if decide (tx_CompletedAt t = None) then 0 else 2
  end.

Section connector.
Context (s : V1MemoryStore) (now : Time) (identity : string) (connector : Z).

Definition trace_transaction (trace : V1Trace) : option V1Transaction :=
  ms_transactions s !! tr_HALTransactionID trace.
Definition priority (trace : V1Trace) : Z := traceAssociationPriority (trace_transaction trace).

(** The traces the loop does not skip. *)
Definition eligible (trace : V1Trace) : Prop :=
  tr_ChargerOCPPIdentity trace = identity ∧ tr_OCPPConnectorNumber trace = connector ∧
  ¬ (tr_HALTransactionID trace ≠ "" ∧ trace_transaction trace = None) ∧
  ¬ some_and (t ← trace_transaction trace; tx_CompletedAt t)
      (λ at_, GoTime.Before at_ (GoTime.Add now (- v1TracePostStopAssociationWindow))).
#[global] Instance eligible_dec trace : Decision (eligible trace).
Proof. unfold eligible. apply _. Defined.

Definition preferred (trace candidate : V1Trace) : Prop :=
  priority trace < priority candidate ∨
  (priority trace = priority candidate ∧ GoTime.After (tr_CreatedAt trace) (tr_CreatedAt candidate)).
#[global] Instance preferred_dec t c : Decision (preferred t c).
Proof. unfold preferred. apply _. Defined.

Fixpoint best_trace (candidate : option V1Trace) (ks : list string) : option V1Trace :=
  match ks with
  | [] => candidate
  | k :: ks' =>
    let candidate' :=
      match ms_traces s !! k with
      | Some trace =>
        if decide (eligible trace) then
          match candidate with
          | None => Some trace
          | Some c => if decide (preferred trace c) then Some trace else Some c
          end
        else candidate
      | None => candidate
      end in
    best_trace candidate' ks'
  end.

Definition FindV1TraceForConnector (ks : list string) : result V1Trace :=
  match best_trace None ks with
  | Some trace => inl trace
  | None => inr ErrV1TransactionNotFound
  end.
End connector.

(** ** Events *)
Definition new_event (id traceID : string) (input : V1TraceEventInput) (when_ recorded : Time) : V1TraceEvent :=
  mkV1TraceEvent id traceID (evi_Source input) (evi_Target input) (evi_Category input) (evi_Protocol input)
    (evi_Phase input) (evi_Summary input) when_ recorded (evi_StateBefore input) (evi_StateAfter input)
    (evi_CorrelationID input) (AMap (sanitizeV1TraceData (evi_Data input))).

Definition add_event (traceID : string) (event : V1TraceEvent) (s : V1MemoryStore) : V1MemoryStore :=
  s <| ms_traceEvents ::= λ m, <[traceID := default [] (m !! traceID) ++ [event]]> m |>.

Definition appendV1TraceEventLocked (s : V1MemoryStore) (now : Time) (generated : result string)
    (traceID : string) (input : V1TraceEventInput) : V1MemoryStore * result () :=
  match ms_traces s !! traceID with
  | None => (s, inr ErrV1TransactionNotFound)
  | Some _ =>
    match NewSecureUUIDString generated with
    | inr err => (s, inr err)
    | inl id =>
      let when_ := if decide (GoTime.IsZero (evi_OccurredAt input)) then now else evi_OccurredAt input in
      (add_event traceID (new_event id traceID input when_ now) s, inl ())
    end
  end.
Definition AppendV1TraceEvent := appendV1TraceEventLocked.

Definition AppendV1AcceptedTriggerMessageTrace (s : V1MemoryStore) (now : Time) (generated : result string)
    (traceID : string) (input : V1TraceEventInput) (requestedMessage : string) : V1MemoryStore * result () :=
  if negb (validV1AcceptedTriggerMessageTrace input requestedMessage) then (s, inr ErrV1InvalidEvidence)
  else
    match ms_followOnWindowErr s, ms_traces s !! traceID with
    | Some err, _ => (s, inr err)
    | None, None => (s, inr ErrV1TransactionNotFound)
    | None, Some trace =>
      if decide (is_Some (ms_followOnWindows s !! traceID)) then (s, inl ())
      else
        match appendV1TraceEventLocked s now generated traceID input with
        | (s', inr err) => (s', inr err)
        | (s', inl _) =>
          let acceptedAt := evi_OccurredAt input in
          (s' <| ms_followOnWindows ::= <[traceID := mkV1TriggerMessageFollowOnWindow traceID requestedMessage
                   (tr_ChargerOCPPIdentity trace) (tr_OCPPConnectorNumber trace) acceptedAt
                   (GoTime.Add acceptedAt v1TriggerMessageFollowOnWindow) "OPEN"]> |>, inl ())
        end
    end.

(** Newest first; the identifier breaks ties. *)
Definition event_after (e1 e2 : V1TraceEvent) : Prop :=
  GoTime.After (ev_OccurredAt e1) (ev_OccurredAt e2) ∨
  (ev_OccurredAt e1 = ev_OccurredAt e2 ∧ String.le (ev_EventID e2) (ev_EventID e1)).
#[global] Instance event_after_dec : RelDecision event_after.
Proof. intros a b. unfold event_after. apply _. Defined.

(** What the cursor leaves out. *)
Definition past_cursor (before : Time) (beforeID : string) (e : V1TraceEvent) : Prop :=
  GoTime.IsZero before ∨
  (¬ GoTime.After (ev_OccurredAt e) before ∧
   ¬ (ev_OccurredAt e = before ∧ String.le beforeID (ev_EventID e))).
#[global] Instance past_cursor_dec b i e : Decision (past_cursor b i e).
Proof. unfold past_cursor, GoTime.IsZero, GoTime.After. apply _. Defined.

(** A limit below one never stops the loop (and make panics below zero). *)
Definition page (limit : Z) (l : list V1TraceEvent) : list V1TraceEvent :=
  if decide (1 ≤ limit) then take (Z.to_nat limit) l else l.

Definition ListV1TraceEvents (s : V1MemoryStore) (id : string) (before : Time) (beforeID : string) (limit : Z) :
    result (list V1TraceEvent) :=
  match ms_traces s !! id with
  | None => inr ErrV1TransactionNotFound
  | Some _ =>
    if decide (¬ GoTime.IsZero before ∧ beforeID = "") then inr ErrV1InvalidEvidence
    else
      let all_ := merge_sort event_after (default [] (ms_traceEvents s !! id)) in
      inl (page limit (filter (past_cursor before beforeID) all_))
  end.

Definition created_before (p1 p2 : string * V1Trace) : Prop := tr_CreatedAt p1.2 ≤ tr_CreatedAt p2.2.
#[global] Instance created_before_dec : RelDecision created_before.
Proof. intros a b. unfold created_before. apply _. Defined.

Definition DeleteV1TracesBefore (s : V1MemoryStore) (ks : list string) (before : Time) (limit : Z) :
    V1MemoryStore * result Z :=
  if decide (limit < 1) then (s, inr ErrV1InvalidEvidence)
  else
    let ids := (take (Z.to_nat limit) (merge_sort created_before
      (range_filter (ms_traces s) (λ trace, GoTime.Before (tr_CreatedAt trace) before) ks))).*1 in
    (s <| ms_traces ::= λ m, foldr delete m ids |> <| ms_traceEvents ::= λ m, foldr delete m ids |>,
     inl (Z.of_nat (length ids))).

(** ** Follow-on windows *)
Definition window_matches (identity action : string) (connector : Z) (observedAt : Time)
    (window : V1TriggerMessageFollowOnWindow) : Prop :=
  win_RequestedMessage window = action ∧ win_ChargerOCPPIdentity window = identity ∧ win_State window = "OPEN" ∧
  GoTime.Before (win_AcceptedAt window) observedAt ∧ ¬ GoTime.Before (win_DeadlineAt window) observedAt ∧
  ¬ (V1TriggerMessageConnectorScoped action = true ∧ 0 < win_OCPPConnectorNumber window ∧
     win_OCPPConnectorNumber window ≠ connector).
#[global] Instance window_matches_dec i a c o w : Decision (window_matches i a c o w).
Proof. unfold window_matches, GoTime.Before. apply _. Defined.

Definition appendV1FollowOnEventLocked (s : V1MemoryStore) (now : Time) (generated : result string)
    (traceID : string) (input : V1TraceEventInput) : V1MemoryStore * result () :=
  match ms_traces s !! traceID with
  | None => (s, inr ErrV1TransactionNotFound)
  | Some _ =>
    match NewSecureUUIDString generated with
    | inr err => (s, inr err)
    | inl id =>
      let input := input <| evi_StateBefore := "" |> <| evi_StateAfter := "" |> <| evi_CorrelationID := "" |> in
      (add_event traceID (new_event id traceID input (evi_OccurredAt input) now) s, inl ())
    end
  end.

Definition follow_on_event (source target category phase summary : string) (occurredAt : Time) (data : data_map) :
    V1TraceEventInput :=
  mkV1TraceEventInput source target category "OCPP1.6" phase summary occurredAt "" "" "" (AMap data).
Definition observed_event (window : V1TriggerMessageFollowOnWindow) (action : string) (connector : Z)
    (observedAt : Time) : V1TraceEventInput :=
  follow_on_event "CHARGER" "HAL" "CHARGER_OPERATION_FOLLOW_ON" "CHARGING" "TriggerMessage follow-on observed"
    observedAt (v1TriggerMessageFollowOnData window action connector).
Definition closed_event (window : V1TriggerMessageFollowOnWindow) (now : Time) : V1TraceEventInput :=
  follow_on_event "HAL" "CMS" "CHARGER_OPERATION_FOLLOW_ON_CLOSED" "CHARGING" "TriggerMessage follow-on window closed"
    now (v1TriggerMessageFollowOnClosureData window).

(** Appends the evidence of each listed window and settles it; the first
    failure ends the loop and keeps what was done. *)
Fixpoint settle_windows (now : Time) (gen : nat → result string) (state : string)
    (event : V1TriggerMessageFollowOnWindow → V1TraceEventInput) (ids : list string) (s : V1MemoryStore) :
    V1MemoryStore * option go_error :=
  match ids with
  | [] => (s, None)
  | id :: rest =>
    match ms_followOnWindows s !! id with
    | None => (s, None)                                   (* ids are keys of the map *)
    | Some window =>
      match appendV1FollowOnEventLocked s now (gen (length rest)) id (event window) with
      | (s', inr err) => (s', Some err)
      | (s', inl _) =>
        settle_windows now gen state event rest
          (s' <| ms_followOnWindows ::= <[id := window <| win_State := state |>]> |>)
      end
    end
  end.

Definition v1_follow_on_valid (action : string) (connector : Z) (observedAt : Time) : bool :=
  V1TriggerMessageAction action && negb (V1TriggerMessageConnectorScoped action && bool_decide (connector < 1)) &&
  bool_decide (¬ GoTime.IsZero observedAt).

Definition RecordV1TriggerMessageFollowOn (s : V1MemoryStore) (now : Time) (gen : nat → result string)
    (ks : list string) (identity action : string) (connector : Z) (observedAt : Time) :
    V1MemoryStore * result Z :=
  if negb (v1_follow_on_valid action connector observedAt) then (s, inr ErrV1InvalidEvidence)
  else
    let ids := merge_sort String.le
      (range_filter (ms_followOnWindows s) (window_matches identity action connector observedAt) ks).*1 in
    match settle_windows now gen "OBSERVED" (λ w, observed_event w action connector observedAt) ids s with
    | (s', Some err) => (s', inr err)
    | (s', None) => (s', inl (Z.of_nat (length ids)))
    end.

Definition deadline_before (p1 p2 : string * V1TriggerMessageFollowOnWindow) : Prop :=
  win_DeadlineAt p1.2 ≤ win_DeadlineAt p2.2.
#[global] Instance deadline_before_dec : RelDecision deadline_before.
Proof. intros a b. unfold deadline_before. apply _. Defined.

Definition window_due (now : Time) (window : V1TriggerMessageFollowOnWindow) : Prop :=
  win_State window = "OPEN" ∧ ¬ GoTime.After (win_DeadlineAt window) now.
#[global] Instance window_due_dec now w : Decision (window_due now w).
Proof. unfold window_due, GoTime.After. apply _. Defined.

Definition CloseV1TriggerMessageFollowOnWindows (s : V1MemoryStore) (recorded : Time) (gen : nat → result string)
    (ks : list string) (now : Time) (limit : Z) : V1MemoryStore * result Z :=
  if decide (limit < 1) then (s, inr ErrV1InvalidEvidence)
  else
    let ids := (take (Z.to_nat limit)
      (merge_sort deadline_before (range_filter (ms_followOnWindows s) (window_due now) ks))).*1 in
    match settle_windows recorded gen "CLOSED" (λ w, closed_event w now) ids s with
    | (s', Some err) => (s', inr err)
    | (s', None) => (s', inl (Z.of_nat (length ids)))
    end.

(** ** Paging through a trace *)
(** A client that asks for the next page with the last event of the previous
    one, [n] times at most. *)
Fixpoint walk (s : V1MemoryStore) (id : string) (limit : Z) (n : nat) (before : Time) (beforeID : string) :
    list V1TraceEvent :=
  match n with
  | O => []
  | S n' =>
    match ListV1TraceEvents s id before beforeID limit with
    | inl l =>
      match last l with
      | Some e => l ++ walk s id limit n' (ev_OccurredAt e) (ev_EventID e)
      | None => []
      end
    | inr _ => []
    end
  end.

#[global] Instance event_after_trans : Transitive event_after.
Proof.
  unfold event_after, GoTime.After. intros a b c [?|[E1 ?]] [?|[E2 ?]]; [left; lia..|].
  right. split; [lia|]. by etrans.
Qed.
#[global] Instance event_after_total : Total event_after.
Proof.
  unfold event_after, GoTime.After. intros a b.
  destruct (Z.lt_total (ev_OccurredAt a) (ev_OccurredAt b)) as [?|[?|?]]; [auto| |auto].
  destruct (total String.le (ev_EventID a) (ev_EventID b)); auto.
Qed.

(** In a sorted list, the cursor of an event leaves exactly what follows it. *)
Lemma past_cursor_suffix pre e post :
  StronglySorted event_after (pre ++ e :: post) → NoDup (ev_EventID <$> pre ++ e :: post) → ev_OccurredAt e ≠ 0 →
  filter (past_cursor (ev_OccurredAt e) (ev_EventID e)) (pre ++ e :: post) = post.
Proof.
  intros Hs Hnd Hz. rewrite filter_app, filter_cons.
  assert (∀ x, x ∈ pre ++ [e] → ¬ past_cursor (ev_OccurredAt e) (ev_EventID e) x) as Hpre.
  { intros x Hx [?|[Hlt Hid]]; [done|]. assert (event_after x e ∨ x = e) as [[Ha|[Ht Hle]]|Hx'].
    - apply elem_of_app in Hx as [Hx|Hx%list_elem_of_singleton]; [left|by right].
      eapply (StronglySorted_app_1_elem_of event_after); [exact Hs|done|by left].
    - unfold GoTime.After in *. lia.
    - apply Hid. done.
    - subst. apply Hid. done. }
  rewrite filter_none, decide_False.
  2:{ apply Hpre. set_solver. }
  2:{ apply Forall_forall. intros x Hx. apply Hpre. set_solver. }
  apply filter_all. apply Forall_forall. intros x Hx. right.
  assert (event_after e x) as He.
  { rewrite cons_middle, app_assoc in Hs. eapply (StronglySorted_app_1_elem_of event_after); [exact Hs|set_solver|done]. }
  assert (ev_EventID x ≠ ev_EventID e) as Hne.
  { rewrite fmap_app, fmap_cons in Hnd. apply NoDup_app in Hnd as (_ & _ & Hnd).
    apply NoDup_cons in Hnd as [Hnd _]. intros Heq. apply Hnd. rewrite <- Heq. by apply list_elem_of_fmap_2. }
  unfold event_after, GoTime.After in *. split; [lia|]. intros [Ht Hle].
  destruct He as [?|[_ He]]; [lia|]. apply Hne. by apply (anti_symm String.le).
Qed.

Section paging.
Context (s : V1MemoryStore) (id : string) (limit : Z) (events : list V1TraceEvent).
Hypothesis Htrace : is_Some (ms_traces s !! id).
Hypothesis Hevents : default [] (ms_traceEvents s !! id) = events.
Hypothesis Hids : NoDup (ev_EventID <$> events).
Hypothesis Hnonempty : ∀ e, e ∈ events → ev_EventID e ≠ "" ∧ ev_OccurredAt e ≠ 0.
Hypothesis Hlimit : 1 ≤ limit.
Let sorted := merge_sort event_after events.

Lemma sorted_elem e : e ∈ sorted ↔ e ∈ events.
Proof. unfold sorted. by rewrite merge_sort_Permutation. Qed.

Lemma list_page before beforeID :
  (before ≠ 0 → beforeID ≠ "") →
  ListV1TraceEvents s id before beforeID limit =
  inl (take (Z.to_nat limit) (filter (past_cursor before beforeID) sorted)).
Proof.
  intros Hb. unfold ListV1TraceEvents. destruct Htrace as [t ->]. rewrite decide_False.
  2:{ intros [Hz ->]. by apply Hb. }
  unfold page. rewrite decide_True by done. by rewrite Hevents.
Qed.

Lemma walk_rest n pre rest before beforeID :
  sorted = pre ++ rest → filter (past_cursor before beforeID) sorted = rest → (before ≠ 0 → beforeID ≠ "") →
  (length rest ≤ n)%nat → walk s id limit n before beforeID = rest.
Proof.
  revert pre rest before beforeID. induction n as [|n IH]; intros pre rest before beforeID Hs Hf Hb Hn.
  { by destruct rest; [|simpl in Hn; lia]. }
  cbn [walk]. rewrite list_page, Hf by done. set (l := take (Z.to_nat limit) rest).
  destruct (last l) as [e|] eqn:Hl.
  - apply last_Some in Hl as [l' Hl]. assert (rest = l' ++ e :: drop (Z.to_nat limit) rest) as Hrest.
    { rewrite <- (take_drop (Z.to_nat limit) rest) at 1. fold l. rewrite Hl, <- app_assoc. done. }
    assert (e ∈ events) as He by (rewrite <- sorted_elem, Hs, Hrest; set_solver).
    destruct (Hnonempty e He) as [Hid Ht].
    rewrite (IH (pre ++ l' ++ [e]) (drop (Z.to_nat limit) rest)); [apply take_drop| | |done|].
    + rewrite Hs, Hrest at 1. by rewrite <- !app_assoc.
    + rewrite Hs, Hrest at 1. rewrite app_assoc. apply past_cursor_suffix; [| |done].
      * rewrite <- app_assoc, <- Hrest, <- Hs. apply StronglySorted_merge_sort; apply _.
      * rewrite <- app_assoc, <- Hrest, <- Hs. unfold sorted. by rewrite merge_sort_Permutation.
    + rewrite length_drop. rewrite Hrest in Hn. rewrite length_app in Hn. simpl in Hn.
      rewrite length_drop in Hn. lia.
  - apply last_None in Hl. unfold l in Hl. destruct rest as [|x rest]; [done|].
    destruct (Z.to_nat limit) eqn:E; [lia|]. done.
Qed.
End paging.

(** Paging through a trace misses nothing and repeats nothing: whatever the
    page size, asking for the next page with the last event of the previous one
    lists every event of the trace exactly once, newest first. *)
Theorem event_pages (s : V1MemoryStore) (id : string) (limit : Z) (events : list V1TraceEvent) (n : nat) :
  is_Some (ms_traces s !! id) → default [] (ms_traceEvents s !! id) = events →
  NoDup (ev_EventID <$> events) → (∀ e, e ∈ events → ev_EventID e ≠ "" ∧ ev_OccurredAt e ≠ 0) →
  1 ≤ limit → (length events ≤ n)%nat →
  let listed := walk s id limit n 0 "" in
  listed ≡ₚ events ∧ StronglySorted event_after listed.
Proof.
  intros Ht He Hids Hne Hl Hn. cbv zeta.
  assert (walk s id limit n 0 "" = merge_sort event_after events) as ->.
  { apply (walk_rest s id limit events Ht He Hids Hne Hl n [] _ 0 ""); [done| |done|].
    - apply filter_all. apply Forall_forall. intros x _. by left.
    - by rewrite merge_sort_Permutation. }
  split; [apply merge_sort_Permutation|apply StronglySorted_merge_sort; apply _].
Qed.

(** ** Which trace a connector's observation joins *)
Section connector_spec.
Context (s : V1MemoryStore) (now : Time) (identity : string) (connector : Z).
Abbreviation pref := (preferred s).
Abbreviation elig := (eligible s now identity connector).

(** The best of the eligible traces among the visited ones. *)
Definition best_of (ks : list string) (candidate : option V1Trace) : Prop :=
  match candidate with
  | Some c => (∃ k, k ∈ ks ∧ ms_traces s !! k = Some c) ∧ elig c ∧
              ∀ k t, k ∈ ks → ms_traces s !! k = Some t → elig t → ¬ pref t c
  | None => ∀ k t, k ∈ ks → ms_traces s !! k = Some t → ¬ elig t
  end.

Lemma best_of_snoc seen k candidate :
  best_of seen candidate →
  best_of (seen ++ [k])
    match ms_traces s !! k with
    | Some trace =>
      if decide (elig trace) then
        match candidate with
        | None => Some trace
        | Some c => if decide (pref trace c) then Some trace else Some c
        end
      else candidate
    | None => candidate
    end.
Proof.
  intros Hb. assert (∀ x, x ∈ seen ++ [k] ↔ x ∈ seen ∨ x = k) as Hx by (intros; set_solver).
  destruct (ms_traces s !! k) as [t|] eqn:E; [destruct (decide (elig t)) as [He|He]|].
  - destruct candidate as [c|]; [destruct (decide (pref t c)) as [Hp|Hp]|]; simpl in *.
    + destruct Hb as (Hin & Hc & Hmax). split_and!; [exists k; split; [set_solver|done]|done|].
      intros k' t' [Hk| ->]%Hx Ht He'; [|rewrite E in Ht; injection Ht as <-; unfold preferred, GoTime.After; lia].
      specialize (Hmax _ _ Hk Ht He'). unfold preferred, GoTime.After in *. lia.
    + destruct Hb as ((k0 & Hk0 & Hc0) & Hc & Hmax). split_and!; [exists k0; split; [set_solver|done]|done|].
      intros k' t' [Hk| ->]%Hx Ht He'; [by eapply Hmax|]. rewrite E in Ht. by injection Ht as <-.
    + split_and!; [exists k; split; [set_solver|done]|done|].
      intros k' t' [Hk| ->]%Hx Ht He'; [by destruct (Hb _ _ Hk Ht)|]. rewrite E in Ht. injection Ht as <-.
      unfold preferred, GoTime.After. lia.
  - destruct candidate as [c|]; simpl in *.
    + destruct Hb as ((k0 & Hk0 & Hc0) & Hc & Hmax). split_and!; [exists k0; split; [set_solver|done]|done|].
      intros k' t' [Hk| ->]%Hx Ht He'; [by eapply Hmax|congruence].
    + intros k' t' [Hk| ->]%Hx Ht; [by eapply Hb|congruence].
  - destruct candidate as [c|]; simpl in *.
    + destruct Hb as ((k0 & Hk0 & Hc0) & Hc & Hmax). split_and!; [exists k0; split; [set_solver|done]|done|].
      intros k' t' [Hk| ->]%Hx Ht He'; [by eapply Hmax|congruence].
    + intros k' t' [Hk| ->]%Hx Ht; [by eapply Hb|congruence].
Qed.

Lemma best_trace_best seen candidate ks :
  best_of seen candidate → best_of (seen ++ ks) (best_trace s now identity connector candidate ks).
Proof.
  revert seen candidate. induction ks as [|k ks IH]; intros seen candidate Hb; cbn [best_trace].
  { by rewrite app_nil_r. }
  rewrite cons_middle, app_assoc. apply IH. by apply best_of_snoc.
Qed.
End connector_spec.

(** An observation at a connector joins the right trace whatever order the
    map is visited in: one of that charger and connector that is not long
    finished, and none that would be preferred - an open transaction before a
    pending start, a pending start before a finished transaction, the newer
    before the older - exists; it joins none only when there is none. *)
Theorem FindV1TraceForConnector_spec s now identity connector ks :
  range_of (ms_traces s) ks →
  match FindV1TraceForConnector s now identity connector ks with
  | inl t => (∃ k, ms_traces s !! k = Some t) ∧ eligible s now identity connector t ∧
             ∀ k t', ms_traces s !! k = Some t' → eligible s now identity connector t' → ¬ preferred s t' t
  | inr err => err = ErrV1TransactionNotFound ∧ ∀ k t, ms_traces s !! k = Some t → ¬ eligible s now identity connector t
  end.
Proof.
  intros [_ Hks]. unfold FindV1TraceForConnector.
  pose proof (best_trace_best s now identity connector [] None ks) as Hb. cbn [app] in Hb.
  assert (∀ k t, ms_traces s !! k = Some t → k ∈ ks) as Hin by (intros k t Hk; apply Hks; eauto).
  destruct (best_trace _ _ _ _ None ks) as [t|]; simpl in Hb.
  - destruct Hb as ((k & _ & Hk) & He & Hmax); [by intros k t' Hk%elem_of_nil|].
    split_and!; [eauto|done|]. intros k' t' Ht. by eapply Hmax; [eapply Hin|].
  - split; [done|]. intros k t Hk. eapply Hb; [by intros k' t' Hk'%elem_of_nil|by eapply Hin|done].
Qed.

(** ** Runs *)
Module TraceRuns.
Definition root (id : string) (created : Time) : V1Trace := mkV1Trace id "cpo" id "" "" "" "" "" None "CP-1" 1 created.
Definition input (summary : string) (at_ : Time) : V1TraceEventInput :=
  mkV1TraceEventInput "HAL" "CMS" "COMMAND" "HTTP" "STARTING" summary at_ "" "" "" ANil.
Definition append (s : V1MemoryStore) (id event : string) (at_ : Time) : V1MemoryStore :=
  (AppendV1TraceEvent s 100 (inl event) id (input event at_)).1.
Definition store : V1MemoryStore :=
  let s := (EnsureV1Trace (EnsureV1Trace NewV1MemoryStore 5 (root "t1" 10)).1 5 (root "t2" 20)).1 in
  append (append (append (append s "t1" "e1" 10) "t1" "e3" 12) "t1" "e2" 12) "t1" "e4" 11.
Definition events : list V1TraceEvent := default [] (ms_traceEvents store !! "t1").
Example newest_first : ev_EventID <$> walk store "t1" 3 4 0 "" = ["e3"; "e2"; "e4"; "e1"].
Proof. vm_compute. reflexivity. Qed.
Lemma events_ok : ∀ e, e ∈ events → ev_EventID e ≠ "" ∧ ev_OccurredAt e ≠ 0.
Proof.
  assert (Forall (λ e, ev_EventID e ≠ "" ∧ ev_OccurredAt e ≠ 0) events) as H.
  { refine (bool_decide_unpack _ _). vm_compute. exact I. }
  intros e He. exact (proj1 (Forall_forall _ _) H e He).
Qed.
Lemma range_ok : range_of (ms_traces store) (map_to_list (ms_traces store)).*1.
Proof. apply range_of_keys. Qed.
End TraceRuns.

Lemma event_pages_witness :
  length (walk TraceRuns.store "t1" 3 4 0 "") = 4%nat ∧
  StronglySorted event_after (walk TraceRuns.store "t1" 3 4 0 "").
Proof.
  split; [vm_compute; reflexivity|].
  refine (proj2 (event_pages TraceRuns.store "t1" 3 TraceRuns.events 4 _ eq_refl _ TraceRuns.events_ok _ _)).
  - eexists. vm_compute. reflexivity.
  - refine (bool_decide_unpack _ _). vm_compute. exact I.
  - lia.
  - vm_compute. lia.
Defined.

Lemma FindV1TraceForConnector_spec_witness :
  ∃ t, FindV1TraceForConnector TraceRuns.store 50 "CP-1" 1 ["t2"; "t1"] = inl t ∧ tr_TraceID t = "t2" ∧
    eligible TraceRuns.store 50 "CP-1" 1 t.
Proof.
  destruct (FindV1TraceForConnector TraceRuns.store 50 "CP-1" 1 ["t2"; "t1"]) as [t|] eqn:E; [|vm_compute in E; discriminate].
  exists t. split; [done|]. split; [vm_compute in E; by injection E as <-|].
  pose proof (FindV1TraceForConnector_spec TraceRuns.store 50 "CP-1" 1 ["t2"; "t1"]) as H. rewrite E in H.
  apply H. split; [refine (bool_decide_unpack _ _); vm_compute; exact I|].
  assert (ms_traces TraceRuns.store = {["t1" := TraceRuns.root "t1" 10; "t2" := TraceRuns.root "t2" 20]}) as ->
    by (vm_compute; reflexivity).
  intros k. rewrite !elem_of_cons, elem_of_nil. split.
  - intros [->|[->|[]]]; eexists; vm_compute; reflexivity.
  - intros [v [[<- _]|[_ [<- _]%lookup_singleton_Some]]%lookup_insert_Some]; auto.
Defined.
