(* ===== verification/Outbox.v ===== *)
(** * Durable delivery: the fact and trace outboxes and their workers

    The lease protocol shared by v1_lifecycle_postgres.go (ClaimV1Facts,
    MarkV1FactDelivery, RequeueV1Fact) and v1_trace_delivery.go
    (ClaimV1TraceDeliveries, MarkV1TraceDelivery), proved once for every table
    whose rows carry the delivery columns ([OutboxRow]), and the two workers
    that are its clients (internal/v1facts, internal/v1trace). *)
From Stdlib Require Import String Ascii.
From stdpp Require Import base numbers decidable option list sorting strings gmap pretty.
From S2P Require Import Prelude V1Types V1Memory PgSchema.
Open Scope Z_scope.

(** ** Delivery columns *)
Record delivery : Type := mkdelivery {
  d_status : string;
  d_retries : Z;
  d_nextRetryAt : Time;
  d_claimedUntil : option Time;
  d_claimToken : string;              (* "" for NULL *)
  d_statusCode : option Z;
  d_lastError : string;
  d_sentAt : option Time
}.
#[global] Instance eta_delivery : Eta delivery := fun d =>
  mkdelivery (d_status d) (d_retries d) (d_nextRetryAt d) (d_claimedUntil d) (d_claimToken d)
    (d_statusCode d) (d_lastError d) (d_sentAt d).

(** A row type with delivery columns; what is left of the row is immutable. *)
Class OutboxRow (R : Type) := {
  row_delivery : R → delivery;
  set_delivery : delivery → R → R;
  row_createdAt : R → Time
}.
Class OutboxRowLaws (R : Type) `{OutboxRow R} : Prop := {
  delivery_set d r : row_delivery (set_delivery d r) = d;
  createdAt_set d r : row_createdAt (set_delivery d r) = row_createdAt r;
  set_set d d' r : set_delivery d (set_delivery d' r) = set_delivery d r;
  set_get r : set_delivery (row_delivery r) r = r
}.

Definition v1DeliveryLease : GoTime.Duration := 30 * GoTime.Second.

Section outbox.
Context {R : Type} `{OutboxRowLaws R}.
Implicit Types (m : gmap string R) (r : R).

Definition due (now : Time) r : Prop :=
  let d := row_delivery r in
  ((d_status d ∈ ["PENDING"; "RETRY"] ∧ d_nextRetryAt d ≤ now) ∨
   (d_status d = "DELIVERING" ∧ some_and (d_claimedUntil d) (λ t, t < now))) ∧
  (d_claimedUntil d = None ∨ some_and (d_claimedUntil d) (λ t, t < now)).
#[global] Instance due_dec now r : Decision (due now r).
Proof. unfold due. apply _. Defined.

(** ORDER BY next_retry_at, created_at *)
Definition due_before (kr1 kr2 : string * R) : Prop :=
  d_nextRetryAt (row_delivery kr1.2) < d_nextRetryAt (row_delivery kr2.2) ∨
  (d_nextRetryAt (row_delivery kr1.2) = d_nextRetryAt (row_delivery kr2.2) ∧
   row_createdAt kr1.2 ≤ row_createdAt kr2.2).
#[global] Instance due_before_dec : RelDecision due_before.
Proof. intros a b. unfold due_before. apply _. Defined.

(** The rows a claim leases.  [locked] holds the rows other transactions have
    locked (SKIP LOCKED) and [ks] the order PostgreSQL scans the table in. *)
Definition claim_ids (now : Time) (limit : Z) (locked ks : list string) m : list string :=
  (take (Z.to_nat limit)
     (merge_sort due_before (filter (λ kr, kr.1 ∉ locked) (range_filter m (due now) ks)))).*1.

Definition lease (now : Time) (token : string) (d : delivery) : delivery :=
  d <| d_status := "DELIVERING" |> <| d_claimedUntil := Some (timestamptz now + v1DeliveryLease) |>
    <| d_claimToken := token |>.

Definition update_row (id : string) (f : delivery → delivery) m : gmap string R :=
  alter (λ r, set_delivery (f (row_delivery r)) r) id m.

(** The claim statement: the table it leaves and the rows it returns. *)
Definition claim (now : Time) (token : string) (limit : Z) (locked ks : list string) m :
    gmap string R * list (string * R) :=
  let ids := claim_ids now limit locked ks m in
  let m' := foldr (λ id m, update_row id (lease now token) m) m ids in
  (m', omap (λ id, (λ r, (id, r)) <$> m' !! id) ids).

Definition delivery_status (success terminal : bool) : string :=
  if terminal then "RECONCILIATION_REQUIRED" else if success then "DELIVERED" else "RETRY".

Definition marked (now : Time) (state : string) (statusCode : Z) (detail : string) (next : Time)
    (d : delivery) : delivery :=
  d <| d_status := state |>
    <| d_retries ::= λ n, if decide (state = "DELIVERED") then n else n + 1 |>
    <| d_nextRetryAt := timestamptz next |> <| d_claimedUntil := None |> <| d_claimToken := "" |>
    <| d_statusCode := Some statusCode |> <| d_lastError := detail |>
    <| d_sentAt ::= λ t, if decide (state = "DELIVERED") then Some (timestamptz now) else t |>.

(** The mark statement, [None] when no row matched the claim. *)
Definition mark (now : Time) (id token : string) (statusCode : Z) (success terminal : bool)
    (detail : string) (next : Time) m : option (gmap string R) :=
  match m !! id with
  | Some r =>
    if decide (d_status (row_delivery r) = "DELIVERING" ∧ token ≠ "" ∧
               d_claimToken (row_delivery r) = token)
    then Some (update_row id (marked now (delivery_status success terminal) statusCode detail next) m)
    else None
  | None => None
  end.

(** ** The rows a claim takes *)
Lemma claim_ids_elem now limit locked ks m id :
  range_of m ks → id ∈ claim_ids now limit locked ks m →
  id ∉ locked ∧ ∃ r, m !! id = Some r ∧ due now r.
Proof.
  intros Hr Hid. unfold claim_ids in Hid. apply list_elem_of_fmap in Hid as ([k r] & -> & Hin).
  apply (elem_of_sublist _ (merge_sort due_before (filter (λ kr : string * R, kr.1 ∉ locked)
    (range_filter m (due now) ks)))) in Hin; [|apply sublist_take].
  rewrite merge_sort_Permutation in Hin. apply list_elem_of_filter in Hin as [Hl Hin].
  apply range_filter_elem in Hin as [Hm Hd]; [|done]. simpl. eauto.
Qed.

Lemma claim_ids_NoDup now limit locked ks m :
  range_of m ks → NoDup (claim_ids now limit locked ks m).
Proof.
  intros [Hnd _]. unfold claim_ids. rewrite fmap_take.
  eapply sublist_NoDup; [|apply sublist_take]. rewrite merge_sort_Permutation.
  eapply sublist_NoDup; [|apply fmap_sublist, sublist_filter]. by apply range_filter_NoDup.
Qed.

Lemma claim_ids_length now limit locked ks m :
  Z.of_nat (length (claim_ids now limit locked ks m)) ≤ Z.max 0 limit.
Proof. unfold claim_ids. rewrite length_fmap, length_take. lia. Qed.

Lemma update_row_lookup id f m k :
  update_row id f m !! k =
  if decide (k = id) then (λ r, set_delivery (f (row_delivery r)) r) <$> m !! k else m !! k.
Proof.
  unfold update_row. case_decide as E.
  - subst. by rewrite lookup_alter_eq.
  - by rewrite lookup_alter_ne.
Qed.

Lemma lease_all_lookup now token ids m k :
  NoDup ids →
  foldr (λ id m, update_row id (lease now token) m) m ids !! k =
  if decide (k ∈ ids) then (λ r, set_delivery (lease now token (row_delivery r)) r) <$> m !! k
  else m !! k.
Proof.
  induction 1 as [|id ids Hni Hnd IH]; simpl; [done|].
  rewrite update_row_lookup, IH. repeat case_decide; set_solver.
Qed.

Lemma claim_lookup now token limit locked ks m k :
  range_of m ks →
  (claim now token limit locked ks m).1 !! k =
  if decide (k ∈ claim_ids now limit locked ks m)
  then (λ r, set_delivery (lease now token (row_delivery r)) r) <$> m !! k else m !! k.
Proof. intros Hr. simpl. by apply lease_all_lookup, claim_ids_NoDup. Qed.

(** ** Arbitrary interleavings of claims and marks

    A claim draws a fresh token.  A worker knows only the tokens of the rows
    it was given, but any mark may be issued, late or repeated. *)
Inductive outbox_event : Type :=
  | OClaim (now : Time) (token : string) (limit : Z) (locked ks : list string)
  | OMark (now : Time) (id token : string) (code : Z) (success terminal : bool)
      (detail : string) (next : Time).

Definition outbox_step m (e : outbox_event) : gmap string R :=
  match e with
  | OClaim now token limit locked ks => (claim now token limit locked ks m).1
  | OMark now id token code success terminal detail next =>
    default m (mark now id token code success terminal detail next m)
  end.

(** Events that scan the table they run on. *)
Definition scans m (e : outbox_event) : Prop :=
  match e with OClaim _ _ _ _ ks => range_of m ks | _ => True end.

Fixpoint outbox_run m (es : list outbox_event) : gmap string R :=
  match es with [] => m | e :: es' => outbox_run (outbox_step m e) es' end.
Fixpoint outbox_scans m (es : list outbox_event) : Prop :=
  match es with [] => True | e :: es' => scans m e ∧ outbox_scans (outbox_step m e) es' end.

(** What one event can do to one row. *)
Lemma outbox_step_row m e id r :
  scans m e → m !! id = Some r →
  ∃ d, outbox_step m e !! id = Some (set_delivery d r) ∧
    (d = row_delivery r ∨
     match e with
     | OClaim now token _ _ _ => due now r ∧ d = lease now token (row_delivery r)
     | OMark now id' token code success terminal detail next =>
       id' = id ∧ d_status (row_delivery r) = "DELIVERING" ∧
       d_claimToken (row_delivery r) = token ∧
       d = marked now (delivery_status success terminal) code detail next (row_delivery r)
     end).
Proof.
  intros Hs Hm. destruct e as [now token limit locked ks|now id' token code su te de next];
    cbn [outbox_step scans] in *.
  - rewrite (claim_lookup now token limit locked ks m id Hs), Hm. case_decide as Hin.
    + apply claim_ids_elem in Hin as (_ & r' & Hr' & Hd); [|done]. simplify_eq.
      eexists. split; [done|]. by right.
    + exists (row_delivery r). rewrite set_get. auto.
  - unfold mark. destruct (m !! id') as [r'|] eqn:E; simpl;
      [|exists (row_delivery r); rewrite set_get; auto].
    case_decide as D; simpl; [|exists (row_delivery r); rewrite set_get; auto].
    rewrite update_row_lookup. case_decide as Hid.
    + subst id'. rewrite Hm in *. simplify_eq. simpl. eexists. split; [done|]. right.
      destruct D as (? & ? & ?). done.
    + exists (row_delivery r). rewrite set_get. auto.
Qed.

(** Rows whose delivery is over are never touched again. *)
Lemma outbox_run_final m es id r :
  outbox_scans m es → m !! id = Some r →
  d_status (row_delivery r) ∉ ["PENDING"; "RETRY"; "DELIVERING"] →
  outbox_run m es !! id = Some r.
Proof.
  revert m. induction es as [|e es IH]; intros m Hs Hm Hf; simpl in *; [done|].
  destruct Hs as [Hs Hs']. destruct (outbox_step_row m e id r Hs Hm) as (d & Hd & Hc).
  apply IH; [done| |done]. rewrite Hd. destruct Hc as [->|Hc]; [by rewrite set_get|].
  destruct e; simpl in Hc; [destruct Hc as [Hdue _]; unfold due in Hdue|]; set_solver.
Qed.

(** Only the delivery columns ever change. *)
Lemma outbox_run_immutable m es id r :
  outbox_scans m es → m !! id = Some r →
  ∃ d, outbox_run m es !! id = Some (set_delivery d r).
Proof.
  revert m r. induction es as [|e es IH]; intros m r Hs Hm; simpl in *.
  - exists (row_delivery r). by rewrite set_get.
  - destruct Hs as [Hs Hs']. destruct (outbox_step_row m e id r Hs Hm) as (d & Hd & _).
    destruct (IH _ _ Hs' Hd) as (d' & Hd'). exists d'. by rewrite Hd', set_set.
Qed.

Definition event_tokens (e : outbox_event) : list string :=
  match e with OClaim _ token _ _ _ => [token] | _ => [] end.

(** A row leased under a token the run does not issue again either keeps that
    lease or can no longer be marked with that token. *)
Lemma outbox_run_token m es id r token :
  outbox_scans m es → m !! id = Some r → token ≠ "" →
  d_claimToken (row_delivery r) ≠ token →
  token ∉ mbind event_tokens es →
  ∃ r', outbox_run m es !! id = Some r' ∧ d_claimToken (row_delivery r') ≠ token.
Proof.
  revert m r. induction es as [|e es IH]; intros m r Hs Hm Ht Hr Hni; simpl in *; [eauto|].
  destruct Hs as [Hs Hs']. destruct (outbox_step_row m e id r Hs Hm) as (d & Hd & Hc).
  apply not_elem_of_app in Hni as [Hni Hni'].
  eapply IH; [done|exact Hd|done| |done]. rewrite delivery_set.
  destruct Hc as [->|Hc]; [done|]. destruct e; simpl in *.
  - destruct Hc as [_ ->]. simpl. set_solver.
  - destruct Hc as (_ & _ & _ & ->). simpl. done.
Qed.
End outbox.
Arguments outbox_event : clear implicits.

(** ** The fact outbox *)
#[global] Instance fact_outbox_row : OutboxRow fact_row := {|
  row_delivery r := let f := fr_fact r in
    mkdelivery (fact_Status f) (fact_Retries f) (fact_NextRetryAt f) (fact_ClaimedUntil f)
      (fact_ClaimToken f) (fact_DeliveryStatus f) (fact_LastError f) (fr_sentAt r);
  set_delivery d r :=
    r <| fr_fact ::= λ f, f <| fact_Status := d_status d |> <| fact_Retries := d_retries d |>
           <| fact_NextRetryAt := d_nextRetryAt d |> <| fact_ClaimedUntil := d_claimedUntil d |>
           <| fact_ClaimToken := d_claimToken d |> <| fact_DeliveryStatus := d_statusCode d |>
           <| fact_LastError := d_lastError d |> |>
      <| fr_sentAt := d_sentAt d |>;
  row_createdAt := fr_createdAt
|}.
#[global] Instance fact_outbox_laws : OutboxRowLaws fact_row.
Proof.
  split.
  - by intros [] [[] ? ? ? ?].
  - done.
  - done.
  - by intros [[] ? ? ? ?].
Qed.

(** The scan order and the locked rows of a claim come from PostgreSQL. *)
Definition ClaimV1Facts (m : gmap string fact_row) (generated : result string) (locked ks : list string)
    (now : Time) (limit : Z) : gmap string fact_row * result (list V1Fact) :=
  if decide (limit < 1) then (m, inl [])
  else
    match NewSecureUUIDString generated with
    | inr err => (m, inr err)
    | inl claimToken =>
      let '(m', rows) := claim now claimToken limit locked ks m in
      (m', inl ((λ kr, (fr_fact kr.2) <| fact_OccurredAt ::= normalizeV1FactOccurredAt |>) <$> rows))
    end.

Definition MarkV1FactDelivery (m : gmap string fact_row) (now : Time) (factID claimToken : string)
    (statusCode : Z) (success terminal : bool) (detail : string) (next : Time) :
    gmap string fact_row * option go_error :=
  match mark now factID claimToken statusCode success terminal detail next m with
  | Some m' => (m', None)
  | None => (m, Some ErrV1FactClaimLost)
  end.

Definition RequeueV1Fact (now : Time) (generated : result string) (factID correlationID : string) :
    txm pg () :=
  auditID ← tx_lift (NewSecureUUIDString generated);
  s ← tx_get;
  match pg_facts s !! factID with
  | None => tx_fail ErrV1FactNotFound
  | Some r =>
    let status := fact_Status (fr_fact r) in
    if decide (status ≠ "RECONCILIATION_REQUIRED") then tx_fail ErrV1FactNotReconciliable
    else
      tx_modify (λ s, s <| pg_factAudit ::= λ l,
        l ++ [mkfact_audit_row auditID factID correlationID status (fact_LastError (fr_fact r))] |>);;
      tx_modify (λ s, s <| pg_facts ::= update_row factID (λ d,
        d <| d_status := "PENDING" |> <| d_claimedUntil := None |> <| d_claimToken := "" |>
          <| d_nextRetryAt := timestamptz now |>
          <| d_lastError := "manual reconciliation requeue requested" |>) |>)
  end.

(** ** The trace outbox (v1_trace_delivery.go) *)
Record trace_outbox_row : Type := mktrace_outbox_row {
  tor_payload : option data_map;      (* None: the stored document does not decode *)
  tor_contentSHA256 : string;
  tor_createdAt : Time;
  tor_delivery : delivery
}.
#[global] Instance eta_trace_outbox_row : Eta trace_outbox_row := fun r =>
  mktrace_outbox_row (tor_payload r) (tor_contentSHA256 r) (tor_createdAt r) (tor_delivery r).
#[global] Instance trace_outbox_row_inst : OutboxRow trace_outbox_row := {|
  row_delivery := tor_delivery;
  set_delivery d r := r <| tor_delivery := d |>;
  row_createdAt := tor_createdAt
|}.
#[global] Instance trace_outbox_laws : OutboxRowLaws trace_outbox_row.
Proof. split; try done. by intros []. Qed.

Record V1TraceDelivery : Type := mkV1TraceDelivery {
  td_SchemaVersion : Z;
  td_Trace : V1Trace;
  td_Event : V1TraceEvent;
  td_ContentSHA256 : string;
  td_Payload : option data_map;
  td_ClaimToken : string;
  td_Retries : Z
}.

Definition nullableString (value : string) : any := if decide (value = "") then ANil else AString value.

Definition TraceEnvelope (delivery : V1TraceDelivery) : data_map :=
  match td_Payload delivery with
  | Some payload => payload
  | None =>
    let data := match ev_Data (td_Event delivery) with AMap m => m | _ => ∅ end in
    let tr := td_Trace delivery in
    let ev := td_Event delivery in
    list_to_map [
      ("schema_version", AInt (td_SchemaVersion delivery)); ("trace_id", AString (tr_TraceID tr));
      ("event_id", AString (ev_EventID ev)); ("cpo_id", AString (tr_CPOID tr));
      ("cms_start_intent_id", nullableString (tr_CMSStartIntentID tr));
      ("cms_charging_session_id", nullableString (tr_CMSChargingSessionID tr));
      ("cms_command_id", nullableString (tr_CMSCommandID tr));
      ("cms_charger_operation_id", nullableString (tr_CMSChargerOperationID tr));
      ("hal_charger_operation_id", nullableString (tr_HALChargerOperationID tr));
      ("hal_transaction_id", nullableString (tr_HALTransactionID tr));
      ("ocpp_transaction_id", match tr_OCPPTransactionID tr with Some n => AInt64 n | None => ANil end);
      ("charger_ocpp_identity", AString (tr_ChargerOCPPIdentity tr));
      ("ocpp_connector_number", AInt (tr_OCPPConnectorNumber tr));
      ("source", AString (ev_Source ev)); ("target", AString (ev_Target ev));
      ("category", AString (ev_Category ev)); ("protocol", AString (ev_Protocol ev));
      ("phase", AString (ev_Phase ev)); ("summary", AString (ev_Summary ev));
      ("occurred_at", ATime (ev_OccurredAt ev)); ("state_before", AString (ev_StateBefore ev));
      ("state_after", AString (ev_StateAfter ev)); ("correlation_id", AString (ev_CorrelationID ev));
      ("data", AMap data); ("immutable_content_sha256", AString (td_ContentSHA256 delivery))]
  end.

Definition traceContentSHA256 `{FactCodec} (trace : V1Trace) (event : V1TraceEvent) : result string :=
  let envelope := TraceEnvelope (mkV1TraceDelivery 1 trace event "" None "" 0) in
  rbind (canonicalV1JSON (JPayload (delete "immutable_content_sha256" envelope)))
    (λ canonical, inl (sha256_hex canonical)).

Definition zero_trace : V1Trace := mkV1Trace "" "" "" "" "" "" "" "" None "" 0 0.
Definition event_with_id (id : string) : V1TraceEvent :=
  mkV1TraceEvent id "" "" "" "" "" "" "" 0 0 "" "" "" ANil.

(** A row that does not decode, or names another event, fails the whole claim,
    which is then rolled back. *)
Fixpoint trace_deliveries (token : string) (rows : list (string * trace_outbox_row)) :
    result (list V1TraceDelivery) :=
  match rows with
  | [] => inl []
  | (id, r) :: rest =>
    match tor_payload r with
    | None => inr (ErrOther "decode persisted trace delivery payload")
    | Some payload =>
      let payloadEventID := match payload !! "event_id" with Some (AString e) => e | _ => "" end in
      if decide (payloadEventID = id) then
        rbind (trace_deliveries token rest) (λ out,
          inl (mkV1TraceDelivery 1 zero_trace (event_with_id id) (tor_contentSHA256 r) (Some payload)
                 token (d_retries (tor_delivery r)) :: out))
      else inr (ErrOther "persisted trace delivery payload event identity mismatch")
    end
  end.

Definition ClaimV1TraceDeliveries (m : gmap string trace_outbox_row) (generated : result string)
    (locked ks : list string) (now : Time) (limit : Z) :
    gmap string trace_outbox_row * result (list V1TraceDelivery) :=
  if decide (limit < 1) then (m, inl [])
  else
    match NewSecureUUIDString generated with
    | inr err => (m, inr err)
    | inl claimToken =>
      let '(m', rows) := claim now claimToken limit locked ks m in
      match trace_deliveries claimToken rows with
      | inl out => (m', inl out)
      | inr err => (m, inr err)
      end
    end.

Definition v1TraceDeliveryStatus (success terminal : bool) : string :=
  let status := "RETRY" in
  let status := if success then "DELIVERED" else status in
  if terminal then "RECONCILIATION_REQUIRED" else status.

Definition MarkV1TraceDelivery (m : gmap string trace_outbox_row) (now : Time)
    (eventID claimToken : string) (statusCode : Z) (success terminal : bool) (detail : string)
    (next : Time) : gmap string trace_outbox_row * option go_error :=
  match mark now eventID claimToken statusCode success terminal detail next m with
  | Some m' => (m', None)
  | None => (m, Some (ErrOther "trace delivery claim lost"))
  end.

(** ** The delivery workers (internal/v1facts/worker.go, internal/v1trace/worker.go)

    One delivery meets, outside the outbox: whether the envelope marshals and
    the request builds, the transport's answer (a status code and the decoded
    error.code of the body, [None] when it does not decode), and the clock. *)
Record delivery_env : Type := {
  env_marshals : bool;
  env_requests : bool;
  env_response : result (Z * option string);
  env_now : Time
}.

(** The characters a receiver code may have. *)
Definition code_char (c : ascii) : bool :=
  let n := nat_of_ascii c in
  ((97 <=? n)%nat && (n <=? 122)%nat) || ((48 <=? n)%nat && (n <=? 57)%nat) || (n =? 95)%nat.
Fixpoint all_chars (P : ascii → bool) (s : string) : bool :=
  match s with EmptyString => true | String c s' => P c && all_chars P s' end.

Definition readReceiverErrorCode (decoded : option string) : string :=
  match decoded with
  | None => ""
  | Some raw =>
    let code := GoStrings.TrimSpace raw in
    if decide (Z.of_nat (String.length code) > 64) then ""
    else if all_chars code_char code then code else ""
  end.

Definition receiverDeliveryDetail (status : Z) (code : string) : string :=
  if decide (code = "") then "receiver HTTP " +:+ pretty status
  else "receiver HTTP " +:+ pretty status +:+ " (" +:+ code +:+ ")".

(** [time.Second * (1 << min(retries, 6))], at most a minute; [retries] counts
    the failed deliveries, so it is never negative. *)
Definition retry_delay (retries : Z) : GoTime.Duration :=
  let delay := Int64.mul GoTime.Second (Z.shiftl 1 (Z.min retries 6)) in
  if decide (GoTime.Minute < delay) then GoTime.Minute else delay.
Definition retryAt (now : Time) (retries : Z) : Time := GoTime.Add now (retry_delay retries).

Definition transient_status (code : Z) : bool :=
  bool_decide (code ∈ [429; 500; 502; 503; 504]).

(** The arguments of the one mark a delivery ends with:
    status code, success, terminal, detail and next attempt. *)
Definition delivery_outcome (env : delivery_env) (retries : Z) (kind : string) :
    Z * bool * bool * string * Time :=
  if negb (env_marshals env) then (0, false, true, "invalid durable " +:+ kind, env_now env)
  else if negb (env_requests env) then
    (0, false, true, "invalid " +:+ (if decide (kind = "fact payload") then "fact" else "trace")
                     +:+ " destination", env_now env)
  else
    match env_response env with
    | inr _ => (0, false, false, "transport failure", retryAt (env_now env) retries)
    | inl (code, decoded) =>
      if decide (code = 204) then (code, true, false, "", env_now env)
      else
        let receiverCode := readReceiverErrorCode decoded in
        if transient_status code then
          (code, false, false, receiverDeliveryDetail code receiverCode, retryAt (env_now env) retries)
        else (code, false, true, receiverDeliveryDetail code receiverCode, env_now env)
    end.

(** v1facts: the trace event appended after a lifecycle fact was delivered.
    [halTransaction] decodes hal_transaction_id from the payload, [findTrace] is
    FindV1TraceByTransaction. *)
Definition recordDeliveredLifecycleFact (halTransaction : string → option string)
    (findTrace : string → result V1Trace) (now : Time) (fact : V1Fact) :
    option (string * V1TraceEventInput) :=
  if decide (fact_FactType fact ≠ "transaction.started" ∧ fact_FactType fact ≠ "transaction.completed")
  then None
  else
    match halTransaction (fact_Payload fact) with
    | None => None
    | Some id =>
      if decide (id = "") then None
      else
        match findTrace id with
        | inr _ => None
        | inl trace =>
          let phase := if decide (fact_FactType fact = "transaction.completed") then "POST_STOP"
                       else "STARTING" in
          Some (tr_TraceID trace,
            mkV1TraceEventInput "HAL" "CMS" "FACT" "HTTP" phase
              (fact_FactType fact +:+ " fact delivered to CMS") now "" "" (fact_FactID fact)
              (AMap {["action" := AString (fact_FactType fact)]}))
        end
    end.

Definition join_err (e f : option go_error) : option go_error :=
  match e, f with
  | Some e, Some f => Some (ErrJoin e f)
  | None, f => f
  | e, None => e
  end.

(** v1facts [deliver] and [mark], without the best-effort trace. *)
Definition deliver_fact (env : delivery_env) (m : gmap string fact_row) (fact : V1Fact) :
    gmap string fact_row * option go_error :=
  let '(code, success, terminal, detail, next) := delivery_outcome env (fact_Retries fact) "fact payload" in
  MarkV1FactDelivery m (env_now env) (fact_FactID fact) (fact_ClaimToken fact) code success terminal
    detail next.

Fixpoint deliver_facts (env : string → delivery_env) (m : gmap string fact_row) (facts : list V1Fact) :
    gmap string fact_row * option go_error :=
  match facts with
  | [] => (m, None)
  | fact :: rest =>
    let '(m1, err) := deliver_fact (env (fact_FactID fact)) m fact in
    let '(m2, errs) := deliver_facts env m1 rest in
    (m2, join_err err errs)
  end.

Definition facts_RunOnce (env : string → delivery_env) (now : Time) (generated : result string)
    (locked ks : list string) (m : gmap string fact_row) : gmap string fact_row * option go_error :=
  match ClaimV1Facts m generated locked ks now 1 with
  | (m', inr err) => (m', Some err)
  | (m', inl facts) => deliver_facts env m' facts
  end.

(** v1trace [deliver]. *)
Definition deliver_trace (env : delivery_env) (m : gmap string trace_outbox_row) (d : V1TraceDelivery) :
    gmap string trace_outbox_row * option go_error :=
  let '(code, success, terminal, detail, next) := delivery_outcome env (td_Retries d) "trace envelope" in
  MarkV1TraceDelivery m (env_now env) (ev_EventID (td_Event d)) (td_ClaimToken d) code success terminal
    detail next.

Fixpoint deliver_traces (env : string → delivery_env) (m : gmap string trace_outbox_row)
    (ds : list V1TraceDelivery) : gmap string trace_outbox_row * option go_error :=
  match ds with
  | [] => (m, None)
  | d :: rest =>
    let '(m1, err) := deliver_trace (env (ev_EventID (td_Event d))) m d in
    let '(m2, errs) := deliver_traces env m1 rest in
    (m2, join_err err errs)
  end.

(** After the closure of elapsed follow-on windows, whose failure ends the pass. *)
Definition trace_RunOnce (closeWindows : option go_error) (env : string → delivery_env) (now : Time)
    (generated : result string) (locked ks : list string) (m : gmap string trace_outbox_row) :
    gmap string trace_outbox_row * option go_error :=
  match closeWindows with
  | Some err => (m, Some err)
  | None =>
    match ClaimV1TraceDeliveries m generated locked ks now 1 with
    | (m', inr err) => (m', Some err)
    | (m', inl deliveries) => deliver_traces env m' deliveries
    end
  end.

(** * Theorems *)

(** What the rows returned by a claim look like. *)
Lemma claim_out {R} `{OutboxRowLaws R} now token limit locked ks (m : gmap string R) id r :
  range_of m ks → (id, r) ∈ (claim now token limit locked ks m).2 →
  (claim now token limit locked ks m).1 !! id = Some r ∧
  ∃ r0, m !! id = Some r0 ∧ due now r0 ∧ r = set_delivery (lease now token (row_delivery r0)) r0.
Proof.
  intros Hr Hin. unfold claim in Hin. simpl in Hin.
  apply list_elem_of_omap in Hin as (k & Hk & Hin).
  change (foldr _ m _) with (claim now token limit locked ks m).1 in Hin.
  apply fmap_Some in Hin as (r' & Hr' & [= -> ->]). split; [done|].
  rewrite claim_lookup, decide_True in Hr' by done.
  apply claim_ids_elem in Hk as (_ & r0 & Hr0 & Hd); [|done]. rewrite Hr0 in Hr'.
  injection Hr' as <-. eauto.
Qed.

(** An event that could disturb a lease: a claim after its end, or a mark with
    its token. *)
Definition disturbs (id token : string) (until : Time) (e : outbox_event) : Prop :=
  match e with
  | OClaim now' _ _ _ _ => until < now'
  | OMark _ id' token' _ _ _ _ _ => id' = id ∧ token' = token
  end.

(** C22: While a lease runs, nobody else gets the row and nobody else can settle
    it: after a claim, every claim up to the end of the lease (30 s) and every
    mark that does not present the claim's own token leave the row exactly as
    it was leased.  Holds for the fact outbox and the trace outbox alike. *)
Theorem lease_exclusive {R} `{OutboxRowLaws R} now token limit locked ks (m : gmap string R) id r es :
  range_of m ks → (id, r) ∈ (claim now token limit locked ks m).2 →
  let m' := (claim now token limit locked ks m).1 in
  outbox_scans m' es →
  Forall (λ e, ¬ disturbs id token (timestamptz now + v1DeliveryLease) e) es →
  outbox_run m' es !! id = Some r ∧
  d_status (row_delivery r) = "DELIVERING" ∧ d_claimToken (row_delivery r) = token.
Proof.
  intros Hr Hin m' Hs Hes.
  destruct (claim_out _ _ _ _ _ _ _ _ Hr Hin) as (Hm & r0 & _ & _ & Hr0).
  assert (row_delivery r = lease now token (row_delivery r0)) as Hd by (by rewrite Hr0, delivery_set).
  rewrite Hd. split; [|done]. clear Hin. fold m' in Hm. revert Hm Hs. generalize m'. clear m'.
  induction Hes as [|e es He Hes IH]; intros m' Hm Hs; simpl; [done|]. destruct Hs as [Hse Hs].
  apply IH; [|done]. destruct (outbox_step_row m' e id r Hse Hm) as (d & -> & [->|Hc]).
  { by rewrite set_get. }
  exfalso. apply He. destruct e as [now' token' ? ? ?|]; simpl in *.
  - destruct Hc as [[[[Hst _]|[_ Hu]] _] _]; rewrite Hd in *; simpl in *; [set_solver|done].
  - rewrite Hd in Hc. simpl in Hc. naive_solver.
Qed.

(** Once a delivery is settled (delivered, or given up for reconciliation),
    no claim, mark, late retry or repeated answer in any order changes the row
    again: a delivered fact is never sent again. *)
Theorem settled_is_final {R} `{OutboxRowLaws R} now id token code success terminal detail next
    (m m' : gmap string R) es :
  mark now id token code success terminal detail next m = Some m' →
  success = true ∨ terminal = true → outbox_scans m' es →
  ∃ r, m' !! id = Some r ∧ outbox_run m' es !! id = Some r ∧
    d_status (row_delivery r) = (if terminal then "RECONCILIATION_REQUIRED" else "DELIVERED").
Proof.
  intros Hm Hst Hs. unfold mark in Hm. destruct (m !! id) as [r0|] eqn:E; [|done].
  case_decide as D; [|done]. injection Hm as <-.
  assert (update_row id (marked now (delivery_status success terminal) code detail next) m !! id =
    Some (set_delivery (marked now (delivery_status success terminal) code detail next (row_delivery r0)) r0))
    as Hl by (by rewrite update_row_lookup, decide_True, E).
  eexists. split; [exact Hl|]. split.
  - apply outbox_run_final; [done|done|]. rewrite delivery_set. simpl.
    unfold delivery_status. destruct terminal, success; naive_solver set_solver.
  - rewrite delivery_set. simpl. unfold delivery_status. destruct terminal, success; naive_solver.
Qed.

(** A worker whose lease was taken over cannot settle the row any more: after
    another claim took it, its mark finds no row in every later state in which
    the lost token has not been issued again. *)
Theorem lost_claim_is_fenced {R} `{OutboxRowLaws R} now token limit locked ks (m : gmap string R) id r es
    lost now' code success terminal detail next :
  range_of m ks → (id, r) ∈ (claim now token limit locked ks m).2 → lost ≠ "" → lost ≠ token →
  let m' := (claim now token limit locked ks m).1 in
  outbox_scans m' es → lost ∉ mbind event_tokens es →
  mark now' id lost code success terminal detail next (outbox_run m' es) = None.
Proof.
  intros Hr Hin Hne Hlt m' Hs Hni.
  destruct (claim_out _ _ _ _ _ _ _ _ Hr Hin) as (Hm & r0 & _ & _ & Hr0).
  destruct (outbox_run_token m' es id r lost Hs Hm Hne) as (r' & Hr' & Ht); [|done|].
  { rewrite Hr0, delivery_set. simpl. congruence. }
  unfold mark. rewrite Hr'. by rewrite decide_False by naive_solver.
Qed.

Lemma retry_delay_bounds retries :
  0 ≤ retries → GoTime.Second ≤ retry_delay retries ≤ GoTime.Minute.
Proof.
  intros H. unfold retry_delay. assert (Z.min retries 6 ∈ [0; 1; 2; 3; 4; 5; 6]) as Hc.
  { assert (0 ≤ Z.min retries 6 ≤ 6) by lia. rewrite !elem_of_cons. lia. }
  revert Hc. rewrite !elem_of_cons, elem_of_nil.
  intros [->|[->|[->|[->|[->|[->|[->|[]]]]]]]]; case_decide as D; revert D; vm_compute; intuition congruence.
Qed.

(** How a delivery attempt is classified: 204 settles it as delivered;
    a transport failure or one of 429, 500, 502, 503, 504 schedules a retry
    between one second and one minute ahead; every other answer, and an
    envelope or request that cannot be built, is left to reconciliation. *)
Theorem delivery_outcome_spec env retries kind :
  0 ≤ retries →
  let '(code, success, terminal, detail, next) := delivery_outcome env retries kind in
  match env_marshals env && env_requests env, env_response env with
  | true, inl (status, _) =>
    if decide (status = 204) then success = true ∧ terminal = false
    else if decide (status ∈ [429; 500; 502; 503; 504]) then
      success = false ∧ terminal = false ∧ code = status ∧
      env_now env + GoTime.Second ≤ next ≤ env_now env + GoTime.Minute
    else success = false ∧ terminal = true ∧ code = status
  | true, inr _ =>
    success = false ∧ terminal = false ∧ env_now env + GoTime.Second ≤ next ≤ env_now env + GoTime.Minute
  | false, _ => success = false ∧ terminal = true
  end.
Proof.
  intros H. pose proof (retry_delay_bounds retries H) as Hb.
  unfold delivery_outcome, retryAt, GoTime.Add, transient_status.
  destruct (env_marshals env), (env_requests env); try done. simpl.
  destruct (env_response env) as [[code decoded]|e]; [|split_and!; done || lia].
  destruct (decide (code = 204)) as [->|Hne]; [done|]. case_decide as D.
  - rewrite bool_decide_true by done. split_and!; done || lia.
  - by rewrite bool_decide_false.
Qed.

(** One pass of the fact worker: whatever the receiver answers, a claimed
    fact leaves the pass settled or rescheduled with exactly one more failure
    counted, no error is reported, and its immutable content is unchanged. *)
Theorem facts_RunOnce_spec env now generated locked ks (m : gmap string fact_row) :
  range_of m ks → (∀ id r, m !! id = Some r → fact_FactID (fr_fact r) = id) →
  (∀ id r, m !! id = Some r → 0 ≤ fact_Retries (fr_fact r)) →
  ∀ token, NewSecureUUIDString generated = inl token → token ≠ "" →
  let '(m', err) := facts_RunOnce env now generated locked ks m in
  err = None ∧
  (m' = m ∨ ∃ id r, m !! id = Some r ∧ id ∉ locked ∧ due now r ∧
     let '(code, success, terminal, detail, next) :=
       delivery_outcome (env id) (fact_Retries (fr_fact r)) "fact payload" in
     m' = <[id := set_delivery (marked (env_now (env id)) (delivery_status success terminal) code detail next
                    (lease now token (row_delivery r))) r]> m).
Proof.
  intros Hr Hid Hret token Hg Ht. unfold facts_RunOnce, ClaimV1Facts.
  rewrite decide_False, Hg by lia. destruct (claim now token 1 locked ks m) as [m1 rows] eqn:Ec.
  assert (m1 = (claim now token 1 locked ks m).1) as Hm1 by (by rewrite Ec).
  assert (rows = (claim now token 1 locked ks m).2) as Hrows by (by rewrite Ec).
  pose proof (claim_ids_length now 1 locked ks m) as Hlen.
  unfold claim in Hm1, Hrows. simpl in Hm1, Hrows.
  destruct (claim_ids now 1 locked ks m) as [|id [|]] eqn:Eids; simpl in *; [..|lia].
  { subst. split; [done|]. by left. }
  assert (id ∈ claim_ids now 1 locked ks m) as Hin by (rewrite Eids; by left).
  apply claim_ids_elem in Hin as (Hl & r & Hm & Hd); [|done].
  assert (m1 !! id = Some (set_delivery (lease now token (row_delivery r)) r)) as Hm1id
    by (by rewrite Hm1, update_row_lookup, decide_True, Hm).
  rewrite <- Hm1, Hm1id in Hrows. simpl in Hrows. subst rows. simpl.
  assert (fact_FactID (fr_fact r) = id) as -> by (by apply Hid).
  unfold deliver_fact. simpl. rewrite (Hid id r Hm).
  destruct (delivery_outcome (env id) (fact_Retries (fr_fact r)) "fact payload")
    as [[[[code success] terminal] detail] next] eqn:Eo.
  unfold MarkV1FactDelivery, mark. rewrite Hm1id, decide_True by (split_and!; done).
  simpl. split; [done|]. right. exists id, r. split_and!; [done..|]. rewrite Eo.
  rewrite Hm1. apply map_eq. intros k. rewrite !update_row_lookup.
  destruct (decide (k = id)) as [->|Hk].
  - rewrite lookup_insert_eq, Hm. simpl. done.
  - by rewrite lookup_insert_ne.
Qed.

(** ** Integrity of a delivered fact *)

(** RFC 8785 sorts members and drops insignificant white space, so storing the
    payload as JSONB in between does not change an envelope's canonical form. *)
Definition jsonb_transparent `{FactCodec} : Prop :=
  ∀ e : v1ImmutableFactEnvelope,
    canonicalV1JSON (JImmutableEnvelope (mkv1ImmutableFactEnvelope (ie_FactID e) (ie_FactType e)
      (ie_SchemaVersion e) (ie_OccurredAt e) (ie_Producer e) (jsonb_text (ie_Payload e)))) =
    canonicalV1JSON (JImmutableEnvelope e).

Lemma timestamptz_normalized t : timestamptz (normalizeV1FactOccurredAt t) = normalizeV1FactOccurredAt t.
Proof. apply timestamptz_idem. Qed.
Lemma normalize_idem t : normalizeV1FactOccurredAt (normalizeV1FactOccurredAt t) = normalizeV1FactOccurredAt t.
Proof. apply timestamptz_idem. Qed.

(** A receiver can verify what it is sent: however many claims, retries and
    marks a stored fact goes through, whenever it is claimed its envelope's
    digest is the SHA-256 of the canonical form of the envelope's own fields. *)
Theorem fact_digest_survives `{FactCodec} now factType aggregate sequence occurredAt payload s row
    es now' generated locked ks limit m facts fact :
  jsonb_transparent →
  appended now factType aggregate sequence occurredAt payload s row →
  outbox_scans (<[fact_FactID (fr_fact row) := row]> (pg_facts s)) es →
  m = outbox_run (<[fact_FactID (fr_fact row) := row]> (pg_facts s)) es → range_of m ks →
  (∀ k r, m !! k = Some r → fact_FactID (fr_fact r) = k) →
  (ClaimV1Facts m generated locked ks now' limit).2 = inl facts →
  fact ∈ facts → fact_FactID fact = fact_FactID (fr_fact row) →
  ∃ envelope, canonicalV1JSON (JImmutableEnvelope (immutableEnvelope fact)) = inl envelope ∧
    fe_ImmutableContentSHA256 (Envelope fact) = sha256_hex envelope.
Proof.
  intros Hj (factID & body & envelope & Hb & He & -> & _) Hs -> Hr Hk Hc Hin Hid.
  set (row := new_fact_row _ _ _ _ _) in *. set (m := outbox_run _ _) in *.
  unfold ClaimV1Facts in Hc. case_decide; [simplify_eq/=; by apply elem_of_nil in Hin|].
  destruct (NewSecureUUIDString generated) as [token|]; [|done].
  destruct (claim now' token limit locked ks m) as [m' rows] eqn:Ec. simpl in Hc. injection Hc as <-.
  apply list_elem_of_fmap in Hin as ([k r] & -> & Hin). simpl in Hid.
  assert ((k, r) ∈ (claim now' token limit locked ks m).2) as Hin' by (by rewrite Ec).
  destruct (claim_out _ _ _ _ _ _ _ _ Hr Hin') as (_ & r0 & Hm & _ & ->).
  assert (k = factID) as ->. { rewrite <- (Hk k r0 Hm). exact Hid. }
  destruct (outbox_run_immutable _ es factID row Hs) as (d & Hd); [apply lookup_insert_eq|].
  fold m in Hd. rewrite Hd in Hm. injection Hm as <-.
  exists envelope. split; [|done]. rewrite <- He.
  rewrite <- (Hj (immutableEnvelope (new_fact _ _ _ _))).
  unfold immutableEnvelope. simpl. by rewrite normalize_idem.
Qed.

(** ** Concrete runs *)
Module OutboxRuns.
Definition codec : FactCodec := {|
  canonicalV1JSON v := match v with JPayload _ => inl "{}" | JImmutableEnvelope e => inl (ie_FactID e) end;
  sha256_hex s := "sha:" +:+ s;
  jsonb_text s := s
|}.
#[local] Existing Instance codec.
Definition fact1 : V1Fact := new_fact "f1" "command.updated" "{}" 0.
Definition row : fact_row := new_fact_row 0 fact1 "f1" "agg" None.
Definition table : gmap string fact_row := {["f1" := row]}.
Definition leased : gmap string fact_row := (claim 10 "t1" 1 [] ["f1"] table).1.
Definition leased_row : fact_row := set_delivery (lease 10 "t1" (row_delivery row)) row.
Definition env : delivery_env := {|
  env_marshals := true; env_requests := true; env_response := inl (503, Some " busy ");
  env_now := 5 * GoTime.Second |}.
Lemma scan (r : fact_row) : range_of ({["f1" := r]} : gmap string fact_row) ["f1"].
Proof.
  split; [apply NoDup_singleton|]. intros k. rewrite list_elem_of_singleton. split.
  - intros ->. rewrite lookup_singleton_eq. eauto.
  - by intros [x [<- _]%lookup_singleton_Some].
Qed.
End OutboxRuns.

Lemma lease_exclusive_witness :
  outbox_run OutboxRuns.leased
    [OMark 11 "f1" "t0" 204 true false "" 11; OMark 12 "f2" "t1" 204 true false "" 12] !! "f1" =
  Some OutboxRuns.leased_row.
Proof.
  apply (lease_exclusive 10 "t1" 1 [] ["f1"] OutboxRuns.table "f1" OutboxRuns.leased_row).
  - apply OutboxRuns.scan.
  - vm_compute. by left.
  - simpl. tauto.
  - repeat constructor; intros [? ?]; discriminate.
Defined.

Lemma settled_is_final_witness :
  ∃ r, outbox_run (default ∅ (mark 20 "f1" "t1" 204 true false "" 20 OutboxRuns.leased))
    [OMark 30 "f1" "t1" 500 false false "" 30] !! "f1" = Some r ∧
    d_status (row_delivery r) = "DELIVERED".
Proof.
  destruct (settled_is_final 20 "f1" "t1" 204 true false "" 20 OutboxRuns.leased
    (default ∅ (mark 20 "f1" "t1" 204 true false "" 20 OutboxRuns.leased))
    [OMark 30 "f1" "t1" 500 false false "" 30]) as (r & _ & Hr & Hs);
    [vm_compute; reflexivity|by left|simpl; tauto|].
  exists r. split; [exact Hr|exact Hs].
Defined.

Lemma lost_claim_is_fenced_witness :
  mark 40 "f1" "t0" 204 true false "" 40 OutboxRuns.leased = None.
Proof.
  apply (lost_claim_is_fenced 10 "t1" 1 [] ["f1"] OutboxRuns.table "f1" OutboxRuns.leased_row []
    "t0" 40 204 true false "" 40).
  - apply OutboxRuns.scan.
  - vm_compute. by left.
  - discriminate.
  - discriminate.
  - exact I.
  - simpl. apply not_elem_of_nil.
Defined.

Lemma delivery_outcome_spec_witness :
  delivery_outcome OutboxRuns.env 3 "fact payload" =
    (503, false, false, "receiver HTTP 503 (busy)", 13 * GoTime.Second) ∧
  env_now OutboxRuns.env + GoTime.Second ≤ 13 * GoTime.Second ≤ env_now OutboxRuns.env + GoTime.Minute.
Proof.
  split; [vm_compute; reflexivity|].
  exact (proj2 (proj2 (proj2 (delivery_outcome_spec OutboxRuns.env 3 "fact payload" ltac:(lia))))).
Defined.

Lemma facts_RunOnce_spec_witness :
  (facts_RunOnce (λ _, OutboxRuns.env) 10 (inl "t1") [] ["f1"] OutboxRuns.table).2 = None.
Proof.
  assert (∀ id r, OutboxRuns.table !! id = Some r → id = "f1" ∧ r = OutboxRuns.row) as Ht.
  { intros id r Hr. unfold OutboxRuns.table in Hr. by apply lookup_singleton_Some in Hr as [<- <-]. }
  pose proof (facts_RunOnce_spec (λ _, OutboxRuns.env) 10 (inl "t1") [] ["f1"] OutboxRuns.table
    (OutboxRuns.scan _)
    ltac:(intros id r Hr; destruct (Ht id r Hr) as [-> ->]; reflexivity)
    ltac:(intros id r Hr; destruct (Ht id r Hr) as [-> ->]; vm_compute; discriminate)
    "t1" eq_refl ltac:(discriminate)) as H.
  destruct (facts_RunOnce _ _ _ _ _ _) as [m' err]. exact (proj1 H).
Defined.

Lemma fact_digest_survives_witness :
  ∃ envelope,
    @canonicalV1JSON OutboxRuns.codec (JImmutableEnvelope (immutableEnvelope (fr_fact OutboxRuns.leased_row))) = inl envelope ∧
    fe_ImmutableContentSHA256 (Envelope (fr_fact OutboxRuns.leased_row)) = @sha256_hex OutboxRuns.codec envelope.
Proof.
  apply (fact_digest_survives (H := OutboxRuns.codec) 0 "command.updated" "agg" None 0 ∅ pg_empty OutboxRuns.row [] 10 (inl "t1")
    [] ["f1"] 1 OutboxRuns.table [fr_fact OutboxRuns.leased_row]).
  - intros e. reflexivity.
  - exists "f1", "{}", "f1". split_and!; [reflexivity..|]. intros id r Hr. discriminate.
  - exact I.
  - reflexivity.
  - apply OutboxRuns.scan.
  - intros k r Hr. unfold OutboxRuns.table in Hr.
    apply lookup_singleton_Some in Hr as [<- <-]. reflexivity.
  - vm_compute. reflexivity.
  - by left.
  - reflexivity.
Defined.
