(* ===== verification/PgTraces.v ===== *)
(** * Diagnostic traces in PostgreSQL

    internal/store/v1_trace_postgres.go over the tables of migrations 018, 019,
    021 and 022: trace roots, their events with the delivery outbox, and the
    follow-on windows of accepted TriggerMessages.  A method that opens a
    database transaction is one [run_tx] step under the row locks it takes. *)
From Stdlib Require Import String Ascii.
From stdpp Require Import base numbers decidable option list sorting strings gmap.
From S2P Require Import Prelude V1Types V1Memory PgSchema TraceData MemTraces Outbox.
Open Scope Z_scope.

(** Marshalling a document and decoding it again (encoding/json). *)
Class JsonView : Type := { json_view : data_map → result data_map }.

Record window_row : Type := mkwindow_row {
  wr_window : V1TriggerMessageFollowOnWindow;
  wr_observedAt : option Time;
  wr_closedAt : option Time
}.
#[global] Instance eta_window_row : Eta window_row := λ w,
  mkwindow_row (wr_window w) (wr_observedAt w) (wr_closedAt w).

Record trace_db : Type := mktrace_db {
  tb_traces : gmap string V1Trace;                (* v1_charging_traces *)
  tb_events : gmap string V1TraceEvent;           (* v1_charging_trace_events *)
  tb_outbox : gmap string trace_outbox_row;       (* v1_trace_delivery_outbox *)
  tb_windows : gmap string window_row             (* v1_trigger_message_follow_on_windows *)
}.
#[global] Instance eta_trace_db : Eta trace_db := λ s,
  mktrace_db (tb_traces s) (tb_events s) (tb_outbox s) (tb_windows s).
Definition trace_db_empty : trace_db := mktrace_db ∅ ∅ ∅ ∅.

(** ** Trace roots *)
Definition same_key (a b : string) : Prop := a ≠ "" ∧ a = b.
(** The unique indexes of 018 and 021. *)
Definition trace_clash (t u : V1Trace) : Prop :=
  same_key (tr_CMSStartIntentID t) (tr_CMSStartIntentID u) ∨
  same_key (tr_HALTransactionID t) (tr_HALTransactionID u) ∨
  same_key (tr_CMSChargerOperationID t) (tr_CMSChargerOperationID u) ∨
  same_key (tr_HALChargerOperationID t) (tr_HALChargerOperationID u).
#[global] Instance trace_clash_dec t u : Decision (trace_clash t u).
Proof. unfold trace_clash, same_key. apply _. Defined.
(** The CHECK constraints of 018 and 021. *)
Definition trace_row_ok (t : V1Trace) : Prop :=
  (0 < tr_OCPPConnectorNumber t ∨ tr_CMSChargerOperationID t ≠ "") ∧
  (tr_OCPPTransactionID t = None ∨ some_and (tr_OCPPTransactionID t) (λ n, 0 < n)).
#[global] Instance trace_row_ok_dec t : Decision (trace_row_ok t).
Proof. unfold trace_row_ok. apply _. Defined.

Definition scanV1Trace (s : trace_db) (P : V1Trace → Prop) `{!∀ t, Decision (P t)} : result V1Trace :=
  match find_row P (tb_traces s) with
  | Some (_, t) => inl t
  | None => inr ErrV1TransactionNotFound
  end.
Definition GetV1Trace (s : trace_db) (traceID : string) : result V1Trace :=
  match tb_traces s !! traceID with Some t => inl t | None => inr ErrV1TransactionNotFound end.
Definition FindV1TraceByTransaction (s : trace_db) (transactionID : string) : result V1Trace :=
  scanV1Trace s (λ t, same_key transactionID (tr_HALTransactionID t)).

(** INSERT ... ON CONFLICT (trace_id) DO NOTHING, then the row is read back. *)
Definition insert_trace (trace : V1Trace) : txm trace_db () := λ s : trace_db,
  if decide (¬ trace_row_ok trace) then inr check_violation
  else if decide (is_Some (tb_traces s !! tr_TraceID trace)) then inl ((), s)
  else
    match find_row (trace_clash trace) (tb_traces s) with
    | Some _ => inr unique_violation
    | None => inl ((), s <| tb_traces ::= <[tr_TraceID trace := trace]> |>)
    end.
Definition EnsureV1Trace (now : Time) (trace : V1Trace) (s : trace_db) : trace_db * result V1Trace :=
  let created := if decide (GoTime.IsZero (tr_CreatedAt trace)) then now else tr_CreatedAt trace in
  match run_tx (insert_trace (trace <| tr_CreatedAt := timestamptz created |>)) s with
  | (s', inr err) => (s', inr err)
  | (s', inl _) => (s', GetV1Trace s' (tr_TraceID trace))
  end.

Definition bind_trace (traceID : string) (transaction : V1Transaction) : txm trace_db () := λ s : trace_db,
  match tb_traces s !! traceID with
  | Some t =>
    if decide (tr_HALTransactionID t = "" ∨ tr_HALTransactionID t = tx_HALTransactionID transaction) then
      let t' := bound t transaction in
      if decide (¬ trace_row_ok t') then inr check_violation
      else
        match find_row (trace_clash t') (delete traceID (tb_traces s)) with
        | Some _ => inr unique_violation
        | None => inl ((), s <| tb_traces ::= <[traceID := t']> |>)
        end
    else inr ErrV1InvalidEvidence
  | None => inr ErrV1InvalidEvidence
  end.
Definition BindV1TraceTransaction (traceID : string) (transaction : V1Transaction) (s : trace_db) :
    trace_db * result () := run_tx (bind_trace traceID transaction) s.

Definition EnsureV1TraceForTransaction (now : Time) (generated : result string) (transaction : V1Transaction)
    (s : trace_db) : trace_db * result V1Trace :=
  let create :=
    match NewSecureUUIDString generated with
    | inr err => (s, inr err)
    | inl id => EnsureV1Trace now (transaction_root id transaction) s
    end in
  match FindV1TraceByTransaction s (tx_HALTransactionID transaction) with
  | inl trace => (s, inl trace)
  | inr err =>
    if decide (¬ errors_Is err ErrV1TransactionNotFound) then (s, inr err)
    else if decide (tx_CMSStartIntentID transaction ≠ "") then
      match scanV1Trace s (λ t, tr_CMSStartIntentID t = tx_CMSStartIntentID transaction) with
      | inl trace =>
        match BindV1TraceTransaction (tr_TraceID trace) transaction s with
        | (s', inr err) => (s', inr err)
        | (s', inl _) => (s', GetV1Trace s' (tr_TraceID trace))
        end
      | inr err => if decide (¬ errors_Is err ErrV1TransactionNotFound) then (s, inr err) else create
      end
    else create
  end.

(** LEFT JOIN v1_transactions, whose table is [txs]: NULL columns when there is
    no transaction. *)
Section connector.
Context (txs : gmap string V1Transaction) (now : Time).
Definition joined (t : V1Trace) : option V1Transaction := txs !! tr_HALTransactionID t.
Definition joined_completed (t : V1Trace) : option Time := x ← joined t; tx_CompletedAt x.
Definition connector_rank (t : V1Trace) : Z :=
  if decide (joined_completed t = None ∧ is_Some (joined t)) then 0
  else if decide (tr_HALTransactionID t = "") then 1 else 2.
Definition connector_row (identity : string) (connector : Z) (t : V1Trace) : Prop :=
  tr_ChargerOCPPIdentity t = identity ∧ tr_OCPPConnectorNumber t = connector ∧
  (tr_HALTransactionID t = "" ∨ joined_completed t = None ∨
   some_and (joined_completed t) (λ c, timestamptz now - v1TracePostStopAssociationWindow ≤ c)).
#[global] Instance connector_row_dec i c t : Decision (connector_row i c t).
Proof. unfold connector_row. apply _. Defined.
Definition connector_order (t u : V1Trace) : Prop :=
  connector_rank t < connector_rank u ∨
  (connector_rank t = connector_rank u ∧ tr_CreatedAt u ≤ tr_CreatedAt t).
#[global] Instance connector_order_dec : RelDecision connector_order.
Proof. intros a b. unfold connector_order. apply _. Defined.
Definition FindV1TraceForConnector (s : trace_db) (identity : string) (connector : Z) : result V1Trace :=
  match merge_sort connector_order (filter (connector_row identity connector) (map_to_list (tb_traces s)).*2) with
  | t :: _ => inl t
  | [] => inr ErrV1TransactionNotFound
  end.
End connector.

(** ** Events *)
(** The characters of a text, for the varchar bounds of 018. *)
Fixpoint char_count (t : string) : Z :=
  match t with
  | EmptyString => 0
  | String c r => (if decide (128 ≤ nat_of_ascii c < 192)%nat then 0 else 1) + char_count r
  end.
Definition event_fits (e : V1TraceEvent) : Prop :=
  char_count (ev_Source e) ≤ 32 ∧ char_count (ev_Target e) ≤ 32 ∧ char_count (ev_Category e) ≤ 48 ∧
  char_count (ev_Protocol e) ≤ 24 ∧ char_count (ev_Phase e) ≤ 24 ∧ char_count (ev_Summary e) ≤ 200 ∧
  char_count (ev_StateBefore e) ≤ 64 ∧ char_count (ev_StateAfter e) ≤ 64 ∧ char_count (ev_CorrelationID e) ≤ 128.
#[global] Instance event_fits_dec e : Decision (event_fits e).
Proof. unfold event_fits. apply _. Defined.
Definition value_too_long : go_error := ErrPg "22001".

Definition pending_delivery (now : Time) : delivery :=
  mkdelivery "PENDING" 0 (timestamptz now) None "" None "" None.

Section events.
Context `{FactCodec, JsonView}.

(** The two INSERTs. *)
Definition insert_event (now : Time) (event : V1TraceEvent) (payload : data_map) (digest : string) :
    txm trace_db () := λ s : trace_db,
  if decide (¬ event_fits event) then inr value_too_long
  else if decide (is_Some (tb_events s !! ev_EventID event) ∨ is_Some (tb_outbox s !! ev_EventID event))
  then inr unique_violation
  else inl ((), s <| tb_events ::= <[ev_EventID event := event <| ev_OccurredAt := timestamptz (ev_OccurredAt event) |>
                       <| ev_RecordedAt := timestamptz now |>]> |>
                  <| tb_outbox ::= <[ev_EventID event :=
                       mktrace_outbox_row (Some payload) digest (timestamptz now) (pending_delivery now)]> |>).

Definition appendV1TraceEventTx (now : Time) (generated : result string) (traceID : string)
    (input : V1TraceEventInput) : txm trace_db () :=
  id ← tx_lift (NewSecureUUIDString generated);
  let when_ := if decide (GoTime.IsZero (evi_OccurredAt input)) then now else evi_OccurredAt input in
  sanitized ← tx_lift (json_view (sanitizeV1TraceData (evi_Data input)));
  s ← tx_get;
  trace ← tx_lift (GetV1Trace s traceID);
  let event := mkV1TraceEvent id traceID (evi_Source input) (evi_Target input) (evi_Category input)
    (evi_Protocol input) (evi_Phase input) (evi_Summary input) when_ 0 (evi_StateBefore input)
    (evi_StateAfter input) (evi_CorrelationID input) (AMap sanitized) in
  digest ← tx_lift (traceContentSHA256 trace event);
  payload ← tx_lift (json_view (TraceEnvelope (mkV1TraceDelivery 1 trace event digest None "" 0)));
  insert_event now event payload digest.

Definition AppendV1TraceEvent (now : Time) (generated : result string) (traceID : string)
    (input : V1TraceEventInput) : txm trace_db () := appendV1TraceEventTx now generated traceID input.

(** The CHECK constraints of 022. *)
Definition window_row_ok (w : window_row) : Prop :=
  let win := wr_window w in
  V1TriggerMessageAction (win_RequestedMessage win) = true ∧ 0 ≤ win_OCPPConnectorNumber win ∧
  win_DeadlineAt win = win_AcceptedAt win + v1TriggerMessageFollowOnWindow ∧
  match win_State win with
  | "OPEN" => wr_observedAt w = None ∧ wr_closedAt w = None
  | "OBSERVED" => wr_closedAt w = None ∧
      some_and (wr_observedAt w) (λ t, win_AcceptedAt win < t ≤ win_DeadlineAt win)
  | "CLOSED" => wr_observedAt w = None ∧ some_and (wr_closedAt w) (λ t, win_DeadlineAt win ≤ t)
  | _ => False
  end.
#[global] Instance window_row_ok_dec w : Decision (window_row_ok w).
Proof. unfold window_row_ok. repeat case_match; apply _. Defined.

Definition put_window (traceID : string) (w : window_row) : txm trace_db () :=
  if decide (window_row_ok w) then tx_modify (λ s, s <| tb_windows ::= <[traceID := w]> |>)
  else tx_fail check_violation.

Definition AppendV1AcceptedTriggerMessageTrace (now : Time) (generated : result string) (traceID : string)
    (input : V1TraceEventInput) (requestedMessage : string) : txm trace_db () :=
  if negb (validV1AcceptedTriggerMessageTrace input requestedMessage) then tx_fail ErrV1InvalidEvidence
  else
    s ← tx_get;
    trace ← tx_lift (GetV1Trace s traceID);
    if decide (is_Some (tb_windows s !! traceID)) then mret ()
    else
      appendV1TraceEventTx now generated traceID input;;
      let acceptedAt := timestamptz (evi_OccurredAt input) in
      put_window traceID (mkwindow_row (mkV1TriggerMessageFollowOnWindow traceID requestedMessage
        (tr_ChargerOCPPIdentity trace) (tr_OCPPConnectorNumber trace) acceptedAt
        (acceptedAt + v1TriggerMessageFollowOnWindow) "OPEN") None None).

(** ** Follow-on windows *)
Definition accepted_order (w v : string * window_row) : Prop :=
  win_AcceptedAt (wr_window w.2) < win_AcceptedAt (wr_window v.2) ∨
  (win_AcceptedAt (wr_window w.2) = win_AcceptedAt (wr_window v.2) ∧ String.le w.1 v.1).
#[global] Instance accepted_order_dec : RelDecision accepted_order.
Proof. intros a b. unfold accepted_order. apply _. Defined.
Definition deadline_order (w v : string * window_row) : Prop :=
  win_DeadlineAt (wr_window w.2) < win_DeadlineAt (wr_window v.2) ∨
  (win_DeadlineAt (wr_window w.2) = win_DeadlineAt (wr_window v.2) ∧ String.le w.1 v.1).
#[global] Instance deadline_order_dec : RelDecision deadline_order.
Proof. intros a b. unfold deadline_order. apply _. Defined.

(** Settles each selected window and appends its evidence. *)
Fixpoint settle (now : Time) (gen : nat → result string) (f : window_row → window_row)
    (event : V1TriggerMessageFollowOnWindow → V1TraceEventInput) (ws : list (string * window_row)) :
    txm trace_db () :=
  match ws with
  | [] => mret ()
  | (id, w) :: rest =>
    put_window id (f w);;
    appendV1TraceEventTx now (gen (length rest)) id (event (wr_window w));;
    settle now gen f event rest
  end.

Definition observed_row (at_ : Time) (w : window_row) : window_row :=
  w <| wr_window ::= λ x, x <| win_State := "OBSERVED" |> |> <| wr_observedAt := Some (timestamptz at_) |>.
Definition closed_row (at_ : Time) (w : window_row) : window_row :=
  w <| wr_window ::= λ x, x <| win_State := "CLOSED" |> |> <| wr_closedAt := Some (timestamptz at_) |>.

Definition RecordV1TriggerMessageFollowOn (now : Time) (gen : nat → result string) (identity action : string)
    (connector : Z) (observedAt : Time) : txm trace_db Z :=
  if negb (v1_follow_on_valid action connector observedAt) then tx_fail ErrV1InvalidEvidence
  else
    s ← tx_get;
    let windows := merge_sort accepted_order (filter
      (λ w, window_matches identity action connector (timestamptz observedAt) (wr_window w.2))
      (map_to_list (tb_windows s))) in
    settle now gen (observed_row observedAt) (λ w, observed_event w action connector observedAt) windows;;
    mret (Z.of_nat (length windows)).

(** [locked]: the rows other transactions hold (SKIP LOCKED). *)
Definition CloseV1TriggerMessageFollowOnWindows (recorded : Time) (gen : nat → result string)
    (locked : list string) (now : Time) (limit : Z) : txm trace_db Z :=
  if decide (limit < 1) then tx_fail ErrV1InvalidEvidence
  else
    s ← tx_get;
    let windows := take (Z.to_nat limit) (merge_sort deadline_order (filter
      (λ w, window_due (timestamptz now) (wr_window w.2) ∧ w.1 ∉ locked) (map_to_list (tb_windows s)))) in
    settle recorded gen (closed_row now) (λ w, closed_event w now) windows;;
    mret (Z.of_nat (length windows)).
End events.

(** ** Reading and retention *)
Definition v1TraceEventPage (limit : Z) : Z := if decide (limit < 1 ∨ 200 < limit) then 100 else limit.
Definition ListV1TraceEvents (s : trace_db) (traceID : string) (before : Time) (beforeID : string) (limit : Z) :
    list V1TraceEvent :=
  take (Z.to_nat (v1TraceEventPage limit)) (merge_sort event_after (filter
    (λ e, ev_TraceID e = traceID ∧ past_cursor (timestamptz before) beforeID e) (map_to_list (tb_events s)).*2)).

Definition undelivered (r : trace_outbox_row) : Prop :=
  d_status (tor_delivery r) ∈ ["PENDING"; "RETRY"; "DELIVERING"].
#[global] Instance undelivered_dec r : Decision (undelivered r).
Proof. unfold undelivered. apply _. Defined.
(** NOT EXISTS: no event of the trace is still to be delivered. *)
Definition settled_trace (s : trace_db) (id : string) : Prop :=
  map_Forall (λ eid e, ev_TraceID e = id → ¬ some_and (tb_outbox s !! eid) undelivered) (tb_events s).
#[global] Instance settled_trace_dec s id : Decision (settled_trace s id).
Proof. unfold settled_trace. apply _. Defined.

(** The DELETE of one root with its cascades. *)
Definition drop_trace (id : string) (s : trace_db) : trace_db :=
  s <| tb_traces ::= delete id |> <| tb_windows ::= delete id |>
    <| tb_outbox := filter (λ kr, ¬ some_and (tb_events s !! kr.1) (λ e, ev_TraceID e = id)) (tb_outbox s) |>
    <| tb_events := filter (λ ke, ev_TraceID ke.2 ≠ id) (tb_events s) |>.
Definition DeleteV1TracesBefore (s : trace_db) (before : Time) (limit : Z) : trace_db * result Z :=
  if decide (limit < 1 ∨ 1000 < limit) then (s, inr ErrV1InvalidEvidence)
  else
    let ids := (take (Z.to_nat limit) (merge_sort created_before (filter
      (λ t, tr_CreatedAt t.2 < timestamptz before ∧ settled_trace s t.1) (map_to_list (tb_traces s))))).*1 in
    (foldr drop_trace s ids, inl (Z.of_nat (length ids))).
