(* ===== verification/TraceHistory.v ===== *)
(** * Histories of the diagnostic tables

    Any sequence of trace calls, retention passes and deliveries over the
    tables of [PgTraces]: every event keeps its outbox row until it is settled,
    and every TriggerMessage window has exactly the follow-on evidence its
    state says. *)
From Stdlib Require Import String.
From stdpp Require Import base numbers decidable option list sorting strings gmap pretty.
From S2P Require Import Prelude V1Types V1Memory PgSchema TraceData MemTraces Outbox PgTraces.
Open Scope Z_scope.

Inductive trace_call : Type :=
  | TEnsure (now : Time) (trace : V1Trace)
  | TBind (traceID : string) (transaction : V1Transaction)
  | TEnsureTransaction (now : Time) (generated : result string) (transaction : V1Transaction)
  | TAppend (now : Time) (generated : result string) (traceID : string) (input : V1TraceEventInput)
  | TAccepted (now : Time) (generated : result string) (traceID : string) (input : V1TraceEventInput)
      (requestedMessage : string)
  | TRecord (now : Time) (gen : nat → result string) (identity action : string) (connector : Z) (observedAt : Time)
  | TClose (recorded : Time) (gen : nat → result string) (locked : list string) (now : Time) (limit : Z)
  | TDelete (before : Time) (limit : Z)
  | TDeliver (e : outbox_event).

Definition follow_on_categories : list string :=
  ["CHARGER_OPERATION_FOLLOW_ON"; "CHARGER_OPERATION_FOLLOW_ON_CLOSED"].

(** The HAL appends follow-on evidence through its windows only; a claim scans
    the outbox it runs on. *)
Definition trace_call_ok (c : trace_call) (s : trace_db) : Prop :=
  match c with
  | TAppend _ _ _ input => evi_Category input ∉ follow_on_categories
  | TDeliver e => scans (tb_outbox s) e
  | _ => True
  end.

Section histories.
Context `{HC : FactCodec, HJ : JsonView}.

Definition trace_exec (c : trace_call) (s : trace_db) : trace_db :=
  match c with
  | TEnsure now trace => (EnsureV1Trace now trace s).1
  | TBind id tx => (BindV1TraceTransaction id tx s).1
  | TEnsureTransaction now g tx => (EnsureV1TraceForTransaction now g tx s).1
  | TAppend now g id input => (run_tx (AppendV1TraceEvent now g id input) s).1
  | TAccepted now g id input msg => (run_tx (AppendV1AcceptedTriggerMessageTrace now g id input msg) s).1
  | TRecord now gen i a c at_ => (run_tx (RecordV1TriggerMessageFollowOn now gen i a c at_) s).1
  | TClose r gen locked now limit => (run_tx (CloseV1TriggerMessageFollowOnWindows r gen locked now limit) s).1
  | TDelete before limit => (DeleteV1TracesBefore s before limit).1
  | TDeliver e => s <| tb_outbox ::= λ m, outbox_step m e |>
  end.
Fixpoint trace_history (s : trace_db) (cs : list trace_call) : trace_db :=
  match cs with [] => s | c :: cs' => trace_history (trace_exec c s) cs' end.
Fixpoint trace_history_ok (s : trace_db) (cs : list trace_call) : Prop :=
  match cs with [] => True | c :: cs' => trace_call_ok c s ∧ trace_history_ok (trace_exec c s) cs' end.

(** ** The invariant *)
Definition follow_on (tid : string) (e : V1TraceEvent) : Prop :=
  ev_TraceID e = tid ∧ ev_Category e ∈ follow_on_categories.

(** The follow-on evidence of a trace: none, or one event of that category. *)
Definition evidence_of (events : gmap string V1TraceEvent) (tid : string) (expected : option string) : Prop :=
  match expected with
  | None => ∀ id e, events !! id = Some e → ¬ follow_on tid e
  | Some category => ∃ id e, events !! id = Some e ∧ follow_on tid e ∧ ev_Category e = category ∧
      ∀ id' e', events !! id' = Some e' → follow_on tid e' → id' = id
  end.
Definition expected_evidence (s : trace_db) (tid : string) : option string :=
  w ← tb_windows s !! tid;
  match win_State (wr_window w) with
  | "OBSERVED" => Some "CHARGER_OPERATION_FOLLOW_ON"
  | "CLOSED" => Some "CHARGER_OPERATION_FOLLOW_ON_CLOSED"
  | _ => None
  end.

Record trace_shape (s : trace_db) : Prop := {
  shape_ids : ∀ id, is_Some (tb_events s !! id) ↔ is_Some (tb_outbox s !! id);
  shape_event : ∀ id e, tb_events s !! id = Some e → ev_EventID e = id ∧ is_Some (tb_traces s !! ev_TraceID e);
  shape_window : ∀ id w, tb_windows s !! id = Some w →
    win_TraceID (wr_window w) = id ∧ is_Some (tb_traces s !! id) ∧ window_row_ok w
}.
Definition trace_evidence (s : trace_db) : Prop := ∀ tid, evidence_of (tb_events s) tid (expected_evidence s tid).
Definition trace_ok (s : trace_db) : Prop := trace_shape s ∧ trace_evidence s.

(** Calls that only add roots. *)
Definition roots_grow (s s' : trace_db) : Prop :=
  (∀ id, is_Some (tb_traces s !! id) → is_Some (tb_traces s' !! id)) ∧
  tb_events s' = tb_events s ∧ tb_outbox s' = tb_outbox s ∧ tb_windows s' = tb_windows s.
#[global] Instance roots_grow_refl : Reflexive roots_grow.
Proof. intros s. by split_and!. Qed.
#[global] Instance roots_grow_trans : Transitive roots_grow.
Proof. intros s1 s2 s3 (Ha & ? & ? & ?) (Hb & ? & ? & ?). split_and!; [eauto|congruence..]. Qed.

Lemma roots_grow_ok s s' : roots_grow s s' → trace_ok s → trace_ok s'.
Proof.
  intros (Hr & He & Ho & Hw) [[HS1 HS2 HS3] HS4]. split; [split|].
  - intros id. by rewrite He, Ho.
  - intros id e. rewrite He. intros [? ?]%HS2. auto.
  - intros id w. rewrite Hw. intros (? & ? & ?)%HS3. auto.
  - intros tid. unfold expected_evidence. rewrite He, Hw. apply HS4.
Qed.

Lemma insert_trace_grow trace s s' : insert_trace trace s = inl ((), s') → roots_grow s s'.
Proof.
  unfold insert_trace. intros Hi. case_decide; [done|]. case_decide; [by injection Hi as <-|].
  destruct (find_row _ _); [done|]. injection Hi as <-. split_and!; [|done..].
  intros id Hid. simpl. destruct (decide (tr_TraceID trace = id)) as [->|]; [by rewrite lookup_insert_eq|].
  by rewrite lookup_insert_ne.
Qed.
Lemma bind_trace_grow id tx s s' : bind_trace id tx s = inl ((), s') → roots_grow s s'.
Proof.
  unfold bind_trace. intros Hb. destruct (tb_traces s !! id); [|done]. case_decide; [|done]. cbv zeta in Hb.
  case_decide; [done|]. destruct (find_row _ _); [done|]. injection Hb as <-. split_and!; [|done..].
  intros k Hk. simpl. destruct (decide (id = k)) as [->|]; [by rewrite lookup_insert_eq|by rewrite lookup_insert_ne].
Qed.
Lemma run_tx_grow (c : txm trace_db ()) s : (∀ s', c s = inl ((), s') → roots_grow s s') → roots_grow s (run_tx c s).1.
Proof. intros Hc. unfold run_tx. destruct (c s) as [[[] s']|]; [by apply Hc|done]. Qed.

Lemma EnsureV1Trace_grow now trace s : roots_grow s (EnsureV1Trace now trace s).1.
Proof.
  unfold EnsureV1Trace. pose proof (run_tx_grow (insert_trace (trace <| tr_CreatedAt := timestamptz
    (if decide (GoTime.IsZero (tr_CreatedAt trace)) then now else tr_CreatedAt trace) |>)) s (insert_trace_grow _ s)) as Hg.
  by destruct (run_tx _ s) as [s' [[]|]].
Qed.
Lemma Bind_grow id tx s : roots_grow s (BindV1TraceTransaction id tx s).1.
Proof. apply run_tx_grow, bind_trace_grow. Qed.
Lemma EnsureTransaction_grow now g tx s : roots_grow s (EnsureV1TraceForTransaction now g tx s).1.
Proof.
  unfold EnsureV1TraceForTransaction.
  assert (roots_grow s (match NewSecureUUIDString g with
    | inr err => (s, inr err) | inl id => EnsureV1Trace now (transaction_root id tx) s end).1) as Hc.
  { destruct (NewSecureUUIDString g); [apply EnsureV1Trace_grow|done]. }
  destruct (FindV1TraceByTransaction s _); [done|]. case_decide; [done|]. case_decide; [|done].
  destruct (scanV1Trace s _) as [t|]; [|by case_decide].
  pose proof (Bind_grow (tr_TraceID t) tx s) as Hb.
  by destruct (BindV1TraceTransaction (tr_TraceID t) tx s) as [s' [[]|]].
Qed.

(** ** Appending *)
Lemma append_inv now g tid input s s' :
  appendV1TraceEventTx now g tid input s = inl ((), s') →
  ∃ id e row, s' = s <| tb_events ::= <[id := e]> |> <| tb_outbox ::= <[id := row]> |> ∧
    tb_events s !! id = None ∧ tb_outbox s !! id = None ∧ ev_EventID e = id ∧ ev_TraceID e = tid ∧
    ev_Category e = evi_Category input ∧ is_Some (tb_traces s !! tid) ∧ undelivered row.
Proof.
  unfold appendV1TraceEventTx. intros Ha.
  destruct (NewSecureUUIDString g) as [id|]; tx_simpl Ha; [|done].
  destruct (json_view (sanitizeV1TraceData (evi_Data input))) as [data|]; tx_simpl Ha; [|done].
  unfold GetV1Trace in Ha. destruct (tb_traces s !! tid) as [t|] eqn:Et; tx_simpl Ha; [|done].
  match type of Ha with (tx_lift ?r ≫= _) _ = _ => destruct r as [digest|]; tx_simpl Ha; [|done] end.
  match type of Ha with (tx_lift ?r ≫= _) _ = _ => destruct r as [payload|]; tx_simpl Ha; [|done] end.
  unfold insert_event in Ha. case_decide; [done|]. case_decide as D; [done|]. injection Ha as <-.
  apply not_or_and in D as [D1%eq_None_not_Some D2%eq_None_not_Some].
  eexists _, _, _. split; [reflexivity|]. split_and!; try done. unfold undelivered. simpl. set_solver.
Qed.

Lemma append_shape now g tid input s s' :
  appendV1TraceEventTx now g tid input s = inl ((), s') → trace_shape s → trace_shape s'.
Proof.
  intros (id & e & row & -> & Hn1 & Hn2 & He & Ht & _ & Htr & _)%append_inv [HS1 HS2 HS3]. split; simpl.
  - intros k. destruct (decide (id = k)) as [->|]; [by rewrite !lookup_insert_eq|].
    rewrite !lookup_insert_ne by done. apply HS1.
  - intros k x [[<- <-]|[_ Hk]]%lookup_insert_Some; [by rewrite Ht|]. by apply HS2.
  - apply HS3.
Qed.

Lemma evidence_other events id e tid o :
  events !! id = None → ¬ follow_on tid e → evidence_of events tid o → evidence_of (<[id := e]> events) tid o.
Proof.
  intros Hn Hf. destruct o as [category|]; simpl.
  - intros (k & x & Hk & Hx & Hc & Hu). exists k, x. split_and!; [|done..|].
    + rewrite lookup_insert_ne; [done|congruence].
    + intros k' x' [[<- <-]|[_ Hk']]%lookup_insert_Some Hx'; [done|by eapply Hu].
  - intros Hall k x [[<- <-]|[_ Hk]]%lookup_insert_Some; [done|by eapply Hall].
Qed.
Lemma evidence_first events id e tid :
  events !! id = None → follow_on tid e → evidence_of events tid None →
  evidence_of (<[id := e]> events) tid (Some (ev_Category e)).
Proof.
  intros Hn Hf Hall. exists id, e. split_and!; [by rewrite lookup_insert_eq|done|done|].
  intros k x [[<- _]|[_ Hk]]%lookup_insert_Some Hx; [done|]. by destruct (Hall _ _ Hk).
Qed.

Lemma append_ordinary now g tid input s s' :
  appendV1TraceEventTx now g tid input s = inl ((), s') → evi_Category input ∉ follow_on_categories →
  trace_ok s → trace_ok s'.
Proof.
  intros Ha Hc [Hs He]. split; [by eapply append_shape|].
  apply append_inv in Ha as (id & e & row & -> & Hn & _ & _ & _ & Hcat & _). intros k. simpl.
  apply evidence_other; [done| |apply He]. intros [_ Hin]. by rewrite Hcat in Hin.
Qed.

(** ** Settling windows *)
Definition settles (state category : string) : Prop :=
  (state = "OBSERVED" ∧ category = "CHARGER_OPERATION_FOLLOW_ON") ∨
  (state = "CLOSED" ∧ category = "CHARGER_OPERATION_FOLLOW_ON_CLOSED").

Lemma put_window_inv tid w s s' :
  put_window tid w s = inl ((), s') → window_row_ok w ∧ s' = s <| tb_windows ::= <[tid := w]> |>.
Proof. unfold put_window. case_decide; [|done]. by intros [= <-]. Qed.

Lemma settle_one state category now g tid w w' input s s1 s2 :
  settles state category → trace_ok s →
  tb_windows s !! tid = Some w → win_State (wr_window w) = "OPEN" →
  win_State (wr_window w') = state → win_TraceID (wr_window w') = tid → evi_Category input = category →
  put_window tid w' s = inl ((), s1) → appendV1TraceEventTx now g tid input s1 = inl ((), s2) →
  trace_ok s2 ∧ ∀ k, k ≠ tid → tb_windows s2 !! k = tb_windows s !! k.
Proof.
  intros Hsc [[HS1 HS2 HS3] He] Hw Ho Hst Hid Hcat [Hrow ->]%put_window_inv Ha.
  assert (trace_shape (s <| tb_windows ::= <[tid := w']> |>)) as Hs1.
  { split; [done|done|]. intros k x. simpl. intros [[<- <-]|[_ Hk]]%lookup_insert_Some; [|by apply HS3].
    apply HS3 in Hw as (_ & ? & _). by split_and!. }
  pose proof (append_shape _ _ _ _ _ _ Ha Hs1) as Hs2.
  apply append_inv in Ha as (id & e & row & -> & Hn & _ & _ & Ht & Hc & _). simpl in *.
  split; [split; [done|]|].
  - intros k. unfold expected_evidence. simpl. destruct (decide (tid = k)) as [->|Hne].
    + rewrite lookup_insert_eq. cbn [mbind option_bind]. rewrite Hst.
      assert (evidence_of (tb_events s) k None) as Hnone.
      { specialize (He k). unfold expected_evidence in He. rewrite Hw in He. cbn [mbind option_bind] in He.
        by rewrite Ho in He. }
      assert (follow_on k e) as Hf.
      { split; [done|]. rewrite Hc, Hcat. destruct Hsc as [[_ ->]|[_ ->]]; set_solver. }
      pose proof (evidence_first _ _ _ _ Hn Hf Hnone) as Hfirst. rewrite Hc, Hcat in Hfirst.
      by destruct Hsc as [[-> ->]|[-> ->]].
    + rewrite lookup_insert_ne by done. apply evidence_other; [done| |apply He].
      intros [Ht' _]. congruence.
  - intros k Hk. by rewrite lookup_insert_ne.
Qed.

Lemma settle_ok state category now gen f event ws s s' :
  settles state category →
  (∀ w, win_State (wr_window (f w)) = state ∧ win_TraceID (wr_window (f w)) = win_TraceID (wr_window w)) →
  (∀ w, evi_Category (event w) = category) →
  NoDup ws.*1 → (∀ tid w, (tid, w) ∈ ws → tb_windows s !! tid = Some w ∧ win_State (wr_window w) = "OPEN") →
  trace_ok s → settle now gen f event ws s = inl ((), s') → trace_ok s'.
Proof.
  intros Hsc Hf Hev. revert s. induction ws as [|[tid w] ws IH]; intros s Hnd Hws Hok Hs; cbn [settle] in Hs.
  { by injection Hs as <-. }
  apply tx_bind_inv in Hs as ([] & s1 & Hp & Hs). apply tx_bind_inv in Hs as ([] & s2 & Ha & Hs).
  destruct (Hws tid w (list_elem_of_here _ _)) as [Hw Ho]. destruct (Hf w) as [Hst Hid].
  pose proof Hok as [[_ _ HS3] _]. destruct (HS3 _ _ Hw) as (Htid & _ & _). rewrite Htid in Hid.
  destruct (settle_one _ _ _ _ _ _ _ _ _ _ _ Hsc Hok Hw Ho Hst Hid (Hev _) Hp Ha) as [Hok2 Hsame].
  cbn [fmap list_fmap fst] in Hnd. apply NoDup_cons in Hnd as [Hnin Hnd].
  apply (IH s2); [done| |done|done]. intros k x Hk.
  rewrite Hsame; [apply Hws; by right|]. intros ->. apply Hnin. by apply (list_elem_of_fmap_2 fst _ (tid, x)).
Qed.

(** A selection of windows of a table. *)
Lemma selected_NoDup {A} (P : string * A → Prop) `{!∀ x, Decision (P x)} (m : gmap string A) :
  NoDup (filter P (map_to_list m)).*1.
Proof. eapply sublist_NoDup; [apply (NoDup_fst_map_to_list m)|]. apply fmap_sublist, sublist_filter. Qed.
Lemma sorted_selected {A} (R : relation (string * A)) `{!RelDecision R} (P : string * A → Prop)
    `{!∀ x, Decision (P x)} (m : gmap string A) k x :
  (k, x) ∈ merge_sort R (filter P (map_to_list m)) → m !! k = Some x ∧ P (k, x).
Proof. rewrite merge_sort_Permutation, list_elem_of_filter, elem_of_map_to_list. tauto. Qed.

Lemma RecordFollowOn_ok now gen i a c at_ s n s' :
  RecordV1TriggerMessageFollowOn now gen i a c at_ s = inl (n, s') → trace_ok s → trace_ok s'.
Proof.
  unfold RecordV1TriggerMessageFollowOn. intros Hr Hok. destruct (negb _); [done|]. tx_simpl Hr.
  apply tx_bind_inv in Hr as ([] & s1 & Hs & Hr). injection Hr as _ <-.
  eapply (settle_ok "OBSERVED" "CHARGER_OPERATION_FOLLOW_ON"); [| | | | | |exact Hs]; [by left|by split|done| | |done].
  - rewrite merge_sort_Permutation. apply selected_NoDup.
  - intros tid w [Hw Hm]%sorted_selected. split; [done|]. apply Hm.
Qed.
Lemma CloseFollowOn_ok r gen locked now limit s n s' :
  CloseV1TriggerMessageFollowOnWindows r gen locked now limit s = inl (n, s') → trace_ok s → trace_ok s'.
Proof.
  unfold CloseV1TriggerMessageFollowOnWindows. intros Hr Hok. case_decide; [done|]. tx_simpl Hr.
  apply tx_bind_inv in Hr as ([] & s1 & Hs & Hr). injection Hr as _ <-.
  eapply (settle_ok "CLOSED" "CHARGER_OPERATION_FOLLOW_ON_CLOSED"); [| | | | | |exact Hs]; [by right|by split|done| | |done].
  - apply sorted_take_NoDup, selected_NoDup.
  - intros tid w Hw%sorted_take_elem%list_elem_of_filter. destruct Hw as [[Hd _] Hw%elem_of_map_to_list].
    split; [done|]. apply Hd.
Qed.

Lemma accepted_category input msg :
  validV1AcceptedTriggerMessageTrace input msg = true → evi_Category input ∉ follow_on_categories.
Proof.
  unfold validV1AcceptedTriggerMessageTrace. destruct (decide _) as [|D]; [done|]. intros _.
  apply not_or_and in D as [_ [_ D]%not_or_and]. apply dec_stable in D. rewrite D.
  refine (bool_decide_unpack _ _). by vm_compute.
Qed.

Lemma Accepted_ok now g tid input msg s s' :
  AppendV1AcceptedTriggerMessageTrace now g tid input msg s = inl ((), s') → trace_ok s → trace_ok s'.
Proof.
  unfold AppendV1AcceptedTriggerMessageTrace. intros Ha Hok.
  destruct (validV1AcceptedTriggerMessageTrace input msg) eqn:Hv; [cbn [negb] in Ha|done]. tx_simpl Ha.
  destruct (GetV1Trace s tid) as [t|] eqn:Et; tx_simpl Ha; [|done].
  destruct (decide (is_Some (tb_windows s !! tid))) as [|Hw]; [by injection Ha as <-|].
  apply eq_None_not_Some in Hw. apply tx_bind_inv in Ha as ([] & s1 & Ha & Hp).
  pose proof (append_ordinary _ _ _ _ _ _ Ha (accepted_category _ _ Hv) Hok) as [Hs He].
  apply append_inv in Ha as (id & e & row & -> & _ & _ & _ & _ & _ & Htr & _).
  apply put_window_inv in Hp as [Hrow ->]. destruct Hs as [HS1 HS2 HS3]. split; [split; [done|done|]|].
  - intros k x. simpl. intros [[<- <-]|[_ Hk]]%lookup_insert_Some; [by split_and!|by apply HS3].
  - intros k. specialize (He k). unfold expected_evidence in He |- *. simpl in He |- *.
    destruct (decide (tid = k)) as [<-|]; [|by rewrite lookup_insert_ne].
    rewrite lookup_insert_eq. rewrite Hw in He. done.
Qed.

(** ** Retention *)
Lemma drop_trace_events id s k e :
  tb_events (drop_trace id s) !! k = Some e ↔ tb_events s !! k = Some e ∧ ev_TraceID e ≠ id.
Proof. simpl. by rewrite map_lookup_filter_Some. Qed.
Lemma drop_trace_outbox id s k r :
  tb_outbox (drop_trace id s) !! k = Some r ↔
  tb_outbox s !! k = Some r ∧ ¬ some_and (tb_events s !! k) (λ e, ev_TraceID e = id).
Proof. simpl. by rewrite map_lookup_filter_Some. Qed.

Lemma drop_trace_ok id s : trace_ok s → trace_ok (drop_trace id s).
Proof.
  intros [[HS1 HS2 HS3] HE]. split; [split|].
  - intros k. split; intros [x Hx].
    + apply drop_trace_events in Hx as [Hx Hne]. destruct (proj1 (HS1 k)) as [r Hr]; [eauto|].
      exists r. apply drop_trace_outbox. by rewrite Hx.
    + apply drop_trace_outbox in Hx as [Hx Hne]. destruct (proj2 (HS1 k)) as [e He]; [eauto|].
      exists e. apply drop_trace_events. by rewrite He in Hne.
  - intros k e [Hk Hne]%drop_trace_events. apply HS2 in Hk as [? ?]. split; [done|]. simpl.
    by rewrite lookup_delete_ne.
  - intros k w. simpl. intros [Hne Hk]%lookup_delete_Some. rewrite lookup_delete_ne by done. by apply HS3.
  - intros k. specialize (HE k). unfold expected_evidence in HE |- *. simpl in HE |- *.
    destruct (decide (id = k)) as [<-|Hne].
    + rewrite lookup_delete_eq. intros k' e' [_ Hk]%map_lookup_filter_Some [Ht _]. by apply Hk.
    + rewrite lookup_delete_ne by done. destruct (w ← tb_windows s !! k; _) as [category|]; simpl in HE |- *.
      * destruct HE as (k0 & e0 & Hk0 & Hf & Hc & Hu). exists k0, e0. split_and!; [|done|done|].
        { rewrite map_lookup_filter_Some. split; [done|]. destruct Hf as [Hf _]. simpl. congruence. }
        intros k' e' [Hk' _]%map_lookup_filter_Some. by apply Hu.
      * intros k' e' [Hk' _]%map_lookup_filter_Some. by apply (HE k').
Qed.
Lemma DeleteTraces_ok s before limit : trace_ok s → trace_ok (DeleteV1TracesBefore s before limit).1.
Proof.
  intros Hok. unfold DeleteV1TracesBefore. case_decide; [done|]. cbn [fst].
  induction (_.*1) as [|id ids IH]; [done|]. cbn [foldr]. by apply drop_trace_ok.
Qed.

(** ** Delivery *)
Lemma outbox_step_domain (m : gmap string trace_outbox_row) e id :
  scans m e → is_Some (outbox_step m e !! id) ↔ is_Some (m !! id).
Proof.
  intros Hs. split; intros [r Hr].
  - destruct (m !! id) eqn:Hm; [done|]. exfalso. destruct e as [now token limit locked ks|now id' tk code su te de nx]; cbn [outbox_step scans] in *.
    + rewrite (claim_lookup now token limit locked ks m id Hs), Hm in Hr. by case_decide.
    + unfold mark in Hr. destruct (m !! id') as [r'|] eqn:E; simpl in Hr; [|congruence].
      case_decide; simpl in Hr; [|congruence]. rewrite update_row_lookup, Hm in Hr. by case_decide.
  - destruct (outbox_step_row m e id r Hs Hr) as (d & -> & _). done.
Qed.
Lemma Deliver_ok s e :
  scans (tb_outbox s) e → trace_ok s → trace_ok (s <| tb_outbox ::= λ m, outbox_step m e |>).
Proof.
  intros Hs [[HS1 HS2 HS3] HE]. split; [split; [|done|done]|done].
  intros k. simpl. rewrite outbox_step_domain by done. apply HS1.
Qed.

(** ** Every history *)
Lemma run_tx_trace_ok {A} (c : txm trace_db A) s :
  (∀ a s', c s = inl (a, s') → trace_ok s → trace_ok s') → trace_ok s → trace_ok (run_tx c s).1.
Proof. intros Hc Hok. unfold run_tx. destruct (c s) as [[a s']|] eqn:E; [by eapply Hc|done]. Qed.

Lemma trace_exec_ok c s : trace_call_ok c s → trace_ok s → trace_ok (trace_exec c s).
Proof.
  intros Hc Hok. destruct c; cbn [trace_exec trace_call_ok] in *.
  - by eapply roots_grow_ok; [apply EnsureV1Trace_grow|].
  - by eapply roots_grow_ok; [apply Bind_grow|].
  - by eapply roots_grow_ok; [apply EnsureTransaction_grow|].
  - apply run_tx_trace_ok; [|done]. intros [] s' Ha. by eapply append_ordinary.
  - apply run_tx_trace_ok; [|done]. intros [] s'. apply Accepted_ok.
  - apply run_tx_trace_ok; [|done]. intros n s'. apply RecordFollowOn_ok.
  - apply run_tx_trace_ok; [|done]. intros n s'. apply CloseFollowOn_ok.
  - by apply DeleteTraces_ok.
  - by apply Deliver_ok.
Qed.
Lemma trace_history_ok_inv cs : ∀ s, trace_history_ok s cs → trace_ok s → trace_ok (trace_history s cs).
Proof. induction cs as [|c cs IH]; intros s; [done|]. intros [Hc Hcs] Hok. by apply IH, trace_exec_ok. Qed.
Lemma trace_ok_empty : trace_ok trace_db_empty.
Proof.
  split; [split|].
  - intros id. simpl. by rewrite !lookup_empty.
  - intros id e. simpl. by rewrite lookup_empty.
  - intros id w. simpl. by rewrite lookup_empty.
  - intros tid. unfold expected_evidence. simpl. rewrite lookup_empty. intros id e. by rewrite lookup_empty.
Qed.

(** ** What is kept *)
(** Events and outbox rows of [s] are those of [s'] too. *)
Definition rows_grow (s s' : trace_db) : Prop :=
  tb_events s ⊆ tb_events s' ∧ tb_outbox s ⊆ tb_outbox s'.
#[global] Instance rows_grow_refl : Reflexive rows_grow.
Proof. intros s. by split. Qed.
#[global] Instance rows_grow_trans : Transitive rows_grow.
Proof. intros s1 s2 s3 [? ?] [? ?]. split; by etrans. Qed.

Lemma roots_rows_grow s s' : roots_grow s s' → rows_grow s s'.
Proof. intros (_ & He & Ho & _). unfold rows_grow. by rewrite He, Ho. Qed.
Lemma append_grow now g tid input s s' : appendV1TraceEventTx now g tid input s = inl ((), s') → rows_grow s s'.
Proof.
  intros (id & e & row & -> & ? & ? & _)%append_inv. split; simpl; by apply insert_subseteq.
Qed.
Lemma put_window_grow tid w s s' : put_window tid w s = inl ((), s') → rows_grow s s'.
Proof. by intros [_ ->]%put_window_inv. Qed.
Lemma settle_grow now gen f event ws s s' : settle now gen f event ws s = inl ((), s') → rows_grow s s'.
Proof.
  revert s. induction ws as [|[tid w] ws IH]; intros s Hs; cbn [settle] in Hs; [by injection Hs as <-|].
  apply tx_bind_inv in Hs as ([] & s1 & Hp%put_window_grow & Hs).
  apply tx_bind_inv in Hs as ([] & s2 & Ha%append_grow & Hs). etrans; [done|]. etrans; [done|by apply IH].
Qed.
Lemma run_tx_rows {A} (c : txm trace_db A) s :
  (∀ a s', c s = inl (a, s') → rows_grow s s') → rows_grow s (run_tx c s).1.
Proof. intros Hc. unfold run_tx. destruct (c s) as [[a s']|] eqn:E; [by eapply Hc|done]. Qed.

(** A call other than a retention pass or a delivery only adds rows. *)
Lemma trace_exec_grow c s :
  match c with TDelete _ _ | TDeliver _ => True | _ => rows_grow s (trace_exec c s) end.
Proof.
  destruct c; try done; cbn [trace_exec].
  { apply roots_rows_grow, EnsureV1Trace_grow. }
  { apply roots_rows_grow, Bind_grow. }
  { apply roots_rows_grow, EnsureTransaction_grow. }
  all: apply run_tx_rows; intros r s' Hr.
  - destruct r. by eapply append_grow.
  - destruct r. unfold AppendV1AcceptedTriggerMessageTrace in Hr. destruct (negb _); [done|]. tx_simpl Hr.
    destruct (GetV1Trace s traceID) as [t|]; tx_simpl Hr; [|done].
    destruct (decide _); [by injection Hr as <-|]. apply tx_bind_inv in Hr as ([] & s1 & Ha%append_grow & Hp%put_window_grow).
    by etrans.
  - unfold RecordV1TriggerMessageFollowOn in Hr. destruct (negb _); [done|]. tx_simpl Hr.
    apply tx_bind_inv in Hr as ([] & s1 & Hs & Hr). injection Hr as _ <-. by eapply settle_grow.
  - unfold CloseV1TriggerMessageFollowOnWindows in Hr. destruct (decide _); [done|]. tx_simpl Hr.
    apply tx_bind_inv in Hr as ([] & s1 & Hs & Hr). injection Hr as _ <-. by eapply settle_grow.
Qed.

(** The event of an outbox row that is still to be delivered is never deleted. *)
Lemma drop_trace_keeps id s k e row :
  ev_TraceID e ≠ id → tb_events s !! k = Some e → tb_outbox s !! k = Some row →
  tb_events (drop_trace id s) !! k = Some e ∧ tb_outbox (drop_trace id s) !! k = Some row.
Proof. intros Hne He Ho. rewrite drop_trace_events, drop_trace_outbox, He. done. Qed.
Lemma Delete_keeps s before limit k e row :
  tb_events s !! k = Some e → tb_outbox s !! k = Some row → undelivered row →
  let s' := (DeleteV1TracesBefore s before limit).1 in tb_events s' !! k = Some e ∧ tb_outbox s' !! k = Some row.
Proof.
  intros He Ho Hu. unfold DeleteV1TracesBefore. cbv zeta. case_decide; [done|]. cbn [fst].
  assert (∀ t, (ev_TraceID e, t) ∉ filter
    (λ t, tr_CreatedAt t.2 < timestamptz before ∧ settled_trace s t.1) (map_to_list (tb_traces s))) as Hnot.
  { intros t [[_ Hs] _]%list_elem_of_filter. apply (Hs k e He); [done|]. by rewrite Ho. }
  set (ids := (take _ _).*1).
  assert (ev_TraceID e ∉ ids) as Hn.
  { intros [[id t] [Hid Hin%sorted_take_elem]]%list_elem_of_fmap. simpl in Hid. subst id. by apply (Hnot t). }
  clearbody ids. clear Hnot. induction ids as [|id ids IH]; [done|]. apply not_elem_of_cons in Hn as [Hne Hn].
  cbn [foldr]. destruct (IH Hn). by apply drop_trace_keeps.
Qed.

Lemma trace_exec_keeps c s k e row :
  trace_call_ok c s → tb_events s !! k = Some e → tb_outbox s !! k = Some row → undelivered row →
  tb_events (trace_exec c s) !! k = Some e ∧ ∃ d, tb_outbox (trace_exec c s) !! k = Some (set_delivery d row).
Proof.
  intros Hc He Ho Hu. pose proof (trace_exec_grow c s) as Hg.
  assert (rows_grow s (trace_exec c s) → tb_events (trace_exec c s) !! k = Some e ∧
    ∃ d, tb_outbox (trace_exec c s) !! k = Some (set_delivery d row)) as Hkeep.
  { intros [Ge Go]. split; [by eapply lookup_weaken|]. exists (row_delivery row). rewrite set_get.
    by eapply lookup_weaken. }
  destruct c; try (by apply Hkeep); cbn [trace_exec trace_call_ok] in *.
  - destruct (Delete_keeps s before limit k e row He Ho Hu). split; [done|]. exists (row_delivery row).
    by rewrite set_get.
  - split; [done|]. destruct (outbox_step_row _ _ _ _ Hc Ho) as (d & Hd & _). by exists d.
Qed.
End histories.

(** C28: Over every sequence of trace calls (roots, bindings, events, accepted
    TriggerMessages, observations, window closures, retention passes and
    deliveries), every trace has exactly the follow-on evidence its
    TriggerMessage window says: one FOLLOW_ON event when the window is
    OBSERVED, one FOLLOW_ON_CLOSED event when it is CLOSED, and none while it
    is OPEN or when there is no window.  A window is thus settled once, by an
    observation or by the deadline, never by both. *)
Theorem follow_on_evidence_exactly_once `{HC : FactCodec, HJ : JsonView} (cs : list trace_call) (tid : string) :
  trace_history_ok trace_db_empty cs →
  let s := trace_history trace_db_empty cs in
  match tb_windows s !! tid with
  | Some w =>
    (win_State (wr_window w) = "OPEN" ∧ evidence_of (tb_events s) tid None) ∨
    (win_State (wr_window w) = "OBSERVED" ∧ evidence_of (tb_events s) tid (Some "CHARGER_OPERATION_FOLLOW_ON")) ∨
    (win_State (wr_window w) = "CLOSED" ∧ evidence_of (tb_events s) tid (Some "CHARGER_OPERATION_FOLLOW_ON_CLOSED"))
  | None => evidence_of (tb_events s) tid None
  end.
Proof.
  intros Hcs. cbv zeta. destruct (trace_history_ok_inv cs _ Hcs trace_ok_empty) as [[_ _ HS3] HE].
  specialize (HE tid). unfold expected_evidence in HE. destruct (tb_windows _ !! tid) as [w|] eqn:Hw; [|done].
  apply HS3 in Hw as (_ & _ & _ & _ & _ & Hst). cbn [mbind option_bind] in HE.
  repeat (match type of Hst with
          | match ?x with _ => _ end => destruct x as [|[[] [] [] [] [] [] [] []] ?]; try done
          end).
  all: auto.
Qed.

(** C29: Diagnostic evidence survives until it has been delivered.  Take any
    recorded event whose delivery row is PENDING, RETRY or DELIVERING and any
    further calls, retention passes included: either the event and its
    delivery row (with the same payload and digest) are both still there, or
    at some point in between the delivery had reached a final state. *)
Theorem evidence_survives_until_delivered `{HC : FactCodec, HJ : JsonView} (cs : list trace_call) : ∀ s k e row,
  trace_history_ok s cs → tb_events s !! k = Some e → tb_outbox s !! k = Some row → undelivered row →
  (tb_events (trace_history s cs) !! k = Some e ∧
     ∃ d, tb_outbox (trace_history s cs) !! k = Some (set_delivery d row)) ∨
  (∃ pre post d, cs = pre ++ post ∧ tb_events (trace_history s pre) !! k = Some e ∧
     tb_outbox (trace_history s pre) !! k = Some (set_delivery d row) ∧ ¬ undelivered (set_delivery d row)).
Proof.
  induction cs as [|c cs IH]; intros s k e row Hcs He Ho Hu.
  { left. split; [done|]. exists (row_delivery row). by rewrite set_get. }
  destruct Hcs as [Hc Hcs]. destruct (trace_exec_keeps c s k e row Hc He Ho Hu) as [He' [d Ho']].
  destruct (decide (undelivered (set_delivery d row))) as [Hu'|Hf].
  - destruct (IH _ _ _ _ Hcs He' Ho' Hu') as [[Hk [d' Hd']]|(pre & post & d' & -> & Hk & Hd' & Hn)].
    + left. split; [done|]. exists d'. cbn [trace_history]. by rewrite Hd', set_set.
    + right. exists (c :: pre), post, d'. rewrite set_set in Hd', Hn. done.
  - right. exists [c], cs, d. done.
Qed.

(** ** A concrete history *)
Module TraceHistoryRuns.
#[local] Existing Instance OutboxRuns.codec.
#[local] Instance view : JsonView := {| json_view m := inl m |}.
Definition sec := GoTime.Second.
Definition root (id : string) : V1Trace :=
  mkV1Trace id "cpo" "" "" "" ("op-" +:+ id) ("hal-" +:+ id) "" None "CP-1" 1 sec.
Definition accepted : V1TraceEventInput :=
  mkV1TraceEventInput "CHARGER" "HAL" "CHARGER_OPERATION_OCPP" "OCPP" "OPERATION" "accepted" (2 * sec) "" "" "u1"
    (AMap (operation_data "u1" "TriggerMessage" "CALLRESULT" (obj [("status", AString "Accepted")]))).
Definition accept (id event message : string) : trace_call := TAccepted (2 * sec) (inl event) id accepted message.
Definition numbered (n : nat) : result string := inl ("f" +:+ pretty (N.of_nat n)).
Definition calls : list trace_call :=
  [TEnsure sec (root "t1"); TEnsure sec (root "t2");
   accept "t1" "e1" "StatusNotification"; accept "t2" "e2" "Heartbeat";
   TRecord (3 * sec) numbered "CP-1" "StatusNotification" 1 (3 * sec);
   TRecord (4 * sec) numbered "CP-1" "StatusNotification" 1 (4 * sec);
   TClose (90 * sec) (λ _, inl "g") [] (90 * sec) 10;
   TClose (95 * sec) (λ _, inl "h") [] (95 * sec) 10;
   TDeliver (OClaim (91 * sec) "tok" 1 [] ["e1"; "e2"; "f0"; "g"])].
Definition final : trace_db := trace_history trace_db_empty calls.
Definition recorded : list (string * string * string) :=
  (λ p, (p.1, ev_TraceID p.2, ev_Category p.2)) <$> map_to_list (tb_events final).
(** Both accepted, nothing delivered. *)
Definition early : trace_db := trace_history trace_db_empty (take 4 calls).
Lemma early_row : is_Some (tb_events early !! "e1") ∧
  ∃ row, tb_outbox early !! "e1" = Some row ∧ undelivered row.
Proof.
  split; [eexists; vm_compute; reflexivity|].
  assert (d_status ∘ tor_delivery <$> tb_outbox early !! "e1" = Some "PENDING") as Hs by (vm_compute; reflexivity).
  destruct (tb_outbox early !! "e1") as [row|]; [|discriminate]. injection Hs as Hs.
  exists row. split; [done|]. unfold undelivered. rewrite Hs. by left.
Qed.
Lemma calls_ok : trace_history_ok trace_db_empty calls.
Proof.
  cbn [trace_history_ok calls trace_call_ok accept]. split_and!; try exact I.
  apply range_of_perm. refine (bool_decide_unpack _ _). vm_compute. exact I.
Qed.
End TraceHistoryRuns.

Lemma follow_on_evidence_exactly_once_witness :
  evidence_of (tb_events TraceHistoryRuns.final) "t1" (Some "CHARGER_OPERATION_FOLLOW_ON").
Proof.
  pose proof (follow_on_evidence_exactly_once (HC := OutboxRuns.codec) (HJ := TraceHistoryRuns.view)
    TraceHistoryRuns.calls "t1" TraceHistoryRuns.calls_ok) as Ht.
  cbv zeta in Ht. fold TraceHistoryRuns.final in Ht.
  assert (win_State ∘ wr_window <$> tb_windows TraceHistoryRuns.final !! "t1" = Some "OBSERVED") as Hw
    by (vm_compute; reflexivity).
  destruct (tb_windows TraceHistoryRuns.final !! "t1") as [w|]; [|discriminate]. injection Hw as Hw.
  destruct Ht as [[Hs _]|[[_ He]|[Hs _]]]; [congruence|exact He|congruence].
Defined.

Lemma evidence_survives_until_delivered_witness :
  is_Some (tb_events (DeleteV1TracesBefore TraceHistoryRuns.early (100 * GoTime.Second) 10).1 !! "e1").
Proof.
  destruct TraceHistoryRuns.early_row as ([e He] & row & Ho & Hu).
  pose proof (evidence_survives_until_delivered (HC := OutboxRuns.codec) (HJ := TraceHistoryRuns.view)
    [TDelete (100 * GoTime.Second) 10] TraceHistoryRuns.early "e1" e row (conj I I) He Ho Hu) as Hs.
  cbn [trace_history trace_exec] in Hs. destruct Hs as [[Hk _]|(pre & post & d & Hc & Hk & Hd & Hn)].
  - exists e. exact Hk.
  - destruct pre as [|c pre].
    + cbn [trace_history] in Hd. rewrite Ho in Hd. apply (inj Some) in Hd. rewrite <- Hd in Hn. destruct (Hn Hu).
    + injection Hc as <- Hnil. destruct pre; [|discriminate Hnil]. cbn [trace_history trace_exec] in Hk.
      exists e. exact Hk.
Defined.
