(* ===== verification/Observer.v ===== *)
(** * The operation observer

    internal/ocpp16hal/operation_observer.go: it correlates the OCPP frames on
    the wire with the charger operations that caused them and records their
    evidence.  The HTTP goroutine that dispatches, the writer of the socket
    and the readers of all sockets call it concurrently; each locked section is
    one step of [observer_step].  A request is known by its address
    (reflect.Value.Pointer), 0 for anything but a non-nil pointer. *)
From Stdlib Require Import String.
From stdpp Require Import base numbers decidable option list strings gmap.
From S2P Require Import Prelude GoText V1Types V1Memory PgSchema HttpValidation TraceData MemTraces Outbox PgTraces TraceHistory.
Open Scope Z_scope.

(** ** OCPP frames

    A JSON text is read into a tree by the scanner of encoding/json, the class
    [JsonText]; what json.Unmarshal makes of a tree for each Go type the code
    asks for is written out (a null leaves the zero value). *)
Inductive json : Type :=
  | JNull
  | JBool (b : bool)
  | JNumber (literal : string)
  | JString (s : string)
  | JArray (l : list json)
  | JObject (fields : list (string * json)).

Class JsonText : Type := {
  json_parse : string → option json;
  json_float : string → any            (* strconv.ParseFloat of a number literal *)
}.

Section frames.
Context `{JsonText}.

Fixpoint json_any (v : json) : any :=
  match v with
  | JNull => ANil
  | JBool b => ABool b
  | JNumber t => json_float t
  | JString s => AString s
  | JArray l => AList (json_any <$> l)
  | JObject fields => AMap (foldl (λ m (p : string * any), <[p.1 := p.2]> m) (∅ : data_map)
                              ((λ p : string * json, (p.1, json_any p.2)) <$> fields))
  end.
Definition json_array (v : json) : option (list json) :=
  match v with JNull => Some [] | JArray l => Some l | _ => None end.
Definition json_int (v : json) : option Z :=
  match v with JNull => Some 0 | JNumber t => Atoi t | _ => None end.
Definition json_string (v : json) : option string :=
  match v with JNull => Some "" | JString s => Some s | _ => None end.
Definition json_map (v : json) : option data_map :=
  match v with
  | JNull => Some ∅
  | JObject _ => match json_any v with AMap m => Some m | _ => None end
  | _ => None
  end.

(** [parseOCPPFrame]: unique id, message type and payload. *)
Definition parseOCPPFrame (raw : string) : option (string * string * data_map) :=
  frame ← json_parse raw ≫= json_array;
  match frame with
  | k :: u :: rest =>
    kind ← json_int k;
    unique ← json_string u;
    match rest with
    | [] => None
    | [_; _] => if decide (kind = 2) then Some (unique, "CALL", ∅) else None
    | [p] => if decide (kind = 3) then payload ← json_map p; Some (unique, "CALLRESULT", payload) else None
    | [c; _; _] =>
      if decide (kind = 4) then code ← json_string c; Some (unique, "CALLERROR", obj [("error_code", AString code)])
      else None
    | _ => None
    end
  | _ => None
  end.
End frames.

(** ** The observer's tables *)
Record observedOperation : Type := mkobservedOperation {
  oo_traceID : string;
  oo_cmsOperationID : string;
  oo_halOperationID : string;
  oo_chargerID : string;
  oo_action : string;
  oo_uniqueID : string;
  oo_requestedMessage : string;
  oo_connector : Z;
  oo_sentPayload : data_map
}.
#[global] Instance eta_observedOperation : Eta observedOperation := λ o,
  mkobservedOperation (oo_traceID o) (oo_cmsOperationID o) (oo_halOperationID o) (oo_chargerID o) (oo_action o)
    (oo_uniqueID o) (oo_requestedMessage o) (oo_connector o) (oo_sentPayload o).

Record operationObserver : Type := mkoperationObserver {
  ob_traces : bool;                             (* a trace store is there *)
  ob_byRequest : gmap Z observedOperation;
  ob_byUnique : gmap string observedOperation
}.
#[global] Instance eta_operationObserver : Eta operationObserver := λ o,
  mkoperationObserver (ob_traces o) (ob_byRequest o) (ob_byUnique o).
Definition newOperationObserver (traces : bool) : operationObserver := mkoperationObserver traces ∅ ∅.

Definition observed (operation : V1ChargerOperation) : observedOperation :=
  mkobservedOperation (op_TraceID operation) (op_CMSOperationID operation) (op_HALOperationID operation)
    (op_ChargerOCPPIdentity operation) (operationAction (op_Kind operation)) "" (parameter operation "requested_message")
    (op_OCPPConnectorNumber operation) (safeOperationCall operation).

Definition register (key : Z) (operation : V1ChargerOperation) (o : operationObserver) : operationObserver :=
  if decide (ob_traces o = false ∨ op_TraceID operation = "" ∨ key = 0) then o
  else o <| ob_byRequest ::= <[key := observed operation]> |>.

Definition bind (key : Z) (uniqueID : string) (o : operationObserver) : operationObserver :=
  if decide (uniqueID = "" ∨ key = 0) then o
  else
    match ob_byRequest o !! key with
    | None => o
    | Some entry =>
      o <| ob_byRequest ::= delete key |> <| ob_byUnique ::= <[uniqueID := entry <| oo_uniqueID := uniqueID |>]> |>
    end.

Definition forget (uniqueID : string) (o : operationObserver) : operationObserver :=
  o <| ob_byUnique ::= delete uniqueID |>.
Definition forgetTrace (traceID : string) (o : operationObserver) : operationObserver :=
  o <| ob_byRequest ::= filter (λ p, oo_traceID p.2 ≠ traceID) |>
    <| ob_byUnique ::= filter (λ p, oo_traceID p.2 ≠ traceID) |>.
Definition forgetCharger (chargerID : string) (o : operationObserver) : operationObserver :=
  o <| ob_byUnique ::= filter (λ p, oo_chargerID p.2 ≠ chargerID) |>.

(** ** The evidence calls *)
Definition observer_tick : Type := Time * Time * result string.   (* time.Now, the insert's NOW(), the event id *)
Definition observer_input (entry : observedOperation) (messageType : string) (payload : data_map) (at_ : Time) :
    V1TraceEventInput :=
  mkV1TraceEventInput "HAL" "CMS" "CHARGER_OPERATION_OCPP" "OCPP1.6" "STARTING"
    ("CPO operation OCPP " +:+ messageType) at_ "" "" ""
    (AMap (operation_data (oo_uniqueID entry) (oo_action entry) messageType payload)).

(** [append] *)
Definition append_evidence (entry : observedOperation) (messageType : string) (payload : data_map)
    (tick : observer_tick) : trace_call :=
  TAppend tick.1.2 tick.2 (oo_traceID entry) (observer_input entry messageType payload tick.1.1).
(** [appendAcceptedTriggerMessage] *)
Definition append_accepted (entry : observedOperation) (payload : data_map) (tick : observer_tick) : trace_call :=
  TAccepted tick.1.2 tick.2 (oo_traceID entry) (observer_input entry "CALLRESULT" payload tick.1.1)
    (oo_requestedMessage entry).
(** The evidence of [sent] and of [received]. *)
Definition sent_evidence (entry : observedOperation) (tick : observer_tick) : trace_call :=
  append_evidence entry "CALL" (oo_sentPayload entry) tick.
Definition received_evidence (entry : observedOperation) (messageType : string) (payload : data_map)
    (tick : observer_tick) : trace_call :=
  let safePayload := safeOperationResponse (oo_action entry) messageType payload in
  if decide (oo_action entry = "TriggerMessage" ∧ messageType = "CALLRESULT" ∧
             as_string (at_key safePayload "status") = Some "Accepted" ∧
             V1TriggerMessageAction (oo_requestedMessage entry) = true)
  then append_accepted entry safePayload tick
  else append_evidence entry messageType safePayload tick.

(** ** Interleavings

    [sent] is a lookup and an append; [received] a lookup, an append and a
    deletion; the goroutine [i] may be stopped between any two of them. *)
Inductive observer_pc : Type :=
  | at_sent (entry : observedOperation)
  | at_received (uniqueID messageType : string) (payload : data_map) (entry : observedOperation)
  | at_release (uniqueID : string).

Inductive observer_event : Type :=
  | ORegister (key : Z) (operation : V1ChargerOperation)
  | OBind (key : Z) (uniqueID : string)
  | OForget (uniqueID : string)
  | OForgetTrace (traceID : string)
  | OForgetCharger (chargerID : string)
  | OSent (i : nat) (uniqueID : string)
  | OReceived (i : nat) (uniqueID messageType : string) (payload : data_map)
  | OStep (i : nat) (tick : observer_tick).

(** The calls made, with the unique id and the message type they are about. *)
Record observer_world : Type := mkobserver_world {
  ow_observer : operationObserver;
  ow_threads : gmap nat observer_pc;
  ow_calls : list (string * string * trace_call)
}.
#[global] Instance eta_observer_world : Eta observer_world := λ w,
  mkobserver_world (ow_observer w) (ow_threads w) (ow_calls w).

Definition observer_step (w : observer_world) (e : observer_event) : observer_world :=
  match e with
  | ORegister key operation => w <| ow_observer ::= register key operation |>
  | OBind key uniqueID => w <| ow_observer ::= bind key uniqueID |>
  | OForget uniqueID => w <| ow_observer ::= forget uniqueID |>
  | OForgetTrace traceID => w <| ow_observer ::= forgetTrace traceID |>
  | OForgetCharger chargerID => w <| ow_observer ::= forgetCharger chargerID |>
  | OSent i uniqueID =>
    match ow_threads w !! i, ob_byUnique (ow_observer w) !! uniqueID with
    | None, Some entry => w <| ow_threads ::= <[i := at_sent entry]> |>
    | _, _ => w
    end
  | OReceived i uniqueID messageType payload =>
    match ow_threads w !! i, ob_byUnique (ow_observer w) !! uniqueID with
    | None, Some entry => w <| ow_threads ::= <[i := at_received uniqueID messageType payload entry]> |>
    | _, _ => w
    end
  | OStep i tick =>
    match ow_threads w !! i with
    | None => w
    | Some (at_sent entry) =>
      w <| ow_threads ::= delete i |>
        <| ow_calls ::= λ l, l ++ [(oo_uniqueID entry, "CALL", sent_evidence entry tick)] |>
    | Some (at_received uniqueID messageType payload entry) =>
      w <| ow_threads ::= <[i := at_release uniqueID]> |>
        <| ow_calls ::= λ l, l ++ [(uniqueID, messageType, received_evidence entry messageType payload tick)] |>
    | Some (at_release uniqueID) =>
      w <| ow_threads ::= delete i |> <| ow_observer ::= forget uniqueID |>
    end
  end.
Definition observer_run (w : observer_world) (es : list observer_event) : observer_world := fold_left observer_step es w.
Definition new_world (traces : bool) : observer_world := mkobserver_world (newOperationObserver traces) ∅ [].
Definition observed_run (traces : bool) (es : list observer_event) : observer_world := observer_run (new_world traces) es.
Lemma observed_run_snoc traces es e : observed_run traces (es ++ [e]) = observer_step (observed_run traces es) e.
Proof. unfold observed_run, observer_run. by rewrite fold_left_app. Qed.

(** The wrappers around the library's transport and dispatcher. *)
Section wrappers.
Context `{JsonText}.
Definition on_Write (i : nat) (data : string) (err : option go_error) : list observer_event :=
  match err, parseOCPPFrame data with
  | None, Some (unique, typ, _) => if decide (typ = "CALL") then [OSent i unique] else []
  | _, _ => []
  end.
Definition on_message (i : nat) (data : string) : list observer_event :=
  match parseOCPPFrame data with
  | Some (unique, typ, payload) =>
    if decide (typ = "CALLRESULT" ∨ typ = "CALLERROR") then [OReceived i unique typ payload] else []
  | None => []
  end.
Definition on_SendRequest (key : Z) (uniqueID : string) (err : option go_error) : list observer_event :=
  OBind key uniqueID :: match err with Some _ => [OForget uniqueID] | None => [] end.
End wrappers.

(** ** Correlation *)
Definition touches (key : Z) (e : observer_event) : bool :=
  match e with
  | ORegister key' operation => bool_decide (key' = key ∧ op_TraceID operation ≠ "")
  | OBind key' uniqueID => bool_decide (key' = key ∧ uniqueID ≠ "")
  | _ => false
  end.
(** [operation] was registered at [key] and nothing happened to that address since. *)
Definition registered (es : list observer_event) (key : Z) (operation : V1ChargerOperation) : Prop :=
  ∃ before after, es = before ++ ORegister key operation :: after ∧ Forall (λ e, touches key e = false) after.
(** The library sent the request registered for [operation] as [uniqueID]. *)
Definition bound_to (es : list observer_event) (uniqueID : string) (operation : V1ChargerOperation) : Prop :=
  ∃ before key after, es = before ++ OBind key uniqueID :: after ∧ uniqueID ≠ "" ∧ registered before key operation.
Definition entry_of (operation : V1ChargerOperation) (uniqueID : string) : observedOperation :=
  (observed operation) <| oo_uniqueID := uniqueID |>.

Definition observer_thread_ok (es : list observer_event) (pc : observer_pc) : Prop :=
  match pc with
  | at_sent entry => ∃ uniqueID operation, bound_to es uniqueID operation ∧ entry = entry_of operation uniqueID
  | at_received uniqueID messageType payload entry =>
    ∃ operation i, bound_to es uniqueID operation ∧ entry = entry_of operation uniqueID ∧
      OReceived i uniqueID messageType payload ∈ es
  | at_release _ => True
  end.
Definition observer_call_ok (es : list observer_event) (x : string * string * trace_call) : Prop :=
  ∃ operation tick, bound_to es x.1.1 operation ∧
    ((x.1.2 = "CALL" ∧ x.2 = sent_evidence (entry_of operation x.1.1) tick) ∨
     ∃ i payload, OReceived i x.1.1 x.1.2 payload ∈ es ∧
       x.2 = received_evidence (entry_of operation x.1.1) x.1.2 payload tick).

Record observer_ok (es : list observer_event) (w : observer_world) : Prop := {
  ok_keys : ∀ key, is_Some (ob_byRequest (ow_observer w) !! key) → ob_traces (ow_observer w) = true ∧ key ≠ 0;
  ok_requests : ∀ key entry, ob_byRequest (ow_observer w) !! key = Some entry →
    ∃ operation, registered es key operation ∧ entry = observed operation;
  ok_unique : ∀ uniqueID entry, ob_byUnique (ow_observer w) !! uniqueID = Some entry →
    ∃ operation, bound_to es uniqueID operation ∧ entry = entry_of operation uniqueID;
  ok_threads : ∀ i pc, ow_threads w !! i = Some pc → observer_thread_ok es pc;
  ok_calls : ∀ x, x ∈ ow_calls w → observer_call_ok es x
}.

Lemma registered_snoc es key op e : touches key e = false → registered es key op → registered (es ++ [e]) key op.
Proof.
  intros He (pre & post & -> & Hq). exists pre, (post ++ [e]). split; [by rewrite <- app_assoc|].
  apply Forall_app. split; [done|]. by constructor.
Qed.
Lemma bound_snoc es u op e : bound_to es u op → bound_to (es ++ [e]) u op.
Proof. intros (pre & key & post & -> & Hr). exists pre, key, (post ++ [e]). by rewrite <- app_assoc. Qed.
Lemma elem_snoc {A} (l : list A) x y : x ∈ l → x ∈ l ++ [y].
Proof. intros. apply elem_of_app. by left. Qed.
#[local] Hint Resolve bound_snoc elem_snoc : core.
Lemma thread_ok_snoc es e pc : observer_thread_ok es pc → observer_thread_ok (es ++ [e]) pc.
Proof.
  destruct pc as [entry|u ty p entry|u]; simpl; [|intros (op & i & ? & ? & ?)|done].
  - intros (u & op & ? & ?). eauto 6.
  - exists op, i. auto.
Qed.
Lemma call_ok_snoc es e x : observer_call_ok es x → observer_call_ok (es ++ [e]) x.
Proof.
  intros (op & tick & Hb & [[? ?]|(i & p & ? & ?)]); exists op, tick; (split; [by apply bound_snoc|]).
  - by left.
  - right. exists i, p. auto.
Qed.

(** A step that leaves the calls and threads alone. *)
Lemma observer_ok_tables es e w o :
  observer_ok es w → (∀ key, is_Some (ob_byRequest o !! key) → ob_traces o = true ∧ key ≠ 0) →
  (∀ key entry, ob_byRequest o !! key = Some entry →
     ∃ operation, registered (es ++ [e]) key operation ∧ entry = observed operation) →
  (∀ u entry, ob_byUnique o !! u = Some entry →
     ∃ operation, bound_to (es ++ [e]) u operation ∧ entry = entry_of operation u) →
  observer_ok (es ++ [e]) (w <| ow_observer := o |>).
Proof.
  intros [_ Hr Hu Ht Hc] Hoff Hr' Hu'. split; [done|done|done| |].
  - intros i pc Hi. apply thread_ok_snoc. by eapply Ht.
  - intros x Hx. by apply call_ok_snoc, Hc.
Qed.
Lemma observer_ok_steps es e w ts cs :
  observer_ok es w → (∀ key, touches key e = false) →
  (∀ i pc, ts !! i = Some pc → observer_thread_ok (es ++ [e]) pc) →
  (∀ x, x ∈ cs → observer_call_ok (es ++ [e]) x) →
  observer_ok (es ++ [e]) (mkobserver_world (ow_observer w) ts cs).
Proof.
  intros [Hoff Hr Hu Ht Hc] He Ht' Hc'. split; [done| | |done|done].
  - intros key entry Hk. destruct (Hr _ _ Hk) as (op & Hop & ->). exists op. split; [|done]. by apply registered_snoc.
  - intros u entry Hk. destruct (Hu _ _ Hk) as (op & Hop & ->). exists op. split; [|done]. by apply bound_snoc.
Qed.
(** Forgetting entries. *)
Lemma observer_ok_less es w o :
  observer_ok es w → ob_traces o = ob_traces (ow_observer w) →
  ob_byRequest o ⊆ ob_byRequest (ow_observer w) → ob_byUnique o ⊆ ob_byUnique (ow_observer w) →
  observer_ok es (w <| ow_observer := o |>).
Proof.
  intros [Hk Hr Hu Ht Hc] Htr H1 H2. split; [| | |done|done]; simpl.
  - intros key [entry Hx]. rewrite Htr. apply Hk. exists entry. by eapply lookup_weaken.
  - intros key entry Hx. apply Hr. by eapply lookup_weaken.
  - intros u entry Hx. apply Hu. by eapply lookup_weaken.
Qed.

Lemma register_ok es w key op :
  observer_ok es w → observer_ok (es ++ [ORegister key op]) (w <| ow_observer ::= register key op |>).
Proof.
  intros Hok.
  assert (∀ k entry, k ≠ key ∨ op_TraceID op = "" → ob_byRequest (ow_observer w) !! k = Some entry →
    ∃ operation, registered (es ++ [ORegister key op]) k operation ∧ entry = observed operation) as Hold.
  { intros k entry Hne Hk. destruct (ok_requests _ _ Hok _ _ Hk) as (op' & Hop & ->). exists op'. split; [|done].
    apply registered_snoc; [|done]. simpl. apply bool_decide_eq_false. naive_solver. }
  assert (∀ u entry, ob_byUnique (ow_observer w) !! u = Some entry →
    ∃ operation, bound_to (es ++ [ORegister key op]) u operation ∧ entry = entry_of operation u) as Hu.
  { intros u entry Hk. destruct (ok_unique _ _ Hok _ _ Hk) as (op' & Hop & ->). eauto. }
  apply (observer_ok_tables _ _ w (register key op (ow_observer w))); [done| | |].
  all: unfold register; case_decide as D; [|simpl|..]; try done.
  - apply (ok_keys _ _ Hok).
  - apply not_or_and in D as [Ht [_ D]%not_or_and]. apply not_false_is_true in Ht.
    intros k [entry Hk]. split; [done|].
    apply lookup_insert_Some in Hk as [[<- _]|[_ Hk]]; [done|]. apply (ok_keys _ _ Hok). eauto.
  - intros k entry Hk. apply Hold; [|done]. destruct (ok_keys _ _ Hok k) as [Ht Hz]; [eauto|].
    destruct D as [D|[D|D]]; [congruence|by right|left; congruence].
  - intros k entry. simpl. intros [[<- <-]|[Hne Hk]]%lookup_insert_Some; [|apply Hold; auto].
    exists op. split; [|done]. exists es, []. split; [done|constructor].
Qed.

Lemma bind_ok es w key u :
  observer_ok es w → observer_ok (es ++ [OBind key u]) (w <| ow_observer ::= bind key u |>).
Proof.
  intros Hok.
  assert (∀ k entry, k ≠ key ∨ u = "" → ob_byRequest (ow_observer w) !! k = Some entry →
    ∃ operation, registered (es ++ [OBind key u]) k operation ∧ entry = observed operation) as Hold.
  { intros k entry Hne Hk. destruct (ok_requests _ _ Hok _ _ Hk) as (op' & Hop & ->). exists op'. split; [|done].
    apply registered_snoc; [|done]. simpl. apply bool_decide_eq_false. naive_solver. }
  assert (∀ u' entry, ob_byUnique (ow_observer w) !! u' = Some entry →
    ∃ operation, bound_to (es ++ [OBind key u]) u' operation ∧ entry = entry_of operation u') as Hu.
  { intros u' entry Hk. destruct (ok_unique _ _ Hok _ _ Hk) as (op' & Hop & ->). eauto. }
  apply (observer_ok_tables _ _ w (bind key u (ow_observer w))); [done| | |].
  all: unfold bind; case_decide as D.
  - apply (ok_keys _ _ Hok).
  - destruct (ob_byRequest (ow_observer w) !! key) as [entry|]; [|apply (ok_keys _ _ Hok)].
    intros k. simpl. intros [x [_ Hk]%lookup_delete_Some]. apply (ok_keys _ _ Hok). eauto.
  - intros k entry Hk. apply Hold; [|done]. destruct (ok_keys _ _ Hok k) as [_ Hz]; [eauto|].
    destruct D as [D|D]; [by right|left; congruence].
  - apply not_or_and in D as [Du Dk]. destruct (ob_byRequest (ow_observer w) !! key) as [entry|] eqn:E.
    + intros k x. simpl. intros [Hne Hk]%lookup_delete_Some. apply Hold; auto.
    + intros k x Hk. apply Hold; [|done]. left. congruence.
  - done.
  - destruct (ob_byRequest (ow_observer w) !! key) as [entry|] eqn:E; [|done].
    intros u' x. simpl. intros [[<- <-]|[_ Hk]]%lookup_insert_Some; [|by apply Hu].
    destruct (ok_requests _ _ Hok _ _ E) as (op & Hop & ->). exists op. split; [|done].
    exists es, key, []. apply not_or_and in D as [? _]. done.
Qed.

Lemma observed_run_ok traces es : observer_ok es (observed_run traces es).
Proof.
  induction es as [|e es IH] using rev_ind.
  { split; simpl; [intros k [x Hx]|intros k x Hx|intros k x Hx|intros k x Hx|intros x Hx];
      rewrite ?lookup_empty in *; try done. by apply elem_of_nil in Hx. }
  rewrite observed_run_snoc. set (w := observed_run traces es) in *. clearbody w.
  assert (∀ e, (∀ key, touches key e = false) → observer_ok (es ++ [e]) w) as Hsame.
  { intros e' He. destruct w as [o ts cs]. apply (observer_ok_steps es e' (mkobserver_world o ts cs)); [done|done| |].
    - intros i pc Hi. apply thread_ok_snoc. by eapply (ok_threads _ _ IH).
    - intros x Hx. by apply call_ok_snoc, (ok_calls _ _ IH). }
  destruct e as [key op|key u|u|t|c|i u|i u ty p|i tick]; cbn [observer_step].
  - by apply register_ok.
  - by apply bind_ok.
  - apply (observer_ok_less _ w (forget u (ow_observer w))); [by apply Hsame|done|done|apply delete_subseteq].
  - apply (observer_ok_less _ w (forgetTrace t (ow_observer w))); [by apply Hsame|done|apply map_filter_subseteq..].
  - apply (observer_ok_less _ w (forgetCharger c (ow_observer w))); [by apply Hsame|done|done|apply map_filter_subseteq].
  - destruct (ow_threads w !! i) eqn:Ei; [by apply Hsame|].
    destruct (ob_byUnique (ow_observer w) !! u) as [entry|] eqn:Eu; [|by apply Hsame].
    apply (observer_ok_steps es _ w); [done|done| |intros x Hx; by apply call_ok_snoc, (ok_calls _ _ IH)].
    intros k pc [[<- <-]|[_ Hk]]%lookup_insert_Some; [|by eapply thread_ok_snoc, (ok_threads _ _ IH)].
    destruct (ok_unique _ _ IH _ _ Eu) as (op & Hb & ->). simpl. eauto.
  - destruct (ow_threads w !! i) eqn:Ei; [by apply Hsame|].
    destruct (ob_byUnique (ow_observer w) !! u) as [entry|] eqn:Eu; [|by apply Hsame].
    apply (observer_ok_steps es _ w); [done|done| |intros x Hx; by apply call_ok_snoc, (ok_calls _ _ IH)].
    intros k pc [[<- <-]|[_ Hk]]%lookup_insert_Some; [|by eapply thread_ok_snoc, (ok_threads _ _ IH)].
    destruct (ok_unique _ _ IH _ _ Eu) as (op & Hb & ->). exists op, i.
    split_and!; [by apply bound_snoc|done|]. apply elem_of_app. right. by left.
  - destruct (ow_threads w !! i) as [pc|] eqn:Ei; [|by apply Hsame].
    pose proof (thread_ok_snoc es (OStep i tick) _ (ok_threads _ _ IH _ _ Ei)) as Hpc.
    assert (∀ k pc, delete i (ow_threads w) !! k = Some pc → observer_thread_ok (es ++ [OStep i tick]) pc) as Hdel.
    { intros k pc' [_ Hk]%lookup_delete_Some. by eapply thread_ok_snoc, (ok_threads _ _ IH). }
    destruct pc as [entry|u ty p entry|u].
    + apply (observer_ok_steps es _ w); [done|done|done|].
      intros x [Hx|Hx]%elem_of_app; [by apply call_ok_snoc, (ok_calls _ _ IH)|].
      apply list_elem_of_singleton in Hx as ->. destruct Hpc as (u & op & Hb & ->). exists op, tick. split; [done|by left].
    + apply (observer_ok_steps es _ w); [done|done| |].
      * intros k pc. simpl. intros [[<- <-]|[_ Hk]]%lookup_insert_Some; [done|by eapply thread_ok_snoc, (ok_threads _ _ IH)].
      * intros x [Hx|Hx]%elem_of_app; [by apply call_ok_snoc, (ok_calls _ _ IH)|].
        apply list_elem_of_singleton in Hx as ->. destruct Hpc as (op & j & Hb & -> & Hj). exists op, tick. eauto 8.
    + apply (observer_ok_less _ (mkobserver_world (ow_observer w) (delete i (ow_threads w)) (ow_calls w)) _); [|done|done|apply delete_subseteq].
      apply (observer_ok_steps es _ w); [done|done|done|]. intros x Hx. by apply call_ok_snoc, (ok_calls _ _ IH).
Qed.

(** ** Requests and their addresses

    The same events about requests instead of addresses: here the key of an
    event is the request itself, and [address] says where it was allocated. *)
Definition addressed (address : Z → Z) (e : observer_event) : observer_event :=
  match e with
  | ORegister request operation => ORegister (address request) operation
  | OBind request uniqueID => OBind (address request) uniqueID
  | _ => e
  end.
(** Between the registration of a request and the sending of another one at its
    address, it was sent itself, or the other one was registered. *)
Definition addresses_kept (address : Z → Z) (rs : list observer_event) : Prop :=
  ∀ before r operation mid r' uniqueID after,
    rs = before ++ ORegister r operation :: mid ++ OBind r' uniqueID :: after → address r = address r' → r ≠ r' →
    ∃ e, e ∈ mid ∧ (touches r e = true ∨ touches r' e = true).

Lemma touches_addressed address r e : touches r e = true → touches (address r) (addressed address e) = true.
Proof. destruct e; simpl; try done; rewrite !bool_decide_eq_true; by intros [-> ?]. Qed.
Lemma bound_requests address rs uniqueID operation :
  addresses_kept address rs → bound_to (addressed address <$> rs) uniqueID operation → bound_to rs uniqueID operation.
Proof.
  intros Hk (before & key & after & E & Hu & before' & mid & -> & Hmid).
  apply fmap_app_inv in E as (rs1 & rs2 & E1 & E2 & ->). symmetry in E1, E2.
  apply fmap_app_inv in E1 as (b & m & _ & Em & ->).
  apply fmap_cons_inv in E2 as ([|r' u| | | | | |] & after' & Ea & _ & ->); try discriminate Ea. injection Ea as -> ->.
  symmetry in Em. apply fmap_cons_inv in Em as ([r op| | | | | | |] & mid' & Er & -> & ->); try discriminate Er.
  injection Er as Er ->.
  assert (∀ q e, address q = address r' → e ∈ mid' → touches q e = false) as Hno.
  { intros q e Hq He. apply not_true_is_false. intros Ht%(touches_addressed address). rewrite Hq in Ht.
    rewrite Forall_fmap, Forall_forall in Hmid. specialize (Hmid e He). simpl in Hmid. congruence. }
  destruct (decide (r = r')) as [->|Hne].
  - exists (b ++ ORegister r' op :: mid'), r', after'. split; [done|]. split; [done|].
    exists b, mid'. split; [done|]. apply Forall_forall. intros e He. by apply Hno.
  - destruct (Hk b r op mid' r' u after') as (e & He & Ht); [by rewrite <- app_assoc|done|done|].
    destruct Ht as [Ht|Ht]; by rewrite Hno in Ht.
Qed.
Lemma received_addressed address (rs : list observer_event) i u ty p :
  OReceived i u ty p ∈ addressed address <$> rs → OReceived i u ty p ∈ rs.
Proof. by intros ([] & E & He)%list_elem_of_fmap; inversion E; subst. Qed.

(** C25: However the dispatching goroutine, the socket writer and the socket
    readers interleave, every trace call the observer makes carries the trace
    of a charger operation and its public call or the reduced form of a message
    received under the call's unique id - on any connection, since only the unique
    id is compared.  The operation is the one last registered at the address of
    the request that the library bound to this unique id; as long as a request's
    address is not reused before it was bound itself, it is the operation for which
    this request was built.  ([stale_address] below: where the address is reused
    after a failed send, an unrelated call is recorded as the operation's.)  Every
    call is one the trace histories admit. *)
Theorem observer_correlates (traces : bool) (address : Z → Z) (rs : list observer_event) (x : string * string * trace_call) :
  x ∈ ow_calls (observed_run traces (addressed address <$> rs)) →
  observer_call_ok (addressed address <$> rs) x ∧ (addresses_kept address rs → observer_call_ok rs x) ∧
  ∀ s, trace_call_ok x.2 s.
Proof.
  intros Hx. pose proof (ok_calls _ _ (observed_run_ok traces _) x Hx) as Hok. split; [done|]. split.
  - intros Hk. destruct Hok as (op & tick & Hb & Hc). exists op, tick. split; [by eapply bound_requests|].
    destruct Hc as [?|(i & p & Hr & ?)]; [by left|right]. exists i, p. split; [by eapply received_addressed|done].
  - assert ("CHARGER_OPERATION_OCPP" ∉ follow_on_categories) as Hcat by (refine (bool_decide_unpack _ _); by vm_compute).
    destruct Hok as (op & tick & _ & [[_ ->]|(i & p & _ & ->)]); intros s; [exact Hcat|].
    unfold received_evidence. case_decide; [done|exact Hcat].
Qed.

(** ** At most one answer *)
Definition pc_unique (pc : observer_pc) : option string :=
  match pc with at_sent _ => None | at_received u _ _ _ => Some u | at_release u => Some u end.
(** The reader of one socket handles its messages one after the other. *)
Definition serial (w : observer_world) (e : observer_event) : Prop :=
  match e with
  | OReceived _ u _ _ => map_Forall (λ _ pc, pc_unique pc ≠ Some u) (ow_threads w)
  | _ => True
  end.
Fixpoint serial_run (w : observer_world) (es : list observer_event) : Prop :=
  match es with [] => True | e :: es' => serial w e ∧ serial_run (observer_step w e) es' end.
#[global] Instance serial_dec w e : Decision (serial w e).
Proof. destruct e; apply _. Defined.
#[global] Instance serial_run_dec w es : Decision (serial_run w es).
Proof. revert w. induction es; intros w; simpl; apply _. Defined.
Lemma serial_run_app w es e : serial_run w (es ++ [e]) ↔ serial_run w es ∧ serial (observer_run w es) e.
Proof.
  revert w. induction es as [|e' es IH]; intros w; simpl; [tauto|]. rewrite IH. unfold observer_run. simpl. tauto.
Qed.
Definition binds (es : list observer_event) : list string :=
  omap (λ e, match e with OBind _ u => if decide (u = "") then None else Some u | _ => None end) es.
Definition answers (l : list (string * string * trace_call)) : list string :=
  (filter (λ x, x.1.2 ≠ "CALL") l).*1.*1.
Lemma answers_snoc l x : answers (l ++ [x]) = answers l ++ (if decide (x.1.2 = "CALL") then [] else [x.1.1]).
Proof.
  unfold answers. rewrite filter_app. case_decide as D.
  - by rewrite filter_cons_False, filter_nil, !app_nil_r by tauto.
  - by rewrite filter_cons_True, filter_nil, !fmap_app by tauto.
Qed.
Lemma bound_in_binds es u op : bound_to es u op → u ∈ binds es.
Proof.
  intros (pre & key & post & -> & Hu & _). unfold binds. rewrite omap_app. apply elem_of_app. right.
  simpl. rewrite decide_False by done. by left.
Qed.

Record once_ok (es : list observer_event) (w : observer_world) : Prop := {
  once_NoDup : NoDup (answers (ow_calls w));
  once_bound : ∀ u, u ∈ answers (ow_calls w) → u ∈ binds es;
  once_release : ∀ u, u ∈ answers (ow_calls w) → is_Some (ob_byUnique (ow_observer w) !! u) →
    ∃ i, ow_threads w !! i = Some (at_release u);
  once_received : ∀ i u ty p entry, ow_threads w !! i = Some (at_received u ty p entry) →
    u ∉ answers (ow_calls w) ∧ u ∈ binds es;
  once_thread : ∀ i j pc pc' u, ow_threads w !! i = Some pc → ow_threads w !! j = Some pc' →
    pc_unique pc = Some u → pc_unique pc' = Some u → i = j
}.

(** A step that may only forget bindings. *)
Lemma once_ok_less es e w o :
  once_ok es w → (∀ u, is_Some (ob_byUnique o !! u) → u ∈ answers (ow_calls w) →
    is_Some (ob_byUnique (ow_observer w) !! u)) → once_ok (es ++ [e]) (w <| ow_observer := o |>).
Proof.
  intros [H1 H2 H3 H4 H5] Ho. assert (∀ u, u ∈ binds es → u ∈ binds (es ++ [e])) as Hb.
  { intros u Hu. unfold binds. rewrite omap_app. apply elem_of_app. by left. }
  split; simpl; [done|auto|auto| |done].
  intros i u ty p entry Hi. destruct (H4 _ _ _ _ _ Hi). auto.
Qed.
Lemma once_ok_same es e w : once_ok es w → once_ok (es ++ [e]) w.
Proof. intros Hok. destruct w as [o ts cs]. by apply (once_ok_less es e (mkobserver_world o ts cs) o). Qed.

Lemma once_received_step es w i u ty p entry :
  observer_ok es w → once_ok es w → serial w (OReceived i u ty p) → ow_threads w !! i = None →
  ob_byUnique (ow_observer w) !! u = Some entry →
  once_ok (es ++ [OReceived i u ty p]) (w <| ow_threads ::= <[i := at_received u ty p entry]> |>).
Proof.
  intros Hok Ho Hs Hi Hu. pose proof (once_ok_same es (OReceived i u ty p) w Ho) as [H1 H2 H3 H4 H5].
  split; simpl; [done|done| | |].
  - intros v Hv Hb. destruct (H3 v Hv Hb) as [k Hk]. exists k. rewrite lookup_insert_ne; [done|congruence].
  - intros k v ty' p' entry' [[-> Heq]|[_ Hk]]%lookup_insert_Some; [|by eapply H4].
    injection Heq as -> _ _ _. split.
    + intros Hv. destruct (H3 v Hv) as [k' Hk']; [by eexists|]. by apply (Hs _ _ Hk').
    + destruct (ok_unique _ _ Hok _ _ Hu) as (op & Hb & _). eapply bound_in_binds, bound_snoc, Hb.
  - intros j k pc pc' v [[<- <-]|[Hj Hj']]%lookup_insert_Some [[<- <-]|[Hk Hk']]%lookup_insert_Some; simpl;
      [done| | |by apply H5].
    + intros [= <-] Hv. by destruct (Hs _ _ Hk').
    + intros Hv [= <-]. by destruct (Hs _ _ Hj').
Qed.

Lemma once_step es w i tick : observer_ok es w → once_ok es w → once_ok (es ++ [OStep i tick]) (observer_step w (OStep i tick)).
Proof.
  intros Hok Ho. pose proof (once_ok_same es (OStep i tick) w Ho) as Ho'. cbn [observer_step].
  destruct (ow_threads w !! i) as [pc|] eqn:Hi; [|done].
  destruct Ho' as [H1 H2 H3 H4 H5]. destruct pc as [entry|u ty p entry|u]; split; simpl.
  - rewrite answers_snoc. simpl. by rewrite app_nil_r.
  - intros v. rewrite answers_snoc. simpl. rewrite app_nil_r. apply H2.
  - intros v. rewrite answers_snoc. simpl. rewrite app_nil_r. intros Hv Hb. destruct (H3 v Hv Hb) as [k Hk].
    exists k. rewrite lookup_delete_ne; [done|congruence].
  - intros k v ty p e'. rewrite answers_snoc. simpl. rewrite app_nil_r. intros [_ Hk]%lookup_delete_Some. by eapply H4.
  - intros j k pc pc' v [_ Hj]%lookup_delete_Some [_ Hk]%lookup_delete_Some. by apply H5.
  - destruct (H4 _ _ _ _ _ Hi) as [Hn _]. rewrite answers_snoc. simpl. case_decide; [by rewrite app_nil_r|].
    apply NoDup_app. split_and!; [done| |apply NoDup_singleton]. intros v Hv ->%list_elem_of_singleton. done.
  - destruct (H4 _ _ _ _ _ Hi) as [_ Hb]. intros v. rewrite answers_snoc. simpl. case_decide; [rewrite app_nil_r; apply H2|].
    intros [Hv| ->%list_elem_of_singleton]%elem_of_app; [by apply H2|done].
  - intros v. rewrite answers_snoc. simpl. intros Hv Hb. destruct (decide (v = u)) as [->|Hne].
    { exists i. by rewrite lookup_insert_eq. }
    assert (v ∈ answers (ow_calls w)) as Hv'.
    { case_decide; [by rewrite app_nil_r in Hv|]. apply elem_of_app in Hv as [Hv|Hv%list_elem_of_singleton]; done. }
    destruct (H3 v Hv' Hb) as [k Hk]. exists k. rewrite lookup_insert_ne; [done|congruence].
  - intros k v ty' p' e' [[_ Heq]|[Hne Hk]]%lookup_insert_Some; [done|]. destruct (H4 _ _ _ _ _ Hk) as [Hn Hb].
    split; [|done]. rewrite answers_snoc. simpl. case_decide; [by rewrite app_nil_r|].
    intros [Hv| ->%list_elem_of_singleton]%elem_of_app; [done|]. by destruct Hne; eapply H5.
  - intros j k pc pc' v [[<- <-]|[Hj Hj']]%lookup_insert_Some [[<- <-]|[Hk Hk']]%lookup_insert_Some; simpl;
      [done| | |by apply H5].
    + intros [= <-] Hv. by eapply H5.
    + intros Hv [= <-]. by eapply H5.
  - done.
  - done.
  - intros v Hv [x [Hne Hb]%lookup_delete_Some]. destruct (H3 v Hv (mk_is_Some _ _ Hb)) as [k Hk].
    exists k. rewrite lookup_delete_ne; [done|congruence].
  - intros k v ty p e' [_ Hk]%lookup_delete_Some. by eapply H4.
  - intros j k pc pc' v [_ Hj]%lookup_delete_Some [_ Hk]%lookup_delete_Some. by apply H5.
Qed.

Lemma observed_once_ok traces es :
  NoDup (binds es) → serial_run (new_world traces) es → once_ok es (observed_run traces es).
Proof.
  induction es as [|e es IH] using rev_ind.
  { intros _ _. split; simpl; [constructor|intros u Hu; by apply elem_of_nil in Hu|intros u Hu; by apply elem_of_nil in Hu| |];
      intros *; by rewrite lookup_empty. }
  intros Hnd [Hs He]%serial_run_app. rewrite observed_run_snoc.
  assert (NoDup (binds es)) as Hnd'.
  { unfold binds in *. rewrite omap_app in Hnd. by apply NoDup_app in Hnd as (? & _). }
  specialize (IH Hnd' Hs). pose proof (observed_run_ok traces es) as Hok.
  change (serial (observed_run traces es) e) in He. set (w := observed_run traces es) in *. clearbody w.
  destruct e as [key op|key u|u|t|c|i u|i u ty p|i tick].
  - apply (once_ok_less _ _ w (register key op (ow_observer w))); [done|].
    intros v. unfold register. by case_decide.
  - apply (once_ok_less _ _ w (bind key u (ow_observer w))); [done|].
    intros v. unfold bind. case_decide as D; [done|]. apply not_or_and in D as [Du _].
    destruct (ob_byRequest (ow_observer w) !! key) as [x|]; [|done]. simpl. intros Hv Hin.
    destruct (decide (u = v)) as [<-|]; [|by rewrite lookup_insert_ne in Hv].
    exfalso. apply (once_bound _ _ IH) in Hin. unfold binds in Hnd. rewrite omap_app in Hnd.
    apply NoDup_app in Hnd as (_ & Hd & _). apply (Hd u Hin). simpl. rewrite decide_False by done. by left.
  - apply (once_ok_less _ _ w (forget u (ow_observer w))); [done|]. intros v [x Hx] _. exists x. eapply lookup_weaken; [exact Hx|apply delete_subseteq].
  - apply (once_ok_less _ _ w (forgetTrace t (ow_observer w))); [done|]. intros v [x Hx] _. exists x. eapply lookup_weaken; [exact Hx|apply map_filter_subseteq].
  - apply (once_ok_less _ _ w (forgetCharger c (ow_observer w))); [done|]. intros v [x Hx] _. exists x. eapply lookup_weaken; [exact Hx|apply map_filter_subseteq].
  - cbn [observer_step]. destruct (ow_threads w !! i) eqn:Ei; [by apply once_ok_same|].
    destruct (ob_byUnique (ow_observer w) !! u) as [entry|]; [|by apply once_ok_same].
    destruct (once_ok_same es (OSent i u) w IH) as [H1 H2 H3 H4 H5]. split; simpl; [done|done| | |].
    + intros v Hv Hb. destruct (H3 v Hv Hb) as [k Hk]. exists k. rewrite lookup_insert_ne; [done|congruence].
    + intros k v ty p e' [[_ Heq]|[_ Hk]]%lookup_insert_Some; [done|by eapply H4].
    + intros j k pc pc' v [[<- <-]|[Hj Hj']]%lookup_insert_Some [[<- <-]|[Hk Hk']]%lookup_insert_Some; try done. by apply H5.
  - cbn [observer_step]. destruct (ow_threads w !! i) eqn:Ei; [by apply once_ok_same|].
    destruct (ob_byUnique (ow_observer w) !! u) as [entry|] eqn:Eu; [|by apply once_ok_same].
    by apply once_received_step.
  - by apply once_step.
Qed.

(** C26: The answer of an operation is recorded at most once.  If the library
    never reuses a unique id and no two readers handle messages with the same
    unique id at the same time, then over any interleaving every unique id has
    at most one answer event, however often an answer is repeated. *)
Theorem answers_recorded_once (traces : bool) (es : list observer_event) :
  NoDup (binds es) → serial_run (new_world traces) es → NoDup (answers (ow_calls (observed_run traces es))).
Proof. intros Hb Hs. by apply once_NoDup with es, observed_once_ok. Qed.

(** ** Dispatching an operation *)
Inductive ocpp_request : Type :=
  | ResetRequest (type_ : string)
  | UnlockConnectorRequest (connectorId : Z)
  | ChangeAvailabilityRequest (connectorId : Z) (type_ : string)
  | ClearCacheRequest
  | ChangeConfigurationRequest (key value : string)
  | TriggerMessageRequest (requestedMessage : string) (connectorId : option Z)
  | GetConfigurationRequest (keys : list string).

(** The switch of [DispatchChargerOperation]; the types are the constants of
    the OCPP library (core.ResetTypeSoft, ...). *)
Definition operation_request (operation : V1ChargerOperation) : option ocpp_request :=
  let connector := op_OCPPConnectorNumber operation in
  let kind := op_Kind operation in
  if decide (kind = "RESET") then
    Some (ResetRequest (if decide (parameter operation "type" = "SOFT") then "Soft" else "Hard"))
  else if decide (kind = "UNLOCK_CONNECTOR") then Some (UnlockConnectorRequest connector)
  else if decide (kind = "CHANGE_AVAILABILITY") then
    Some (ChangeAvailabilityRequest connector
            (if decide (parameter operation "type" = "INOPERATIVE") then "Inoperative" else "Operative"))
  else if decide (kind = "CLEAR_CACHE") then Some ClearCacheRequest
  else if decide (kind = "CHANGE_CONFIGURATION") then
    Some (ChangeConfigurationRequest (parameter operation "key") (parameter operation "value"))
  else if decide (kind = "TRIGGER_MESSAGE") then
    Some (TriggerMessageRequest (parameter operation "requested_message")
            (if decide (0 < connector) then Some connector else None))
  else if decide (kind = "GET_CONFIGURATION") then
    Some (GetConfigurationRequest (default [] (op_ConfigurationKeys operation)))
  else None.

(** How SendRequestAsync and the select end: [view] is the JSON object of the
    response, [configuration] the response itself when it is one of
    GetConfiguration. *)
Inductive operation_outcome (Conf : Type) : Type :=
  | SendFailed (err : go_error)
  | CallbackFailed (err : go_error)
  | NilResponse
  | Answered (view : data_map) (configuration : option Conf)
  | ContextDone (err : go_error).
Arguments SendFailed {_} _.
Arguments CallbackFailed {_} _.
Arguments NilResponse {_}.
Arguments Answered {_} _ _.
Arguments ContextDone {_} _.

(** [HAL.DispatchChargerOperation]: [key] is the address of the request,
    [during] what the library and the other goroutines do to the observer
    until the select ends. *)
Definition DispatchChargerOperation {Conf} (key : Z) (during : list observer_event) (outcome : operation_outcome Conf)
    (wireIdentity : string → string) (operation : V1ChargerOperation) (w : observer_world) :
    observer_world * list (string * ocpp_request) * result (string * option Conf) :=
  match operation_request operation with
  | None => (w, [], inr (ErrOther "unsupported charger operation"))
  | Some request =>
    let w := observer_run (observer_step w (ORegister key operation)) during in
    let sent := [(wireIdentity (op_ChargerOCPPIdentity operation), request)] in
    match outcome with
    | SendFailed err | CallbackFailed err => (w, sent, inr err)
    | NilResponse => (w, sent, inr (ErrOther "nil charger operation confirmation"))
    | Answered view configuration => (w, sent, inl (default "" (as_string (at_key view "status")), configuration))
    | ContextDone err => (observer_step w (OForgetTrace (op_TraceID operation)), sent, inr err)
    end
  end.

(** What a request says in public: a configuration value is left out. *)
Definition request_evidence (r : ocpp_request) : data_map :=
  match r with
  | ResetRequest t => obj [("type", AString t)]
  | UnlockConnectorRequest c => obj [("connectorId", AInt c)]
  | ChangeAvailabilityRequest c t => obj [("connectorId", AInt c); ("type", AString t)]
  | ClearCacheRequest => ∅
  | ChangeConfigurationRequest key _ => obj [("key", AString key); ("redacted", ABool true)]
  | TriggerMessageRequest m None => obj [("requestedMessage", AString m)]
  | TriggerMessageRequest m (Some c) => obj [("connectorId", AInt c); ("requestedMessage", AString m)]
  | GetConfigurationRequest keys => obj [("configuration_keys", AList (AString <$> keys))]
  end.

Lemma request_of_valid o :
  valid_operation o → ∃ r, operation_request o = Some r ∧ request_evidence r = safeOperationCall o.
Proof.
  intros Hv. pose proof (valid_operation_kind o Hv) as Hk. unfold valid_operation, valid_kind, value_of in Hv.
  unfold operation_request, safeOperationCall, parameter in *. unfold kinds in Hk.
  repeat (apply elem_of_cons in Hk as [Hk|Hk]; [rewrite Hk in *|]); [..|by apply elem_of_nil in Hk].
  all: decide_text; cbv zeta; eexists; (split; [reflexivity|]); cbn [request_evidence]; try done.
  - apply andb_true_iff in Hv as [_ Ht]. apply bool_decide_eq_true in Ht.
    repeat (apply elem_of_cons in Ht as [->|Ht]; [done|]). by apply elem_of_nil in Ht.
  - apply bool_decide_eq_true in Hv.
    repeat (apply elem_of_cons in Hv as [->|Hv]; [done|]). by apply elem_of_nil in Hv.
  - by destruct (decide (0 < op_OCPPConnectorNumber o)).
Qed.

Lemma forgetTrace_forgets t o :
  (∀ k x, ob_byRequest (forgetTrace t o) !! k = Some x → oo_traceID x ≠ t) ∧
  (∀ u x, ob_byUnique (forgetTrace t o) !! u = Some x → oo_traceID x ≠ t).
Proof. split; intros k x [_ Hx]%map_lookup_filter_Some; exact Hx. Qed.

(** C27: Dispatching an operation the API accepted hands exactly one OCPP
    request to the charger, and what that request says in public is what the
    evidence of the CALL will say.  The result is the charger's status; a call
    that outlives its context answers the context's error and leaves no trace
    of the operation in the observer's tables, so that a late answer is not
    recorded. *)
Theorem DispatchChargerOperation_spec {Conf} (key : Z) (during : list observer_event) (outcome : operation_outcome Conf)
    (wireIdentity : string → string) (o : V1ChargerOperation) (w : observer_world) :
  valid_operation o →
  let '(w', sent, r) := DispatchChargerOperation key during outcome wireIdentity o w in
  (∃ request, sent = [(wireIdentity (op_ChargerOCPPIdentity o), request)] ∧
     request_evidence request = safeOperationCall o) ∧
  match outcome with
  | Answered view configuration => r = inl (default "" (as_string (at_key view "status")), configuration)
  | SendFailed err | CallbackFailed err => r = inr err
  | NilResponse => ∃ err, r = inr err
  | ContextDone err => r = inr err ∧
      (∀ k x, ob_byRequest (ow_observer w') !! k = Some x → oo_traceID x ≠ op_TraceID o) ∧
      (∀ u x, ob_byUnique (ow_observer w') !! u = Some x → oo_traceID x ≠ op_TraceID o)
  end.
Proof.
  intros (request & Hr & He)%request_of_valid. unfold DispatchChargerOperation. rewrite Hr. cbv zeta.
  destruct outcome; (split; [by exists request|]); try done; [by eexists|].
  split; [done|]. apply forgetTrace_forgets.
Qed.

(** ** Runs *)
Module ObserverRuns.
Definition op (id kind : string) (ps : gmap string string) (keys : option (list string)) : V1ChargerOperation :=
  mkV1ChargerOperation id ("cms-" +:+ id) ("trace-" +:+ id) "digest" "cpo" "ch1" "" "CP-1" 0 kind ps keys
    "corr" "DELIVERY_ATTEMPTED" 1 "" "" 0 0 None.
Definition reset : V1ChargerOperation := op "o1" "RESET" {["type" := "SOFT"]} None.
Definition trigger : V1ChargerOperation := op "o2" "TRIGGER_MESSAGE" {["requested_message" := "Heartbeat"]} None.
Definition accepted : data_map := obj [("status", AString "Accepted")].
Definition tick (n : Z) : observer_tick := (n, n, inl "e").
(** Two operations in flight, their answers repeated. *)
Definition traffic : list observer_event :=
  [ORegister 10 reset; ORegister 20 trigger; OBind 20 "u2"; OBind 10 "u1"; OSent 1 "u2"; OSent 2 "u1";
   OStep 2 (tick 1); OReceived 3 "u2" "CALLRESULT" accepted; OStep 1 (tick 2); OStep 3 (tick 3); OStep 3 (tick 4);
   OReceived 3 "u2" "CALLRESULT" accepted; OReceived 4 "u1" "CALLERROR" (obj [("error_code", AString "Busy")]);
   OReceived 5 "unknown" "CALLRESULT" accepted; OStep 4 (tick 5); OStep 5 (tick 6)].
Abbreviation calls es := ((ow_calls (observed_run true es)).*1).
Example recorded : calls traffic = [("u1", "CALL"); ("u2", "CALL"); ("u2", "CALLRESULT"); ("u1", "CALLERROR")].
Proof. vm_compute. reflexivity. Qed.
Lemma some_call : ∃ x, x ∈ ow_calls (observed_run true (addressed (Z.mul 8) <$> traffic)).
Proof.
  assert ((ow_calls (observed_run true (addressed (Z.mul 8) <$> traffic))).*1 =
    [("u1", "CALL"); ("u2", "CALL"); ("u2", "CALLRESULT"); ("u1", "CALLERROR")]) as Hr by (vm_compute; reflexivity).
  destruct (ow_calls (observed_run true (addressed (Z.mul 8) <$> traffic))) as [|x l]; [discriminate Hr|]. exists x. apply list_elem_of_here.
Qed.
Lemma traffic_binds : NoDup (binds traffic).
Proof. refine (bool_decide_unpack _ _). by vm_compute. Qed.
Lemma traffic_serial : serial_run (new_world true) traffic.
Proof. refine (bool_decide_unpack _ _). by vm_compute. Qed.

(** Two readers that look the entry up before either deletes it: a second
    connection may answer with the unique id of another charger's call, since
    [received] does not look at the connection. *)
Definition doubled : list observer_event :=
  [ORegister 10 reset; OBind 10 "u1"; OReceived 3 "u1" "CALLRESULT" accepted; OReceived 4 "u1" "CALLRESULT" accepted;
   OStep 3 (tick 1); OStep 4 (tick 2)].
(** Request 1 is built for the operation, but its send fails before the library
    binds it, which leaves its address registered; request 2, which is no
    operation's, is allocated there and taken for it. *)
Definition stale : list observer_event :=
  [ORegister 1 reset; OBind 2 "other-request"; OSent 1 "other-request"; OStep 1 (tick 1)].
Definition same_place (request : Z) : Z := 10.
(** The answer overtakes the writer: the CALL is never recorded. *)
Definition overtaken : list observer_event :=
  [ORegister 10 reset; OBind 10 "u1"; OReceived 3 "u1" "CALLRESULT" accepted; OStep 3 (tick 1); OStep 3 (tick 2); OSent 1 "u1"].
End ObserverRuns.

Theorem concurrent_answers_recorded_twice : answers (ow_calls (observed_run true ObserverRuns.doubled)) = ["u1"; "u1"].
Proof. vm_compute. reflexivity. Qed.
Example call_lost : ObserverRuns.calls ObserverRuns.overtaken = [("u1", "CALLRESULT")].
Proof. vm_compute. reflexivity. Qed.
Example stale_address :
  ObserverRuns.calls (addressed ObserverRuns.same_place <$> ObserverRuns.stale) = [("other-request", "CALL")] ∧
  ¬ addresses_kept ObserverRuns.same_place ObserverRuns.stale.
Proof.
  split; [vm_compute; reflexivity|]. intros Hk.
  destruct (Hk [] 1 ObserverRuns.reset [] 2 "other-request" [OSent 1 "other-request"; OStep 1 (ObserverRuns.tick 1)]) as (e & He & _);
    [reflexivity|reflexivity|discriminate|]. by apply elem_of_nil in He.
Qed.
(** The disconnect handler passes the wire identity, the entries hold the
    canonical one: an enrolled charger's entry stays. *)
Example wire_identity_not_forgotten :
  is_Some (ob_byUnique (ow_observer (observed_run true
    [ORegister 10 ObserverRuns.reset; OBind 10 "u1"; OForgetCharger "SERIAL-1"])) !! "u1").
Proof. eexists. vm_compute. reflexivity. Qed.

Lemma observer_correlates_witness :
  ∃ x, x ∈ ow_calls (observed_run true (addressed (Z.mul 8) <$> ObserverRuns.traffic)) ∧ observer_call_ok ObserverRuns.traffic x.
Proof.
  destruct ObserverRuns.some_call as [x Hx]. exists x. split; [exact Hx|].
  refine (proj1 (proj2 (observer_correlates true (Z.mul 8) ObserverRuns.traffic x Hx)) _).
  intros before r operation mid r' uniqueID after _ He Hne. lia.
Defined.

Lemma answers_recorded_once_witness : NoDup (answers (ow_calls (observed_run true ObserverRuns.traffic))).
Proof. exact (answers_recorded_once true _ ObserverRuns.traffic_binds ObserverRuns.traffic_serial). Defined.

Lemma DispatchChargerOperation_spec_witness :
  (DispatchChargerOperation (Conf := unit) 10 [OBind 10 "u1"] (Answered ObserverRuns.accepted None) id
     ObserverRuns.reset (new_world true)).2 = inl ("Accepted", None).
Proof.
  pose proof (DispatchChargerOperation_spec (Conf := unit) 10 [OBind 10 "u1"] (Answered ObserverRuns.accepted None) id
    ObserverRuns.reset (new_world true) eq_refl) as H.
  destruct (DispatchChargerOperation _ _ _ _ _ _) as [[w' sent] r]. destruct H as [_ ->].
  vm_compute. reflexivity.
Defined.
