(* ===== verification/HalTraces.v ===== *)
(** * The diagnostic traces the HAL writes

    recordV1Trace, recordV1ConnectorTrace, connectorStatusTracePhase,
    traceMeterData and traceErrorClass of internal/ocpp16hal (v1.go, hal.go)
    over the tables of [PgTraces].  The trace tables are disjoint from those of
    [PgSchema] and no handler reads them back, so a handler's model lists its
    trace calls in order among its effects; [record_effects] performs them. *)
From Stdlib Require Import String.
From stdpp Require Import base numbers decidable option list strings gmap.
From S2P Require Import Prelude V1Types V1Memory PgSchema TraceData MemTraces Outbox PgTraces.
Open Scope Z_scope.

(** What a handler does outside the store tables, in order. *)
Inductive hal_effect : Type :=
  | SentStop (halTransactionID : string)                            (* a RemoteStop handed to the OCPP stack *)
  | Traced (halTransactionID : string) (input : V1TraceEventInput). (* recordV1Trace *)

Definition sent_of (l : list hal_effect) : list string :=
  omap (λ e, match e with SentStop id => Some id | Traced _ _ => None end) l.
Lemma sent_of_app l l' : sent_of (l ++ l') = sent_of l ++ sent_of l'.
Proof. apply omap_app. Qed.

(** The trace events of the charging lifecycle. *)
Definition hal_event (source target category protocol phase summary : string) (at_ : Time)
    (data : list (string * any)) : V1TraceEventInput :=
  mkV1TraceEventInput source target category protocol phase summary at_ "" "" "" (AMap (obj data)).
Definition stop_call_event (at_ : Time) (t : V1Transaction) : V1TraceEventInput :=
  hal_event "HAL" "CHARGER" "OCPP_CALL" "OCPP1.6" "STOPPING" "RemoteStopTransaction" at_
    [("action", AString "RemoteStopTransaction"); ("transaction_id", AInt64 (tx_OCPPTransactionID t))].
Definition stop_answer_event (at_ : Time) (status : string) (t : V1Transaction) : V1TraceEventInput :=
  hal_event "CHARGER" "HAL" "OCPP_CALL" "OCPP1.6" "STOPPING" ("RemoteStopTransaction confirmation: " +:+ status) at_
    [("action", AString "RemoteStopTransaction"); ("result", AString status);
     ("transaction_id", AInt64 (tx_OCPPTransactionID t))].
Definition automatic_stop_event (at_ : Time) (reason : string) : V1TraceEventInput :=
  hal_event "HAL" "HAL" "LIFECYCLE" "POSTGRES" "STOPPING" "Automatic stop condition reached" at_
    [("reason", AString reason)].
Definition traceMeterData (telemetry : V1MeterTelemetry) : list (string * any) :=
  match tel_EnergyWh telemetry with Some w => [("meter_wh", AInt64 w)] | None => [] end.
Definition meter_event (at_ : Time) (telemetry : V1MeterTelemetry) : V1TraceEventInput :=
  hal_event "CHARGER" "HAL" "METER" "OCPP1.6" "CHARGING" "Accepted transaction meter observation" at_
    (traceMeterData telemetry).
Definition traceErrorClass (err : option go_error) : string :=
  match err with None => "" | Some _ => "persistence_error" end.
Definition stop_received_event (at_ : Time) (transactionID meterStop : Z) (reason : string) : V1TraceEventInput :=
  hal_event "CHARGER" "HAL" "OCPP_CALL" "OCPP1.6" "STOPPING" "StopTransaction received" at_
    [("action", AString "StopTransaction"); ("transaction_id", AInt transactionID); ("meter_wh", AInt meterStop);
     ("reason", AString reason)].
Definition stop_failed_event (at_ : Time) (err : go_error) : V1TraceEventInput :=
  hal_event "HAL" "HAL" "PERSISTENCE" "POSTGRES" "STOPPING" "StopTransaction persistence failed" at_
    [("error_class", AString (traceErrorClass (Some err)))].
Definition completed_event (at_ : Time) (t : V1Transaction) (meterStopWh : Z) : V1TraceEventInput :=
  mkV1TraceEventInput "HAL" "HAL" "LIFECYCLE" "POSTGRES" "POST_STOP" "Transaction completion persisted" at_
    "ACTIVE" "COMPLETED" "" (AMap (obj [("transaction_id", AInt64 (tx_OCPPTransactionID t));
      ("meter_wh", AInt64 meterStopWh); ("reason", AString (tx_OCPPStopReason t))])).

Section traces.
Context `{FactCodec, JsonView}.

(** One [AppendV1TraceEvent]: the instant of its insert and its event id. *)
Definition trace_tick : Type := Time * result string.

(** [HAL.recordV1Trace]: no trace, or a failed append, changes nothing. *)
Definition recordV1Trace (tick : trace_tick) (halTransactionID : string) (input : V1TraceEventInput)
    (s : trace_db) : trace_db :=
  match FindV1TraceByTransaction s halTransactionID with
  | inl trace => (run_tx (AppendV1TraceEvent tick.1 tick.2 (tr_TraceID trace) input) s).1
  | inr _ => s
  end.

(** [HAL.recordV1ConnectorTrace] *)
Definition recordV1ConnectorTrace (tick : trace_tick) (txs : gmap string V1Transaction) (now : Time)
    (chargerOCPPIdentity : string) (connectorNumber : Z) (input : V1TraceEventInput) (s : trace_db) : trace_db :=
  match FindV1TraceForConnector txs now s chargerOCPPIdentity connectorNumber with
  | inl trace => (run_tx (AppendV1TraceEvent tick.1 tick.2 (tr_TraceID trace) input) s).1
  | inr _ => s
  end.

(** [HAL.connectorStatusTracePhase] over the transactions of the store. *)
Definition connectorStatusTracePhase (get : string → result V1Transaction) (trace : V1Trace) : result string :=
  if decide (tr_HALTransactionID trace = "") then inl "STARTING"
  else
    match get (tr_HALTransactionID trace) with
    | inr err => inr err
    | inl t => inl (match tx_CompletedAt t with Some _ => "POST_STOP" | None => "CHARGING" end)
    end.

(** The trace calls of a handler, in order. *)
Fixpoint record_effects (ticks : nat → trace_tick) (l : list hal_effect) (s : trace_db) : trace_db :=
  match l with
  | [] => s
  | SentStop _ :: rest => record_effects ticks rest s
  | Traced id input :: rest => record_effects ticks rest (recordV1Trace (ticks (length rest)) id input s)
  end.
End traces.
