(* ===== verification/PgMapping.v ===== *)
(** * Charger mappings and runtime projections in PostgreSQL

    v1_postgres.go: SyncV1Mapping and the validations built on it, boot
    evidence, and the durable connection and connector state with the facts it
    appends.  A method that opens a database transaction is one [run_tx] step. *)
From Stdlib Require Import String.
From stdpp Require Import base numbers decidable option list sorting strings gmap.
From S2P Require Import Prelude V1Types V1Memory PgSchema.
Open Scope Z_scope.

Abbreviation generator := (nat → result string).

(** ** Mapping enrolment *)
Definition mapping_of (identity : string) (s : pg) : option (string * V1ChargerMapping) :=
  find_row (λ m, cm_ChargerOCPPIdentity m = identity) (pg_mappings s).

Definition insert_mapping (m : V1ChargerMapping) : txm pg () := λ s,
  if decide (is_Some (pg_mappings s !! cm_CMSChargerID m) ∨
             is_Some (mapping_of (cm_ChargerOCPPIdentity m) s))
  then inr unique_violation
  else inl ((), s <| pg_mappings ::= <[cm_CMSChargerID m := m]> |>).

Definition insert_connector (c : V1ConnectorMapping) : txm pg () := λ s,
  if decide (com_OCPPConnectorNumber c < 0) then inr check_violation
  else if decide (is_Some (pg_connectors s !! com_CMSConnectorID c) ∨
             is_Some (find_row (λ r, com_ChargerOCPPIdentity r = com_ChargerOCPPIdentity c ∧
               com_OCPPConnectorNumber r = com_OCPPConnectorNumber c) (pg_connectors s)))
  then inr unique_violation
  else inl ((), s <| pg_connectors ::= <[com_CMSConnectorID c := c]> |>).

(** A unique violation of [c] is reported as [err]. *)
Definition on_duplicate {A} (err : go_error) (c : txm pg A) : txm pg A := λ s,
  match c s with
  | inr e => inr (if isDuplicate e then err else e)
  | r => r
  end.

Fixpoint sync_connectors (input : V1MappingInput) (connectors : list V1ConnectorMappingInput) :
    txm pg () :=
  match connectors with
  | [] => mret ()
  | connector :: rest =>
    s ← tx_get;
    match pg_connectors s !! cmi_CMSConnectorID connector with
    | Some old =>
      if decide (com_CMSChargerID old ≠ mi_CMSChargerID input ∨ com_CPOID old ≠ mi_CPOID input ∨
                 com_OCPPConnectorNumber old ≠ cmi_OCPPConnectorNumber connector)
      then tx_fail ErrV1MappingConflict
      else sync_connectors input rest
    | None =>
      on_duplicate ErrV1MappingConflict (insert_connector
        (mkV1ConnectorMapping (mi_CPOID input) (mi_CMSChargerID input) (cmi_CMSConnectorID connector)
           (mi_ChargerOCPPIdentity input) (cmi_OCPPConnectorNumber connector)));;
      sync_connectors input rest
    end
  end.

(** INSERT ... 'UNKNOWN' ... ON CONFLICT (charger_ocpp_identity) DO NOTHING *)
Definition seed_runtime (now : Time) (identity : string) (s : pg) : pg :=
  match pg_runtime s !! identity with
  | Some _ => s
  | None => s <| pg_runtime ::= <[identity :=
              mkcharger_runtime_row "UNKNOWN" 0 0 None None (timestamptz now)]> |>
  end.

(** The write of SyncV1Mapping; true when the charger was already enrolled. *)
Definition SyncV1Mapping (now : Time) (gen : generator) (input : V1MappingInput) : txm pg bool :=
  s ← tx_get;
  let existing := pg_mappings s !! mi_CMSChargerID input in
  if decide (some_and existing (λ m, cm_ChargerOCPPIdentity m ≠ mi_ChargerOCPPIdentity input ∨
                                     cm_CPOID m ≠ mi_CPOID input))
  then tx_fail ErrV1MappingConflict
  else
    match existing with
    | Some _ => mret ()
    | None =>
      on_duplicate ErrV1MappingConflict (insert_mapping
        (mkV1ChargerMapping (mi_CPOID input) (mi_CMSChargerID input) (mi_ChargerOCPPIdentity input)
           (mi_ExpectedSerial input) (mi_Enabled input) []))
    end;;
    sync_connectors input (mi_Connectors input);;
    match existing with
    | Some _ =>
      tx_modify (λ s, s <| pg_mappings ::= alter (λ m, m <| cm_Enabled := mi_Enabled input |>
        <| cm_ExpectedSerial := mi_ExpectedSerial input |>) (mi_CMSChargerID input) |>)
    | None => mret ()
    end;;
    tx_modify (seed_runtime now (mi_ChargerOCPPIdentity input));;
    if decide (existing = None ∨ some_and existing (λ m, cm_Enabled m ≠ mi_Enabled input)) then
      auditID ← tx_lift (NewSecureUUIDString (gen 0%nat));
      let action := match existing with None => "ENROLLED" | Some _ => "ENABLEMENT_CHANGED" end in
      tx_modify (λ s, s <| pg_mappingAudit ::= λ l, l ++
        [mkmapping_audit_row auditID (mi_CPOID input) (mi_CMSChargerID input) (mi_CorrelationID input)
           (mi_RequestDigest input) action] |>);;
      mret (bool_decide (is_Some existing))
    else mret (bool_decide (is_Some existing)).

Definition number_before (c1 c2 : V1ConnectorMapping) : Prop :=
  com_OCPPConnectorNumber c1 ≤ com_OCPPConnectorNumber c2.
#[global] Instance number_before_dec : RelDecision number_before.
Proof. intros a b. unfold number_before. apply _. Defined.

Definition loadV1Mapping (s : pg) (cmsChargerID : string) : result V1ChargerMapping :=
  match pg_mappings s !! cmsChargerID with
  | None => inr ErrV1MappingNotFound
  | Some m =>
    inl (m <| cm_Connectors := merge_sort number_before
      (filter (λ c, com_CMSChargerID c = cmsChargerID) (map_to_list (pg_connectors s)).*2) |>)
  end.

Definition ValidateV1Mapping (s : pg) (cpoID cmsChargerID cmsConnectorID identity : string)
    (connector : Z) : option go_error :=
  match pg_mappings s !! cmsChargerID, pg_connectors s !! cmsConnectorID with
  | Some m, Some c =>
    if decide (com_CMSChargerID c = cmsChargerID ∧ cm_CPOID m = cpoID ∧
               cm_ChargerOCPPIdentity m = identity ∧ com_ChargerOCPPIdentity c = identity ∧
               com_OCPPConnectorNumber c = connector)
    then if cm_Enabled m then None else Some ErrV1CredentialRejected
    else Some ErrV1MappingNotFound
  | _, _ => Some ErrV1MappingNotFound
  end.

(** [ValidateV1ChargerOperationMapping] (v1_operations_postgres.go): connector
    zero addresses the whole charge point. *)
Definition ValidateV1ChargerOperationMapping (s : pg)
    (cpoID cmsChargerID cmsConnectorID identity : string) (connector : Z) : option go_error :=
  if decide (connector = 0) then
    match pg_mappings s !! cmsChargerID with
    | Some m =>
      if decide (cm_CPOID m = cpoID ∧ cm_ChargerOCPPIdentity m = identity) then
        if cm_Enabled m then None else Some ErrV1CredentialRejected
      else Some ErrV1MappingNotFound
    | None => Some ErrV1MappingNotFound
    end
  else ValidateV1Mapping s cpoID cmsChargerID cmsConnectorID identity connector.

Definition ValidateV1ChargerAdmission (s : pg) (identity presentedSerial : string) : option go_error :=
  match mapping_of identity s with
  | None => Some ErrV1MappingNotFound
  | Some (_, m) =>
    if negb (cm_Enabled m) then Some ErrV1CredentialRejected
    else if decide (cm_ExpectedSerial m ≠ "" ∧ presentedSerial ≠ "" ∧
                    cm_ExpectedSerial m ≠ presentedSerial) then Some ErrV1IdentityConflict
    else None
  end.

Definition serial_conflict (expectedSerial : string) (evidence : V1BootEvidence) : bool :=
  let conflict := bool_decide (expectedSerial ≠ "" ∧ boot_PathSerial evidence ≠ "" ∧
                               boot_PathSerial evidence ≠ expectedSerial) in
  let conflict := conflict || bool_decide (expectedSerial ≠ "" ∧
                    boot_ChargePointSerialNumber evidence ≠ "" ∧
                    boot_ChargePointSerialNumber evidence ≠ expectedSerial) in
  conflict || bool_decide (expectedSerial ≠ "" ∧ boot_ChargeBoxSerialNumber evidence ≠ "" ∧
                    boot_ChargeBoxSerialNumber evidence ≠ expectedSerial).

Definition RecordV1BootEvidence (identity : string) (evidence : V1BootEvidence) : txm pg () :=
  s ← tx_get;
  match mapping_of identity s with
  | None => tx_fail ErrV1MappingNotFound
  | Some (_, m) =>
    tx_modify (λ s, s <| pg_bootEvidence ::= <[identity :=
      mkboot_evidence_row (evidence <| boot_ObservedAt ::= timestamptz |>)
        (serial_conflict (cm_ExpectedSerial m) evidence)]> |>)
  end.

(** ** Connections *)
Definition enabled_mapping (identity : string) : txm pg (string * string) :=
  s ← tx_get;
  match mapping_of identity s with
  | None => tx_fail ErrV1MappingNotFound
  | Some (_, m) =>
    if negb (cm_Enabled m) then tx_fail ErrV1CredentialRejected
    else mret (cm_CPOID m, cm_CMSChargerID m)
  end.

(** The upsert of RecordV1ChargerConnection on one runtime row: [None] when its
    WHERE clause refuses the update. *)
Definition connection_upsert (state : string) (generation : Z) (at_ : Time)
    (row : option charger_runtime_row) : option charger_runtime_row :=
  match row with
  | None =>
    Some (mkcharger_runtime_row state generation 1
      (if decide (state = "ONLINE") then Some (timestamptz at_) else None)
      (Some (timestamptz at_)) (timestamptz at_))
  | Some r =>
    if decide (rt_generation r < generation ∨
               (generation = rt_generation r ∧ rt_state r = "ONLINE" ∧ state = "OFFLINE"))
    then Some (r <| rt_state := state |> <| rt_generation := generation |>
                 <| rt_sequence ::= λ n, n + 1 |>
                 <| rt_connectedAt ::= λ c, if decide (state = "ONLINE") then Some (timestamptz at_) else c |>
                 <| rt_lastObservedAt := Some (timestamptz at_) |> <| rt_updatedAt := timestamptz at_ |>)
    else None
  end.

(** The UPDATE of RenewCurrentV1ChargerConnection on one row. *)
Definition connection_renewal (generation : Z) (at_ : Time) (row : option charger_runtime_row) :
    option charger_runtime_row :=
  match row with
  | None => None
  | Some r =>
    if decide (rt_generation r = generation ∧ rt_state r = "ONLINE" ∧
               some_and (rt_lastObservedAt r) (λ t, t < timestamptz at_))
    then Some (r <| rt_lastObservedAt := Some (timestamptz at_) |> <| rt_updatedAt := timestamptz at_ |>
                 <| rt_sequence ::= λ n, n + 1 |>)
    else None
  end.

Definition reset_row (now : Time) (r : charger_runtime_row) : charger_runtime_row :=
  let r := if decide (rt_generation r ≠ 0) then r <| rt_generation := 0 |> else r in
  if decide (rt_state r ≠ "UNKNOWN")
  then r <| rt_state := "UNKNOWN" |> <| rt_sequence ::= λ n, n + 1 |> <| rt_updatedAt := timestamptz now |>
  else r.

Section runtime.
Context `{FactCodec}.

(** A changed row and the fact that carries it. *)
Definition write_connection (now : Time) (generated : result string) (cpoID chargerID identity state : string)
    (generation : Z) (at_ : Time) (row : charger_runtime_row) : txm pg () :=
  tx_modify (λ s, s <| pg_runtime ::= <[identity := row]> |>);;
  insertV1FactTx now generated "charger.connection.updated" identity (Some (rt_sequence row)) at_
    (v1ConnectionFact cpoID chargerID identity state generation (rt_sequence row) at_).

Definition RecordV1ChargerConnection (now : Time) (generated : result string) (identity : string)
    (generation : Z) (online : bool) (at_ : Time) : txm pg () :=
  let state := if online then "ONLINE" else "OFFLINE" in
  ids ← enabled_mapping identity;
  s ← tx_get;
  match connection_upsert state generation at_ (pg_runtime s !! identity) with
  | None => mret ()
  | Some row => write_connection now generated ids.1 ids.2 identity state generation at_ row
  end.

Definition RenewCurrentV1ChargerConnection (now : Time) (generated : result string) (identity : string)
    (generation : Z) (at_ : Time) : txm pg () :=
  ids ← enabled_mapping identity;
  s ← tx_get;
  match connection_renewal generation at_ (pg_runtime s !! identity) with
  | None => mret ()
  | Some row => write_connection now generated ids.1 ids.2 identity "ONLINE" generation at_ row
  end.

(** The runtime rows of mapped chargers that were not UNKNOWN, in any order. *)
Fixpoint insert_reset_facts (now : Time) (gen : string → result string)
    (changed : list (string * charger_runtime_row)) : txm pg () :=
  match changed with
  | [] => mret ()
  | (identity, row) :: rest =>
    s ← tx_get;
    let ids := match mapping_of identity s with
               | Some (_, m) => (cm_CPOID m, cm_CMSChargerID m) | None => ("", "") end in
    insertV1FactTx now (gen identity) "charger.connection.updated" identity (Some (rt_sequence row))
      (rt_updatedAt row)
      (v1ConnectionFact ids.1 ids.2 identity "UNKNOWN" (rt_generation row) (rt_sequence row)
         (rt_updatedAt row));;
    insert_reset_facts now gen rest
  end.

Definition ResetV1ConnectionRuntime (now : Time) (gen : string → result string) : txm pg () :=
  s ← tx_get;
  let mapped identity := is_Some (mapping_of identity s) in
  let changed := filter (λ kr, mapped kr.1 ∧ rt_state kr.2 ≠ "UNKNOWN") (map_to_list (pg_runtime s)) in
  tx_modify (λ s, s <| pg_runtime ::= map_imap (λ identity r,
    Some (if decide (mapped identity) then reset_row now r else r)) |>);;
  insert_reset_facts now gen ((λ kr, (kr.1, reset_row now kr.2)) <$> changed).

(** ** Connector status *)
Definition status_upsert (now : Time) (r : V1ConnectorRuntime) (row : option V1ConnectorRuntime) :
    V1ConnectorRuntime :=
  r <| cort_ObservedAt ::= fmap timestamptz |> <| cort_UpdatedAt := timestamptz now |>
    <| cort_StatusSequence := match row with Some old => cort_StatusSequence old + 1 | None => 1 end |>.

(** [clock] is the process clock, used when the status carries no time. *)
Definition RecordV1ConnectorStatus (now clock : Time) (generated : result string)
    (r : V1ConnectorRuntime) : txm pg () :=
  let r := match cort_ObservedAt r with Some _ => r | None => r <| cort_ObservedAt := Some clock |> end in
  let identity := cort_ChargerOCPPIdentity r in
  let key := (identity, cort_OCPPConnectorNumber r) in
  s ← tx_get;
  match find_row (λ c, com_ChargerOCPPIdentity c = identity ∧
                       com_OCPPConnectorNumber c = cort_OCPPConnectorNumber r) (pg_connectors s) with
  | None => tx_fail ErrV1MappingNotFound
  | Some (connectorID, c) =>
    match pg_mappings s !! com_CMSChargerID c with
    | None => tx_fail ErrV1MappingNotFound
    | Some m =>
      if decide (cm_ChargerOCPPIdentity m ≠ identity) then tx_fail ErrV1MappingNotFound
      else if negb (cm_Enabled m) then tx_fail ErrV1CredentialRejected
      else
        let row := status_upsert now r (pg_connectorRuntime s !! key) in
        tx_modify (λ s, s <| pg_connectorRuntime ::= <[key := row]> |>);;
        let r := r <| cort_CPOID := com_CPOID c |> <| cort_CMSChargerID := com_CMSChargerID c |>
                   <| cort_CMSConnectorID := connectorID |>
                   <| cort_StatusSequence := cort_StatusSequence row |> in
        insertV1FactTx now generated "connector.status.updated" connectorID
          (Some (cort_StatusSequence r)) (default 0 (cort_ObservedAt r)) (v1StatusFact r)
    end
  end.

(** A connector with its runtime row, as both queries LEFT JOIN them; [since]
    is what COALESCE falls back to for the update time. *)
Definition joined_connector (s : pg) (since : Time) (c : V1ConnectorMapping) : V1ConnectorRuntime :=
  let x := pg_connectorRuntime s !! (com_ChargerOCPPIdentity c, com_OCPPConnectorNumber c) in
  let text f := default "" (f <$> x) in
  mkV1ConnectorRuntime (com_CPOID c) (com_CMSChargerID c) (com_CMSConnectorID c)
    (com_ChargerOCPPIdentity c) (com_OCPPConnectorNumber c) (text cort_Status) (text cort_ErrorCode)
    (text cort_Info) (text cort_VendorID) (text cort_VendorErrorCode) (x ≫= cort_ObservedAt)
    (default 0 (cort_StatusSequence <$> x)) (default since (cort_UpdatedAt <$> x)).

(** The mapping tables' updated_at columns are not kept; [since] stands in. *)
Definition GetV1ChargerRuntime (s : pg) (since : Time) (identity : string) : result V1ChargerRuntime :=
  match pg_runtime s !! identity, mapping_of identity s with
  | Some r, Some (chargerID, m) =>
    inl (mkV1ChargerRuntime (cm_CPOID m) (cm_CMSChargerID m) identity (rt_state r) (rt_generation r)
      (rt_sequence r) (rt_connectedAt r) (rt_lastObservedAt r) (rt_updatedAt r)
      (joined_connector s since <$> merge_sort number_before
         (filter (λ c, com_ChargerOCPPIdentity c = identity ∧ is_Some (pg_mappings s !! com_CMSChargerID c))
            (map_to_list (pg_connectors s)).*2)))
  | _, _ => inr ErrV1MappingNotFound
  end.

Definition GetV1ConnectorRuntime (s : pg) (since : Time) (id : string) : result V1ConnectorRuntime :=
  match pg_connectors s !! id with
  | Some c =>
    match pg_mappings s !! com_CMSChargerID c with
    | Some _ => inl (joined_connector s since c)
    | None => inr ErrV1MappingNotFound
    end
  | None => inr ErrV1MappingNotFound
  end.
End runtime.

(** * Theorems *)

(** ** Enrolment *)

(** Every stored connector belongs to a stored charger, under its identity. *)
Definition mappings_ok (s : pg) : Prop :=
  (∀ id m, pg_mappings s !! id = Some m → cm_CMSChargerID m = id) ∧
  (∀ id1 m1 id2 m2, pg_mappings s !! id1 = Some m1 → pg_mappings s !! id2 = Some m2 →
     cm_ChargerOCPPIdentity m1 = cm_ChargerOCPPIdentity m2 → id1 = id2) ∧
  (∀ id c, pg_connectors s !! id = Some c → com_CMSConnectorID c = id ∧
     some_and (pg_mappings s !! com_CMSChargerID c) (λ m,
       cm_ChargerOCPPIdentity m = com_ChargerOCPPIdentity c ∧ cm_CPOID m = com_CPOID c)) ∧
  (∀ id1 c1 id2 c2, pg_connectors s !! id1 = Some c1 → pg_connectors s !! id2 = Some c2 →
     com_ChargerOCPPIdentity c1 = com_ChargerOCPPIdentity c2 →
     com_OCPPConnectorNumber c1 = com_OCPPConnectorNumber c2 → id1 = id2).

(** What is fixed once enrolled. *)
Definition enrolment_kept (s s' : pg) : Prop :=
  (∀ id m, pg_mappings s !! id = Some m → ∃ m', pg_mappings s' !! id = Some m' ∧
     cm_ChargerOCPPIdentity m' = cm_ChargerOCPPIdentity m ∧ cm_CPOID m' = cm_CPOID m) ∧
  pg_connectors s ⊆ pg_connectors s'.
#[global] Instance enrolment_kept_refl : Reflexive enrolment_kept.
Proof. split; eauto. Qed.
#[global] Instance enrolment_kept_trans : Transitive enrolment_kept.
Proof.
  intros s1 s2 s3 [H1 C1] [H2 C2]. split; [|by trans (pg_connectors s2)].
  intros id m Hm. destruct (H1 id m Hm) as (m2 & Hm2 & ? & ?).
  destruct (H2 id m2 Hm2) as (m3 & ? & ? & ?). exists m3. split_and!; congruence.
Qed.

(** The connector a mapping input asks for. *)
Definition wanted (input : V1MappingInput) (c : V1ConnectorMappingInput) (s : pg) : Prop :=
  some_and (pg_connectors s !! cmi_CMSConnectorID c) (λ old,
    com_CMSChargerID old = mi_CMSChargerID input ∧ com_CPOID old = mi_CPOID input ∧
    com_OCPPConnectorNumber old = cmi_OCPPConnectorNumber c).

Lemma on_duplicate_inv {A} err (c : txm pg A) s a s' :
  on_duplicate err c s = inl (a, s') → c s = inl (a, s').
Proof. unfold on_duplicate. by destruct (c s). Qed.

Lemma insert_connector_inv c s s' :
  insert_connector c s = inl ((), s') →
  pg_connectors s !! com_CMSConnectorID c = None ∧
  (∀ id r, pg_connectors s !! id = Some r → com_ChargerOCPPIdentity r = com_ChargerOCPPIdentity c →
     com_OCPPConnectorNumber r ≠ com_OCPPConnectorNumber c) ∧
  s' = s <| pg_connectors ::= <[com_CMSConnectorID c := c]> |>.
Proof.
  unfold insert_connector. case_decide; [done|]. case_decide as D; [done|]. intros [= <-].
  apply not_or_and in D as [D1 D2]. split_and!; [by apply eq_None_not_Some| |done].
  intros id r Hr Hi Hn. apply D2. destruct (find_row _ _) eqn:E; [eauto|].
  exfalso. by apply (find_row_None _ _ E id r Hr).
Qed.

(** Inserting connectors of an enrolled charger. *)
Lemma sync_connectors_spec input cs s s' :
  mappings_ok s →
  some_and (pg_mappings s !! mi_CMSChargerID input) (λ m,
    cm_ChargerOCPPIdentity m = mi_ChargerOCPPIdentity input ∧ cm_CPOID m = mi_CPOID input) →
  sync_connectors input cs s = inl ((), s') →
  s' = s <| pg_connectors := pg_connectors s' |> ∧ mappings_ok s' ∧
  pg_connectors s ⊆ pg_connectors s' ∧ Forall (λ c, wanted input c s') cs.
Proof.
  revert s. induction cs as [|c cs IH]; intros s Hok Hm Hs; simpl in Hs.
  { injection Hs as <-. split_and!; [by destruct s|done..]. }
  rewrite tx_get_bind in Hs. destruct (pg_connectors s !! cmi_CMSConnectorID c) as [old|] eqn:E.
  - case_decide as D; [done|]. destruct (IH s Hok Hm Hs) as (-> & Hok' & Hsub & Hw).
    split_and!; [by destruct s|done|done|]. constructor; [|done]. unfold wanted.
    erewrite lookup_weaken by done. simpl. apply not_or_and in D as [D1 D2].
    apply not_or_and in D2 as [D2 D3]. split_and!; by apply dec_stable.
  - apply tx_bind_inv in Hs as ([] & s1 & Hi & Hs). apply on_duplicate_inv, insert_connector_inv in Hi
      as (_ & Hu & ->); simpl in Hu.
    edestruct IH as (Hs' & Hok' & Hsub & Hw); [| |exact Hs|]; [|done|].
    + destruct Hok as (Hk & Hi & Hc & Hn). split_and!; [done|done| |]; simpl.
      * intros id r [[<- <-]|[_ Hr]]%lookup_insert_Some; [|by apply Hc].
        split; [done|]. simpl. by destruct (pg_mappings s !! _).
      * intros id1 c1 id2 c2 [[<- <-]|[N1 H1]]%lookup_insert_Some
          [[<- <-]|[N2 H2]]%lookup_insert_Some; simpl; intros Hid Hno; [done|..|by eapply Hn].
        -- exfalso. by apply (Hu id2 c2 H2).
        -- exfalso. by apply (Hu id1 c1 H1).
    + assert (pg_connectors s ⊆ pg_connectors s') as Hsub'.
      { etrans; [|exact Hsub]. simpl. by apply insert_subseteq. }
      split_and!; [rewrite Hs'; by destruct s|done|done|].
      constructor; [|done]. unfold wanted.
      pose proof (lookup_weaken _ _ _ _ (lookup_insert_eq _ _ _) Hsub) as Hl. simpl in Hl.
      by rewrite Hl.
Qed.

Lemma insert_mapping_inv m s s' :
  insert_mapping m s = inl ((), s') →
  pg_mappings s !! cm_CMSChargerID m = None ∧
  (∀ id r, pg_mappings s !! id = Some r → cm_ChargerOCPPIdentity r ≠ cm_ChargerOCPPIdentity m) ∧
  s' = s <| pg_mappings ::= <[cm_CMSChargerID m := m]> |>.
Proof.
  unfold insert_mapping. case_decide as D; [done|]. intros [= <-].
  apply not_or_and in D as [D1 D2]. split_and!; [by apply eq_None_not_Some| |done].
  intros id r Hr Hi. apply D2. unfold mapping_of. destruct (find_row _ _) eqn:E; [eauto|].
  exfalso. by apply (find_row_None _ _ E id r Hr).
Qed.

(** Enrolling a charger nobody has. *)
Lemma enrol_ok m s :
  mappings_ok s → pg_mappings s !! cm_CMSChargerID m = None →
  (∀ id r, pg_mappings s !! id = Some r → cm_ChargerOCPPIdentity r ≠ cm_ChargerOCPPIdentity m) →
  mappings_ok (s <| pg_mappings ::= <[cm_CMSChargerID m := m]> |>).
Proof.
  intros (Hk & Hi & Hc & Hn) Hnone Hfree. split_and!; simpl; [| | |done].
  - intros id m' [[<- <-]|[_ Hm]]%lookup_insert_Some; [done|by apply Hk].
  - intros id1 m1 id2 m2 [[<- <-]|[_ H1]]%lookup_insert_Some [[<- <-]|[_ H2]]%lookup_insert_Some
      Heq; [done|..|by eapply Hi].
    + by destruct (Hfree id2 m2 H2).
    + by destruct (Hfree id1 m1 H1).
  - intros id c Hcn. destruct (Hc id c Hcn) as [? Hm]. split; [done|].
    rewrite lookup_insert_ne; [done|]. intros Heq. rewrite <- Heq, Hnone in Hm. done.
Qed.

(** Rewriting a mapping's enablement and serial. *)
Lemma reenable_ok (f : V1ChargerMapping → V1ChargerMapping) id s :
  (∀ m, cm_CMSChargerID (f m) = cm_CMSChargerID m ∧ cm_CPOID (f m) = cm_CPOID m ∧
        cm_ChargerOCPPIdentity (f m) = cm_ChargerOCPPIdentity m) →
  mappings_ok s → mappings_ok (s <| pg_mappings ::= alter f id |>).
Proof.
  intros Hf (Hk & Hi & Hc & Hn).
  assert (∀ k m, alter f id (pg_mappings s) !! k = Some m → ∃ m0, pg_mappings s !! k = Some m0 ∧
    cm_CMSChargerID m = cm_CMSChargerID m0 ∧ cm_ChargerOCPPIdentity m = cm_ChargerOCPPIdentity m0) as Ha.
  { intros k m. rewrite lookup_alter. case_decide; [subst k|eauto]. intros (m0 & ? & ->)%fmap_Some.
    exists m0. split; [done|]. split; apply Hf. }
  split_and!; simpl; [| | |done].
  - intros k m (m0 & Hm & -> & _)%Ha. by apply Hk.
  - intros id1 m1 id2 m2 (m1' & H1 & _ & ->)%Ha (m2' & H2 & _ & ->)%Ha. by eapply Hi.
  - intros k c Hcn. destruct (Hc k c Hcn) as [? Hm]. split; [done|].
    rewrite lookup_alter. destruct (pg_mappings s !! com_CMSChargerID c) as [m|] eqn:E; [|done].
    simpl in Hm. destruct (Hf m) as (_ & Hf2 & Hf3).
    case_decide as Hd; [subst id|]; rewrite ?E; simpl; intuition congruence.
Qed.

(** The tables SyncV1Mapping reads besides the outbox. *)
Definition mapping_tables (s : pg) := (pg_mappings s, pg_connectors s).
Lemma mappings_ok_tables s s' :
  mapping_tables s' = mapping_tables s → mappings_ok s → mappings_ok s'.
Proof. unfold mapping_tables, mappings_ok. by intros [= -> ->]. Qed.

Lemma seed_runtime_tables now identity s : mapping_tables (seed_runtime now identity s) = mapping_tables s.
Proof. unfold seed_runtime. by destruct (pg_runtime s !! identity). Qed.

(** The audit entry at the end changes no mapping table. *)
Definition sync_tail (gen : generator) (input : V1MappingInput) (existing : option V1ChargerMapping) :
    txm pg bool :=
  if decide (existing = None ∨ some_and existing (λ m, cm_Enabled m ≠ mi_Enabled input)) then
    auditID ← tx_lift (NewSecureUUIDString (gen 0%nat));
    let action := match existing with None => "ENROLLED" | Some _ => "ENABLEMENT_CHANGED" end in
    tx_modify (λ s, s <| pg_mappingAudit ::= λ l, l ++
      [mkmapping_audit_row auditID (mi_CPOID input) (mi_CMSChargerID input) (mi_CorrelationID input)
         (mi_RequestDigest input) action] |>);;
    mret (bool_decide (is_Some existing))
  else mret (bool_decide (is_Some existing)).

Lemma sync_tail_inv gen input existing s b s' :
  sync_tail gen input existing s = inl (b, s') →
  b = bool_decide (is_Some existing) ∧ s' = s <| pg_mappingAudit := pg_mappingAudit s' |>.
Proof.
  unfold sync_tail. case_decide; [|intros [= <- <-]; split; [done|by destruct s]].
  intros (id & s1 & Hg & Hs)%tx_bind_inv. unfold tx_lift in Hg.
  destruct (NewSecureUUIDString _); [|done]. injection Hg as -> ->. tx_simpl Hs.
  injection Hs as <- <-. split; [done|by destruct s1].
Qed.

(** What a committed synchronisation leaves. *)
Lemma SyncV1Mapping_inv now gen input s b s' :
  mappings_ok s → SyncV1Mapping now gen input s = inl (b, s') →
  mappings_ok s' ∧ enrolment_kept s s' ∧
  some_and (pg_mappings s' !! mi_CMSChargerID input) (λ m,
    cm_ChargerOCPPIdentity m = mi_ChargerOCPPIdentity input ∧ cm_CPOID m = mi_CPOID input ∧
    cm_Enabled m = mi_Enabled input ∧ cm_ExpectedSerial m = mi_ExpectedSerial input) ∧
  Forall (λ c, wanted input c s') (mi_Connectors input) ∧
  b = bool_decide (is_Some (pg_mappings s !! mi_CMSChargerID input)) ∧
  is_Some (pg_runtime s' !! mi_ChargerOCPPIdentity input).
Proof.
  intros Hok Hs. unfold SyncV1Mapping in Hs. rewrite tx_get_bind in Hs. cbv zeta in Hs.
  case_decide as D; [done|].
  apply tx_bind_inv in Hs as ([] & s1 & H1 & Hs).
  apply tx_bind_inv in Hs as ([] & s2 & H2 & Hs).
  apply tx_bind_inv in Hs as ([] & s3 & H3 & Hs). rewrite tx_modify_bind in Hs.
  fold (sync_tail gen input (pg_mappings s !! mi_CMSChargerID input)) in Hs.
  apply sync_tail_inv in Hs as [-> Hs'].
  destruct (pg_mappings s !! mi_CMSChargerID input) as [m|] eqn:E.
  - injection H1 as <-. assert (cm_ChargerOCPPIdentity m = mi_ChargerOCPPIdentity input ∧
      cm_CPOID m = mi_CPOID input) as [Hi Hc].
    { simpl in D. apply not_or_and in D as [D1 D2]. split; by apply dec_stable. }
    destruct (sync_connectors_spec input (mi_Connectors input) s s2 Hok) as (Hs2 & Hok2 & Hsub & Hw);
      [by rewrite E|exact H2|].
    rewrite tx_modify_eq in H3. injection H3 as <-.
    set (s3 := s2 <| pg_mappings ::= _ |>) in *.
    assert (mappings_ok s3) as Hok3 by (by apply reenable_ok).
    assert (pg_mappings s2 = pg_mappings s) as Hm2 by (by rewrite Hs2).
    assert (mapping_tables s' = mapping_tables s3) as Ht.
    { rewrite Hs'. rewrite <- (seed_runtime_tables now (mi_ChargerOCPPIdentity input) s3). done. }
    assert (mappings_ok s') as Hoks' by (by apply (mappings_ok_tables s3)).
    injection Ht as Htm Htc. unfold s3 in Htm, Htc. simpl in Htm, Htc. rewrite Hm2 in Htm.
    split_and!.
    + exact Hoks'.
    + split; [|by rewrite Htc]. intros id m0 Hm0. rewrite Htm, lookup_alter.
      case_decide; [subst id; rewrite Hm0; simpl|]; eauto.
    + rewrite Htm, lookup_alter_eq, E. by split_and!.
    + eapply Forall_impl; [exact Hw|]. intros c. unfold wanted. by rewrite Htc.
    + done.
    + rewrite Hs'. simpl. unfold seed_runtime. destruct (pg_runtime s3 !! _) eqn:Er; simpl; [eauto|].
      rewrite lookup_insert_eq. eauto.
  - apply on_duplicate_inv, insert_mapping_inv in H1 as (Hn & Hfree & ->). simpl in Hn, Hfree.
    set (m := mkV1ChargerMapping _ _ _ _ _ _) in *.
    set (s1 := s <| pg_mappings ::= _ |>) in *.
    assert (mappings_ok s1) as Hok1 by (by apply enrol_ok).
    assert (pg_mappings s1 !! mi_CMSChargerID input = Some m) as Em by (apply lookup_insert_eq).
    destruct (sync_connectors_spec input (mi_Connectors input) s1 s2 Hok1) as (Hs2 & Hok2 & Hsub & Hw);
      [by rewrite Em|exact H2|]. injection H3 as <-.
    assert (pg_mappings s2 = pg_mappings s1) as Hm2 by (by rewrite Hs2).
    assert (mapping_tables s' = mapping_tables s2) as Ht.
    { rewrite Hs'. rewrite <- (seed_runtime_tables now (mi_ChargerOCPPIdentity input) s2). done. }
    assert (mappings_ok s') as Hoks' by (by apply (mappings_ok_tables s2)).
    injection Ht as Htm Htc. rewrite Hm2 in Htm.
    split_and!.
    + exact Hoks'.
    + split; [|by rewrite Htc]. intros id m0 Hm0. rewrite Htm. unfold s1. simpl.
      rewrite lookup_insert_ne; [eauto|congruence].
    + by rewrite Htm, Em.
    + eapply Forall_impl; [exact Hw|]. intros c. unfold wanted. by rewrite Htc.
    + done.
    + rewrite Hs'. simpl. unfold seed_runtime. destruct (pg_runtime s2 !! _) eqn:Er; simpl; [eauto|].
      rewrite lookup_insert_eq. eauto.
Qed.

(** Replaying the connectors a table already has changes nothing. *)
Lemma sync_connectors_wanted input cs s :
  Forall (λ c, wanted input c s) cs → sync_connectors input cs s = inl ((), s).
Proof.
  induction 1 as [|c cs Hw _ IH]; simpl; [done|]. rewrite tx_get_bind. unfold wanted in Hw.
  destruct (pg_connectors s !! _) as [old|]; [|done]. simpl in Hw. rewrite decide_False; [done|].
  intuition.
Qed.

Lemma set_mappings_id f s : f (pg_mappings s) = pg_mappings s → s <| pg_mappings ::= f |> = s.
Proof. destruct s. unfold set_field. simpl. by intros ->. Qed.

(** Enrolment is safe to repeat: whatever SyncV1Mapping commits, the charger
    is enrolled exactly as asked with all its connectors, no charger or
    connector enrolled before changed its identity, operator or number, no two
    chargers share an identity and no two connectors a number; and sending the
    same input again, at any later time, commits and changes no table. *)
Theorem SyncV1Mapping_idempotent now gen input s b s' now' gen' :
  mappings_ok s → SyncV1Mapping now gen input s = inl (b, s') →
  mappings_ok s' ∧ enrolment_kept s s' ∧
  some_and (pg_mappings s' !! mi_CMSChargerID input) (λ m,
    cm_ChargerOCPPIdentity m = mi_ChargerOCPPIdentity input ∧ cm_Enabled m = mi_Enabled input) ∧
  Forall (λ c, wanted input c s') (mi_Connectors input) ∧
  run_tx (SyncV1Mapping now' gen' input) s' = (s', inl true).
Proof.
  intros Hok Hs. destruct (SyncV1Mapping_inv _ _ _ _ _ _ Hok Hs) as (Hok' & Hk & Hm & Hw & _ & Hr).
  destruct (pg_mappings s' !! mi_CMSChargerID input) as [m|] eqn:E; [|done].
  destruct Hm as (Hi & Hc & He & Hser). split_and!; [done..|].
  unfold run_tx, SyncV1Mapping. rewrite tx_get_bind. rewrite E. cbv zeta.
  rewrite decide_False by (simpl; intuition). rewrite tx_ret_bind.
  assert (∀ k : () → txm pg bool,
    (sync_connectors input (mi_Connectors input) ≫= k) s' = k () s') as -> .
  { intros k. unfold mbind, txm_bind. by rewrite sync_connectors_wanted. }
  rewrite !tx_modify_bind.
  assert (s' <| pg_mappings ::= alter (λ m, m <| cm_Enabled := mi_Enabled input |>
    <| cm_ExpectedSerial := mi_ExpectedSerial input |>) (mi_CMSChargerID input) |> = s') as ->.
  { apply set_mappings_id, alter_id. intros m0. rewrite E. intros [= <-]. rewrite <- He, <- Hser. by destruct m. }
  assert (seed_runtime now' (mi_ChargerOCPPIdentity input) s' = s') as ->.
  { unfold seed_runtime. by destruct Hr as [r ->]. }
  rewrite decide_False; [done|]. intros [?|Hd]; [done|]. by apply Hd.
Qed.

(** ** Durable connection state *)
Definition connection_fact : string := "charger.connection.updated".

(** A row's sequence, zero before it exists. *)
Definition connection_sequence (s : pg) (identity : string) : Z :=
  default 0 (rt_sequence <$> pg_runtime s !! identity).

(** Every change of a connection row has its fact, and there is no other. *)
Definition connections_ok (s : pg) : Prop :=
  ∀ identity, 0 ≤ connection_sequence s identity ∧
    facts_upto s connection_fact identity (connection_sequence s identity).

Section connections.
Context `{FactCodec}.

Lemma enabled_mapping_inv identity s ids s' :
  enabled_mapping identity s = inl (ids, s') →
  s' = s ∧ ∃ id m, mapping_of identity s = Some (id, m) ∧ cm_Enabled m = true.
Proof.
  unfold enabled_mapping. rewrite tx_get_bind.
  destruct (mapping_of identity s) as [[id m]|]; [|done].
  destruct (cm_Enabled m) eqn:E; [|done]. intros [= _ <-]. eauto.
Qed.

(** Writing the successor of a row together with its fact. *)
Lemma write_connection_ok now g cpo ch identity st gen at_ row s s' :
  connections_ok s → rt_sequence row = connection_sequence s identity + 1 →
  write_connection now g cpo ch identity st gen at_ row s = inl ((), s') →
  connections_ok s' ∧ pg_runtime s' = <[identity := row]> (pg_runtime s) ∧
  outbox_only (s <| pg_runtime ::= <[identity := row]> |>) s'.
Proof.
  intros Hok Hseq Hw. unfold write_connection in Hw. rewrite tx_modify_bind in Hw.
  set (s1 := s <| pg_runtime ::= _ |>) in *. rewrite Hseq in Hw.
  destruct (Hok identity) as [H0 Hu].
  destruct (insert_fact_next _ _ connection_fact _ _ _ _ s1 _ ltac:(done) H0 Hu Hw) as [Hu' _].
  destruct (insert_fact_keys _ _ connection_fact _ _ _ _ _ _ ltac:(done) Hw) as (Ho & _ & Hk).
  assert (pg_runtime s' = <[identity := row]> (pg_runtime s)) as Hrt by (by rewrite Ho).
  split_and!; [|done|done]. intros k. unfold connection_sequence. rewrite Hrt.
  destruct (decide (k = identity)) as [->|Hne].
  - rewrite lookup_insert_eq. simpl. rewrite Hseq. split; [lia|done].
  - rewrite lookup_insert_ne by done. destruct (Hok k) as [Hk0 Hku]. split; [done|].
    intros q. rewrite Hk. rewrite (Hku q : has_fact s1 _ _ _ ↔ _). naive_solver.
Qed.

Lemma connection_upsert_sequence st gen at_ s identity row :
  connection_upsert st gen at_ (pg_runtime s !! identity) = Some row →
  rt_sequence row = connection_sequence s identity + 1.
Proof.
  unfold connection_upsert, connection_sequence. destruct (pg_runtime s !! identity) as [r|].
  - case_decide; [|done]. by intros [= <-].
  - by intros [= <-].
Qed.

Lemma connection_renewal_sequence gen at_ s identity row :
  connection_renewal gen at_ (pg_runtime s !! identity) = Some row →
  rt_sequence row = connection_sequence s identity + 1.
Proof.
  unfold connection_renewal, connection_sequence. destruct (pg_runtime s !! identity) as [r|]; [|done].
  case_decide; [|done]. by intros [= <-].
Qed.

Lemma RecordV1ChargerConnection_inv now g identity gen online at_ s s' :
  RecordV1ChargerConnection now g identity gen online at_ s = inl ((), s') →
  match connection_upsert (if online then "ONLINE" else "OFFLINE") gen at_ (pg_runtime s !! identity) with
  | None => s' = s
  | Some row => ∃ cpo ch, write_connection now g cpo ch identity
      (if online then "ONLINE" else "OFFLINE") gen at_ row s = inl ((), s')
  end.
Proof.
  intros (ids & s1 & [-> _]%enabled_mapping_inv & Hs)%tx_bind_inv. rewrite tx_get_bind in Hs.
  destruct (connection_upsert _ _ _ _); [eauto|]. by injection Hs as <-.
Qed.

Lemma Record_ok now g identity gen online at_ s s' :
  connections_ok s → RecordV1ChargerConnection now g identity gen online at_ s = inl ((), s') →
  connections_ok s'.
Proof.
  intros Hok Hs%RecordV1ChargerConnection_inv. destruct (connection_upsert _ _ _ _) eqn:E; [|by subst].
  destruct Hs as (cpo & ch & Hw). apply connection_upsert_sequence in E.
  by destruct (write_connection_ok _ _ _ _ _ _ _ _ _ _ _ Hok E Hw).
Qed.

Lemma Renew_ok now g identity gen at_ s s' :
  connections_ok s → RenewCurrentV1ChargerConnection now g identity gen at_ s = inl ((), s') →
  connections_ok s'.
Proof.
  intros Hok (ids & s1 & [-> _]%enabled_mapping_inv & Hs)%tx_bind_inv. rewrite tx_get_bind in Hs.
  destruct (connection_renewal _ _ _) eqn:E; [|by injection Hs as <-].
  apply connection_renewal_sequence in E.
  by destruct (write_connection_ok _ _ _ _ _ _ _ _ _ _ _ Hok E Hs).
Qed.

(** Appending the reset facts of distinct chargers, each its row's sequence. *)
Lemma insert_reset_facts_ok now gen changed s s' :
  NoDup changed.*1 →
  (∀ id row, (id, row) ∈ changed → 1 ≤ rt_sequence row ∧
     facts_upto s connection_fact id (rt_sequence row - 1)) →
  insert_reset_facts now gen changed s = inl ((), s') →
  outbox_only s s' ∧
  (∀ id row, (id, row) ∈ changed → facts_upto s' connection_fact id (rt_sequence row)) ∧
  (∀ id q, id ∉ changed.*1 → has_fact s' connection_fact id q ↔ has_fact s connection_fact id q).
Proof.
  revert s. induction changed as [|[id row] rest IH]; intros s Hnd Hc Hs; simpl in Hs.
  { injection Hs as <-. split_and!; [apply outbox_only_refl|set_solver|done]. }
  rewrite tx_get_bind in Hs. apply tx_bind_inv in Hs as ([] & s1 & Hi & Hs).
  simpl in Hnd. apply NoDup_cons in Hnd as [Hni Hnd].
  destruct (Hc id row) as [H1 Hu]; [by left|].
  replace (rt_sequence row) with (rt_sequence row - 1 + 1) in Hi by lia.
  destruct (insert_fact_next _ _ connection_fact _ _ _ _ _ _ ltac:(done) (Zle_minus_le_0 _ _ H1) Hu Hi) as [Hu1 _].
  destruct (insert_fact_keys _ _ connection_fact _ _ _ _ _ _ ltac:(done) Hi) as (Ho & _ & Hk).
  destruct (IH s1 Hnd) as (Ho' & Hin & Hout); [|exact Hs|].
  - intros id' row' Hr'. destruct (Hc id' row') as [? Hu']; [by right|]. split; [done|].
    intros q. rewrite Hk, (Hu' q). split; [|naive_solver]. intros [?|(_ & -> & _)]; [done|].
    exfalso. apply Hni. apply list_elem_of_fmap. by exists (id, row').
  - split_and!.
    + unfold outbox_only in *. rewrite Ho', Ho. by destruct s.
    + intros id' row' [[= -> ->]|Hr']%elem_of_cons; [|by apply Hin].
      intros q. rewrite Hout by done. rewrite (Hu1 q). by replace (rt_sequence row - 1 + 1) with (rt_sequence row) by lia.
    + intros id' q Hid. simpl in Hid. apply not_elem_of_cons in Hid as [Hne Hid].
      rewrite Hout, Hk by done. naive_solver.
Qed.

Lemma reset_row_sequence now r :
  rt_sequence (reset_row now r) =
    (if decide (rt_state r ≠ "UNKNOWN") then rt_sequence r + 1 else rt_sequence r) ∧
  rt_generation (reset_row now r) = 0 ∧ rt_state (reset_row now r) = "UNKNOWN".
Proof.
  unfold reset_row. destruct (decide (rt_generation r ≠ 0)) as [|Hg]; simpl.
  - case_decide as D; simpl; [done|]. split_and!; done || by apply dec_stable.
  - case_decide as D; simpl; split_and!; try done; try (by apply dec_stable); apply dec_stable; lia.
Qed.

Lemma Reset_ok now gen s s' :
  connections_ok s → ResetV1ConnectionRuntime now gen s = inl ((), s') → connections_ok s'.
Proof.
  intros Hok Hs. unfold ResetV1ConnectionRuntime in Hs. rewrite tx_get_bind, tx_modify_bind in Hs.
  set (mapped identity := is_Some (mapping_of identity s)) in *.
  set (changed := filter _ (map_to_list (pg_runtime s))) in *.
  set (s1 := s <| pg_runtime ::= _ |>) in *.
  assert (∀ id r, (id, r) ∈ changed ↔ (mapped id ∧ rt_state r ≠ "UNKNOWN") ∧ pg_runtime s !! id = Some r) as Hch.
  { intros id r. unfold changed. by rewrite list_elem_of_filter, elem_of_map_to_list. }
  assert (((λ kr : string * charger_runtime_row, (kr.1, reset_row now kr.2)) <$> changed).*1 = changed.*1) as Hfst
    by (by rewrite <- list_fmap_compose).
  apply insert_reset_facts_ok in Hs as (Ho & Hin & Hout).
  - rewrite Hfst in Hout. intros id. unfold connection_sequence.
    assert (pg_runtime s' = pg_runtime s1) as -> by (by rewrite Ho). unfold s1. simpl.
    rewrite map_lookup_imap. destruct (Hok id) as [H0 Hu]. unfold connection_sequence in H0, Hu.
    assert (id ∉ changed.*1 → ∀ n, facts_upto s connection_fact id n → facts_upto s' connection_fact id n) as Hkeep.
    { intros Hni n Hn q. rewrite Hout by done. apply Hn. }
    destruct (pg_runtime s !! id) as [r|] eqn:E; simpl in *.
    + destruct (decide (mapped id ∧ rt_state r ≠ "UNKNOWN")) as [[Hm Hst]|Hn].
      * rewrite (decide_True (P := is_Some _)) by done.
        destruct (reset_row_sequence now r) as [Hsq _]. rewrite decide_True in Hsq by done.
        split; [lia|]. apply (Hin id). apply list_elem_of_fmap. exists (id, r).
        split; [done|]. by apply Hch.
      * assert (rt_sequence (if decide (is_Some (mapping_of id s)) then reset_row now r else r) = rt_sequence r) as ->.
        { case_decide as Hm; [|done]. destruct (reset_row_sequence now r) as [-> _].
          rewrite decide_False; [done|]. intros Hst. by apply Hn. }
        split; [done|]. apply Hkeep; [|done].
        intros ([k r'] & -> & Hr)%list_elem_of_fmap. apply Hch in Hr as [? ?]. simpl in *. naive_solver.
    + split; [done|]. apply Hkeep; [|done].
      intros ([k r'] & -> & Hr)%list_elem_of_fmap. apply Hch in Hr as [_ ?]. simpl in *. congruence.
  - rewrite Hfst. eapply sublist_NoDup; [apply (NoDup_fst_map_to_list (pg_runtime s))|]. apply fmap_sublist, sublist_filter.
  - intros id row ([k r] & [= -> ->] & Hr)%list_elem_of_fmap. apply Hch in Hr as [[_ Hst] Hr].
    destruct (reset_row_sequence now r) as [-> _]. rewrite decide_True by done.
    destruct (Hok k) as [H0 Hu]. unfold connection_sequence in *. rewrite Hr in *. simpl in *.
    split; [lia|]. intros q. replace (rt_sequence r + 1 - 1) with (rt_sequence r) by lia. apply Hu.
Qed.
End connections.

(** ** Runs of the mapping and runtime calls *)
Inductive mapping_call : Type :=
  | CallSync (now : Time) (gen : generator) (input : V1MappingInput)
  | CallBoot (identity : string) (evidence : V1BootEvidence)
  | CallRecord (now : Time) (generated : result string) (identity : string) (generation : Z)
      (online : bool) (at_ : Time)
  | CallRenew (now : Time) (generated : result string) (identity : string) (generation : Z) (at_ : Time)
  | CallStatus (now clock : Time) (generated : result string) (r : V1ConnectorRuntime)
  | CallReset (now : Time) (gen : string → result string).

Section mapping_runs.
Context `{FactCodec}.

Definition mapping_exec (c : mapping_call) (s : pg) : pg :=
  match c with
  | CallSync now gen input => (run_tx (SyncV1Mapping now gen input) s).1
  | CallBoot identity evidence => (run_tx (RecordV1BootEvidence identity evidence) s).1
  | CallRecord now g identity generation online at_ =>
    (run_tx (RecordV1ChargerConnection now g identity generation online at_) s).1
  | CallRenew now g identity generation at_ =>
    (run_tx (RenewCurrentV1ChargerConnection now g identity generation at_) s).1
  | CallStatus now clock g r => (run_tx (RecordV1ConnectorStatus now clock g r) s).1
  | CallReset now gen => (run_tx (ResetV1ConnectionRuntime now gen) s).1
  end.
Definition mapping_run (cs : list mapping_call) (s : pg) : pg := foldl (flip mapping_exec) s cs.

(** Steps that touch neither connection rows nor their facts. *)
Lemma connections_ok_frame s s' :
  (∀ id, connection_sequence s' id = connection_sequence s id) →
  (∀ id q, has_fact s' connection_fact id q ↔ has_fact s connection_fact id q) →
  connections_ok s → connections_ok s'.
Proof.
  intros Hs Hf Hok id. rewrite Hs. destruct (Hok id) as [? Hu]. split; [done|].
  intros q. by rewrite Hf.
Qed.

Lemma seed_runtime_ok now identity s :
  connections_ok s → connections_ok (seed_runtime now identity s).
Proof.
  intros Hok. eapply connections_ok_frame; [| |exact Hok]; unfold seed_runtime;
    destruct (pg_runtime s !! identity) eqn:E; try done.
  intros id. unfold connection_sequence. simpl. destruct (decide (id = identity)) as [->|].
  - by rewrite lookup_insert_eq, E.
  - by rewrite lookup_insert_ne.
Qed.

(** The tables the connection invariant reads. *)
Definition connection_tables (s : pg) := (pg_runtime s, pg_facts s).
Lemma connections_ok_tables s s' :
  connection_tables s' = connection_tables s → connections_ok s → connections_ok s'.
Proof.
  intros [= Hr Hf]. apply connections_ok_frame; [|unfold has_fact; by rewrite Hf].
  intros id. unfold connection_sequence. by rewrite Hr.
Qed.

Lemma sync_connectors_tables input cs s s' :
  sync_connectors input cs s = inl ((), s') → connection_tables s' = connection_tables s.
Proof.
  revert s. induction cs as [|c cs IH]; intros s Hs; simpl in Hs; [by injection Hs as <-|].
  rewrite tx_get_bind in Hs. destruct (pg_connectors s !! _); [case_decide; [done|by apply IH]|].
  apply tx_bind_inv in Hs as ([] & s1 & Hi & Hs). apply on_duplicate_inv, insert_connector_inv in Hi
    as (_ & _ & ->). by rewrite (IH _ Hs).
Qed.

Lemma Sync_ok now gen input s b s' :
  connections_ok s → SyncV1Mapping now gen input s = inl (b, s') → connections_ok s'.
Proof.
  intros Hok Hs. unfold SyncV1Mapping in Hs. rewrite tx_get_bind in Hs. cbv zeta in Hs.
  case_decide; [done|].
  apply tx_bind_inv in Hs as ([] & s1 & H1 & Hs).
  apply tx_bind_inv in Hs as ([] & s2 & H2 & Hs).
  apply tx_bind_inv in Hs as ([] & s3 & H3 & Hs). rewrite tx_modify_bind in Hs.
  fold (sync_tail gen input (pg_mappings s !! mi_CMSChargerID input)) in Hs.
  apply sync_tail_inv in Hs as [_ Hs'].
  assert (connection_tables s1 = connection_tables s) as T1.
  { destruct (pg_mappings s !! _); [by injection H1 as <-|].
    by apply on_duplicate_inv, insert_mapping_inv in H1 as (_ & _ & ->). }
  apply sync_connectors_tables in H2.
  assert (connection_tables s3 = connection_tables s2) as T3.
  { destruct (pg_mappings s !! _); [|by injection H3 as <-]. rewrite tx_modify_eq in H3. by injection H3 as <-. }
  apply (connections_ok_tables (seed_runtime now (mi_ChargerOCPPIdentity input) s3)); [by rewrite Hs'|].
  apply seed_runtime_ok. apply (connections_ok_tables s); [congruence|done].
Qed.

Lemma Status_ok now clock g r s s' :
  connections_ok s → RecordV1ConnectorStatus now clock g r s = inl ((), s') → connections_ok s'.
Proof.
  intros Hok Hs. unfold RecordV1ConnectorStatus in Hs. cbv zeta in Hs. rewrite tx_get_bind in Hs.
  destruct (find_row _ _) as [[connectorID c]|]; [|done].
  destruct (pg_mappings s !! _) as [m|]; [|done]. case_decide; [done|].
  destruct (negb (cm_Enabled m)); [done|]. rewrite tx_modify_bind in Hs.
  apply insert_fact_keys in Hs as (Ho & _ & Hk); [|done].
  eapply connections_ok_frame; [| |exact Hok].
  - intros id. unfold connection_sequence. by rewrite Ho.
  - intros id q. rewrite Hk. unfold connection_fact. naive_solver.
Qed.

Lemma mapping_exec_ok c s : connections_ok s → connections_ok (mapping_exec c s).
Proof.
  intros Hok. destruct c as [now gen input|identity ev|now g id gen on at_|now g id gen at_|now cl g r|now gen];
    unfold mapping_exec, run_tx.
  - destruct (SyncV1Mapping _ _ _ _) as [[b s']|] eqn:E; [by eapply Sync_ok|done].
  - destruct (RecordV1BootEvidence _ _ _) as [[[] s']|] eqn:E; [|done].
    unfold RecordV1BootEvidence in E. rewrite tx_get_bind in E.
    destruct (mapping_of _ _) as [[k m]|]; [|done]. rewrite tx_modify_eq in E. by injection E as <-.
  - destruct (RecordV1ChargerConnection _ _ _ _ _ _ _) as [[[] s']|] eqn:E; [by eapply Record_ok|done].
  - destruct (RenewCurrentV1ChargerConnection _ _ _ _ _ _) as [[[] s']|] eqn:E; [by eapply Renew_ok|done].
  - destruct (RecordV1ConnectorStatus _ _ _ _ _) as [[[] s']|] eqn:E; [by eapply Status_ok|done].
  - destruct (ResetV1ConnectionRuntime _ _ _) as [[[] s']|] eqn:E; [by eapply Reset_ok|done].
Qed.
End mapping_runs.

(** C23: In every history of enrolments, connects, disconnects, renewals, status
    reports and process restarts, failed transactions included, the connection
    facts of a charger carry exactly the sequences 1, 2, ..., n, where n is the
    sequence of its durable row: no change is reported twice, and none is
    swallowed by the outbox's conflict rule. *)
Theorem connection_facts_complete `{FactCodec} (cs : list mapping_call) (identity : string) (q : option Z) :
  has_fact (mapping_run cs pg_empty) connection_fact identity q ↔
  ∃ n, q = Some n ∧ 1 ≤ n ≤ connection_sequence (mapping_run cs pg_empty) identity.
Proof.
  assert (connections_ok (mapping_run cs pg_empty)) as Hok; [|by destruct (Hok identity)].
  assert (connections_ok pg_empty) as Hok.
  { intros id. split; [done|]. intros k. split; [by intros (? & ? & ? & _)|].
    intros (n & _ & Hn). change (connection_sequence pg_empty id) with 0 in Hn. lia. }
  revert Hok. generalize pg_empty. unfold mapping_run.
  induction cs as [|c cs IH]; intros s Hok; simpl; [done|]. apply IH. by apply mapping_exec_ok.
Qed.

(** ** Convergence of the durable state under reordering *)
Record connection_event : Type := mkconnection_event {
  ce_generation : Z;
  ce_online : bool;
  ce_at : Time;
  ce_now : Time;
  ce_generated : result string
}.
Definition ce_state (e : connection_event) : string := if ce_online e then "ONLINE" else "OFFLINE".

Definition row_step (row : option charger_runtime_row) (e : connection_event) : option charger_runtime_row :=
  match connection_upsert (ce_state e) (ce_generation e) (ce_at e) row with
  | Some r => Some r
  | None => row
  end.

Section convergence.
Context `{FactCodec}.

(** The callbacks' writes in the order they commit; [None] when one fails. *)
Fixpoint record_all (identity : string) (evs : list connection_event) (s : pg) : option pg :=
  match evs with
  | [] => Some s
  | e :: evs' =>
    match run_tx (RecordV1ChargerConnection (ce_now e) (ce_generated e) identity (ce_generation e)
                    (ce_online e) (ce_at e)) s with
    | (s', inl _) => record_all identity evs' s'
    | (_, inr _) => None
    end
  end.

Lemma record_all_row identity evs s s' :
  connections_ok s → record_all identity evs s = Some s' →
  connections_ok s' ∧
  pg_runtime s' !! identity = foldl row_step (pg_runtime s !! identity) evs.
Proof.
  revert s. induction evs as [|e evs IH]; intros s Hok Hr; simpl in *; [by simplify_eq|].
  unfold run_tx in Hr. destruct (RecordV1ChargerConnection _ _ _ _ _ _ s) as [[[] s1]|] eqn:E; [|done].
  destruct (IH s1 (Record_ok _ _ _ _ _ _ _ _ Hok E) Hr) as [Hok' ->]. split; [done|]. f_equal.
  apply RecordV1ChargerConnection_inv in E. fold (ce_state e) in E. unfold row_step.
  destruct (connection_upsert _ _ _ _) as [row|] eqn:Eu; [|by subst].
  destruct E as (cpo & ch & Hw).
  destruct (write_connection_ok _ _ _ _ _ _ _ _ _ _ _ Hok (connection_upsert_sequence _ _ _ _ _ _ Eu) Hw)
    as (_ & -> & _). by rewrite lookup_insert_eq.
Qed.
End convergence.

(** Before the newest generation's connect, and after it. *)
Lemma row_below g evs row :
  Forall (λ e, ce_generation e < g) evs → (∀ r, row = Some r → rt_generation r < g) →
  ∀ r, foldl row_step row evs = Some r → rt_generation r < g.
Proof.
  intros Hf. revert row. induction Hf as [|e evs He _ IH]; intros row Hrow; simpl; [done|].
  apply IH. intros r. unfold row_step, connection_upsert. destruct row as [r0|].
  - case_decide; intros [= <-]; [done|by apply Hrow].
  - by intros [= <-].
Qed.

Lemma row_newest g evs row :
  Forall (λ e, ce_generation e ≤ g) evs → rt_generation row = g → rt_state row = "ONLINE" ∨ rt_state row = "OFFLINE" →
  ∃ row', foldl row_step (Some row) evs = Some row' ∧ rt_generation row' = g ∧
    rt_state row' = if decide (rt_state row = "OFFLINE" ∨
        Exists (λ e, ce_generation e = g ∧ ce_online e = false) evs) then "OFFLINE" else "ONLINE".
Proof.
  intros Hf. revert row. induction Hf as [|e evs He _ IH]; intros row Hg Hst; simpl.
  { exists row. split_and!; [done|done|]. case_decide as D.
    - destruct D as [?|D%Exists_nil]; done.
    - destruct Hst as [?|Hst]; [done|]. destruct D. by left. }
  assert (∃ r1, row_step (Some row) e = Some r1 ∧ rt_generation r1 = g ∧
    (rt_state r1 = "ONLINE" ∨ rt_state r1 = "OFFLINE") ∧
    (rt_state r1 = "OFFLINE" ↔ rt_state row = "OFFLINE" ∨ (ce_generation e = g ∧ ce_online e = false)))
    as (r1 & -> & Hg1 & Hst1 & Hiff).
  { unfold row_step, connection_upsert. case_decide as D.
    - destruct D as [?|(Heq & Hon & Hoff)]; [lia|]. eexists. split; [done|]. simpl.
      unfold ce_state in Hoff |- *. destruct (ce_online e); [done|]. split_and!; [lia|by right|].
      split; [|done]. intros _. right. split; [lia|done].
    - exists row. split_and!; [done|done|done|]. split; [by left|]. intros [?|[Heq Hoff]]; [done|].
      destruct Hst as [Hon|?]; [|done]. exfalso. apply D. right. unfold ce_state. by rewrite Hoff, Heq. }
  destruct (IH r1 Hg1 Hst1) as (row' & Hr & Hg' & Hs'). exists row'. split_and!; [done|done|].
  rewrite Hs'. apply decide_ext. rewrite Hiff, Exists_cons. tauto.
Qed.

(** C24: The durable connection state converges to the newest live connection no
    matter how late callbacks of older sockets commit: once the newest
    generation has connected, the row shows that generation, OFFLINE if its own
    disconnect has committed and ONLINE otherwise, whatever connects and
    disconnects of older generations come before, between or after. *)
Theorem connection_converges `{FactCodec} identity s pre e post s' :
  connections_ok s →
  (∀ r, pg_runtime s !! identity = Some r → rt_generation r < ce_generation e) →
  Forall (λ e', ce_generation e' < ce_generation e) pre → ce_online e = true →
  Forall (λ e', ce_generation e' ≤ ce_generation e) post →
  record_all identity (pre ++ e :: post) s = Some s' →
  ∃ row, pg_runtime s' !! identity = Some row ∧ rt_generation row = ce_generation e ∧
    rt_state row = if decide (Exists (λ e', ce_generation e' = ce_generation e ∧ ce_online e' = false) post)
                   then "OFFLINE" else "ONLINE".
Proof.
  intros Hok Hlt Hpre Hon Hpost Hr. apply record_all_row in Hr as [_ Hr]; [|done].
  rewrite foldl_app in Hr. simpl in Hr.
  pose proof (row_below _ _ _ Hpre Hlt) as Hb.
  destruct (foldl row_step (pg_runtime s !! identity) pre) as [r0|] eqn:E0.
  - specialize (Hb r0 eq_refl). unfold row_step at 2 in Hr. simpl in Hr. rewrite decide_True in Hr by lia.
    unfold ce_state in Hr. rewrite Hon in Hr.
    match type of Hr with _ = foldl _ (Some ?r1) _ =>
      destruct (row_newest (ce_generation e) post r1 Hpost eq_refl (or_introl eq_refl))
        as (row & Hrow & Hg & Hs) end. rewrite Hrow in Hr. exists row. split_and!; [done|done|].
    rewrite Hs. apply decide_ext. simpl. naive_solver.
  - unfold row_step at 2 in Hr. simpl in Hr. unfold ce_state in Hr. rewrite Hon in Hr.
    match type of Hr with _ = foldl _ (Some ?r1) _ =>
      destruct (row_newest (ce_generation e) post r1 Hpost eq_refl (or_introl eq_refl))
        as (row & Hrow & Hg & Hs) end. rewrite Hrow in Hr. exists row. split_and!; [done|done|].
    rewrite Hs. apply decide_ext. simpl. naive_solver.
Qed.

(** Connection-time admission: an unmapped or disabled identity is refused,
    so is one that presents a serial other than the enrolled one, and every
    other charger is admitted; a charger that RecordV1ChargerConnection refuses
    leaves no observation behind. *)
Theorem admission_guards_runtime `{FactCodec} s identity presentedSerial now g generation online at_ :
  ValidateV1ChargerAdmission s identity presentedSerial =
    match mapping_of identity s with
    | None => Some ErrV1MappingNotFound
    | Some (_, m) =>
      if cm_Enabled m then
        if decide (cm_ExpectedSerial m = "" ∨ presentedSerial = "" ∨ presentedSerial = cm_ExpectedSerial m)
        then None else Some ErrV1IdentityConflict
      else Some ErrV1CredentialRejected
    end ∧
  (∀ err, ValidateV1ChargerAdmission s identity "" = Some err →
     run_tx (RecordV1ChargerConnection now g identity generation online at_) s = (s, inr err)).
Proof.
  unfold ValidateV1ChargerAdmission, run_tx, RecordV1ChargerConnection, enabled_mapping. split.
  - destruct (mapping_of identity s) as [[id m]|]; [|done]. destruct (cm_Enabled m); simpl; [|done].
    do 2 case_decide; naive_solver.
  - intros err. unfold mbind, txm_bind, tx_get. destruct (mapping_of identity s) as [[id m]|]; [|by intros [= <-]].
    destruct (cm_Enabled m); simpl; [|by intros [= <-]].
    rewrite decide_False by naive_solver. done.
Qed.

(** ** Concrete runs *)
Module MappingRuns.
Definition codec : FactCodec := {|
  canonicalV1JSON v := match v with JPayload _ => inl "{}" | JImmutableEnvelope e => inl (ie_FactID e) end;
  sha256_hex s := s; jsonb_text s := s |}.
#[local] Existing Instance codec.
Definition input : V1MappingInput := {|
  mi_CPOID := "cpo"; mi_CMSChargerID := "ch"; mi_ChargerOCPPIdentity := "CP-1";
  mi_ExpectedSerial := "S1"; mi_Enabled := true;
  mi_Connectors := [mkV1ConnectorMappingInput "con-1" 1; mkV1ConnectorMappingInput "con-2" 2];
  mi_CorrelationID := "corr"; mi_RequestDigest := "d" |}.
Definition gen : generator := λ _, inl "audit".
Definition enrolled : pg := (run_tx (SyncV1Mapping 100 gen input) pg_empty).1.
Definition connect (g : Z) (id : string) : connection_event := mkconnection_event g true 200 200 (inl id).
Definition disconnect (g : Z) (id : string) : connection_event := mkconnection_event g false 300 300 (inl id).
(** The old socket's callbacks commit around the new socket's. *)
Definition late : list connection_event := [disconnect 1 "f3"; connect 1 "f4"].
Lemma empty_ok : mappings_ok pg_empty.
Proof. split_and!; intros *; unfold pg_empty; simpl; rewrite lookup_empty; done. Qed.
End MappingRuns.

Lemma SyncV1Mapping_idempotent_witness :
  run_tx (SyncV1Mapping 900 (λ _, inr ErrRandomness) MappingRuns.input) MappingRuns.enrolled =
  (MappingRuns.enrolled, inl true).
Proof.
  apply (SyncV1Mapping_idempotent 100 MappingRuns.gen MappingRuns.input pg_empty false
    MappingRuns.enrolled 900 (λ _, inr ErrRandomness) MappingRuns.empty_ok).
  vm_compute. reflexivity.
Defined.

Lemma connection_converges_witness :
  ∃ s' row, @record_all MappingRuns.codec "CP-1"
      ([MappingRuns.connect 1 "f1"] ++ MappingRuns.connect 2 "f2" :: MappingRuns.late)
      MappingRuns.enrolled = Some s' ∧
    pg_runtime s' !! "CP-1" = Some row ∧ rt_generation row = 2 ∧ rt_state row = "ONLINE".
Proof.
  destruct (@record_all MappingRuns.codec "CP-1"
    ([MappingRuns.connect 1 "f1"] ++ MappingRuns.connect 2 "f2" :: MappingRuns.late)
    MappingRuns.enrolled) as [s'|] eqn:E; [|vm_compute in E; discriminate].
  destruct (connection_converges (H := MappingRuns.codec) "CP-1" MappingRuns.enrolled
    [MappingRuns.connect 1 "f1"] (MappingRuns.connect 2 "f2") MappingRuns.late s')
    as (row & Hr & Hg & Hs).
  - apply (mapping_exec_ok (H := MappingRuns.codec) (CallSync 100 MappingRuns.gen MappingRuns.input) pg_empty).
    intros id. split; [done|]. intros k. split; [by intros (? & ? & ? & _)|].
    intros (n & _ & Hn). change (connection_sequence pg_empty id) with 0 in Hn. lia.
  - intros r Hr. vm_compute in Hr. injection Hr as <-. reflexivity.
  - repeat constructor.
  - reflexivity.
  - repeat constructor; vm_compute; discriminate.
  - exact E.
  - exists s', row. split_and!; [reflexivity|exact Hr|exact Hg|]. rewrite Hs.
    rewrite decide_False; [reflexivity|]. intros (x & Hx & Hgen & _)%Exists_exists.
    unfold MappingRuns.late in Hx. rewrite !elem_of_cons, elem_of_nil in Hx.
    destruct Hx as [->|[->|[]]]; discriminate.
Defined.
