(* ===== verification/PgLifecycle.v ===== *)
(** * Commands, transactions and stop workflows in PostgreSQL

    v1_postgres.go (commands, credentials, MaterializeV1Start),
    v1_lifecycle_postgres.go (telemetry, stop workflows, completion) and
    v1_stop_lifecycle_locking.go.  Every method that writes does so in one
    database transaction under the transaction row's lock, which is one
    [run_tx] step; a statement or commit that fails rolls the step back.  The
    database clock NOW() is [now]; [gen i] is the i-th identifier the call
    draws from the secure generator. *)
From Stdlib Require Import String.
From stdpp Require Import base numbers decidable option list sorting strings gmap.
From S2P Require Import Prelude V1Types Evidence V1Memory PgSchema.
Open Scope Z_scope.

Abbreviation generator := (nat → result string).

(** ** Retrying an aborted database transaction (v1_stop_lifecycle_locking.go) *)
Definition v1StopLifecycleTransactionAttempts : Z := 3.
Definition v1StopLifecycleRetryDelay : GoTime.Duration := 5 * GoTime.Millisecond.

Definition isRetryableV1StopLifecycleTransactionError (err : go_error) : bool :=
  match errors_AsPg err with
  | Some code => bool_decide (code = "40P01" ∨ code = "40001")
  | None => false
  end.

(** One attempt changes the state [S] (the database and the attempts made).
    [ctxErr n] is ctx.Err() before attempt [n], [ctxDone n] what the timer
    after attempt [n] is interrupted with, if it is. *)
Section retry.
Context {S : Type} (operation : S → S * option go_error) (ctxErr ctxDone : Z → option go_error).

Fixpoint retry_from (fuel : nat) (attempt : Z) (lastErr : option go_error) (s : S) :
    S * option go_error :=
  match fuel with
  | O => (s, lastErr)
  | Datatypes.S fuel' =>
    match ctxErr attempt with
    | Some err => (s, Some err)
    | None =>
      match operation s with
      | (s', None) => (s', None)
      | (s', Some err) =>
        if decide (isRetryableV1StopLifecycleTransactionError err = false ∨
                   attempt + 1 = v1StopLifecycleTransactionAttempts) then (s', Some err)
        else
          match ctxDone attempt with
          | Some cancelled => (s', Some cancelled)
          | None => retry_from fuel' (attempt + 1) (Some err) s'
          end
      end
    end
  end.

(** The loop runs at most [v1StopLifecycleTransactionAttempts] times. *)
Definition retryV1StopLifecycleTransaction (s : S) : S * option go_error :=
  retry_from (Z.to_nat v1StopLifecycleTransactionAttempts) 0 None s.
End retry.

(** [withV1StopLifecycleTransaction]: attempt [n] runs the body in a fresh
    database transaction; [fault n] is the failure PostgreSQL raises in it. *)
Definition withV1StopLifecycleTransaction {A} (fault : Z → option go_error)
    (ctxErr ctxDone : Z → option go_error) (operation : txm pg A) (s : pg) :
    pg * option go_error :=
  let '((s', _), err) :=
    retryV1StopLifecycleTransaction
      (λ '(s, n),
        match fault n with
        | Some err => ((s, n + 1), Some err)
        | None =>
          match run_tx operation s with
          | (s', inl _) => ((s', n + 1), None)
          | (s', inr err) => ((s', n + 1), Some err)
          end
        end) ctxErr ctxDone (s, 0) in
  (s', err).

(** ** Constraints of the tables *)
Definition limit_provenance (limit : option Z) (source : string) (allowed : list string) : Prop :=
  match limit with None => source = "NONE" | Some n => 0 < n ∧ source ∈ allowed end.
#[global] Instance limit_provenance_dec l s a : Decision (limit_provenance l s a).
Proof. destruct l; simpl; apply _. Defined.

Definition opt_holds {A} (P : A → Prop) (o : option A) : Prop :=
  match o with Some x => P x | None => True end.
#[global] Instance opt_holds_dec {A} (P : A → Prop) o `{!∀ x, Decision (P x)} :
  Decision (opt_holds P o).
Proof. destruct o; simpl; apply _. Defined.

Definition command_check (c : V1RemoteCommand) : Prop :=
  0 ≤ cmd_OCPPConnectorNumber c ∧ cmd_LimitType c ∈ ["AUTO"; "ENERGY"; "TIME"; "MONEY"] ∧
  limit_provenance (cmd_EnergyLimitWh c) (cmd_EnergyLimitSource c)
    ["CUSTOMER_ENERGY"; "CUSTOMER_MONEY"; "WALLET"] ∧
  limit_provenance (cmd_MaxDurationSeconds c) (cmd_DurationLimitSource c)
    ["CUSTOMER_TIME"; "CUSTOMER_MONEY"; "WALLET"].
#[global] Instance command_check_dec c : Decision (command_check c).
Proof. unfold command_check. apply _. Defined.

Definition transaction_check (t : V1Transaction) : Prop :=
  0 ≤ tx_MeterStartWh t ∧ 0 < tx_OCPPTransactionID t ∧ 0 < tx_OCPPConnectorNumber t ∧
  opt_holds (λ stop, tx_MeterStartWh t ≤ stop) (tx_MeterStopWh t) ∧
  opt_holds (λ at_, tx_ActualStartedAt t ≤ at_) (tx_CompletedAt t) ∧
  opt_holds (λ at_, tx_ObservedStartedAt t ≤ at_) (tx_ObservedCompletedAt t) ∧
  opt_holds (λ raw, 0 ≤ raw) (tx_RawMeterStopWh t) ∧
  opt_holds (λ adj, 0 ≤ adj ≤ 1) (tx_MeterStopAdjustmentWh t) ∧
  tx_MeterStopEvidence t ∈ [""; "EXACT"; "FORWARD"; "QUANTIZATION_NORMALIZED"] ∧
  opt_holds (λ raw, some_and (tx_MeterStopAdjustmentWh t) (λ adj, tx_MeterStopWh t = Some (raw + adj)))
    (tx_RawMeterStopWh t) ∧
  opt_holds (λ soc, 0 ≤ soc ≤ 100 * v1SoCScale) (tx_InitialSoCPercent t) ∧
  opt_holds (λ soc, 0 ≤ soc ≤ 100 * v1SoCScale) (tx_LatestSoCPercent t) ∧
  (tx_LatestSoCPercent t = None ↔ tx_SoCObservedAt t = None) ∧
  0 ≤ tx_SoCSequence t ∧ tx_LimitType t ∈ ["AUTO"; "ENERGY"; "TIME"; "MONEY"] ∧
  limit_provenance (tx_EnergyLimitWh t) (tx_EnergyLimitSource t)
    ["CUSTOMER_ENERGY"; "CUSTOMER_MONEY"; "WALLET"] ∧
  limit_provenance (tx_MaxDurationSeconds t) (tx_DurationLimitSource t)
    ["CUSTOMER_TIME"; "CUSTOMER_MONEY"; "WALLET"].
#[global] Instance transaction_check_dec t : Decision (transaction_check t).
Proof. unfold transaction_check. apply _. Defined.

Definition workflow_states : list string :=
  ["PERSISTED"; "PENDING_DELIVERY"; "DELIVERY_ATTEMPTED"; "OCPP_ACCEPTED"; "OCPP_REJECTED";
   "AMBIGUOUS"; "COMPLETED"; "SUPERSEDED"].
Definition stop_initiators : list string :=
  ["CUSTOMER"; "CPO"; "ENERGY_LIMIT"; "TIME_LIMIT"; "MONEY_LIMIT"; "WALLET_LIMIT"; "SYSTEM_RECOVERY"].

(** ** Statements *)
Definition put_transaction (id : string) (t : V1Transaction) : txm pg () :=
  if decide (transaction_check t)
  then tx_modify (λ s, s <| pg_transactions ::= <[id := t]> |>)
  else tx_fail check_violation.
Definition update_transaction (id : string) (f : V1Transaction → V1Transaction) : txm pg () :=
  s ← tx_get;
  match pg_transactions s !! id with Some t => put_transaction id (f t) | None => mret () end.

(** [getV1TransactionBy]: the consumption is derived, never stored. *)
Definition read_transaction (t : V1Transaction) : V1Transaction :=
  t <| tx_ConsumedWh :=
      match tx_LatestMeterWh t with
      | Some v => if decide (tx_MeterStartWh t ≤ v) then Some (Int64.sub v (tx_MeterStartWh t)) else None
      | None => None
      end |>.
Definition getV1TransactionByID (id : string) : txm pg V1Transaction := λ s,
  match pg_transactions s !! id with
  | Some t => inl (read_transaction t, s)
  | None => inr ErrV1TransactionNotFound
  end.
Definition getV1CommandWith (cmsCommandID : string) : txm pg V1RemoteCommand := λ s,
  match pg_commands s !! cmsCommandID with
  | Some r => inl (cr_command r, s)
  | None => inr ErrV1CommandNotFound
  end.

Record v1StopLifecycleRows : Type := {
  sl_Transaction : V1Transaction;
  sl_Workflow : option V1StopWorkflow
}.
(** The SELECT ... FOR UPDATE of the transaction, then of its workflow. *)
Definition lockV1StopLifecycleRows (halTransactionID : string) : txm pg v1StopLifecycleRows :=
  transaction ← getV1TransactionByID halTransactionID;
  s ← tx_get;
  mret {| sl_Transaction := transaction; sl_Workflow := pg_workflows s !! halTransactionID |}.

(** An INSERT of a command: ON CONFLICT (cms_command_id) DO NOTHING looks for
    its key first, the other unique keys raise. *)
Definition insert_command (row : command_row) : txm pg Z := λ s,
  let c := cr_command row in
  if decide (¬ command_check c) then inr check_violation
  else
    match pg_commands s !! cmd_CMSCommandID c with
    | Some _ => inl (0, s)
    | None =>
      if decide (is_Some (find_row (λ r, cmd_HALCommandID (cr_command r) = cmd_HALCommandID c) (pg_commands s)) ∨
           cmd_Kind c = "START" ∧
           is_Some (find_row (λ r, cmd_Kind (cr_command r) = "START" ∧
             cmd_CMSStartIntentID (cr_command r) = cmd_CMSStartIntentID c) (pg_commands s)))
      then inr unique_violation
      else inl (1, s <| pg_commands ::= <[cmd_CMSCommandID c := row]> |>)
    end.

(** UPDATE v1_remote_commands SET f WHERE P: the rows changed, by key. *)
Definition update_commands (P : command_row → Prop) `{!∀ r, Decision (P r)}
    (f : V1RemoteCommand → V1RemoteCommand) (s : pg) : pg :=
  s <| pg_commands ::= fmap (λ r, if decide (P r) then r <| cr_command ::= f |> else r) |>.
Definition select_commands (P : command_row → Prop) `{!∀ r, Decision (P r)} (s : pg) : list string :=
  (filter (λ kv, P kv.2) (map_to_list (pg_commands s))).*1.

(** ** Commands and credentials (v1_postgres.go) *)
Section commands.
Context `{FactCodec}.

Definition start_command_row (id : string) (now : Time) (input : V1StartCommandInput) : command_row := {|
  cr_command := {|
    cmd_HALCommandID := id; cmd_CMSCommandID := si_CMSCommandID input; cmd_Kind := "START";
    cmd_RequestDigest := si_RequestDigest input; cmd_CPOID := si_CPOID input;
    cmd_CustomerID := si_CustomerID input; cmd_CorrelationID := si_CorrelationID input;
    cmd_CMSStartIntentID := si_CMSStartIntentID input; cmd_CMSChargingSessionID := "";
    cmd_CMSChargerID := si_CMSChargerID input; cmd_CMSConnectorID := si_CMSConnectorID input;
    cmd_ChargerOCPPIdentity := si_ChargerOCPPIdentity input;
    cmd_OCPPConnectorNumber := si_OCPPConnectorNumber input; cmd_IDTag := si_IDTag input;
    cmd_CredentialExpiresAt := Some (timestamptz (si_CredentialExpiresAt input));
    cmd_CommandExpiresAt := timestamptz (si_CommandExpiresAt input);
    cmd_LimitType := si_LimitType input; cmd_EnergyLimitWh := si_EnergyLimitWh input;
    cmd_EnergyLimitSource := si_EnergyLimitSource input;
    cmd_MaxDurationSeconds := si_MaxDurationSeconds input;
    cmd_DurationLimitSource := si_DurationLimitSource input;
    cmd_RequestedStopInitiator := ""; cmd_RequestedStopReason := ""; cmd_HALTransactionID := "";
    cmd_OCPPTransactionID := None; cmd_State := "PERSISTED"; cmd_DeliveryAttempts := 0;
    cmd_LastOCPPResult := ""; cmd_LastErrorCategory := ""; cmd_LastErrorDetail := "";
    cmd_CreatedAt := timestamptz now; cmd_UpdatedAt := timestamptz now |};
  cr_stopWorkflow := None |}.

Definition credential_row (input : V1StartCommandInput) : V1Credential := {|
  cred_IDTag := si_IDTag input; cred_CMSStartIntentID := si_CMSStartIntentID input;
  cred_CPOID := si_CPOID input; cred_CMSChargerID := si_CMSChargerID input;
  cred_CMSConnectorID := si_CMSConnectorID input;
  cred_ChargerOCPPIdentity := si_ChargerOCPPIdentity input;
  cred_OCPPConnectorNumber := si_OCPPConnectorNumber input;
  cred_ExpiresAt := timestamptz (si_CredentialExpiresAt input);
  cred_ConsumedAt := None; cred_HALTransactionID := "" |}.

Definition insert_credential (c : V1Credential) : txm pg () := λ s,
  if decide (is_Some (pg_credentials s !! cred_IDTag c) ∨
       is_Some (find_row (λ r, cred_CMSStartIntentID r = cred_CMSStartIntentID c) (pg_credentials s)))
  then inr unique_violation
  else inl ((), s <| pg_credentials ::= <[cred_IDTag c := c]> |>).

Definition CreateV1StartCommand (now : Time) (gen : generator) (input : V1StartCommandInput) :
    txm pg (V1RemoteCommand * bool) :=
  commandID ← tx_lift (NewSecureUUIDString (gen 0%nat));
  rows ← (λ s, match insert_command (start_command_row commandID now input) s with
               | inr err => inr (if isDuplicate err then ErrV1IdempotencyConflict else err)
               | r => r
               end);
  if decide (rows = 0) then
    command ← getV1CommandWith (si_CMSCommandID input);
    if decide (cmd_RequestDigest command ≠ si_RequestDigest input) then tx_fail ErrV1IdempotencyConflict
    else mret (command, true)
  else
    insert_credential (credential_row input);;
    command ← getV1CommandWith (si_CMSCommandID input);
    mret (command, false).

Definition AuthorizeV1Credential (s : pg) (chargerID idTag : string) (now : Time) : option go_error :=
  match pg_credentials s !! idTag with
  | None => Some ErrV1CredentialRejected
  | Some c =>
    if decide (cred_ChargerOCPPIdentity c ≠ chargerID ∨
               (¬ GoTime.After (cred_ExpiresAt c) now ∧ cred_HALTransactionID c = ""))
    then Some ErrV1CredentialRejected else None
  end.

Definition insert_transaction (t : V1Transaction) : txm pg () := λ s,
  if decide (¬ transaction_check t) then inr check_violation
  else if decide (is_Some (pg_transactions s !! tx_HALTransactionID t) ∨
         is_Some (find_row (λ r, tx_CMSStartIntentID r = tx_CMSStartIntentID t ∨
           tx_CMSCommandID r = tx_CMSCommandID t ∨
           tx_OCPPTransactionID r = tx_OCPPTransactionID t) (pg_transactions s)))
  then inr unique_violation
  else inl ((), s <| pg_transactions ::= <[tx_HALTransactionID t := t]> |>).

Definition stored_transaction (t : V1Transaction) : V1Transaction :=
  t <| tx_ActualStartedAt ::= timestamptz |> <| tx_ObservedStartedAt ::= timestamptz |>
    <| tx_StopDeadlineAt ::= fmap timestamptz |>.

Definition MaterializeV1Start (now : Time) (gen : generator) (input : V1StartMaterialization) :
    txm pg (V1Transaction * bool) :=
  if decide (mat_MeterStartWh input < 0 ∨ mat_OCPPTransactionID input ≤ 0 ∨
             mat_OCPPConnectorNumber input ≤ 0 ∨
             plausibleV1ProtocolTime (mat_ActualStartedAt input) (mat_ObservedAt input) = false)
  then tx_fail ErrV1InvalidEvidence
  else
    s ← tx_get;
    match pg_credentials s !! mat_IDTag input with
    | None => tx_fail ErrV1CredentialRejected
    | Some c =>
      if decide (cred_HALTransactionID c ≠ "") then
        t ← getV1TransactionByID (cred_HALTransactionID c);
        if decide (tx_ChargerOCPPIdentity t = mat_ChargerOCPPIdentity input ∧
                   tx_OCPPConnectorNumber t = mat_OCPPConnectorNumber input ∧
                   tx_IDTag t = mat_IDTag input ∧ tx_MeterStartWh t = mat_MeterStartWh input)
        then mret (t, true)
        else tx_fail ErrV1CredentialRejected
      else if decide (¬ GoTime.After (cred_ExpiresAt c) (mat_ObservedAt input) ∨
                      cred_ChargerOCPPIdentity c ≠ mat_ChargerOCPPIdentity input ∨
                      cred_OCPPConnectorNumber c ≠ mat_OCPPConnectorNumber input)
      then tx_fail ErrV1CredentialRejected
      else
        match find_row (λ r, cmd_Kind (cr_command r) = "START" ∧
                             cmd_IDTag (cr_command r) = mat_IDTag input) (pg_commands s) with
        | None => tx_fail (ErrOther "sql: no rows in result set")
        | Some (cmsCommandID, row) =>
          let command := cr_command row in
          if decide (¬ GoTime.After (cmd_CommandExpiresAt command) (mat_ObservedAt input))
          then tx_fail ErrV1CredentialRejected
          else
            halID ← tx_lift (NewSecureUUIDString (gen 0%nat));
            let materialized := (new_transaction halID input c command)
                                  <| tx_CustomerID := cmd_CustomerID command |> in
            (λ s, match insert_transaction (stored_transaction materialized) s with
                  | inr err => inr (if isDuplicate err then ErrV1CredentialRejected else err)
                  | r => r
                  end);;
            tx_modify (λ s, s <| pg_credentials ::= alter (λ c,
              c <| cred_ConsumedAt := Some (timestamptz (mat_ObservedAt input)) |>
                <| cred_HALTransactionID := halID |>) (mat_IDTag input) |>);;
            tx_modify (λ s, s <| pg_commands ::= alter (λ r, r <| cr_command ::= λ c,
              c <| cmd_State := "MATERIALIZED" |> <| cmd_HALTransactionID := halID |>
                <| cmd_OCPPTransactionID := Some (mat_OCPPTransactionID input) |>
                <| cmd_UpdatedAt := timestamptz now |> |>) cmsCommandID |>);;
            insertV1FactTx now (gen 1%nat) "transaction.started" halID None (mat_ObservedAt input)
              (v1StartedFact materialized (cmd_HALCommandID command));;
            let materializedCommand :=
              mkV1RemoteCommand (cmd_HALCommandID command) cmsCommandID "START" "" "" "" "" "" "" ""
                "" (cred_ChargerOCPPIdentity c) (cred_OCPPConnectorNumber c) "" None 0 "" None ""
                None "" "" "" halID (Some (mat_OCPPTransactionID input)) "MATERIALIZED" 0 "" "" ""
                0 (mat_ObservedAt input) in
            insertV1FactTx now (gen 2%nat) "command.updated" (cmd_HALCommandID command) None
              (mat_ObservedAt input) (v1CommandFact materializedCommand);;
            t ← getV1TransactionByID halID;
            mret (t, false)
        end
    end.

Definition mark_state (status : string) : string * string :=
  if decide (status = "Accepted") then ("OCPP_ACCEPTED", "")
  else if decide (status = "AMBIGUOUS") then ("AMBIGUOUS", "delivery")
  else if decide (status = "Rejected") then ("OCPP_REJECTED", "ocpp")
  else ("DELIVERY_ATTEMPTED", "").

Definition marked_command (now : Time) (state result_ category detail : string)
    (c : V1RemoteCommand) : V1RemoteCommand :=
  c <| cmd_State := state |> <| cmd_LastOCPPResult := result_ |>
    <| cmd_LastErrorCategory := category |> <| cmd_LastErrorDetail := detail |>
    <| cmd_UpdatedAt := timestamptz now |>.

Definition MarkV1CommandDelivery (now : Time) (gen : generator)
    (id status result_ detail : string) : txm pg V1RemoteCommand :=
  let '(state, category) := mark_state status in
  s ← tx_get;
  let updated := match pg_commands s !! id with
                 | Some r => bool_decide (cmd_State (cr_command r) ∉ ["MATERIALIZED"; "SUPERSEDED"])
                 | None => false end in
  (if updated then
     tx_modify (λ s, s <| pg_commands ::=
       alter (λ r, r <| cr_command ::= marked_command now state result_ category detail |>) id |>)
   else mret ());;
  command ← getV1CommandWith id;
  (if updated then
     insertV1FactTx now (gen 0%nat) "command.updated" (cmd_HALCommandID command) None
       (cmd_UpdatedAt command) (v1CommandFact command)
   else mret ());;
  mret command.

(** [UPDATE ... WHERE cms_command_id=$1 AND kind='START' AND state=from]. *)
Definition start_command_step (now : Time) (id from : string)
    (f : V1RemoteCommand → V1RemoteCommand) (s : pg) : pg * Z :=
  match pg_commands s !! id with
  | Some r =>
    if decide (cmd_Kind (cr_command r) = "START" ∧ cmd_State (cr_command r) = from) then
      (s <| pg_commands ::= <[id := r <| cr_command ::= λ c, (f c) <| cmd_UpdatedAt := timestamptz now |> |>]> |>, 1)
    else (s, 0)
  | None => (s, 0)
  end.

Definition ClaimV1StartDelivery (s : pg) (now : Time) (cmsCommandID : string) :
    pg * result (V1RemoteCommand * bool) :=
  let '(s', rows) := start_command_step now cmsCommandID "PERSISTED"
                       (λ c, c <| cmd_State := "PENDING_DELIVERY" |>) s in
  match pg_commands s' !! cmsCommandID with
  | Some r => (s', inl (cr_command r, bool_decide (rows = 1)))
  | None => (s', inr ErrV1CommandNotFound)
  end.

Definition BeginV1CommandDelivery (s : pg) (now : Time) (cmsCommandID : string) :
    pg * result V1RemoteCommand :=
  let '(s', _) := start_command_step now cmsCommandID "PENDING_DELIVERY"
                    (λ c, c <| cmd_State := "DELIVERY_ATTEMPTED" |>
                            <| cmd_DeliveryAttempts ::= λ n, n + 1 |>) s in
  match pg_commands s' !! cmsCommandID with
  | Some r => (s', inl (cr_command r))
  | None => (s', inr ErrV1CommandNotFound)
  end.

(** The two recovery statements, each atomic on its own. *)
Definition recover_pending_commands (now : Time) (s : pg) : pg :=
  update_commands (λ r, cmd_Kind (cr_command r) = "START" ∧ cmd_State (cr_command r) = "PENDING_DELIVERY")
    (λ c, c <| cmd_State := "PERSISTED" |> <| cmd_UpdatedAt := timestamptz now |>) s.
Definition recover_attempted_commands (now : Time) (s : pg) : pg :=
  update_commands (λ r, cmd_Kind (cr_command r) = "START" ∧ cmd_State (cr_command r) = "DELIVERY_ATTEMPTED")
    (λ c, c <| cmd_State := "AMBIGUOUS" |> <| cmd_LastErrorCategory := "recovery" |>
            <| cmd_LastErrorDetail := "process interruption after durable delivery attempt" |>
            <| cmd_UpdatedAt := timestamptz now |>) s.
Definition RecoverV1CommandDelivery (now : Time) (s : pg) : pg :=
  recover_attempted_commands now (recover_pending_commands now s).
End commands.

(** ** Reads (v1_postgres.go, v1_lifecycle_postgres.go) *)
Definition GetV1Command (s : pg) (cmsCommandID : string) : result V1RemoteCommand :=
  match pg_commands s !! cmsCommandID with
  | Some r => inl (cr_command r)
  | None => inr ErrV1CommandNotFound
  end.
Definition GetV1Credential (s : pg) (idTag : string) : result V1Credential :=
  match pg_credentials s !! idTag with
  | Some c => inl c
  | None => inr ErrV1CredentialRejected
  end.
Definition GetV1Transaction (s : pg) (id : string) : result V1Transaction :=
  match pg_transactions s !! id with
  | Some t => inl (read_transaction t)
  | None => inr ErrV1TransactionNotFound
  end.
Definition GetV1TransactionByStartIntent (s : pg) (id : string) : result V1Transaction :=
  match find_row (λ t, tx_CMSStartIntentID t = id) (pg_transactions s) with
  | Some (_, t) => inl (read_transaction t)
  | None => inr ErrV1TransactionNotFound
  end.
Definition GetV1TransactionByOCPP (s : pg) (identity : string) (ocppID : Z) : result V1Transaction :=
  match find_row (λ t, tx_ChargerOCPPIdentity t = identity ∧ tx_OCPPTransactionID t = ocppID)
          (pg_transactions s) with
  | Some (halID, _) => GetV1Transaction s halID
  | None => inr ErrV1TransactionNotFound
  end.

(** ** Telemetry, stop workflows and completion (v1_lifecycle_postgres.go) *)
Definition v1EnergyStopCause (source legacyLimitType : string) : string * string :=
  if decide (source = "CUSTOMER_MONEY" ∨ (source = "" ∧ legacyLimitType = "MONEY"))
  then ("MONEY_LIMIT", "money_limit_reached")
  else if decide (source = "WALLET" ∨ (source = "" ∧ legacyLimitType = "AUTO"))
  then ("WALLET_LIMIT", "wallet_limit_reached")
  else ("ENERGY_LIMIT", "energy_limit_reached").

Definition update_workflow (id : string) (P : V1StopWorkflow → Prop) `{!∀ w, Decision (P w)}
    (f : V1StopWorkflow → V1StopWorkflow) (s : pg) : pg :=
  s <| pg_workflows ::= alter (λ w, if decide (P w) then f w else w) id |>.

Definition attached_stop (halID : string) (r : command_row) : Prop :=
  cr_stopWorkflow r = Some halID ∧ cmd_State (cr_command r) ∉ ["SUPERSEDED"; "MATERIALIZED"].
#[global] Instance attached_stop_dec h r : Decision (attached_stop h r).
Proof. unfold attached_stop. apply _. Defined.

Section lifecycle.
Context `{FactCodec}.

(** The transaction row is already locked by the caller. *)
Definition ensureV1StopWorkflowTx (now : Time) (t : V1Transaction) (initiator reason : string) :
    txm pg (V1StopWorkflow * bool) :=
  s ← tx_get;
  match pg_workflows s !! tx_HALTransactionID t with
  | Some workflow => mret (workflow, false)
  | None =>
    if decide (is_Some (tx_CompletedAt t)) then tx_fail ErrV1TransactionNotFound
    else if decide (initiator ∉ stop_initiators) then tx_fail check_violation
    else
      tx_modify (λ s, s <| pg_workflows ::= <[tx_HALTransactionID t :=
        mkV1StopWorkflow (tx_HALTransactionID t) initiator reason "PERSISTED" 0 "" "" ""
          (timestamptz now) (timestamptz now) None]> |>);;
      update_transaction (tx_HALTransactionID t) (λ t, t <| tx_StopState := "PERSISTED" |>
        <| tx_RequestedStopInitiator := initiator |> <| tx_RequestedStopReason := reason |>);;
      mret (mkV1StopWorkflow (tx_HALTransactionID t) initiator reason "PERSISTED" 0 "" "" "" 0 0 None, true)
  end.

(** What one reading does to the transaction row: the register, its time and
    sequence, and the anomaly count of a normalized reading. *)
Definition energy_row (t : V1Transaction) (meterWh : Z) (observedAt : Time) : option V1Transaction :=
  let accept :=
    match tx_LatestMeterWh t with
    | Some latest =>
      if decide (meterWh < latest) then
        let '(classification, err) :=
          classifyV1MeterEvidence (tx_MeterStartWh t) (Some latest) meterWh in
        if decide (err ≠ None ∨ me_Class classification ≠ v1MeterEvidenceQuantizationNormalized)
        then None
        else Some (t <| tx_MeterQuantizationAnomalyCount ::= λ n, n + 1 |>)
      else Some t
    | None => Some t
    end in
  let observedAt :=
    match tx_MeterObservedAt t with
    | Some previous => if decide (GoTime.Before observedAt previous) then previous else observedAt
    | None => observedAt
    end in
  (λ t, t <| tx_LatestMeterWh := Some meterWh |> <| tx_MeterObservedAt := Some (timestamptz observedAt) |>
          <| tx_MeterSequence ::= λ n, n + 1 |>) <$> accept.

Definition soc_row (t : V1Transaction) (soc : V1SoCPercent) (observedAt : Time) : option V1Transaction :=
  if decide (tx_SoCObservedAt t = None ∨
             some_and (tx_SoCObservedAt t) (λ previous, GoTime.After observedAt previous))
  then Some (t <| tx_InitialSoCPercent ::= λ i, match i with None => Some soc | _ => i end |>
               <| tx_LatestSoCPercent := Some soc |>
               <| tx_SoCObservedAt := Some (timestamptz observedAt) |>
               <| tx_SoCSequence ::= λ n, n + 1 |>)
  else None.

(** The row after the energy reading, and then after the state of charge,
    [None] when the reading is absent or refused. *)
Definition accepted_energy (telemetry : V1MeterTelemetry) (row : V1Transaction) : option V1Transaction :=
  match tel_EnergyWh telemetry, tel_EnergyObservedAt telemetry with
  | Some meterWh, Some at_ =>
    if decide (tx_CompletedAt row = None ∧ tx_MeterStartWh row ≤ meterWh)
    then energy_row row meterWh at_ else None
  | _, _ => None
  end.
Definition accepted_soc (telemetry : V1MeterTelemetry) (row : V1Transaction) : option V1Transaction :=
  match tel_SoCPercent telemetry, tel_SoCObservedAt telemetry with
  | Some soc, Some at_ => if decide (tx_CompletedAt row = None) then soc_row row soc at_ else None
  | _, _ => None
  end.
Definition write_row (halID : string) (row : option V1Transaction) : txm pg () :=
  match row with Some t => put_transaction halID t | None => mret () end.

(** The stop workflow an accepted register calls for. *)
Definition enforce_energy_limit (now : Time) (current : V1Transaction) : txm pg () :=
  if decide (some_and (tx_EnergyLimitWh current) (λ limit,
       limit ≤ Int64.sub (default 0 (tx_LatestMeterWh current)) (tx_MeterStartWh current)))
  then
    let '(initiator, reason) :=
      v1EnergyStopCause (tx_EnergyLimitSource current) (tx_LimitType current) in
    ensureV1StopWorkflowTx now current initiator reason;; mret ()
  else mret ().

(** The flags of V1TelemetryUpdateResult accompany only a successful call. *)
Definition UpdateV1TelemetryForOCPP (now : Time) (gen : generator) (identity : string) (ocppID : Z)
    (telemetry : V1MeterTelemetry) : txm pg (V1Transaction * V1TelemetryUpdateResult) :=
  if decide (Empty telemetry) then tx_fail ErrV1InvalidEvidence
  else
    s ← tx_get;
    match find_row (λ t, tx_ChargerOCPPIdentity t = identity ∧ tx_OCPPTransactionID t = ocppID)
            (pg_transactions s) with
    | None => tx_fail ErrV1TransactionNotFound
    | Some (halID, row) =>
      let energy := accepted_energy telemetry row in
      write_row halID energy;;
      let soc := accepted_soc telemetry (default row energy) in
      write_row halID soc;;
      current ← getV1TransactionByID halID;
      (if bool_decide (is_Some energy) then
         enforce_energy_limit now current;;
         insertV1FactTx now (gen 0%nat) "transaction.meter" halID (Some (tx_MeterSequence current))
           (default 0 (tx_MeterObservedAt current)) (v1MeterFact current)
       else mret ());;
      (if bool_decide (is_Some soc) then
         insertV1FactTx now (gen 1%nat) "transaction.soc" halID (Some (tx_SoCSequence current))
           (default 0 (tx_SoCObservedAt current)) (v1SoCFact current)
       else mret ());;
      mret (current, mkV1TelemetryUpdateResult (bool_decide (is_Some energy)) (bool_decide (is_Some soc)))
    end.

Definition EnsureV1StopWorkflow (now : Time) (halID initiator reason : string) :
    txm pg (V1StopWorkflow * bool) :=
  rows ← lockV1StopLifecycleRows halID;
  ensureV1StopWorkflowTx now (sl_Transaction rows) initiator reason.

(** The row is read before the update's own transaction. *)
Definition UpdateV1Meter (now : Time) (gen : generator) (s : pg) (halID : string)
    (ocppID meterWh : Z) (observedAt : Time) : pg * result V1Transaction :=
  match GetV1Transaction s halID with
  | inr err => (s, inr err)
  | inl t =>
    if decide (tx_OCPPTransactionID t ≠ ocppID) then (s, inr ErrV1TransactionNotFound)
    else
      match run_tx (UpdateV1TelemetryForOCPP now gen (tx_ChargerOCPPIdentity t) ocppID
                      (mkV1MeterTelemetry (Some meterWh) (Some observedAt) None None)) s with
      | (s', inl (updated, _)) => (s', inl updated)
      | (s', inr err) => (s', inr err)
      end
  end.

Definition RequestV1Stop (now : Time) (s : pg) (halID initiator reason : string) :
    pg * result (V1Transaction * bool) :=
  match run_tx (EnsureV1StopWorkflow now halID initiator reason) s with
  | (s', inr err) => (s', inr err)
  | (s', inl (_, created)) =>
    match GetV1Transaction s' halID with
    | inl t => (s', inl (t, created))
    | inr err => (s', inr err)
    end
  end.

Definition GetV1StopWorkflow (s : pg) (halID : string) : result V1StopWorkflow :=
  match pg_workflows s !! halID with
  | Some w => inl w
  | None => inr ErrV1TransactionNotFound
  end.

(** The write of ClaimV1StopDelivery; true when the delivery was granted. *)
Definition ClaimV1StopDelivery (now : Time) (halID : string) : txm pg bool :=
  rows ← lockV1StopLifecycleRows halID;
  if decide (is_Some (tx_CompletedAt (sl_Transaction rows)) ∨
             ¬ some_and (sl_Workflow rows) (λ w, wf_State w = "PERSISTED"))
  then mret false
  else
    tx_modify (update_workflow halID (λ w, wf_State w = "PERSISTED")
      (λ w, w <| wf_State := "PENDING_DELIVERY" |> <| wf_UpdatedAt := timestamptz now |>));;
    mret true.

(** The write of BeginV1StopDelivery; the value says whether it moved the row. *)
Definition BeginV1StopDelivery (now : Time) (halID : string) : txm pg bool :=
  rows ← lockV1StopLifecycleRows halID;
  if decide (is_Some (tx_CompletedAt (sl_Transaction rows)) ∨
             ¬ some_and (sl_Workflow rows) (λ w, wf_State w = "PENDING_DELIVERY"))
  then mret false
  else
    tx_modify (update_workflow halID (λ w, wf_State w = "PENDING_DELIVERY")
      (λ w, w <| wf_State := "DELIVERY_ATTEMPTED" |> <| wf_DeliveryAttempts ::= λ n, n + 1 |>
              <| wf_UpdatedAt := timestamptz now |>));;
    mret true.

Fixpoint insert_command_facts (now : Time) (gen : string → result string) (ids : list string) :
    txm pg () :=
  match ids with
  | [] => mret ()
  | id :: rest =>
    command ← getV1CommandWith id;
    insertV1FactTx now (gen id) "command.updated" (cmd_HALCommandID command) None
      (cmd_UpdatedAt command) (v1CommandFact command);;
    insert_command_facts now gen rest
  end.

Definition MarkV1StopDelivery (now : Time) (gen : string → result string)
    (halID status result_ detail : string) : txm pg () :=
  let '(state, category) := mark_state status in
  rows ← lockV1StopLifecycleRows halID;
  if decide (is_Some (tx_CompletedAt (sl_Transaction rows)) ∨
             ¬ some_and (sl_Workflow rows) (λ w, wf_State w ≠ "COMPLETED" ∧ wf_State w ≠ "SUPERSEDED"))
  then mret ()
  else
    tx_modify (update_workflow halID (λ w, wf_State w ∉ ["COMPLETED"; "SUPERSEDED"])
      (λ w, w <| wf_State := state |> <| wf_LastOCPPResult := result_ |>
              <| wf_LastErrorCategory := category |> <| wf_LastErrorDetail := detail |>
              <| wf_UpdatedAt := timestamptz now |>));;
    update_transaction halID (λ t,
      if decide (tx_CompletedAt t = None) then t <| tx_StopState := state |> else t);;
    s ← tx_get;
    let attached r := cmd_Kind (cr_command r) = "STOP" ∧ attached_stop halID r in
    tx_modify (update_commands attached (marked_command now state result_ category detail));;
    insert_command_facts now gen (select_commands attached s).

(** The two recovery statements, each atomic on its own. *)
Definition recover_pending_stops (now : Time) (s : pg) : pg :=
  s <| pg_workflows ::= fmap (λ w, if decide (wf_State w = "PENDING_DELIVERY")
         then w <| wf_State := "PERSISTED" |> <| wf_UpdatedAt := timestamptz now |> else w) |>.
Definition recover_attempted_stops (now : Time) (s : pg) : pg :=
  s <| pg_workflows ::= fmap (λ w, if decide (wf_State w = "DELIVERY_ATTEMPTED")
         then w <| wf_State := "AMBIGUOUS" |> <| wf_LastErrorCategory := "recovery" |>
                <| wf_LastErrorDetail := "process interruption after durable delivery attempt" |>
                <| wf_UpdatedAt := timestamptz now |> else w) |>.
Definition RecoverV1StopDelivery (now : Time) (s : pg) : pg :=
  recover_attempted_stops now (recover_pending_stops now s).

Definition workflow_before (w1 w2 : V1StopWorkflow) : Prop :=
  GoTime.Before (wf_CreatedAt w1) (wf_CreatedAt w2) ∨
  (wf_CreatedAt w1 = wf_CreatedAt w2 ∧ String.le (wf_HALTransactionID w1) (wf_HALTransactionID w2)).
#[global] Instance workflow_before_dec : RelDecision workflow_before.
Proof. intros l r. unfold workflow_before. apply _. Defined.

Definition dispatchable_stop (s : pg) (w : V1StopWorkflow) : Prop :=
  wf_State w = "PERSISTED" ∧
  some_and (pg_transactions s !! wf_HALTransactionID w) (λ t, tx_CompletedAt t = None).
#[global] Instance dispatchable_stop_dec s w : Decision (dispatchable_stop s w).
Proof. unfold dispatchable_stop. apply _. Defined.

Definition ListV1DispatchableStops (s : pg) (limit : Z) : list V1StopWorkflow :=
  if decide (limit ≤ 0) then []
  else take (Z.to_nat limit)
         (merge_sort workflow_before (filter (dispatchable_stop s) (map_to_list (pg_workflows s)).*2)).

Definition overdue (now : Time) (t : V1Transaction) : Prop :=
  tx_CompletedAt t = None ∧ some_and (tx_StopDeadlineAt t) (λ d, d ≤ now).
#[global] Instance overdue_dec now t : Decision (overdue now t).
Proof. unfold overdue. apply _. Defined.
Definition deadline_before (t1 t2 : V1Transaction) : Prop :=
  default 0 (tx_StopDeadlineAt t1) ≤ default 0 (tx_StopDeadlineAt t2).
#[global] Instance deadline_before_dec : RelDecision deadline_before.
Proof. intros l r. unfold deadline_before. apply _. Defined.
(** A negative LIMIT is an error in PostgreSQL; the caller passes 100. *)
Definition ListV1OverdueTransactions (s : pg) (now : Time) (limit : Z) : list V1Transaction :=
  read_transaction <$>
  take (Z.to_nat limit)
    (merge_sort deadline_before (filter (overdue now) (map_to_list (pg_transactions s)).*2)).

Definition command_before (r1 r2 : command_row) : Prop :=
  GoTime.Before (cmd_CreatedAt (cr_command r1)) (cmd_CreatedAt (cr_command r2)) ∨
  (cmd_CreatedAt (cr_command r1) = cmd_CreatedAt (cr_command r2) ∧
   String.le (cmd_HALCommandID (cr_command r1)) (cmd_HALCommandID (cr_command r2))).
#[global] Instance command_before_dec : RelDecision command_before.
Proof. intros l r. unfold command_before. apply _. Defined.
Definition getV1CompletionCommandTx (halID : string) : txm pg (option V1RemoteCommand) :=
  s ← tx_get;
  mret (cr_command <$> head (merge_sort command_before
    (filter (λ r, cmd_Kind (cr_command r) = "STOP" ∧ cr_stopWorkflow r = Some halID)
      (map_to_list (pg_commands s)).*2))).

(** The row a first completion writes. *)
Definition completed_row (t : V1Transaction) (classification : v1MeterEvidence) (meterStopWh : Z)
    (ocppReason : string) (completedAt observedAt : Time) : V1Transaction :=
  t <| tx_MeterStopWh := Some (me_EffectiveWh classification) |>
    <| tx_RawMeterStopWh := Some meterStopWh |>
    <| tx_MeterStopAdjustmentWh := Some (me_AdjustmentWh classification) |>
    <| tx_MeterStopEvidence := class_string (me_Class classification) |>
    <| tx_LatestMeterWh := Some (me_EffectiveWh classification) |>
    <| tx_MeterObservedAt ::= λ previous,
         match previous with
         | Some p => if decide (GoTime.Before completedAt p) then Some p else Some (timestamptz completedAt)
         | None => Some (timestamptz completedAt)
         end |>
    <| tx_OCPPStopReason := ocppReason |>
    <| tx_CompletedAt := Some (timestamptz completedAt) |>
    <| tx_ObservedCompletedAt := Some (timestamptz observedAt) |>
    <| tx_StopState := "COMPLETED" |>.

Definition CompleteV1Transaction (now : Time) (gen : generator) (halID : string) (meterStopWh : Z)
    (ocppReason : string) (completedAt observedAt : Time) : txm pg V1Transaction :=
  rows ← lockV1StopLifecycleRows halID;
  let transaction := sl_Transaction rows in
  if decide (is_Some (tx_CompletedAt transaction)) then
    if decide (replay_matches transaction meterStopWh ocppReason completedAt)
    then mret transaction else tx_fail ErrV1InvalidEvidence
  else if decide (GoTime.Before completedAt (tx_ActualStartedAt transaction) ∨
                  GoTime.Before observedAt (tx_ObservedStartedAt transaction) ∨
                  plausibleV1ProtocolTime completedAt observedAt = false)
  then tx_fail ErrV1InvalidEvidence
  else if decide (some_and (tx_MeterObservedAt transaction) (λ at_, GoTime.After at_ completedAt) ∧
                  some_and (tx_LatestMeterWh transaction) (λ latest, meterStopWh < latest))
  then tx_fail ErrV1InvalidEvidence
  else
    match classifyV1MeterEvidence (tx_MeterStartWh transaction) (tx_LatestMeterWh transaction) meterStopWh with
    | (_, Some _) => tx_fail ErrV1InvalidEvidence
    | (classification, None) =>
      update_transaction halID
        (λ t, completed_row t classification meterStopWh ocppReason completedAt observedAt);;
      (if decide (is_Some (sl_Workflow rows)) then
         tx_modify (update_workflow halID (λ w, wf_State w ≠ "COMPLETED")
           (λ w, w <| wf_State := "COMPLETED" |> <| wf_CompletedAt := Some (timestamptz completedAt) |>
                   <| wf_UpdatedAt := timestamptz now |>))
       else mret ());;
      tx_modify (update_commands (attached_stop halID)
        (λ c, c <| cmd_State := "SUPERSEDED" |> <| cmd_UpdatedAt := timestamptz now |>));;
      completed ← getV1TransactionByID halID;
      command ← getV1CompletionCommandTx halID;
      insertV1FactTx now (gen 0%nat) "transaction.completed" halID None observedAt
        (v1CompletedFact completed command);;
      mret completed
    end.

Definition stop_command_row (id : string) (now : Time) (input : V1StopCommandInput) (workflowID : string) :
    command_row := {|
  cr_command := {|
    cmd_HALCommandID := id; cmd_CMSCommandID := pi_CMSCommandID input; cmd_Kind := "STOP";
    cmd_RequestDigest := pi_RequestDigest input; cmd_CPOID := pi_CPOID input;
    cmd_CustomerID := pi_CustomerID input; cmd_CorrelationID := pi_CorrelationID input;
    cmd_CMSStartIntentID := ""; cmd_CMSChargingSessionID := pi_CMSChargingSessionID input;
    cmd_CMSChargerID := pi_CMSChargerID input; cmd_CMSConnectorID := pi_CMSConnectorID input;
    cmd_ChargerOCPPIdentity := pi_ChargerOCPPIdentity input;
    cmd_OCPPConnectorNumber := pi_OCPPConnectorNumber input; cmd_IDTag := "";
    cmd_CredentialExpiresAt := None; cmd_CommandExpiresAt := timestamptz (pi_CommandExpiresAt input);
    cmd_LimitType := "AUTO"; cmd_EnergyLimitWh := None; cmd_EnergyLimitSource := "NONE";
    cmd_MaxDurationSeconds := None; cmd_DurationLimitSource := "NONE";
    cmd_RequestedStopInitiator := pi_RequestedStopInitiator input;
    cmd_RequestedStopReason := pi_RequestedStopReason input;
    cmd_HALTransactionID := pi_HALTransactionID input;
    cmd_OCPPTransactionID := Some (pi_OCPPTransactionID input); cmd_State := "PERSISTED";
    cmd_DeliveryAttempts := 0; cmd_LastOCPPResult := ""; cmd_LastErrorCategory := "";
    cmd_LastErrorDetail := ""; cmd_CreatedAt := timestamptz now; cmd_UpdatedAt := timestamptz now |};
  cr_stopWorkflow := Some workflowID |}.

(** [clock] is the process clock, [now] the database's. *)
Definition CreateV1StopCommand (now clock : Time) (gen : generator) (input : V1StopCommandInput) :
    txm pg (V1RemoteCommand * bool) :=
  rows ← lockV1StopLifecycleRows (pi_HALTransactionID input);
  let transaction := sl_Transaction rows in
  if decide (is_Some (tx_CompletedAt transaction) ∨
             tx_OCPPTransactionID transaction ≠ pi_OCPPTransactionID input ∨
             tx_CPOID transaction ≠ pi_CPOID input ∨
             tx_CMSChargerID transaction ≠ pi_CMSChargerID input ∨
             tx_CMSConnectorID transaction ≠ pi_CMSConnectorID input ∨
             tx_ChargerOCPPIdentity transaction ≠ pi_ChargerOCPPIdentity input ∨
             tx_OCPPConnectorNumber transaction ≠ pi_OCPPConnectorNumber input)
  then tx_fail ErrV1TransactionNotFound
  else
    wc ← ensureV1StopWorkflowTx now transaction (pi_RequestedStopInitiator input)
           (pi_RequestedStopReason input);
    commandID ← tx_lift (NewSecureUUIDString (gen 0%nat));
    count ← insert_command (stop_command_row commandID now input (wf_HALTransactionID wc.1));
    command ← getV1CommandWith (pi_CMSCommandID input);
    if decide (count = 0) then
      if decide (cmd_RequestDigest command ≠ pi_RequestDigest input)
      then tx_fail ErrV1IdempotencyConflict else mret (command, true)
    else
      insertV1FactTx now (gen 1%nat) "command.updated" (cmd_HALCommandID command) None clock
        (v1CommandFact command);;
      mret (command, false).
End lifecycle.
