(* ===== verification/StopLifecycle.v ===== *)
(** * The transaction life cycle in PostgreSQL: specification and refinement

    An abstract stop machine per transaction, the invariant that ties the
    tables of [PgLifecycle] to their facts, and the theorems that every store
    call (commands, telemetry, stops, completion, recovery, mappings and fact
    delivery, in any order, failed transactions included) implements the
    machine and keeps the invariant. *)
From Stdlib Require Import String.
From stdpp Require Import base numbers decidable option list relations sorting strings gmap.
From S2P Require Import Prelude V1Types Evidence V1Memory PgSchema Outbox PgMapping PgLifecycle.
Open Scope Z_scope.

(** ** The stop machine *)
Record stop_life : Type := mkstop_life {
  life_completed : bool;
  life_stop : option (string * Z)      (* workflow state and delivery attempts *)
}.
Definition fresh_life : stop_life := mkstop_life false None.

Definition marks : list string := ["OCPP_ACCEPTED"; "OCPP_REJECTED"; "AMBIGUOUS"; "DELIVERY_ATTEMPTED"].

Inductive stop_step : stop_life → stop_life → Prop :=
  | stop_requested : stop_step fresh_life (mkstop_life false (Some ("PERSISTED", 0)))
  | stop_claimed n :
      stop_step (mkstop_life false (Some ("PERSISTED", n))) (mkstop_life false (Some ("PENDING_DELIVERY", n)))
  | stop_begun n :
      stop_step (mkstop_life false (Some ("PENDING_DELIVERY", n)))
        (mkstop_life false (Some ("DELIVERY_ATTEMPTED", n + 1)))
  | stop_marked st n st' :
      st ∉ ["COMPLETED"; "SUPERSEDED"] → st' ∈ marks →
      stop_step (mkstop_life false (Some (st, n))) (mkstop_life false (Some (st', n)))
  | stop_unclaimed c n :
      stop_step (mkstop_life c (Some ("PENDING_DELIVERY", n))) (mkstop_life c (Some ("PERSISTED", n)))
  | stop_interrupted c n :
      stop_step (mkstop_life c (Some ("DELIVERY_ATTEMPTED", n))) (mkstop_life c (Some ("AMBIGUOUS", n)))
  | stop_completed w :
      stop_step (mkstop_life false w) (mkstop_life true ((λ sn, ("COMPLETED", sn.2)) <$> w)).

(** The steps the calls other than the deliverer's own make: a stop is
    requested, or the transaction completes. *)
Inductive request_step : stop_life → stop_life → Prop :=
  | request_requested : request_step fresh_life (mkstop_life false (Some ("PERSISTED", 0)))
  | request_completed w :
      request_step (mkstop_life false w) (mkstop_life true ((λ sn, ("COMPLETED", sn.2)) <$> w)).
Lemma request_stop_step l l' : request_step l l' → stop_step l l'.
Proof. by destruct 1; constructor. Qed.

(** The machine's invariant: one delivery at most, none before it is begun, and
    a completed transaction has no live workflow. *)
Definition life_inv (l : stop_life) : Prop :=
  match life_stop l with
  | None => True
  | Some (st, n) =>
    st ∈ workflow_states ∧ 0 ≤ n ≤ 1 ∧ (st ∈ ["PERSISTED"; "PENDING_DELIVERY"] → n = 0) ∧
    (life_completed l = true ↔ st = "COMPLETED")
  end.

Ltac life_solve := split_and!; try lia; try set_solver.
Lemma stop_step_inv l l' : stop_step l l' → life_inv l → life_inv l'.
Proof.
  unfold life_inv, workflow_states. destruct 1 as [|n|n|st n st' Hst Hst'|c n|c n|[[st n]|]]; simpl.
  - intros _. by life_solve.
  - intros (_ & Hn & Hz & Hc). assert (n = 0) as -> by (apply Hz; set_solver). by life_solve.
  - intros (_ & Hn & Hz & Hc). assert (n = 0) as -> by (apply Hz; set_solver). by life_solve.
  - intros (_ & Hn & Hz & Hc). unfold marks in Hst'. by life_solve.
  - intros (_ & Hn & Hz & Hc). assert (n = 0) as -> by (apply Hz; set_solver).
    destruct c; [exfalso; naive_solver|]. by life_solve.
  - intros (_ & Hn & Hz & Hc). destruct c; [exfalso; naive_solver|]. by life_solve.
  - intros (_ & Hn & Hz & Hc). by life_solve.
  - done.
Qed.

Lemma stop_steps_inv l l' : rtc stop_step l l' → life_inv l → life_inv l'.
Proof. induction 1; eauto using stop_step_inv. Qed.

(** Completion is final, and the attempts only grow. *)
Definition life_attempts (l : stop_life) : Z := default 0 (snd <$> life_stop l).
Lemma stop_steps_mono l l' :
  rtc stop_step l l' → (life_completed l = true → life_completed l' = true) ∧
    life_attempts l ≤ life_attempts l' ∧ (life_stop l ≠ None → life_stop l' ≠ None).
Proof.
  induction 1 as [|l1 l2 l3 H12 _ (IH1 & IH2 & IH3)]; [done|]. unfold life_attempts in *.
  destruct H12 as [|n|n|st n st' Hst Hst'|c n|c n|[[st n]|]]; simpl in *; split_and!; auto; try lia.
  all: intros ?; apply IH3; done.
Qed.

(** ** The tables seen as the machine *)
Definition completed (s : pg) (id : string) : Prop :=
  some_and (pg_transactions s !! id) (λ t, is_Some (tx_CompletedAt t)).
#[global] Instance completed_dec s id : Decision (completed s id).
Proof. unfold completed. apply _. Defined.

Definition stop_of (s : pg) (id : string) : option stop_life :=
  (λ t, mkstop_life (bool_decide (is_Some (tx_CompletedAt t)))
          ((λ w, (wf_State w, wf_DeliveryAttempts w)) <$> pg_workflows s !! id)) <$>
  pg_transactions s !! id.

(** ** The invariant of the tables *)
Definition meter_fact : string := "transaction.meter".
Definition soc_fact : string := "transaction.soc".
Definition completed_fact : string := "transaction.completed".
Definition meter_sequence (s : pg) (id : string) : Z := default 0 (tx_MeterSequence <$> pg_transactions s !! id).
Definition soc_sequence (s : pg) (id : string) : Z := default 0 (tx_SoCSequence <$> pg_transactions s !! id).

(** The sequences of the telemetry facts, while they are being appended. *)
Definition sequences_ok (s : pg) (meter soc : string → Z) : Prop :=
  ∀ id, 0 ≤ meter id ∧ 0 ≤ soc id ∧ facts_upto s meter_fact id (meter id) ∧ facts_upto s soc_fact id (soc id).

(** One terminal fact per completed transaction. *)
Definition completions_ok (s : pg) (done_ : string → Prop) : Prop :=
  facts_distinct s completed_fact ∧
  ∀ id, (is_Some (pg_completionKeys s !! id) ↔ done_ id) ∧
    ∀ q, has_fact s completed_fact id q ↔ q = None ∧ done_ id.

Definition rows_ok (s : pg) : Prop :=
  (∀ id t, pg_transactions s !! id = Some t → tx_HALTransactionID t = id) ∧
  (∀ id w, pg_workflows s !! id = Some w → is_Some (pg_transactions s !! id)).

Definition lifecycle_ok (s : pg) : Prop :=
  rows_ok s ∧ sequences_ok s (meter_sequence s) (soc_sequence s) ∧ completions_ok s (completed s).

(** ** Steps that leave the life cycle alone *)
Definition watched : list string := [meter_fact; soc_fact; completed_fact].
Record quiet (s s' : pg) : Prop := {
  quiet_transactions : pg_transactions s' = pg_transactions s;
  quiet_workflows : pg_workflows s' = pg_workflows s;
  quiet_keys : pg_completionKeys s' = pg_completionKeys s;
  quiet_facts ty ag q : ty ∈ watched → has_fact s' ty ag q ↔ has_fact s ty ag q;
  quiet_distinct : facts_distinct s completed_fact → facts_distinct s' completed_fact
}.
#[global] Instance quiet_refl : Reflexive quiet.
Proof. by split. Qed.
#[global] Instance quiet_trans : Transitive quiet.
Proof.
  intros s1 s2 s3 [t w k f d] [t' w' k' f' d']. split; [congruence..| |auto].
  intros ty ag q Hty. by rewrite f', f.
Qed.

Lemma quiet_sequences s s' m n : quiet s s' → sequences_ok s m n → sequences_ok s' m n.
Proof.
  intros Hq Hs id. destruct (Hs id) as (? & ? & Hm & Hn). unfold watched in *.
  split_and!; [done|done|intros q; rewrite (quiet_facts _ _ Hq); [apply Hm|set_solver]..|].
  intros q. rewrite (quiet_facts _ _ Hq); [apply Hn|set_solver].
Qed.

Lemma quiet_completions s s' P : quiet s s' → completions_ok s P → completions_ok s' P.
Proof.
  intros Hq [Hd Hc]. split; [by apply (quiet_distinct _ _ Hq)|]. intros id. rewrite (quiet_keys _ _ Hq).
  destruct (Hc id) as [? Hf]. split; [done|]. intros q. rewrite (quiet_facts _ _ Hq); [done|].
  unfold watched. set_solver.
Qed.

(** A step that rewrites rows but leaves the outbox's watched facts. *)
Lemma quiet_ok s s' : quiet s s' → lifecycle_ok s → lifecycle_ok s'.
Proof.
  intros Hq ([Hk Hw] & Hs & Hc). pose proof (quiet_transactions _ _ Hq) as Ht.
  pose proof (quiet_workflows _ _ Hq) as Hwf. split_and!.
  - split; rewrite Ht; [done|]. rewrite Hwf. done.
  - apply (quiet_sequences s); [done|]. unfold meter_sequence, soc_sequence. by rewrite Ht.
  - apply (quiet_completions s); [done|]. unfold completed. by rewrite Ht.
Qed.

Lemma quiet_stop s s' id : quiet s s' → stop_of s' id = stop_of s id.
Proof. intros Hq. unfold stop_of. by rewrite (quiet_transactions _ _ Hq), (quiet_workflows _ _ Hq). Qed.

(** Databases that agree on the life cycle's tables and on the outbox. *)
Lemma quiet_same s s' :
  pg_transactions s' = pg_transactions s → pg_workflows s' = pg_workflows s →
  pg_completionKeys s' = pg_completionKeys s → pg_facts s' = pg_facts s → quiet s s'.
Proof. intros ? ? ? Hf. split; try done; unfold has_fact, facts_distinct; by rewrite Hf. Qed.

Lemma outbox_only_tables s s' :
  outbox_only s s' → pg_transactions s' = pg_transactions s ∧ pg_workflows s' = pg_workflows s ∧
    pg_commands s' = pg_commands s.
Proof. intros ->. done. Qed.

Section steps.
Context `{FactCodec}.

(** Appending a fact of a kind nobody watches. *)
Lemma insert_quiet now g ty ag q at_ p s s' :
  ty ∉ watched → insertV1FactTx now g ty ag q at_ p s = inl ((), s') → quiet s s'.
Proof.
  unfold watched. intros Hty Hi. assert (ty ≠ "transaction.completed") as Hc by (intros ->; set_solver).
  destruct (insert_fact_keys _ _ _ _ _ _ _ _ _ Hc Hi) as (Ho & Hk & Hf).
  apply outbox_only_tables in Ho as (? & ? & ?). split; [done..| |].
  - intros ty' ag' q' Hty'. rewrite Hf. set_solver.
  - eapply insert_fact_distinct; [exact Hc| |exact Hi]. by right.
Qed.
End steps.

(** Transactions all of whose commits are quiet, by their structure. *)
Definition quiets {A} (c : txm pg A) : Prop := ∀ s a s', c s = inl (a, s') → quiet s s'.

Section quiets.
Context `{FactCodec}.

Lemma quiets_ret {A} (a : A) : quiets (mret a).
Proof. by intros s b s' [= _ <-]. Qed.
Lemma quiets_get : quiets tx_get.
Proof. by intros s b s' [= _ <-]. Qed.
Lemma quiets_fail {A} e : quiets (tx_fail (A := A) e).
Proof. by intros s b s'. Qed.
Lemma quiets_lift {A} (r : result A) : quiets (tx_lift r).
Proof. intros s b s'. unfold tx_lift. destruct r; [|done]. by intros [= _ <-]. Qed.
Lemma quiets_bind {A B} (c : txm pg A) (k : A → txm pg B) :
  quiets c → (∀ a, quiets (k a)) → quiets (c ≫= k).
Proof. intros Hc Hk s b s' (a & s1 & H1 & H2)%tx_bind_inv. trans s1; [by eapply Hc|by eapply Hk]. Qed.
Lemma quiets_modify f :
  (∀ s, pg_transactions (f s) = pg_transactions s ∧ pg_workflows (f s) = pg_workflows s ∧
        pg_completionKeys (f s) = pg_completionKeys s ∧ pg_facts (f s) = pg_facts s) →
  quiets (tx_modify f).
Proof. intros Hf s b s'. rewrite tx_modify_eq. intros [= _ <-]. apply quiet_same; apply Hf. Qed.
Lemma quiets_fact now g ty ag q at_ p :
  ty ∉ watched → quiets (insertV1FactTx now g ty ag q at_ p).
Proof. intros Hty s [] s' Hi. by eapply insert_quiet. Qed.
Lemma quiets_on_duplicate {A} e (c : txm pg A) : quiets c → quiets (on_duplicate e c).
Proof. intros Hc s a s' Hs%on_duplicate_inv. by eapply Hc. Qed.
End quiets.

(** A read that returns the tables it was given. *)
Lemma quiets_read {A} (f : pg → result A) :
  quiets (λ s, match f s with inl a => inl (a, s) | inr e => inr e end).
Proof. intros s a s'. destruct (f s); [|done]. by intros [= _ <-]. Qed.

Ltac not_watched := unfold watched, meter_fact, soc_fact, completed_fact; set_solver.
Ltac quiets_step :=
  match goal with
  | |- quiets (mret _) => apply quiets_ret
  | |- quiets tx_get => apply quiets_get
  | |- quiets (tx_fail _) => apply quiets_fail
  | |- quiets (tx_lift _) => apply quiets_lift
  | |- quiets (_ ≫= _) => apply quiets_bind; [|intros ?]
  | |- quiets (tx_modify _) => apply quiets_modify; intros ?; split_and!; by try reflexivity
  | |- quiets (insertV1FactTx _ _ _ _ _ _ _) => apply quiets_fact; not_watched
  | |- quiets (on_duplicate _ _) => apply quiets_on_duplicate
  | |- quiets (if decide _ then _ else _) => case_decide
  | |- quiets (if ?b then _ else _) => destruct b
  | |- quiets (match ?x with _ => _ end) => destruct x
  | |- quiets (let '(_, _) := ?x in _) => destruct x
  | |- quiets _ => progress cbv zeta
  | |- quiets _ => solve [eauto with quiets]
  end.
Ltac quiets_solve := repeat quiets_step.
Create HintDb quiets.

Section quiet_calls.
Context `{FactCodec}.

Lemma getV1CommandWith_quiets id : quiets (getV1CommandWith id).
Proof. intros s a s'. unfold getV1CommandWith. destruct (_ !! id); [|done]. by intros [= _ <-]. Qed.
Lemma getV1TransactionByID_quiets id : quiets (getV1TransactionByID id).
Proof. intros s a s'. unfold getV1TransactionByID. destruct (_ !! id); [|done]. by intros [= _ <-]. Qed.
Lemma insert_command_quiets row : quiets (insert_command row).
Proof.
  intros s a s'. unfold insert_command. cbv zeta. case_decide; [done|].
  destruct (pg_commands s !! _); [by intros [= _ <-]|].
  case_decide; [done|]. intros [= _ <-]. by apply quiet_same.
Qed.
Lemma insert_credential_quiets c : quiets (insert_credential c).
Proof.
  intros s a s'. unfold insert_credential. case_decide; [done|]. intros [= _ <-]. by apply quiet_same.
Qed.
Lemma insert_mapping_quiets m : quiets (insert_mapping m).
Proof. intros s [] s' (_ & _ & ->)%insert_mapping_inv. by apply quiet_same. Qed.
Lemma insert_connector_quiets c : quiets (insert_connector c).
Proof. intros s [] s' (_ & _ & ->)%insert_connector_inv. by apply quiet_same. Qed.
End quiet_calls.
#[export] Hint Resolve getV1CommandWith_quiets getV1TransactionByID_quiets insert_command_quiets
  insert_credential_quiets insert_mapping_quiets insert_connector_quiets : quiets.

Section quiet_calls2.
Context `{FactCodec}.

Lemma insert_command_facts_quiets now gen ids : quiets (insert_command_facts now gen ids).
Proof. induction ids; simpl; quiets_solve. Qed.
Lemma sync_connectors_quiets input cs : quiets (sync_connectors input cs).
Proof. induction cs; simpl; quiets_solve. Qed.
Lemma CreateV1StartCommand_quiets now gen input : quiets (CreateV1StartCommand now gen input).
Proof.
  unfold CreateV1StartCommand. quiets_step; [quiets_solve|].
  quiets_step; [|quiets_solve].
  intros s r s' Hs. destruct (insert_command _ s) as [[n s1]|e] eqn:E; [|done].
  injection Hs as <- <-. by eapply insert_command_quiets.
Qed.
Lemma MarkV1CommandDelivery_quiets now gen id st r d : quiets (MarkV1CommandDelivery now gen id st r d).
Proof. unfold MarkV1CommandDelivery. quiets_solve. Qed.
Lemma seed_runtime_quiets now id : quiets (tx_modify (seed_runtime now id)).
Proof. apply quiets_modify. intros s. unfold seed_runtime. by destruct (_ !! id). Qed.
Lemma RequeueV1Fact_tables now g id corr s s' :
  RequeueV1Fact now g id corr s = inl ((), s') →
  ∃ r f, pg_facts s !! id = Some r ∧ s' = s <| pg_factAudit := pg_factAudit s' |>
    <| pg_facts := update_row id f (pg_facts s) |>.
Proof.
  intros (a & s1 & Hg & Hs)%tx_bind_inv. unfold tx_lift in Hg.
  destruct (NewSecureUUIDString g); [|done]. injection Hg as -> ->.
  rewrite tx_get_bind in Hs. destruct (pg_facts s1 !! id) as [r|] eqn:E; [|done].
  cbv zeta in Hs. case_decide; [done|]. rewrite tx_modify_bind, tx_modify_eq in Hs.
  injection Hs as <-. exists r. eexists. split; [done|]. by destruct s1.
Qed.
End quiet_calls2.
#[export] Hint Resolve insert_command_facts_quiets sync_connectors_quiets CreateV1StartCommand_quiets
  MarkV1CommandDelivery_quiets seed_runtime_quiets : quiets.

(** ** Fact delivery and mapping calls are quiet *)
Definition same_content (F F' : gmap string fact_row) : Prop :=
  ∀ id, match F !! id with
        | None => F' !! id = None
        | Some r => ∃ d, F' !! id = Some (set_delivery d r)
        end.

Lemma same_content_quiet s s' :
  pg_transactions s' = pg_transactions s → pg_workflows s' = pg_workflows s →
  pg_completionKeys s' = pg_completionKeys s → same_content (pg_facts s) (pg_facts s') → quiet s s'.
Proof.
  intros ? ? ? Hc.
  assert (∀ id r', pg_facts s' !! id = Some r' → ∃ r d, pg_facts s !! id = Some r ∧ r' = set_delivery d r) as Hinv.
  { intros id r' Hr'. specialize (Hc id). destruct (pg_facts s !! id) as [r|]; [|congruence].
    destruct Hc as [d Hd]. exists r, d. split; congruence. }
  split; [done..| |].
  - intros ty ag q _. split.
    + intros (id & r' & Hr' & <- & <- & <-). destruct (Hinv id r' Hr') as (r & d & Hr & ->). by exists id, r.
    + intros (id & r & Hr & <- & <- & <-). specialize (Hc id). rewrite Hr in Hc. destruct Hc as [d Hd].
      by exists id, (set_delivery d r).
  - intros Hd id1 r1 id2 r2 L1 L2 Ht1 Ht2 Ha Hq.
    destruct (Hinv _ _ L1) as (r1' & d1 & L1' & ->), (Hinv _ _ L2) as (r2' & d2 & L2' & ->).
    by eapply Hd.
Qed.

Lemma update_row_content id f F : same_content F (update_row id f F).
Proof.
  intros k. rewrite update_row_lookup. destruct (F !! k) as [r|] eqn:E; case_decide.
  - by exists (f (row_delivery r)).
  - exists (row_delivery r). by rewrite set_get.
  - done.
  - done.
Qed.

Lemma outbox_step_content F (e : outbox_event) : scans F e → same_content F (outbox_step F e).
Proof.
  intros Hs id. destruct (F !! id) as [r|] eqn:E.
  - destruct (outbox_step_row F e id r Hs E) as (d & Hd & _). eauto.
  - destruct e as [now token limit locked ks|now id' token code su te de next]; cbn [outbox_step scans] in *.
    + rewrite (claim_lookup now token limit locked ks F id Hs), E. by case_decide.
    + unfold mark. destruct (F !! id') as [r'|] eqn:E'; simpl; [|done]. case_decide; simpl; [|done].
      rewrite update_row_lookup, E. by case_decide.
Qed.

Section mapping_quiet.
Context `{FactCodec}.

Lemma enabled_mapping_quiets id : quiets (enabled_mapping id).
Proof. unfold enabled_mapping. quiets_solve. Qed.
Lemma insert_reset_facts_quiets now gen l : quiets (insert_reset_facts now gen l).
Proof. induction l as [|[id row] l IH]; simpl; quiets_solve. Qed.
#[local] Hint Resolve enabled_mapping_quiets insert_reset_facts_quiets : quiets.

Lemma write_connection_quiets now g c1 c2 id st gen at_ row :
  quiets (write_connection now g c1 c2 id st gen at_ row).
Proof. unfold write_connection. quiets_solve. Qed.
#[local] Hint Resolve write_connection_quiets : quiets.

Lemma run_tx_quiet {A} (c : txm pg A) s : quiets c → quiet s (run_tx c s).1.
Proof. intros Hc. unfold run_tx. destruct (c s) as [[a s']|] eqn:E; [by eapply Hc|done]. Qed.

Lemma mapping_exec_quiet c s : quiet s (mapping_exec c s).
Proof.
  destruct c; unfold mapping_exec; apply run_tx_quiet;
    unfold SyncV1Mapping, RecordV1BootEvidence, RecordV1ChargerConnection,
      RenewCurrentV1ChargerConnection, RecordV1ConnectorStatus, ResetV1ConnectionRuntime; quiets_solve.
Qed.
End mapping_quiet.

(** ** Writing rows *)
Lemma put_transaction_inv id t s u s' :
  put_transaction id t s = inl (u, s') →
  transaction_check t ∧ s' = s <| pg_transactions ::= <[id := t]> |>.
Proof. unfold put_transaction. case_decide; [|done]. rewrite tx_modify_eq. by intros [= _ <-]. Qed.

Lemma update_transaction_inv id f s u s' :
  update_transaction id f s = inl (u, s') →
  (pg_transactions s !! id = None ∧ s' = s) ∨
  ∃ t, pg_transactions s !! id = Some t ∧ transaction_check (f t) ∧
    s' = s <| pg_transactions ::= <[id := f t]> |>.
Proof.
  unfold update_transaction. rewrite tx_get_bind.
  destruct (pg_transactions s !! id) as [t|]; [|intros [= _ <-]; by left].
  intros [? ->]%put_transaction_inv. right. eauto.
Qed.

Lemma lock_inv id s rows s' :
  lockV1StopLifecycleRows id s = inl (rows, s') →
  s' = s ∧ ∃ t, pg_transactions s !! id = Some t ∧ sl_Transaction rows = read_transaction t ∧
    sl_Workflow rows = pg_workflows s !! id.
Proof.
  unfold lockV1StopLifecycleRows. intros (t & s1 & Ht & Hs)%tx_bind_inv.
  unfold getV1TransactionByID in Ht. destruct (pg_transactions s !! id) as [row|] eqn:E; [|done].
  injection Ht as <- <-. rewrite tx_get_bind in Hs. injection Hs as <- <-. eauto.
Qed.

(** A step that keeps the fact tables, the sequences and the completions. *)
Lemma lifecycle_ok_frame s s' :
  lifecycle_ok s → rows_ok s' → pg_facts s' = pg_facts s → pg_completionKeys s' = pg_completionKeys s →
  (∀ id, meter_sequence s' id = meter_sequence s id) → (∀ id, soc_sequence s' id = soc_sequence s id) →
  (∀ id, completed s' id ↔ completed s id) → lifecycle_ok s'.
Proof.
  intros (_ & Hs & Hd & Hc) Hr Hf Hk Hm Hso Hco.
  split; [done|]. split; [|split].
  - intros id. rewrite Hm, Hso. destruct (Hs id) as (? & ? & Hum & Hus).
    split_and!; [done|done|..]; intros q; unfold has_fact; rewrite Hf; [apply Hum|apply Hus].
  - unfold facts_distinct. by rewrite Hf.
  - intros id. destruct (Hc id) as [C1 C2]. rewrite Hk, Hco. split; [done|].
    intros q. rewrite Hco. unfold has_fact. rewrite Hf. apply C2.
Qed.

(** Rewriting one row without touching what the invariant reads of it. *)
Definition row_frame (t t' : V1Transaction) : Prop :=
  tx_HALTransactionID t' = tx_HALTransactionID t ∧ tx_MeterSequence t' = tx_MeterSequence t ∧
  tx_SoCSequence t' = tx_SoCSequence t ∧ tx_CompletedAt t' = tx_CompletedAt t.

Lemma write_row_ok s s' id t t' :
  lifecycle_ok s → pg_transactions s !! id = Some t → row_frame t t' →
  pg_transactions s' = <[id := t']> (pg_transactions s) →
  (∀ k w, pg_workflows s' !! k = Some w → k = id ∨ is_Some (pg_workflows s !! k)) →
  pg_facts s' = pg_facts s → pg_completionKeys s' = pg_completionKeys s →
  lifecycle_ok s' ∧ (∀ k, completed s' k ↔ completed s k).
Proof.
  intros Hok E (Hid & Hm & Hso & Hc) Ht Hw Hf Hk.
  assert (∀ k, completed s' k ↔ completed s k) as Hco.
  { intros k. unfold completed. rewrite Ht. destruct (decide (k = id)) as [->|].
    - by rewrite lookup_insert_eq, E; simpl; rewrite Hc.
    - by rewrite lookup_insert_ne. }
  split; [|done]. pose proof Hok as ([Hkey Hwf] & _ & _).
  apply (lifecycle_ok_frame s); try done.
  - split; rewrite Ht.
    + intros k t0 [[<- <-]|[_ ?]]%lookup_insert_Some; [rewrite Hid; by apply Hkey|by apply Hkey].
    + intros k w Hkw. destruct (decide (k = id)) as [->|Hne]; [by rewrite lookup_insert_eq|].
      rewrite lookup_insert_ne by done. destruct (Hw k w Hkw) as [?|[w' Hw']]; [done|by eapply Hwf].
  - intros k. unfold meter_sequence. rewrite Ht. destruct (decide (k = id)) as [->|].
    + by rewrite lookup_insert_eq, E; simpl.
    + by rewrite lookup_insert_ne.
  - intros k. unfold soc_sequence. rewrite Ht. destruct (decide (k = id)) as [->|].
    + by rewrite lookup_insert_eq, E; simpl.
    + by rewrite lookup_insert_ne.
Qed.

(** ** What a call does to each transaction *)
Definition moves_by (R : relation stop_life) (s s' : pg) (id : string) : Prop :=
  match stop_of s id with
  | Some l => ∃ l', stop_of s' id = Some l' ∧ rtc R l l'
  | None => stop_of s' id = None ∨ stop_of s' id = Some fresh_life
  end.
Definition safe_by (R : relation stop_life) (s s' : pg) : Prop :=
  lifecycle_ok s → lifecycle_ok s' ∧ ∀ id, moves_by R s s' id.
Abbreviation moves := (moves_by stop_step).
Abbreviation safe := (safe_by stop_step).

Lemma moves_refl {R} s s' id : stop_of s' id = stop_of s id → moves_by R s s' id.
Proof.
  unfold moves_by. intros ->. destruct (stop_of s id) as [l|]; [|by left]. exists l. split; [done|apply rtc_refl].
Qed.

Lemma safe_by_mono (R R' : relation stop_life) s s' :
  (∀ l l', R l l' → R' l l') → safe_by R s s' → safe_by R' s s'.
Proof.
  intros HR Hs Hok. destruct (Hs Hok) as [Hok' Hm]. split; [done|]. intros id. specialize (Hm id).
  unfold moves_by in *. destruct (stop_of s id); [|done]. destruct Hm as (l' & Hl' & Hr).
  exists l'. split; [done|]. by eapply rtc_subrel.
Qed.
Lemma safe_request s s' : safe_by request_step s s' → safe s s'.
Proof. apply safe_by_mono, request_stop_step. Qed.

Lemma safe_quiet {R} s s' : quiet s s' → safe_by R s s'.
Proof. intros Hq Hok. split; [exact (quiet_ok _ _ Hq Hok)|]. intros id. apply moves_refl. by apply quiet_stop. Qed.

Lemma safe_then_quiet {R} s s1 s2 : safe_by R s s1 → quiet s1 s2 → safe_by R s s2.
Proof.
  intros Hs Hq Hok. destruct (Hs Hok) as [Hok1 Hm]. split; [exact (quiet_ok _ _ Hq Hok1)|].
  intros id. unfold moves_by. rewrite (quiet_stop _ _ id Hq). apply Hm.
Qed.

(** One transaction moves, the others keep their rows. *)
Lemma moves_one {R} s s' id l l' :
  stop_of s id = Some l → stop_of s' id = Some l' → rtc R l l' →
  (∀ k, k ≠ id → stop_of s' k = stop_of s k) → ∀ k, moves_by R s s' k.
Proof.
  intros Hl Hl' Hr Ho k. destruct (decide (k = id)) as [->|Hne]; [|by apply moves_refl, Ho].
  unfold moves_by. rewrite Hl. eauto.
Qed.

(** The life of a transaction from its rows. *)
Lemma stop_of_rows s id t :
  pg_transactions s !! id = Some t →
  stop_of s id = Some (mkstop_life (bool_decide (is_Some (tx_CompletedAt t)))
    ((λ w, (wf_State w, wf_DeliveryAttempts w)) <$> pg_workflows s !! id)).
Proof. intros E. unfold stop_of. by rewrite E. Qed.

Lemma stop_of_other s s' id k :
  (∀ j, j ≠ id → pg_transactions s' !! j = pg_transactions s !! j) →
  (∀ j, j ≠ id → pg_workflows s' !! j = pg_workflows s !! j) → k ≠ id → stop_of s' k = stop_of s k.
Proof. intros Ht Hw Hk. unfold stop_of. by rewrite Ht, Hw. Qed.

Section lifecycle_steps.
Context `{FactCodec}.

(** A write of one workflow row along one machine step. *)
Lemma workflow_safe s s' id t w w' :
  pg_transactions s !! id = Some t → pg_workflows s !! id = Some w →
  s' = s <| pg_workflows := <[id := w']> (pg_workflows s) |> →
  stop_step (mkstop_life (bool_decide (is_Some (tx_CompletedAt t))) (Some (wf_State w, wf_DeliveryAttempts w)))
    (mkstop_life (bool_decide (is_Some (tx_CompletedAt t))) (Some (wf_State w', wf_DeliveryAttempts w'))) →
  safe s s'.
Proof.
  intros Et Ew -> Hst Hok. split.
  - pose proof Hok as ([Hk Hw] & _ & _). apply (lifecycle_ok_frame s); try done. split; [done|].
    simpl. intros k w0 [[<- _]|[_ Hkw]]%lookup_insert_Some; [by rewrite Et|by eapply Hw].
  - eapply moves_one.
    + by apply stop_of_rows.
    + apply stop_of_rows. done.
    + rewrite Ew. simpl. rewrite lookup_insert_eq. by apply rtc_once.
    + intros k Hne. apply (stop_of_other _ _ id); [done| |done]. intros j Hj. simpl. by rewrite lookup_insert_ne.
Qed.

Lemma update_workflow_eq id P `{!∀ w, Decision (P w)} f s w :
  pg_workflows s !! id = Some w → P w →
  update_workflow id P f s = s <| pg_workflows := <[id := f w]> (pg_workflows s) |>.
Proof.
  intros E HP. unfold update_workflow. destruct s. unfold set_field. simpl in *. f_equal.
  apply map_eq. intros k. destruct (decide (k = id)) as [->|].
  - by rewrite lookup_alter_eq, lookup_insert_eq, E; simpl; rewrite decide_True.
  - by rewrite lookup_alter_ne, lookup_insert_ne.
Qed.

Lemma ClaimV1StopDelivery_inv now id s b s' :
  ClaimV1StopDelivery now id s = inl (b, s') →
  (b = false ∧ s' = s) ∨
  (b = true ∧ ∃ t w, pg_transactions s !! id = Some t ∧ tx_CompletedAt t = None ∧
     pg_workflows s !! id = Some w ∧ wf_State w = "PERSISTED" ∧
     s' = s <| pg_workflows := <[id := w <| wf_State := "PENDING_DELIVERY" |>
                                        <| wf_UpdatedAt := timestamptz now |>]> (pg_workflows s) |>).
Proof.
  intros (rows & s1 & [-> (t & Et & Ht & Hw)]%lock_inv & Hs)%tx_bind_inv. rewrite Ht, Hw in Hs.
  case_decide as D; [injection Hs as <- <-; by left|]. right.
  apply not_or_and in D as [D1 D2]. apply dec_stable in D2.
  destruct (pg_workflows s !! id) as [w|] eqn:Ew; [|done]. simpl in D2.
  rewrite tx_modify_bind, (update_workflow_eq _ _ _ _ w) in Hs by done.
  injection Hs as <- <-. split; [done|]. exists t, w.
  split_and!; try done. by apply eq_None_not_Some.
Qed.

Lemma BeginV1StopDelivery_inv now id s b s' :
  BeginV1StopDelivery now id s = inl (b, s') →
  (b = false ∧ s' = s) ∨
  (b = true ∧ ∃ t w, pg_transactions s !! id = Some t ∧ tx_CompletedAt t = None ∧
     pg_workflows s !! id = Some w ∧ wf_State w = "PENDING_DELIVERY" ∧
     s' = s <| pg_workflows := <[id := w <| wf_State := "DELIVERY_ATTEMPTED" |>
              <| wf_DeliveryAttempts ::= λ n, n + 1 |> <| wf_UpdatedAt := timestamptz now |>]>
              (pg_workflows s) |>).
Proof.
  intros (rows & s1 & [-> (t & Et & Ht & Hw)]%lock_inv & Hs)%tx_bind_inv. rewrite Ht, Hw in Hs.
  case_decide as D; [injection Hs as <- <-; by left|]. right.
  apply not_or_and in D as [D1 D2]. apply dec_stable in D2.
  destruct (pg_workflows s !! id) as [w|] eqn:Ew; [|done]. simpl in D2.
  rewrite tx_modify_bind, (update_workflow_eq _ _ _ _ w) in Hs by done.
  injection Hs as <- <-. split; [done|]. exists t, w.
  split_and!; try done. by apply eq_None_not_Some.
Qed.

Lemma Claim_safe now id s b s' : ClaimV1StopDelivery now id s = inl (b, s') → safe s s'.
Proof.
  intros [[_ ->]|(_ & t & w & Et & Hc & Ew & Hst & Hs')]%ClaimV1StopDelivery_inv; [by apply safe_quiet|].
  eapply workflow_safe; [done|done|exact Hs'|]. rewrite Hst. simpl.
  rewrite bool_decide_false by (by rewrite eq_None_not_Some in Hc). constructor.
Qed.

Lemma Begin_safe now id s b s' : BeginV1StopDelivery now id s = inl (b, s') → safe s s'.
Proof.
  intros [[_ ->]|(_ & t & w & Et & Hc & Ew & Hst & Hs')]%BeginV1StopDelivery_inv; [by apply safe_quiet|].
  eapply workflow_safe; [done|done|exact Hs'|]. rewrite Hst. simpl.
  rewrite bool_decide_false by (by rewrite eq_None_not_Some in Hc). constructor.
Qed.

(** Recovery rewrites every workflow in one of two states. *)
Lemma recover_safe s (f : V1StopWorkflow → V1StopWorkflow) :
  (∀ w c, rtc stop_step (mkstop_life c (Some (wf_State w, wf_DeliveryAttempts w)))
            (mkstop_life c (Some (wf_State (f w), wf_DeliveryAttempts (f w))))) →
  safe s (s <| pg_workflows ::= fmap f |>).
Proof.
  intros Hf Hok. split.
  - pose proof Hok as ([Hk Hw] & _ & _). apply (lifecycle_ok_frame s); try done. split; [done|].
    simpl. intros id w. rewrite lookup_fmap. intros (w0 & Hw0 & _)%fmap_Some. by eapply Hw.
  - intros id. unfold moves_by, stop_of. simpl. destruct (pg_transactions s !! id) as [t|]; [|by left].
    simpl. eexists. split; [done|]. rewrite lookup_fmap.
    destruct (pg_workflows s !! id) as [w|]; [|apply rtc_refl]. simpl. apply Hf.
Qed.

Lemma recover_pending_safe now s : safe s (recover_pending_stops now s).
Proof.
  apply recover_safe. intros w c. case_decide as D; [|apply rtc_refl]. rewrite D. simpl.
  apply rtc_once. constructor.
Qed.
Lemma recover_attempted_safe now s : safe s (recover_attempted_stops now s).
Proof.
  apply recover_safe. intros w c. case_decide as D; [|apply rtc_refl]. rewrite D. simpl.
  apply rtc_once. constructor.
Qed.
End lifecycle_steps.

Section lifecycle_writes.
Context `{FactCodec}.

Lemma read_transaction_frame t :
  tx_HALTransactionID (read_transaction t) = tx_HALTransactionID t ∧
  tx_CompletedAt (read_transaction t) = tx_CompletedAt t ∧
  tx_MeterSequence (read_transaction t) = tx_MeterSequence t ∧
  tx_SoCSequence (read_transaction t) = tx_SoCSequence t.
Proof. done. Qed.

(** The workflow either exists, or is created on an open transaction. *)
Lemma ensure_inv now t i r s wc s' row :
  pg_transactions s !! tx_HALTransactionID t = Some row → tx_CompletedAt t = tx_CompletedAt row →
  ensureV1StopWorkflowTx now t i r s = inl (wc, s') →
  (s' = s ∧ is_Some (pg_workflows s !! tx_HALTransactionID t) ∧ wc.2 = false) ∨
  (pg_workflows s !! tx_HALTransactionID t = None ∧ tx_CompletedAt row = None ∧ wc.2 = true ∧
   i ∈ stop_initiators ∧
   s' = s <| pg_workflows ::= <[tx_HALTransactionID t :=
            mkV1StopWorkflow (tx_HALTransactionID t) i r "PERSISTED" 0 "" "" "" (timestamptz now)
              (timestamptz now) None]> |>
          <| pg_transactions ::= <[tx_HALTransactionID t :=
            row <| tx_StopState := "PERSISTED" |> <| tx_RequestedStopInitiator := i |>
                <| tx_RequestedStopReason := r |>]> |>).
Proof.
  intros Erow Hc Hs. unfold ensureV1StopWorkflowTx in Hs. rewrite tx_get_bind in Hs.
  destruct (pg_workflows s !! tx_HALTransactionID t) as [w|] eqn:Ew.
  { injection Hs as <- <-. left. eauto. }
  case_decide as Dc; [done|]. case_decide as Di; [done|]. right.
  rewrite tx_modify_bind in Hs. apply tx_bind_inv in Hs as (u & s1 & Hu & Hs). injection Hs as <- <-.
  apply update_transaction_inv in Hu as [[Hn _]|(row' & Er & _ & ->)]; [simpl in Hn; congruence|].
  simpl in Er. rewrite Erow in Er. injection Er as <-.
  split_and!; [done|rewrite <- Hc; by apply eq_None_not_Some|done|done|done].
Qed.

Lemma ensure_safe now t i r s wc s' row id :
  tx_HALTransactionID t = id → pg_transactions s !! id = Some row → tx_CompletedAt t = tx_CompletedAt row →
  ensureV1StopWorkflowTx now t i r s = inl (wc, s') → safe_by request_step s s'.
Proof.
  intros <- Erow Hc Hs. destruct (ensure_inv _ _ _ _ _ _ _ _ Erow Hc Hs)
    as [(-> & _)|(Ew & Hopen & _ & _ & Hs')].
  { by apply safe_quiet. }
  set (id := tx_HALTransactionID t) in *. intros Hok.
  destruct (write_row_ok s s' id row (row <| tx_StopState := "PERSISTED" |>
    <| tx_RequestedStopInitiator := i |> <| tx_RequestedStopReason := r |>)) as [Hok' _];
    [done|done|done|by rewrite Hs'| |by rewrite Hs'..|].
  { rewrite Hs'. simpl. intros k w [[-> _]|[_ ?]]%lookup_insert_Some; [by left|right; eauto]. }
  split; [done|]. eapply (moves_one s s' id).
  - by apply stop_of_rows.
  - apply stop_of_rows. rewrite Hs'. simpl. apply lookup_insert_eq.
  - simpl. rewrite Ew, Hs', Hopen. simpl. rewrite lookup_insert_eq. simpl.
    apply rtc_once. constructor.
  - intros k Hne. apply (stop_of_other _ _ id); rewrite ?Hs'; [..|done]; intros j Hj; simpl;
      by rewrite lookup_insert_ne.
Qed.

Lemma Ensure_safe now id i r s wc s' : EnsureV1StopWorkflow now id i r s = inl (wc, s') → safe_by request_step s s'.
Proof.
  intros (rows & s1 & [-> (t & Et & Ht & Hw)]%lock_inv & Hs)%tx_bind_inv. rewrite Ht in Hs.
  intros Hok. pose proof Hok as ([Hk _] & _).
  eapply (ensure_safe now (read_transaction t) i r s wc s' t id); [by apply (Hk id t)|done|done|done|done].
Qed.

Lemma mark_state_marks status : (mark_state status).1 ∈ marks.
Proof. unfold mark_state, marks. repeat case_decide; set_solver. Qed.

(** A mark either changes nothing of the life cycle, or writes the rows of one
    open transaction. *)
Lemma MarkStop_inv now gen id st r d s s' :
  MarkV1StopDelivery now gen id st r d s = inl ((), s') →
  quiet s s' ∨
  ∃ t w w' s2, pg_transactions s !! id = Some t ∧ tx_CompletedAt t = None ∧
    pg_workflows s !! id = Some w ∧ wf_State w ∉ ["COMPLETED"; "SUPERSEDED"] ∧
    wf_State w' = (mark_state st).1 ∧ wf_DeliveryAttempts w' = wf_DeliveryAttempts w ∧
    s2 = s <| pg_workflows := <[id := w']> (pg_workflows s) |>
           <| pg_transactions ::= <[id := t <| tx_StopState := (mark_state st).1 |>]> |> ∧
    quiet s2 s'.
Proof.
  intros Hs. unfold MarkV1StopDelivery in Hs. destruct (mark_state st) as [state category].
  apply tx_bind_inv in Hs as (rows & s1 & [-> (t & Et & Ht & Hw)]%lock_inv & Hs). rewrite Ht, Hw in Hs.
  case_decide as D; [injection Hs as <-; by left|]. right.
  apply not_or_and in D as [D1 D2]. apply dec_stable in D2.
  destruct (pg_workflows s !! id) as [w|] eqn:Ew; [|done]. simpl in D1, D2.
  rewrite tx_modify_bind, (update_workflow_eq _ _ _ _ w) in Hs; [|done|set_solver].
  apply tx_bind_inv in Hs as (u & s2 & Hu & Hs).
  set (s1 := s <| pg_workflows := _ |>) in *.
  assert (tx_CompletedAt t = None) as Hc by (by apply eq_None_not_Some).
  apply update_transaction_inv in Hu as [[Hn _]|(t' & Et' & _ & Hs2)]; [simpl in Hn; congruence|].
  simpl in Et'. rewrite Et in Et'. injection Et' as <-. rewrite decide_True in Hs2 by done.
  exists t, w, (w <| wf_State := state |> <| wf_LastOCPPResult := r |>
    <| wf_LastErrorCategory := category |> <| wf_LastErrorDetail := d |> <| wf_UpdatedAt := timestamptz now |>), s2.
  split_and!; try done.
  - set_solver.
  - rewrite tx_get_bind in Hs. cbv zeta in Hs. rewrite tx_modify_bind in Hs.
    trans (update_commands (λ r0, cmd_Kind (cr_command r0) = "STOP" ∧ attached_stop id r0)
      (marked_command now state r category d) s2).
    + by apply quiet_same.
    + by eapply insert_command_facts_quiets.
Qed.

Lemma MarkStop_frame now gen id st r d s s' k :
  MarkV1StopDelivery now gen id st r d s = inl ((), s') → k ≠ id → stop_of s' k = stop_of s k.
Proof.
  intros [Hq|(t & w & w' & s2 & _ & _ & _ & _ & _ & _ & Hs2 & Hq)]%MarkStop_inv Hne;
    rewrite (quiet_stop _ _ k Hq); [done|].
  apply (stop_of_other _ _ id); rewrite ?Hs2; [..|done]; intros j Hj; simpl; by rewrite lookup_insert_ne.
Qed.

Lemma MarkStop_safe now gen id st r d s s' : MarkV1StopDelivery now gen id st r d s = inl ((), s') → safe s s'.
Proof.
  intros Hmark. pose proof (MarkStop_inv _ _ _ _ _ _ _ _ Hmark)
    as [Hq|(t & w & w' & s2 & Et & Hc & Ew & Hst & Hst' & Hn & Hs2 & Hq)]; [by apply safe_quiet|].
  apply (safe_then_quiet s s2); [|done]. intros Hok.
  destruct (write_row_ok s s2 id t (t <| tx_StopState := (mark_state st).1 |>)) as [Hok' _];
    [done|done|done|by rewrite Hs2| |by rewrite Hs2..|].
  { rewrite Hs2. simpl. intros k w0 [[-> _]|[_ ?]]%lookup_insert_Some; [by left|right; eauto]. }
  split; [done|]. eapply (moves_one s s2 id).
  - by apply stop_of_rows.
  - apply stop_of_rows. rewrite Hs2. simpl. apply lookup_insert_eq.
  - simpl. rewrite Ew, Hs2, Hc. simpl. rewrite lookup_insert_eq. simpl. rewrite Hst', Hn.
    apply rtc_once. constructor; [done|apply mark_state_marks].
  - intros k Hne. rewrite <- (quiet_stop _ _ k Hq). exact (MarkStop_frame _ _ _ _ _ _ _ _ _ Hmark Hne).
Qed.
End lifecycle_writes.

Section lifecycle_creation.
Context `{FactCodec}.

Lemma insert_transaction_inv t s u s' :
  insert_transaction t s = inl (u, s') →
  transaction_check t ∧ pg_transactions s !! tx_HALTransactionID t = None ∧
  s' = s <| pg_transactions ::= <[tx_HALTransactionID t := t]> |>.
Proof.
  unfold insert_transaction. case_decide as D; [done|]. case_decide as D2; [done|].
  intros [= _ <-]. split; [done|]. split; [|done].
  apply not_or_and in D2 as [D2 _]. by apply eq_None_not_Some.
Qed.

(** A new open transaction without evidence. *)
Lemma insert_row_safe s t :
  pg_transactions s !! tx_HALTransactionID t = None → tx_CompletedAt t = None →
  tx_MeterSequence t = 0 → tx_SoCSequence t = 0 →
  safe_by request_step s (s <| pg_transactions ::= <[tx_HALTransactionID t := t]> |>).
Proof.
  intros En Hc Hm Hso Hok. set (id := tx_HALTransactionID t) in *.
  set (s' := s <| pg_transactions ::= _ |>).
  assert (pg_transactions s' = <[id := t]> (pg_transactions s)) as Ht by done.
  pose proof Hok as ([Hk Hw] & _ & _). split.
  - apply (lifecycle_ok_frame s); try done.
    + split; rewrite Ht.
      * intros k t0 [[<- <-]|[_ ?]]%lookup_insert_Some; [done|by apply Hk].
      * intros k w Hkw. destruct (decide (k = id)) as [->|]; [by rewrite lookup_insert_eq|].
        rewrite lookup_insert_ne by done. by eapply Hw.
    + intros k. unfold meter_sequence. rewrite Ht. destruct (decide (k = id)) as [->|];
        [by rewrite lookup_insert_eq, En; simpl; rewrite Hm|by rewrite lookup_insert_ne].
    + intros k. unfold soc_sequence. rewrite Ht. destruct (decide (k = id)) as [->|];
        [by rewrite lookup_insert_eq, En; simpl; rewrite Hso|by rewrite lookup_insert_ne].
    + intros k. unfold completed. rewrite Ht. destruct (decide (k = id)) as [->|];
        [|by rewrite lookup_insert_ne]. rewrite lookup_insert_eq, En. simpl. rewrite Hc.
      split; [by intros [? ?]|done].
  - intros k. destruct (decide (k = id)) as [->|Hne].
    + unfold moves_by, stop_of. rewrite En, Ht, lookup_insert_eq. simpl. right. rewrite Hc. simpl.
      destruct (pg_workflows s !! id) as [w|] eqn:Ew; [|done].
      destruct (Hw id w Ew) as [? ?]. congruence.
    + apply moves_refl, (stop_of_other _ _ id); [|done|done]. intros j Hj. rewrite Ht.
      by rewrite lookup_insert_ne.
Qed.

Lemma Materialize_safe now gen input s r s' : MaterializeV1Start now gen input s = inl (r, s') → safe_by request_step s s'.
Proof.
  intros Hs. unfold MaterializeV1Start in Hs. case_decide; [done|]. rewrite tx_get_bind in Hs.
  destruct (pg_credentials s !! mat_IDTag input) as [c|]; [|done]. case_decide as Dh.
  { match type of Hs with ?c ?s0 = _ => assert (quiets c) as Hq by quiets_solve end.
    apply safe_quiet. by apply (Hq _ _ _ Hs). }
  case_decide; [done|]. destruct (find_row _ (pg_commands s)) as [[key row]|]; [|done].
  cbv zeta in Hs. case_decide; [done|].
  apply tx_bind_inv in Hs as (halID & s1 & Hg & Hs). unfold tx_lift in Hg.
  destruct (NewSecureUUIDString (gen 0%nat)) as [hal|]; [|done]. injection Hg as <- <-.
  apply tx_bind_inv in Hs as (u & s2 & Hi & Hs).
  set (t := stored_transaction _) in Hi.
  assert (insert_transaction t s = inl (u, s2)) as Hi'.
  { destruct (insert_transaction t s) as [[u' s2']|]; [|done]. by injection Hi as <- <-. }
  apply insert_transaction_inv in Hi' as (_ & Hnone & ->).
  eapply safe_then_quiet; [by apply insert_row_safe|].
  match type of Hs with ?c ?s0 = _ => assert (quiets c) as Hq by quiets_solve end.
  by apply (Hq _ _ _ Hs).
Qed.

Lemma CreateV1StopCommand_safe now clock gen input s r s' :
  CreateV1StopCommand now clock gen input s = inl (r, s') → safe_by request_step s s'.
Proof.
  intros Hs. unfold CreateV1StopCommand in Hs.
  apply tx_bind_inv in Hs as (rows & s1 & [-> (t & Et & Ht & Hw)]%lock_inv & Hs). rewrite Ht in Hs.
  cbv zeta in Hs. case_decide; [done|]. apply tx_bind_inv in Hs as (wc & s2 & He & Hs).
  intros Hok. pose proof Hok as ([Hk _] & _).
  apply (safe_then_quiet s s2).
  - eapply (ensure_safe now (read_transaction t) _ _ s wc s2 t (pi_HALTransactionID input));
      [by apply (Hk _ t)|done|done|done].
  - match type of Hs with ?c ?s0 = _ => assert (quiets c) as Hq by quiets_solve end.
    by apply (Hq _ _ _ Hs).
  - done.
Qed.

(** ** Completion *)
Lemma update_workflow_same id P `{!∀ w, Decision (P w)} f s :
  pg_workflows s !! id = None → update_workflow id P f s = s.
Proof.
  intros E. unfold update_workflow. destruct s. unfold set_field. simpl in *. f_equal.
  by apply alter_id; intros w; rewrite E.
Qed.

(** The rows and the terminal fact of a first completion. *)
Lemma CompleteV1Transaction_inv now gen id stop reason cAt oAt s t' s' :
  CompleteV1Transaction now gen id stop reason cAt oAt s = inl (t', s') →
  ∃ t, pg_transactions s !! id = Some t ∧
  (is_Some (tx_CompletedAt t) ∧ s' = s ∧ t' = read_transaction t ∧
     replay_matches (read_transaction t) stop reason cAt ∨
   tx_CompletedAt t = None ∧ ∃ cls s1,
     classifyV1MeterEvidence (tx_MeterStartWh t) (tx_LatestMeterWh t) stop = (cls, None) ∧
     t' = read_transaction (completed_row t cls stop reason cAt oAt) ∧
     pg_transactions s1 = <[id := completed_row t cls stop reason cAt oAt]> (pg_transactions s) ∧
     pg_workflows s1 !! id = (λ w, if decide (wf_State w ≠ "COMPLETED") then
         w <| wf_State := "COMPLETED" |> <| wf_CompletedAt := Some (timestamptz cAt) |>
           <| wf_UpdatedAt := timestamptz now |> else w) <$> pg_workflows s !! id ∧
     (∀ k, k ≠ id → pg_workflows s1 !! k = pg_workflows s !! k) ∧
     pg_facts s1 = pg_facts s ∧ pg_completionKeys s1 = pg_completionKeys s ∧
     ∃ p, insertV1FactTx now (gen 0%nat) completed_fact id None oAt p s1 = inl ((), s')).
Proof.
  intros Hs. unfold CompleteV1Transaction in Hs.
  apply tx_bind_inv in Hs as (rows & s0 & [-> (t & Et & Ht & Hw)]%lock_inv & Hs). rewrite Ht, Hw in Hs.
  cbv zeta in Hs. exists t. split; [done|]. case_decide as Dc.
  { left. case_decide; [|done]. injection Hs as <- <-. done. }
  right. case_decide; [done|]. case_decide; [done|].
  change (tx_MeterStartWh (read_transaction t)) with (tx_MeterStartWh t) in Hs.
  change (tx_LatestMeterWh (read_transaction t)) with (tx_LatestMeterWh t) in Hs.
  destruct (classifyV1MeterEvidence _ _ _) as [cls [e|]] eqn:Ecl; [done|].
  split; [by apply eq_None_not_Some|].
  apply tx_bind_inv in Hs as (u1 & s1 & B1 & Hs). apply tx_bind_inv in Hs as (u2 & s2 & B2 & Hs).
  rewrite tx_modify_bind in Hs. set (s3 := update_commands _ _ s2) in Hs.
  apply tx_bind_inv in Hs as (tc & s4 & B4 & Hs). apply tx_bind_inv in Hs as (cmd & s5 & B5 & Hs).
  apply tx_bind_inv in Hs as ([] & s6 & B6 & Hs). injection Hs as <- <-.
  apply update_transaction_inv in B1 as [[Hn _]|(t0 & Et0 & _ & ->)]; [congruence|].
  rewrite Et in Et0. injection Et0 as <-.
  assert (s5 = s3 ∧ s4 = s3 ∧ pg_transactions s3 = pg_transactions s2) as (-> & -> & Ht3).
  { unfold getV1TransactionByID in B4. destruct (pg_transactions s3 !! id); [|done].
    injection B4 as _ <-. unfold getV1CompletionCommandTx in B5. rewrite tx_get_bind in B5.
    by injection B5 as _ <-. }
  set (s1 := s <| pg_transactions ::= _ |>) in *.
  assert (pg_transactions s2 = pg_transactions s1 ∧ pg_facts s2 = pg_facts s1 ∧
    pg_completionKeys s2 = pg_completionKeys s1 ∧
    pg_workflows s2 !! id = (λ w, if decide (wf_State w ≠ "COMPLETED") then
         w <| wf_State := "COMPLETED" |> <| wf_CompletedAt := Some (timestamptz cAt) |>
           <| wf_UpdatedAt := timestamptz now |> else w) <$> pg_workflows s !! id ∧
    (∀ k, k ≠ id → pg_workflows s2 !! k = pg_workflows s !! k)) as (T2 & F2 & K2 & W2 & O2).
  { case_decide as Dw.
    - rewrite tx_modify_eq in B2. injection B2 as _ <-. unfold update_workflow. simpl.
      split_and!; try done; [by rewrite lookup_alter_eq|].
      intros k Hk. by rewrite lookup_alter_ne.
    - injection B2 as _ <-. split_and!; try done. simpl.
      destruct (pg_workflows s !! id); [exfalso; apply Dw; eauto|done]. }
  exists cls, s3. split_and!; try done.
  - unfold getV1TransactionByID in B4. rewrite Ht3, T2 in B4. unfold s1 in B4. simpl in B4.
    rewrite lookup_insert_eq in B4. by injection B4 as <-.
  - eauto.
Qed.

Lemma completed_row_frame t cls stop reason cAt oAt :
  tx_HALTransactionID (completed_row t cls stop reason cAt oAt) = tx_HALTransactionID t ∧
  tx_MeterSequence (completed_row t cls stop reason cAt oAt) = tx_MeterSequence t ∧
  tx_SoCSequence (completed_row t cls stop reason cAt oAt) = tx_SoCSequence t ∧
  is_Some (tx_CompletedAt (completed_row t cls stop reason cAt oAt)).
Proof. unfold completed_row. simpl. eauto. Qed.
End lifecycle_creation.

Section lifecycle_facts.
Context `{FactCodec}.

(** The first completion of an open transaction, and its only terminal fact. *)
Lemma append_completion now g id at_ p s s' P :
  completions_ok s P → ¬ P id →
  insertV1FactTx now g completed_fact id None at_ p s = inl ((), s') →
  completions_ok s' (λ k, k = id ∨ P k) ∧ outbox_only s s' ∧
  (∀ ty ag q, ty ≠ completed_fact → has_fact s' ty ag q ↔ has_fact s ty ag q).
Proof.
  intros [Hd Hc] HP Hi.
  apply insertV1FactTx_completed_inv in Hi as [[Hk _]|(Hk & row & Happ & ->)].
  { destruct (Hc id) as [Hiff _]. by apply Hiff in Hk. }
  set (s' := s <| pg_facts ::= _ |> <| pg_completionKeys ::= _ |>).
  pose proof (λ ty ag q, appended_has_fact now completed_fact id None at_ p s s' row ty ag q Happ eq_refl) as Hf.
  split_and!; [split| |].
  - destruct Happ as (fid & body & en & _ & _ & -> & Hn & _).
    assert (∀ k r, pg_facts s !! k = Some r → fact_FactType (fr_fact r) = completed_fact →
      fr_aggregate r = id → fr_sequence r = None → False) as Hnew.
    { intros k r Hr Ht Ha Hq. destruct (Hc id) as [_ Hfc]. apply HP.
      apply (Hfc None). by exists k, r. }
    intros id1 r1 id2 r2. unfold s'. simpl.
    intros [[<- <-]|[_ L1]]%lookup_insert_Some [[<- <-]|[_ L2]]%lookup_insert_Some; simpl; try done.
    + intros _ Hty Ha Hq. exfalso. by eapply Hnew.
    + intros Hty _ Ha Hq. exfalso. by eapply Hnew.
    + intros. by eapply Hd.
  - intros k. unfold s' at 1. simpl. destruct (Hc k) as [Hik Hfk]. split.
    + destruct (decide (k = id)) as [->|Hne]; [rewrite lookup_insert_eq; naive_solver|].
      rewrite lookup_insert_ne by done. rewrite Hik. naive_solver.
    + intros q. rewrite Hf, Hfk. naive_solver.
  - by destruct s.
  - intros ty ag q Hne. rewrite Hf. naive_solver.
Qed.

(** Rows of [s'] with one row completed. *)
Lemma Complete_safe now gen id stop reason cAt oAt s t' s' :
  CompleteV1Transaction now gen id stop reason cAt oAt s = inl (t', s') → safe_by request_step s s'.
Proof.
  intros (t & Et & [(_ & -> & _)|(Hopen & cls & s1 & _ & _ & Ht1 & Hw1 & Ho1 & Hf1 & Hk1 & p & Hi)])%CompleteV1Transaction_inv;
    [by apply safe_quiet|].
  destruct (completed_row_frame t cls stop reason cAt oAt) as (Fid & Fm & Fs & Fc).
  set (t1 := completed_row t cls stop reason cAt oAt) in *.
  intros Hok. pose proof Hok as ([Hk Hw] & Hs & Hcs).
  assert (¬ completed s id) as Hnc.
  { unfold completed. rewrite Et. simpl. rewrite Hopen. by intros [? ?]. }
  assert (completions_ok s1 (completed s)) as Hcs1.
  { destruct Hcs as [Hd Hc]. split; [unfold facts_distinct; by rewrite Hf1|].
    intros k. rewrite Hk1. unfold has_fact. rewrite Hf1. apply Hc. }
  destruct (append_completion _ _ _ _ _ _ _ _ Hcs1 Hnc Hi) as (Hcs' & Ho & Hfo).
  apply outbox_only_tables in Ho as (Ht' & Hw' & _). rewrite Ht1 in Ht'.
  assert (∀ k, completed s' k ↔ k = id ∨ completed s k) as Hco.
  { intros k. unfold completed. rewrite Ht'. destruct (decide (k = id)) as [->|];
      [rewrite lookup_insert_eq; simpl; naive_solver|rewrite lookup_insert_ne by done; naive_solver]. }
  split.
  - split; [|split].
    + split; rewrite Ht'.
      * intros k t0 [[<- <-]|[_ ?]]%lookup_insert_Some; [rewrite Fid; by apply Hk|by apply Hk].
      * rewrite Hw'. intros k w Hkw. destruct (decide (k = id)) as [->|Hne]; [by rewrite lookup_insert_eq|].
        rewrite lookup_insert_ne by done. rewrite Ho1 in Hkw by done. by eapply Hw.
    + intros k. assert (meter_sequence s' k = meter_sequence s k ∧ soc_sequence s' k = soc_sequence s k) as [-> ->].
      { unfold meter_sequence, soc_sequence. rewrite Ht'. destruct (decide (k = id)) as [->|];
          [by rewrite lookup_insert_eq, Et|by rewrite lookup_insert_ne]. }
      destruct (Hs k) as (? & ? & Hm & Hso). split_and!; [done|done|..]; intros q;
        rewrite Hfo by done; unfold has_fact; rewrite Hf1; [apply Hm|apply Hso].
    + destruct Hcs' as [Hd' Hc']. split; [done|]. intros k. destruct (Hc' k) as [Ha Hb].
      rewrite Hco. split; [done|]. intros q. rewrite Hco. apply Hb.
  - eapply (moves_one s s' id).
    + by apply stop_of_rows.
    + apply stop_of_rows. rewrite Ht'. apply lookup_insert_eq.
    + rewrite Hopen, Hw', Hw1. rewrite (bool_decide_true (is_Some (tx_CompletedAt t1))) by done. simpl.
      eapply rtc_l; [apply request_completed|]. destruct (pg_workflows s !! id) as [w|]; simpl; [|apply rtc_refl].
      case_decide as D; simpl; [apply rtc_refl|].
      rewrite D. apply rtc_refl.
    + intros k Hne. apply (stop_of_other _ _ id); [|intros j Hj; rewrite Hw'; by apply Ho1|done].
      intros j Hj. rewrite Ht'. by rewrite lookup_insert_ne.
Qed.

(** Facts of other kinds keep the terminal ones. *)
Lemma append_other now g ty ag q at_ p s s' P :
  ty ≠ completed_fact → insertV1FactTx now g ty ag q at_ p s = inl ((), s') →
  completions_ok s P → completions_ok s' P.
Proof.
  intros Hty Hi [Hd Hc]. destruct (insert_fact_keys _ _ ty _ _ _ _ _ _ Hty Hi) as (_ & Hk & Hf).
  split; [eapply insert_fact_distinct; [done|by right|exact Hi|exact Hd]|].
  intros k. rewrite Hk. destruct (Hc k) as [Ha Hb]. split; [done|]. intros q'. rewrite Hf, Hb. naive_solver.
Qed.

(** The next telemetry fact of one transaction. *)
Lemma append_meter now g id at_ p s s' m n :
  sequences_ok s m n → insertV1FactTx now g meter_fact id (Some (m id + 1)) at_ p s = inl ((), s') →
  sequences_ok s' (λ k, if decide (k = id) then m id + 1 else m k) n ∧ outbox_only s s' ∧
  pg_completionKeys s' = pg_completionKeys s ∧
  (∀ P, completions_ok s P → completions_ok s' P).
Proof.
  intros Hs Hi. destruct (Hs id) as (H0 & _ & Hm & _).
  destruct (insert_fact_next _ _ meter_fact _ _ _ _ _ _ ltac:(done) H0 Hm Hi) as [Hm' _].
  destruct (insert_fact_keys _ _ meter_fact _ _ _ _ _ _ ltac:(done) Hi) as (Ho & Hk & Hf).
  split_and!; [|done|done|].
  - intros k. destruct (Hs k) as (? & ? & Hmk & Hsk). split_and!; [case_decide; lia|done| |].
    + case_decide as D; [by subst|]. intros q. rewrite Hf, (Hmk q). naive_solver.
    + intros q. rewrite Hf, (Hsk q). naive_solver.
  - intros P. exact (append_other _ _ meter_fact _ _ _ _ _ _ P ltac:(done) Hi).
Qed.

Lemma append_soc now g id at_ p s s' m n :
  sequences_ok s m n → insertV1FactTx now g soc_fact id (Some (n id + 1)) at_ p s = inl ((), s') →
  sequences_ok s' m (λ k, if decide (k = id) then n id + 1 else n k) ∧ outbox_only s s' ∧
  pg_completionKeys s' = pg_completionKeys s ∧
  (∀ P, completions_ok s P → completions_ok s' P).
Proof.
  intros Hs Hi. destruct (Hs id) as (_ & H0 & _ & Hm).
  destruct (insert_fact_next _ _ soc_fact _ _ _ _ _ _ ltac:(done) H0 Hm Hi) as [Hm' _].
  destruct (insert_fact_keys _ _ soc_fact _ _ _ _ _ _ ltac:(done) Hi) as (Ho & Hk & Hf).
  split_and!; [|done|done|].
  - intros k. destruct (Hs k) as (? & ? & Hmk & Hsk). split_and!; [done|case_decide; lia| |].
    + intros q. rewrite Hf, (Hmk q). naive_solver.
    + case_decide as D; [by subst|]. intros q. rewrite Hf, (Hsk q). naive_solver.
  - intros P. exact (append_other _ _ soc_fact _ _ _ _ _ _ P ltac:(done) Hi).
Qed.
End lifecycle_facts.

Section telemetry.
Context `{FactCodec}.

(** What an accepted reading changes of the fields the invariant reads. *)
Lemma accepted_energy_frame tel t t' :
  accepted_energy tel t = Some t' →
  tx_HALTransactionID t' = tx_HALTransactionID t ∧ tx_MeterSequence t' = tx_MeterSequence t + 1 ∧
  tx_SoCSequence t' = tx_SoCSequence t ∧ tx_CompletedAt t = None ∧ tx_CompletedAt t' = None.
Proof.
  unfold accepted_energy. destruct (tel_EnergyWh tel) as [w|]; [|done].
  destruct (tel_EnergyObservedAt tel) as [at_|]; [|done]. case_decide as D; [|done].
  unfold energy_row. cbv zeta. intros (u & Hu & ->)%fmap_Some.
  assert (tx_HALTransactionID u = tx_HALTransactionID t ∧ tx_MeterSequence u = tx_MeterSequence t ∧
    tx_SoCSequence u = tx_SoCSequence t ∧ tx_CompletedAt u = tx_CompletedAt t) as (? & Hm & ? & Hc).
  { destruct (tx_LatestMeterWh t) as [l|]; [|by simplify_eq].
    case_decide; [|by simplify_eq]. destruct (classifyV1MeterEvidence _ _ _) as [c e].
    case_decide; [done|]. by simplify_eq. }
  simpl. rewrite Hm, Hc. destruct D as [? _]. done.
Qed.

Lemma accepted_soc_frame tel t t' :
  accepted_soc tel t = Some t' →
  tx_HALTransactionID t' = tx_HALTransactionID t ∧ tx_MeterSequence t' = tx_MeterSequence t ∧
  tx_SoCSequence t' = tx_SoCSequence t + 1 ∧ tx_CompletedAt t = None ∧ tx_CompletedAt t' = None.
Proof.
  unfold accepted_soc. destruct (tel_SoCPercent tel) as [v|]; [|done].
  destruct (tel_SoCObservedAt tel) as [at_|]; [|done]. case_decide as D; [|done].
  unfold soc_row. case_decide; [|done]. by intros [= <-].
Qed.

Lemma write_row_inv id row o s u s' :
  pg_transactions s !! id = Some row → write_row id o s = inl (u, s') →
  s' = s <| pg_transactions := <[id := default row o]> (pg_transactions s) |>.
Proof.
  intros E. destruct o as [t|]; simpl; [by intros [_ ->]%put_transaction_inv|].
  intros [= _ <-]. rewrite insert_id by done. by destruct s.
Qed.

(** The states a committed telemetry update goes through. *)
Lemma telemetry_inv now gen identity ocppID tel s t r s' :
  UpdateV1TelemetryForOCPP now gen identity ocppID tel s = inl ((t, r), s') →
  ∃ id row, find_row (λ t, tx_ChargerOCPPIdentity t = identity ∧ tx_OCPPTransactionID t = ocppID)
              (pg_transactions s) = Some (id, row) ∧
  let energy := accepted_energy tel row in
  let row1 := default row energy in
  let soc := accepted_soc tel row1 in
  let row2 := default row1 soc in
  t = read_transaction row2 ∧
  r = mkV1TelemetryUpdateResult (bool_decide (is_Some energy)) (bool_decide (is_Some soc)) ∧
  ∃ s2 s3,
    s2 = s <| pg_transactions := <[id := row2]> (pg_transactions s) |> ∧
    (if bool_decide (is_Some energy) then
       enforce_energy_limit now t;;
       insertV1FactTx now (gen 0%nat) meter_fact id (Some (tx_MeterSequence t))
         (default 0 (tx_MeterObservedAt t)) (v1MeterFact t)
     else mret ()) s2 = inl ((), s3) ∧
    (if bool_decide (is_Some soc) then
       insertV1FactTx now (gen 1%nat) soc_fact id (Some (tx_SoCSequence t))
         (default 0 (tx_SoCObservedAt t)) (v1SoCFact t)
     else mret ()) s3 = inl ((), s').
Proof.
  intros Hs. unfold UpdateV1TelemetryForOCPP in Hs. case_decide; [done|]. rewrite tx_get_bind in Hs.
  destruct (find_row _ _) as [[id row]|] eqn:Ef; [|done]. exists id, row. split; [done|].
  apply find_row_Some in Ef as [Erow _]. cbv zeta in Hs |- *.
  apply tx_bind_inv in Hs as (u1 & s1 & B1 & Hs). apply tx_bind_inv in Hs as (u2 & s2 & B2 & Hs).
  apply tx_bind_inv in Hs as (cur & s2' & B3 & Hs).
  apply tx_bind_inv in Hs as ([] & s3 & B4 & Hs). apply tx_bind_inv in Hs as ([] & s4 & B5 & Hs).
  injection Hs as <- <- <-. apply (write_row_inv _ _ _ _ _ _ Erow) in B1.
  set (row1 := default row (accepted_energy tel row)) in *.
  apply (write_row_inv _ row1) in B2; [|rewrite B1; simpl; apply lookup_insert_eq].
  set (row2 := default row1 (accepted_soc tel row1)) in *.
  assert (s2 = s <| pg_transactions := <[id := row2]> (pg_transactions s) |>) as Es2.
  { rewrite B2, B1. unfold set_field. simpl. by rewrite insert_insert_eq. }
  assert (cur = read_transaction row2 ∧ s2' = s2) as [-> ->].
  { unfold getV1TransactionByID in B3. rewrite Es2 in B3. simpl in B3.
    rewrite lookup_insert_eq in B3. injection B3 as <- <-. by rewrite Es2. }
  split_and!; [done|done|]. exists s2, s3. done.
Qed.

(** The limit's workflow changes one row by its stop fields at most. *)
Lemma enforce_inv now t s s' id row :
  tx_HALTransactionID t = id → pg_transactions s !! id = Some row → tx_CompletedAt t = tx_CompletedAt row →
  enforce_energy_limit now t s = inl ((), s') →
  s' = s ∨
  pg_workflows s !! id = None ∧ tx_CompletedAt row = None ∧
  ∃ i r, s' = s <| pg_workflows ::= <[id := mkV1StopWorkflow id i r "PERSISTED" 0 "" "" ""
                   (timestamptz now) (timestamptz now) None]> |>
                <| pg_transactions ::= <[id := row <| tx_StopState := "PERSISTED" |>
                   <| tx_RequestedStopInitiator := i |> <| tx_RequestedStopReason := r |>]> |>.
Proof.
  intros <- Erow Hc Hs. unfold enforce_energy_limit in Hs. case_decide; [|injection Hs as <-; by left].
  destruct (v1EnergyStopCause _ _) as [i r]. apply tx_bind_inv in Hs as (wc & s1 & He & Hs).
  injection Hs as <-. destruct (ensure_inv _ _ _ _ _ _ _ _ Erow Hc He)
    as [(-> & _)|(? & ? & _ & _ & ->)]; [by left|right]. eauto 6.
Qed.
End telemetry.

(** Tables with other rows but the same outbox. *)
Lemma sequences_ok_facts s s' m n :
  pg_facts s' = pg_facts s → sequences_ok s m n → sequences_ok s' m n.
Proof. intros Hf Hs id. unfold facts_upto, has_fact. rewrite Hf. apply (Hs id). Qed.
Lemma completions_ok_facts s s' P :
  pg_facts s' = pg_facts s → pg_completionKeys s' = pg_completionKeys s → completions_ok s P → completions_ok s' P.
Proof. intros Hf Hk Hc. unfold completions_ok, facts_distinct, has_fact. rewrite Hf, Hk. exact Hc. Qed.
Lemma sequences_ok_ext s m m' n n' :
  (∀ k, m k = m' k) → (∀ k, n k = n' k) → sequences_ok s m n → sequences_ok s m' n'.
Proof. intros Hm Hn Hs id. rewrite <- Hm, <- Hn. apply (Hs id). Qed.

(** What a telemetry update leaves of the rows of its transaction. *)
Record telemetry_rows (s s' : pg) (id : string) (row row' : V1Transaction) : Prop := {
  trow_written : pg_transactions s' = <[id := row']> (pg_transactions s);
  trow_id : tx_HALTransactionID row' = tx_HALTransactionID row;
  trow_open : tx_CompletedAt row' = tx_CompletedAt row;
  trow_stop : pg_workflows s' = pg_workflows s ∨
    pg_workflows s !! id = None ∧ tx_CompletedAt row = None ∧
    ∃ w, pg_workflows s' = <[id := w]> (pg_workflows s) ∧ wf_State w = "PERSISTED" ∧ wf_DeliveryAttempts w = 0
}.

Lemma telemetry_rows_safe s s' id row row' :
  lifecycle_ok s → pg_transactions s !! id = Some row → telemetry_rows s s' id row row' →
  sequences_ok s' (λ k, if decide (k = id) then tx_MeterSequence row' else meter_sequence s k)
    (λ k, if decide (k = id) then tx_SoCSequence row' else soc_sequence s k) →
  completions_ok s' (completed s) → lifecycle_ok s' ∧ ∀ k, moves_by request_step s s' k.
Proof.
  intros ([Hk Hw] & _ & _) Erow [Ht Hid Hc Hst] Hs Hcs. split; [split; [|split]|].
  - split; rewrite Ht.
    + intros k t [[<- <-]|[_ ?]]%lookup_insert_Some; [rewrite Hid; by apply Hk|by apply Hk].
    + intros k w Hkw. destruct (decide (k = id)) as [->|Hne]; [by rewrite lookup_insert_eq|].
      rewrite lookup_insert_ne by done. destruct Hst as [Hst|(_ & _ & w' & Hst & _)];
        rewrite Hst in Hkw; [by eapply Hw|]. rewrite lookup_insert_ne in Hkw by done. by eapply Hw.
  - eapply sequences_ok_ext; [| |exact Hs]; intros k; unfold meter_sequence, soc_sequence; rewrite Ht;
      case_decide as D; [subst k; by rewrite lookup_insert_eq|by rewrite lookup_insert_ne| |];
      [subst k; by rewrite lookup_insert_eq|by rewrite lookup_insert_ne].
  - assert (∀ k, completed s' k ↔ completed s k) as Hco.
    { intros k. unfold completed. rewrite Ht. destruct (decide (k = id)) as [->|];
        [rewrite lookup_insert_eq, Erow; simpl; by rewrite Hc|by rewrite lookup_insert_ne]. }
    destruct Hcs as [Hd Hcc]. split; [done|]. intros k. destruct (Hcc k) as [Ha Hb].
    rewrite Hco. split; [done|]. intros q. rewrite Hco. apply Hb.
  - eapply (moves_one s s' id).
    + by apply stop_of_rows.
    + apply stop_of_rows. rewrite Ht. apply lookup_insert_eq.
    + rewrite Hc. destruct Hst as [->|(Hn & Ho & w & -> & Hsw & Hdw)]; [apply rtc_refl|].
      rewrite Hn, Ho, lookup_insert_eq. simpl. rewrite Hsw, Hdw. apply rtc_once. constructor.
    + intros k Hne. apply (stop_of_other _ _ id); [| |done]; intros j Hj.
      * rewrite Ht. by rewrite lookup_insert_ne.
      * destruct Hst as [->|(_ & _ & w & -> & _)]; [done|]. by rewrite lookup_insert_ne.
Qed.

Section telemetry_safe.
Context `{FactCodec}.

(** The meter half: enforcement and fact, when a register was accepted. *)
Lemma meter_half now gen s s2 s3 id row row2 t (e : bool) :
  lifecycle_ok s → pg_transactions s !! id = Some row → tx_HALTransactionID row = id →
  s2 = s <| pg_transactions := <[id := row2]> (pg_transactions s) |> →
  t = read_transaction row2 → tx_HALTransactionID row2 = id → tx_CompletedAt row2 = tx_CompletedAt row →
  tx_MeterSequence row2 = (if e then meter_sequence s id + 1 else meter_sequence s id) →
  (if e then
     enforce_energy_limit now t;;
     insertV1FactTx now (gen 0%nat) meter_fact id (Some (tx_MeterSequence t))
       (default 0 (tx_MeterObservedAt t)) (v1MeterFact t)
   else mret ()) s2 = inl ((), s3) →
  ∃ row3, telemetry_rows s s3 id row row3 ∧ row_frame row2 row3 ∧
    sequences_ok s3 (λ k, if decide (k = id) then tx_MeterSequence row2 else meter_sequence s k) (soc_sequence s) ∧
    completions_ok s3 (completed s).
Proof.
  intros (_ & Hs & Hcs) Erow Hid -> -> Hid2 Hc Hm Hr.
  set (s2 := s <| pg_transactions := _ |>) in *.
  assert (sequences_ok s2 (meter_sequence s) (soc_sequence s)) as Hs2 by (by apply (sequences_ok_facts s)).
  assert (completions_ok s2 (completed s)) as Hcs2 by (by apply (completions_ok_facts s)).
  assert (pg_transactions s2 !! id = Some row2) as E2 by apply lookup_insert_eq.
  destruct e.
  - apply tx_bind_inv in Hr as ([] & s2e & He & Hi).
    change (tx_MeterSequence (read_transaction row2)) with (tx_MeterSequence row2) in Hi. rewrite Hm in Hi.
    assert (∃ row3, telemetry_rows s s2e id row row3 ∧ row_frame row2 row3 ∧ pg_facts s2e = pg_facts s2 ∧
      pg_completionKeys s2e = pg_completionKeys s2) as (row3 & Htr & Hfr & Hf & Hk).
    { destruct (enforce_inv _ _ _ _ id row2 Hid2 E2 eq_refl He) as [->|(Hn & Ho & i & r & ->)].
      - exists row2. split; [split; [done|congruence|done|by left]|by split_and!].
      - exists (row2 <| tx_StopState := "PERSISTED" |> <| tx_RequestedStopInitiator := i |>
                  <| tx_RequestedStopReason := r |>). split; [split|by split_and!].
        + unfold s2. simpl. by rewrite insert_insert_eq.
        + simpl. by rewrite Hid.
        + done.
        + right. split; [done|]. split; [congruence|]. eexists. split; [reflexivity|done]. }
    destruct (append_meter _ _ _ _ _ _ _ _ _ (sequences_ok_facts s2 s2e _ _ Hf Hs2) Hi) as (Hs3 & Ho & _ & Hcp).
    exists row3. split_and!.
    + apply outbox_only_tables in Ho as (Ht & Hw & _). destruct Htr. split; [congruence|done|done|].
      by rewrite Hw.
    + done.
    + by rewrite Hm.
    + apply Hcp. by apply (completions_ok_facts s2).
  - injection Hr as <-. exists row2. split; [split; [done|congruence|done|by left]|].
    split; [by split_and!|]. split; [|done].
    + eapply sequences_ok_ext; [|done|exact Hs2]. intros k. case_decide; [by subst|done].
Qed.

Lemma Telemetry_safe now gen identity ocppID tel s tr s' :
  UpdateV1TelemetryForOCPP now gen identity ocppID tel s = inl (tr, s') → safe_by request_step s s'.
Proof.
  destruct tr as [t r]. intros (id & row & Ef & Ht & _ & s2 & s3 & Hs2 & Hmeter & Hsoc)%telemetry_inv Hok.
  apply find_row_Some in Ef as [Erow _]. pose proof Hok as ([Hkey _] & _).
  assert (tx_HALTransactionID row = id) as Hid by (by apply Hkey).
  set (row1 := default row (accepted_energy tel row)) in *.
  set (row2 := default row1 (accepted_soc tel row1)) in *.
  assert (tx_HALTransactionID row1 = id ∧ tx_SoCSequence row1 = tx_SoCSequence row ∧
    tx_CompletedAt row1 = tx_CompletedAt row ∧ tx_MeterSequence row1 =
      if bool_decide (is_Some (accepted_energy tel row)) then tx_MeterSequence row + 1 else tx_MeterSequence row)
    as (I1 & S1 & C1 & M1).
  { unfold row1. destruct (accepted_energy tel row) as [x|] eqn:Ea; simpl; [|done].
    destruct (accepted_energy_frame _ _ _ Ea) as (-> & -> & -> & Hc & ->). by rewrite Hc. }
  assert (tx_HALTransactionID row2 = id ∧ tx_MeterSequence row2 = tx_MeterSequence row1 ∧
    tx_CompletedAt row2 = tx_CompletedAt row1 ∧ tx_SoCSequence row2 =
      if bool_decide (is_Some (accepted_soc tel row1)) then tx_SoCSequence row + 1 else tx_SoCSequence row)
    as (I2 & M2 & C2 & S2).
  { unfold row2. destruct (accepted_soc tel row1) as [x|] eqn:Ea; simpl; [|done].
    destruct (accepted_soc_frame _ _ _ Ea) as (-> & -> & -> & Hc & ->). rewrite S1. by rewrite Hc. }
  assert (meter_sequence s id = tx_MeterSequence row ∧ soc_sequence s id = tx_SoCSequence row) as [Em Es].
  { unfold meter_sequence, soc_sequence. by rewrite Erow. }
  destruct (meter_half now gen s s2 s3 id row row2 t _ Hok Erow Hid Hs2 Ht I2 ltac:(congruence)
    ltac:(rewrite M2, M1, Em; reflexivity) Hmeter) as (row3 & Htr & (F1 & F2 & F3 & F4) & Hs3 & Hc3).
  apply (telemetry_rows_safe s s' id row row3 Hok Erow).
  - destruct (bool_decide (is_Some (accepted_soc tel row1))); [|by injection Hsoc as <-].
    apply insert_fact_keys in Hsoc as (Ho & _); [|done].
    apply outbox_only_tables in Ho as (Htx & Hw & _). destruct Htr. split; [congruence|done|done|by rewrite Hw].
  - rewrite F2, F3, S2. destruct (bool_decide (is_Some (accepted_soc tel row1))).
    + subst t. change (tx_SoCSequence (read_transaction row2)) with (tx_SoCSequence row2) in Hsoc.
      rewrite S2, <- Es in Hsoc. destruct (append_soc _ _ _ _ _ _ _ _ _ Hs3 Hsoc) as (Hs' & _).
      eapply sequences_ok_ext; [| |exact Hs']; [done|]. intros k. by rewrite Es.
    + injection Hsoc as <-. eapply sequences_ok_ext; [| |exact Hs3]; [done|].
      intros k. case_decide; [by subst|done].
  - destruct (bool_decide (is_Some (accepted_soc tel row1))); [|by injection Hsoc as <-].
    exact (append_other _ _ soc_fact _ _ _ _ _ _ _ ltac:(done) Hsoc Hc3).
Qed.
End telemetry_safe.
