(* ===== verification/Histories.v ===== *)
(** * Histories of the PostgreSQL store

    Any sequence of store calls - commands, telemetry, stops, completion,
    recovery, mappings, fact delivery, failed calls included - with the
    properties that hold of every database such a sequence reaches: each
    transaction follows the stop machine of [StopLifecycle], its RemoteStop is
    begun once at most, its telemetry facts have no gap and its completion has
    exactly one fact. *)
From Stdlib Require Import String.
From stdpp Require Import base numbers decidable option list relations sorting strings gmap.
From S2P Require Import Prelude V1Types Evidence V1Memory PgSchema Outbox PgMapping PgLifecycle StopLifecycle.
Open Scope Z_scope.

(** ** Histories of store calls *)
Inductive store_call : Type :=
  | SStart (now : Time) (gen : generator) (input : V1StartCommandInput)
  | SStopCommand (now clock : Time) (gen : generator) (input : V1StopCommandInput)
  | SMaterialize (now : Time) (gen : generator) (input : V1StartMaterialization)
  | SMarkCommand (now : Time) (gen : generator) (id status result_ detail : string)
  | SClaimStart (now : Time) (id : string)
  | SBeginStart (now : Time) (id : string)
  | SRecoverPendingCommands (now : Time)
  | SRecoverAttemptedCommands (now : Time)
  | STelemetry (now : Time) (gen : generator) (identity : string) (ocppID : Z) (telemetry : V1MeterTelemetry)
  | SEnsureStop (now : Time) (id initiator reason : string)
  | SClaimStop (now : Time) (id : string)
  | SBeginStop (now : Time) (id : string)
  | SMarkStop (now : Time) (gen : string → result string) (id status result_ detail : string)
  | SRecoverPendingStops (now : Time)
  | SRecoverAttemptedStops (now : Time)
  | SComplete (now : Time) (gen : generator) (id : string) (meterStopWh : Z) (reason : string)
      (completedAt observedAt : Time)
  | SMapping (c : mapping_call)
  | SDeliver (e : outbox_event)
  | SRequeue (now : Time) (generated : result string) (factID correlationID : string).

(** A claim of facts scans the table it runs on. *)
Definition call_ok (c : store_call) (s : pg) : Prop :=
  match c with SDeliver e => scans (pg_facts s) e | _ => True end.

Section histories.
Context `{FactCodec}.

Definition store_exec (c : store_call) (s : pg) : pg :=
  match c with
  | SStart now gen input => (run_tx (CreateV1StartCommand now gen input) s).1
  | SStopCommand now clock gen input => (run_tx (CreateV1StopCommand now clock gen input) s).1
  | SMaterialize now gen input => (run_tx (MaterializeV1Start now gen input) s).1
  | SMarkCommand now gen id st r d => (run_tx (MarkV1CommandDelivery now gen id st r d) s).1
  | SClaimStart now id => (ClaimV1StartDelivery s now id).1
  | SBeginStart now id => (BeginV1CommandDelivery s now id).1
  | SRecoverPendingCommands now => recover_pending_commands now s
  | SRecoverAttemptedCommands now => recover_attempted_commands now s
  | STelemetry now gen identity ocppID tel =>
    (run_tx (UpdateV1TelemetryForOCPP now gen identity ocppID tel) s).1
  | SEnsureStop now id i r => (run_tx (EnsureV1StopWorkflow now id i r) s).1
  | SClaimStop now id => (run_tx (ClaimV1StopDelivery now id) s).1
  | SBeginStop now id => (run_tx (BeginV1StopDelivery now id) s).1
  | SMarkStop now gen id st r d => (run_tx (MarkV1StopDelivery now gen id st r d) s).1
  | SRecoverPendingStops now => recover_pending_stops now s
  | SRecoverAttemptedStops now => recover_attempted_stops now s
  | SComplete now gen id w r c o => (run_tx (CompleteV1Transaction now gen id w r c o) s).1
  | SMapping c => mapping_exec c s
  | SDeliver e => s <| pg_facts := outbox_step (pg_facts s) e |>
  | SRequeue now g id corr => (run_tx (RequeueV1Fact now g id corr) s).1
  end.

(** The transactions whose RemoteStop delivery a call begins. *)
Definition begins (c : store_call) (s : pg) : list string :=
  match c with
  | SBeginStop now id =>
    match run_tx (BeginV1StopDelivery now id) s with (_, inl true) => [id] | _ => [] end
  | _ => []
  end.

Fixpoint history (s : pg) (cs : list store_call) : pg * list string :=
  match cs with
  | [] => (s, [])
  | c :: cs' => let '(s', begun) := history (store_exec c s) cs' in (s', begins c s ++ begun)
  end.
Fixpoint history_ok (s : pg) (cs : list store_call) : Prop :=
  match cs with [] => True | c :: cs' => call_ok c s ∧ history_ok (store_exec c s) cs' end.

Lemma run_tx_safe {A R} (c : txm pg A) s :
  (∀ a s', c s = inl (a, s') → safe_by R s s') → safe_by R s (run_tx c s).1.
Proof. intros Hc. unfold run_tx. destruct (c s) as [[a s']|] eqn:E; [by eapply Hc|by apply safe_quiet]. Qed.

Lemma start_command_step_quiet now id from f s : quiet s (start_command_step now id from f s).1.
Proof.
  unfold start_command_step. destruct (pg_commands s !! id); [|done]. case_decide; [|done]. by apply quiet_same.
Qed.

(** The calls that are not the deliverer's own claim, begin and mark, nor a
    restart's recovery of stops. *)
Definition requests (c : store_call) : bool :=
  match c with
  | SClaimStop _ _ | SBeginStop _ _ | SMarkStop _ _ _ _ _ _
  | SRecoverPendingStops _ | SRecoverAttemptedStops _ => false
  | _ => true
  end.

Lemma store_exec_requests c s : call_ok c s → requests c = true → safe_by request_step s (store_exec c s).
Proof.
  intros Hc Hr. destruct c; try discriminate Hr; unfold store_exec.
  - apply safe_quiet, run_tx_quiet, CreateV1StartCommand_quiets.
  - apply run_tx_safe. intros a s'. apply CreateV1StopCommand_safe.
  - apply run_tx_safe. intros a s'. apply Materialize_safe.
  - apply safe_quiet, run_tx_quiet, MarkV1CommandDelivery_quiets.
  - apply safe_quiet. unfold ClaimV1StartDelivery.
    pose proof (start_command_step_quiet now id "PERSISTED" (λ c, c <| cmd_State := "PENDING_DELIVERY" |>) s) as Hq.
    destruct (start_command_step _ _ _ _ _) as [s' n]. by destruct (pg_commands s' !! id).
  - apply safe_quiet. unfold BeginV1CommandDelivery.
    pose proof (start_command_step_quiet now id "PENDING_DELIVERY"
      (λ c, c <| cmd_State := "DELIVERY_ATTEMPTED" |> <| cmd_DeliveryAttempts ::= λ n, n + 1 |>) s) as Hq.
    destruct (start_command_step _ _ _ _ _) as [s' n]. by destruct (pg_commands s' !! id).
  - apply safe_quiet. by apply quiet_same.
  - apply safe_quiet. by apply quiet_same.
  - apply run_tx_safe. intros a s'. apply Telemetry_safe.
  - apply run_tx_safe. intros a s'. apply Ensure_safe.
  - apply run_tx_safe. intros a s'. apply Complete_safe.
  - apply safe_quiet, mapping_exec_quiet.
  - apply safe_quiet, same_content_quiet; try done. by apply outbox_step_content.
  - apply run_tx_safe. intros [] s' (r & f & _ & ->)%RequeueV1Fact_tables. apply safe_quiet.
    apply same_content_quiet; try done. simpl. apply update_row_content.
Qed.

Lemma store_exec_safe c s : call_ok c s → safe s (store_exec c s).
Proof.
  intros Hc. destruct (requests c) eqn:Hr; [by apply safe_request, store_exec_requests|].
  destruct c; try discriminate Hr; unfold store_exec.
  - apply run_tx_safe. intros a s'. apply Claim_safe.
  - apply run_tx_safe. intros a s'. apply Begin_safe.
  - apply run_tx_safe. intros [] s'. apply MarkStop_safe.
  - apply recover_pending_safe.
  - apply recover_attempted_safe.
Qed.

(** Along a history: the invariant, the machine's steps, and who was begun. *)
Definition lives (s : pg) : Prop := ∀ id l, stop_of s id = Some l → rtc stop_step fresh_life l.

Lemma lives_inv s id l : lives s → stop_of s id = Some l → life_inv l.
Proof. intros Hl Hs. eapply stop_steps_inv; [by eapply Hl|done]. Qed.

Lemma lives_step s s' : lives s → (∀ id, moves s s' id) → lives s'.
Proof.
  intros Hl Hm id l Hs'. specialize (Hm id). unfold moves_by in Hm.
  destruct (stop_of s id) as [l0|] eqn:E0.
  - destruct Hm as (l' & Hl' & Hr). rewrite Hs' in Hl'. injection Hl' as <-. trans l0; [by eapply Hl|done].
  - destruct Hm as [Hm|Hm]; rewrite Hs' in Hm; [done|]. injection Hm as ->. apply rtc_refl.
Qed.

Definition begun_ok (s : pg) (begun : list string) : Prop :=
  NoDup begun ∧ ∀ id, id ∈ begun → ∃ l, stop_of s id = Some l ∧ life_attempts l = 1.

Lemma begun_step s s' begun :
  lives s' → begun_ok s begun → (∀ id, moves s s' id) → begun_ok s' begun.
Proof.
  intros Hl [Hnd Hb] Hm. split; [done|]. intros id Hid. destruct (Hb id Hid) as (l & Hs & Ha).
  specialize (Hm id). unfold moves_by in Hm. rewrite Hs in Hm. destruct Hm as (l' & Hs' & Hr).
  exists l'. split; [done|]. destruct (stop_steps_mono _ _ Hr) as (_ & Hle & _).
  pose proof (lives_inv _ _ _ Hl Hs') as Hi. unfold life_inv, life_attempts in *.
  destruct (life_stop l') as [[st n]|]; simpl in *; lia.
Qed.

Lemma begins_ok c s begun :
  lifecycle_ok s → lives s → lives (store_exec c s) → (∀ id, moves s (store_exec c s) id) →
  begun_ok s begun → begun_ok (store_exec c s) (begun ++ begins c s).
Proof.
  intros Hok Hl Hl' Hm Hb. pose proof (begun_step _ _ _ Hl' Hb Hm) as Hb'.
  destruct c; simpl; try by rewrite app_nil_r. simpl in Hb', Hl'.
  unfold run_tx in *. destruct (BeginV1StopDelivery now id s) as [[b s']|] eqn:E; [|by rewrite app_nil_r].
  simpl in *. destruct b; [|by rewrite app_nil_r].
  apply BeginV1StopDelivery_inv in E as [[? _]|(_ & t & w & Et & Hc & Ew & Hst & Hs')]; [done|].
  assert (wf_DeliveryAttempts w = 0) as H0.
  { pose proof (lives_inv _ _ _ Hl (stop_of_rows _ _ _ Et)) as Hi. unfold life_inv in Hi. rewrite Ew in Hi.
    simpl in Hi. rewrite Hst in Hi. destruct Hi as (_ & _ & Hz & _). apply Hz. set_solver. }
  destruct Hb as [Hnd Hb], Hb' as [_ Hb']. split.
  - apply NoDup_app. split_and!; [done| |apply NoDup_singleton]. intros k Hk ->%list_elem_of_singleton.
    destruct (Hb id Hk) as (l & Hs & Ha). rewrite (stop_of_rows _ _ _ Et), Ew in Hs. injection Hs as <-.
    unfold life_attempts in Ha. simpl in Ha. lia.
  - intros k [Hk| ->%list_elem_of_singleton]%elem_of_app; [by apply Hb'|].
    eexists. split; [apply stop_of_rows; rewrite Hs'; exact Et|]. rewrite Hs'. simpl.
    rewrite lookup_insert_eq. unfold life_attempts. simpl. lia.
Qed.

Lemma history_spec cs s begun :
  lifecycle_ok s → lives s → begun_ok s begun → history_ok s cs →
  let '(s', new) := history s cs in
  lifecycle_ok s' ∧ lives s' ∧ begun_ok s' (begun ++ new).
Proof.
  revert s begun. induction cs as [|c cs IH]; intros s begun Hok Hl Hb Hh; simpl.
  - by rewrite app_nil_r.
  - simpl in Hh. destruct Hh as [Hc Hh]. destruct (store_exec_safe c s Hc Hok) as [Hok' Hm].
    pose proof (lives_step _ _ Hl Hm) as Hl'.
    specialize (IH _ _ Hok' Hl' (begins_ok c s begun Hok Hl Hl' Hm Hb) Hh).
    destruct (history (store_exec c s) cs) as [s' new]. by rewrite app_assoc.
Qed.

Lemma empty_lifecycle : lifecycle_ok pg_empty ∧ lives pg_empty ∧ begun_ok pg_empty [].
Proof.
  assert (∀ ty ag q, ¬ has_fact pg_empty ty ag q) as Hf by (by intros ty ag q (? & ? & ? & _)).
  split; [split; [split|split; [|split]]|split; [|split]].
  - intros id t Ht. discriminate.
  - intros id w Hw. discriminate.
  - intros id. change (meter_sequence pg_empty id) with 0. change (soc_sequence pg_empty id) with 0.
    split_and!; [done|done|..]; intros q; split;
      try (intros Hh; by apply Hf in Hh); intros (k & _ & Hk); lia.
  - intros id1 r1 id2 r2 Hr. discriminate.
  - intros id. split; [split; [by intros [x Hx]|done]|]. intros q.
    split; [intros Hh; by apply Hf in Hh|by intros [_ Hx]].
  - intros id l Hl. discriminate.
  - constructor.
  - intros id Hid. by apply elem_of_nil in Hid.
Qed.

Lemma history_ok_app s cs1 cs2 :
  history_ok s (cs1 ++ cs2) ↔ history_ok s cs1 ∧ history_ok (history s cs1).1 cs2.
Proof.
  revert s. induction cs1 as [|c cs1 IH]; intros s; simpl; [tauto|]. rewrite IH.
  destruct (history (store_exec c s) cs1). simpl. tauto.
Qed.

(** What every history from the empty database establishes. *)
Lemma history_reaches cs :
  history_ok pg_empty cs →
  lifecycle_ok (history pg_empty cs).1 ∧ lives (history pg_empty cs).1 ∧
  begun_ok (history pg_empty cs).1 (history pg_empty cs).2.
Proof.
  intros Hh. destruct empty_lifecycle as (Hok & Hl & Hb).
  pose proof (history_spec cs pg_empty [] Hok Hl Hb Hh) as Hs. by destruct (history pg_empty cs).
Qed.

(** A completed row is kept by every later call. *)
Lemma completed_kept cs s id :
  lifecycle_ok s → history_ok s cs → completed s id → completed (history s cs).1 id.
Proof.
  revert s. induction cs as [|c cs IH]; intros s Hok Hh Hc; simpl; [done|]. destruct Hh as [Hc1 Hh].
  destruct (store_exec_safe c s Hc1 Hok) as [Hok' Hm]. specialize (IH _ Hok' Hh).
  destruct (history (store_exec c s) cs) as [s' b]. simpl in *. apply IH.
  specialize (Hm id). unfold moves_by, stop_of in Hm. unfold completed, some_and in Hc |- *.
  destruct (pg_transactions s !! id) as [t|]; [|done]. simpl in Hm.
  destruct Hm as (l' & Hl' & Hr). destruct (stop_steps_mono _ _ Hr) as (Hk & _).
  destruct (pg_transactions (store_exec c s) !! id) as [t'|]; [|done]. simpl in Hl'.
  injection Hl' as <-. simpl in Hk. by rewrite !bool_decide_eq_true in Hk; apply Hk.
Qed.
End histories.

(** C7: Refinement of the stop machine: in any history of store calls, from the
    empty database, with failed calls and process restarts included, every call
    takes each transaction along steps of the abstract stop machine
    [stop_step] (a new transaction enters it fresh), so every transaction is
    always in a state the machine reaches, where its invariant holds. *)
Theorem store_refines_stop_machine `{FactCodec} (cs : list store_call) (c : store_call) (id : string) :
  history_ok pg_empty (cs ++ [c]) →
  let s := (history pg_empty cs).1 in
  (∀ l, stop_of s id = Some l → life_inv l ∧ rtc stop_step fresh_life l ∧
     ∃ l', stop_of (store_exec c s) id = Some l' ∧ rtc stop_step l l') ∧
  (stop_of s id = None → stop_of (store_exec c s) id ∈ [None; Some fresh_life]).
Proof.
  intros [Hh [Hc _]]%history_ok_app s. destruct (history_reaches cs Hh) as (Hok & Hl & _).
  destruct (store_exec_safe c s Hc Hok) as [_ Hm]. specialize (Hm id). unfold moves_by in Hm. split.
  - intros l E. rewrite E in Hm. split_and!; [exact (lives_inv _ _ _ Hl E)|exact (Hl _ _ E)|exact Hm].
  - intros E. rewrite E in Hm. rewrite !elem_of_cons. tauto.
Qed.

(** At-most-once RemoteStop: however claims, begins, acknowledgements,
    crashes and recoveries interleave, no transaction's stop delivery is begun
    twice in a history, and a begun one carries exactly one attempt. *)
Theorem stop_begun_at_most_once `{FactCodec} (cs : list store_call) :
  history_ok pg_empty cs →
  NoDup (history pg_empty cs).2 ∧
  ∀ id, id ∈ (history pg_empty cs).2 →
    ∃ l, stop_of (history pg_empty cs).1 id = Some l ∧ life_attempts l = 1.
Proof. by intros (_ & _ & Hb)%history_reaches. Qed.

(** C9: Exactly one terminal fact: in every history, an aggregate has a
    transaction.completed fact exactly when its transaction is completed, that
    fact has no sequence, and no second row holds it. *)
Theorem completion_fact_exactly_once `{FactCodec} (cs : list store_call) :
  history_ok pg_empty cs →
  let s := (history pg_empty cs).1 in
  (∀ id q, has_fact s completed_fact id q ↔ q = None ∧ completed s id) ∧
  facts_distinct s completed_fact.
Proof.
  intros ((_ & _ & Hd & Hc) & _)%history_reaches. split; [|done]. intros id q. by destruct (Hc id).
Qed.

(** C10: Gap-free telemetry: in every history, the transaction.meter and the
    transaction.soc facts of each transaction carry exactly the sequences
    1, ..., n of its row, so every accepted reading is reported once and none is
    swallowed by the outbox's conflict rule. *)
Theorem telemetry_facts_complete `{FactCodec} (cs : list store_call) (id : string) :
  history_ok pg_empty cs →
  let s := (history pg_empty cs).1 in
  facts_upto s meter_fact id (meter_sequence s id) ∧ facts_upto s soc_fact id (soc_sequence s id).
Proof. intros ((_ & Hs & _) & _)%history_reaches. by destruct (Hs id) as (_ & _ & ? & ?). Qed.

(** C18: Completion is final: after it, and whatever the store does next, the
    transaction stays completed, its stop can be neither claimed nor begun nor
    marked, no stop can be created or ensured afresh for it, and the database is
    left as it was by each of these calls. *)
Theorem completion_is_final `{FactCodec} (cs later : list store_call) id now gen clock status r d :
  history_ok pg_empty (cs ++ later) → completed (history pg_empty cs).1 id →
  let s := (history (history pg_empty cs).1 later).1 in
  completed s id ∧
  run_tx (ClaimV1StopDelivery now id) s = (s, inl false) ∧
  run_tx (BeginV1StopDelivery now id) s = (s, inl false) ∧
  run_tx (MarkV1StopDelivery now gen id status r d) s = (s, inl ()) ∧
  (∀ input gen', pi_HALTransactionID input = id →
     run_tx (CreateV1StopCommand now clock gen' input) s = (s, inr ErrV1TransactionNotFound)).
Proof.
  intros [Hh Hl]%history_ok_app Hc s.
  assert (completed s id) as Hs.
  { apply completed_kept; [|done..]. by destruct (history_reaches cs Hh). }
  split; [done|]. unfold completed, some_and in Hs.
  destruct (pg_transactions s !! id) as [t|] eqn:Et; [|done].
  assert (lockV1StopLifecycleRows id s = inl ({| sl_Transaction := read_transaction t;
    sl_Workflow := pg_workflows s !! id |}, s)) as Hlock.
  { unfold lockV1StopLifecycleRows, getV1TransactionByID, mbind, txm_bind, tx_get, mret, txm_ret.
    by rewrite Et. }
  assert (∀ A (k : v1StopLifecycleRows → txm pg A), (rows ← lockV1StopLifecycleRows id; k rows) s =
    k {| sl_Transaction := read_transaction t; sl_Workflow := pg_workflows s !! id |} s) as Hb.
  { intros A k. unfold mbind, txm_bind. by rewrite Hlock. }
  unfold run_tx, ClaimV1StopDelivery, BeginV1StopDelivery, MarkV1StopDelivery, CreateV1StopCommand.
  split_and!.
  - rewrite Hb. cbn [sl_Transaction]. by rewrite decide_True by (by left).
  - rewrite Hb. cbn [sl_Transaction]. by rewrite decide_True by (by left).
  - destruct (mark_state status). rewrite Hb. cbn [sl_Transaction]. by rewrite decide_True by (by left).
  - intros input gen' ->. rewrite Hb. cbn [sl_Transaction]. by rewrite decide_True by (by left).
Qed.

(** ** A concrete history: a session whose energy limit stops it *)
Module LifecycleRuns.
Definition codec : FactCodec := {|
  canonicalV1JSON v := match v with JPayload _ => inl "{}" | JImmutableEnvelope e => inl (ie_FactID e) end;
  sha256_hex s := s; jsonb_text s := s |}.
#[local] Existing Instance codec.
Definition digit (n : nat) : string := match n with O => "0" | 1%nat => "1" | _ => "2" end.
Definition gen (call : string) : generator := λ n, inl (call +:+ digit n).
Definition start_input : V1StartCommandInput :=
  mkV1StartCommandInput "cmd-1" "digest" "cpo" "cust" "corr" "intent" "charger" "connector"
    "CP-1" 1 "appv1_tag" (1000 * GoTime.Second) (2000 * GoTime.Second) "AUTO"
    (Some 500) "WALLET" (Some 3600) "CUSTOMER_TIME".
Definition start : V1StartMaterialization :=
  mkV1StartMaterialization "CP-1" 1 "appv1_tag" 100 (500 * GoTime.Second) (501 * GoTime.Second) 77.
Definition id : string := "start0".
Definition reading (wh : Z) : V1MeterTelemetry :=
  mkV1MeterTelemetry (Some wh) (Some (600 * GoTime.Second)) (Some 50000) (Some (600 * GoTime.Second)).
(** Not aligned to a microsecond. *)
Definition stopped_at : Time := 700 * GoTime.Second + 1.
Definition opened : list store_call :=
  [SStart 1 (gen "command") start_input; SMaterialize 2 (gen "start") start].
Definition running : list store_call :=
  opened ++ [STelemetry 3 (gen "meter") "CP-1" 77 (reading 600); SClaimStop 4 id; SBeginStop 5 id].
Definition finish : store_call :=
  SComplete 6 (gen "complete") id 599 "Remote" stopped_at (701 * GoTime.Second).
Abbreviation db cs := (fst (@history codec pg_empty cs)).

Lemma running_ok : history_ok pg_empty (running ++ [finish]).
Proof. repeat split. Defined.
Lemma running_ok' : history_ok pg_empty running.
Proof. repeat split. Defined.
Example begun_once : (history pg_empty (running ++ [finish])).2 = [id].
Proof. vm_compute. reflexivity. Qed.
Lemma finished : completed (db (running ++ [finish])) id.
Proof. vm_compute. eauto. Defined.
Example finished_life : stop_of (db (running ++ [finish])) id = Some (mkstop_life true (Some ("COMPLETED", 1))).
Proof. vm_compute. reflexivity. Qed.
End LifecycleRuns.

Lemma store_refines_stop_machine_witness :
  ∃ l', stop_of (store_exec (H := LifecycleRuns.codec) LifecycleRuns.finish
      (@history LifecycleRuns.codec pg_empty LifecycleRuns.running).1) LifecycleRuns.id = Some l' ∧
    rtc stop_step (mkstop_life false (Some ("DELIVERY_ATTEMPTED", 1))) l'.
Proof.
  assert (stop_of (@history LifecycleRuns.codec pg_empty LifecycleRuns.running).1 LifecycleRuns.id =
    Some (mkstop_life false (Some ("DELIVERY_ATTEMPTED", 1)))) as E by (vm_compute; reflexivity).
  exact (proj2 (proj2 (proj1 (store_refines_stop_machine (H := LifecycleRuns.codec) LifecycleRuns.running
    LifecycleRuns.finish LifecycleRuns.id LifecycleRuns.running_ok) _ E))).
Defined.

Lemma stop_begun_at_most_once_witness :
  (@history LifecycleRuns.codec pg_empty LifecycleRuns.running).2 = [LifecycleRuns.id] ∧
  NoDup (@history LifecycleRuns.codec pg_empty LifecycleRuns.running).2.
Proof.
  split; [vm_compute; reflexivity|].
  exact (proj1 (stop_begun_at_most_once (H := LifecycleRuns.codec) LifecycleRuns.running
    LifecycleRuns.running_ok')).
Defined.

Lemma completion_fact_exactly_once_witness :
  has_fact (LifecycleRuns.db (LifecycleRuns.running ++ [LifecycleRuns.finish])) completed_fact LifecycleRuns.id None ∧
  ¬ has_fact (LifecycleRuns.db LifecycleRuns.running) completed_fact LifecycleRuns.id None.
Proof.
  split.
  - exact (proj2 (proj1 (completion_fact_exactly_once (H := LifecycleRuns.codec)
      (LifecycleRuns.running ++ [LifecycleRuns.finish]) LifecycleRuns.running_ok) LifecycleRuns.id None)
      (conj eq_refl LifecycleRuns.finished)).
  - assert (¬ completed (LifecycleRuns.db LifecycleRuns.running) LifecycleRuns.id) as Hn
      by (vm_compute; intros [? ?]; discriminate).
    intros Hf. exact (Hn (proj2 (proj1 (proj1 (completion_fact_exactly_once (H := LifecycleRuns.codec)
      LifecycleRuns.running LifecycleRuns.running_ok') LifecycleRuns.id None) Hf))).
Defined.

Lemma telemetry_facts_complete_witness :
  meter_sequence (LifecycleRuns.db LifecycleRuns.running) LifecycleRuns.id = 1 ∧
  facts_upto (LifecycleRuns.db LifecycleRuns.running) meter_fact LifecycleRuns.id 1.
Proof.
  assert (meter_sequence (LifecycleRuns.db LifecycleRuns.running) LifecycleRuns.id = 1) as E
    by (vm_compute; reflexivity).
  split; [exact E|].
  exact (eq_ind _ (λ n, facts_upto (LifecycleRuns.db LifecycleRuns.running) meter_fact LifecycleRuns.id n)
    (proj1 (telemetry_facts_complete (H := LifecycleRuns.codec) LifecycleRuns.running LifecycleRuns.id
    LifecycleRuns.running_ok')) _ E).
Defined.

Lemma completion_is_final_witness :
  let s := (@history LifecycleRuns.codec
             (LifecycleRuns.db (LifecycleRuns.running ++ [LifecycleRuns.finish])) []).1 in
  run_tx (ClaimV1StopDelivery 9 LifecycleRuns.id) s = (s, inl false).
Proof.
  exact (proj1 (proj2 (completion_is_final (H := LifecycleRuns.codec)
    (LifecycleRuns.running ++ [LifecycleRuns.finish]) [] LifecycleRuns.id 9 (λ i, inl i) 9 "Accepted" "r" "d"
    LifecycleRuns.running_ok LifecycleRuns.finished))).
Defined.
