(* ===== verification/LifecycleSpec.v ===== *)
(** * What telemetry, completion and the retry loop do

    Input-output specifications of UpdateV1TelemetryForOCPP,
    CompleteV1Transaction and withV1StopLifecycleTransaction in PostgreSQL. *)
From Stdlib Require Import String.
From stdpp Require Import base numbers decidable option list strings gmap.
From S2P Require Import Prelude V1Types Evidence V1Memory PgSchema PgMapping PgLifecycle StopLifecycle Histories.
Open Scope Z_scope.

(** Registers as int64, the accepted one at or above the start. *)
Record registers_ok (row : V1Transaction) : Prop := {
  reg_start : 0 ≤ tx_MeterStartWh row ∧ Int64.in_range (tx_MeterStartWh row);
  reg_latest l : tx_LatestMeterWh row = Some l → tx_MeterStartWh row ≤ l ∧ Int64.in_range l
}.

(** ** Telemetry *)
(** The readings the store means to accept: of an open transaction, not below
    its start, and below the accepted register by one unit at most. *)
Definition reading_accepted (row : V1Transaction) (meterWh : Z) : Prop :=
  tx_CompletedAt row = None ∧ tx_MeterStartWh row ≤ meterWh ∧
  opt_holds (λ latest, latest - v1MeterQuantizationToleranceWh ≤ meterWh) (tx_LatestMeterWh row).
#[global] Instance reading_accepted_dec row w : Decision (reading_accepted row w).
Proof. unfold reading_accepted. apply _. Defined.

Definition below_accepted (row : V1Transaction) (meterWh : Z) : Prop :=
  some_and (tx_LatestMeterWh row) (λ latest, meterWh < latest).
#[global] Instance below_accepted_dec row w : Decision (below_accepted row w).
Proof. unfold below_accepted. apply _. Defined.

Definition accepted_row (row : V1Transaction) (meterWh : Z) (at_ : Time) : V1Transaction :=
  (if decide (below_accepted row meterWh)
   then row <| tx_MeterQuantizationAnomalyCount ::= λ n, n + 1 |> else row)
      <| tx_LatestMeterWh := Some meterWh |>
      <| tx_MeterObservedAt := Some (timestamptz (default at_ (Z.max at_ <$> tx_MeterObservedAt row))) |>
      <| tx_MeterSequence ::= λ n, n + 1 |>.

Lemma later_observation (previous : option Time) at_ :
  (match previous with
   | Some p => if decide (GoTime.Before at_ p) then p else at_
   | None => at_
   end) = default at_ (Z.max at_ <$> previous).
Proof. destruct previous as [p|]; [|done]. unfold GoTime.Before. simpl. case_decide; lia. Qed.

Lemma energy_row_spec row meterWh at_ :
  registers_ok row → Int64.in_range meterWh → tx_MeterStartWh row ≤ meterWh → tx_CompletedAt row = None →
  energy_row row meterWh at_ =
  if decide (reading_accepted row meterWh) then Some (accepted_row row meterWh at_) else None.
Proof.
  intros [[Hs0 Hs] Hl] Hw Hle Hopen. unfold energy_row. cbv zeta. rewrite later_observation.
  assert (∀ b : Prop, (b ↔ below_accepted row meterWh) → ∀ D : Decision b,
    accepted_row row meterWh at_ =
    (if D then row <| tx_MeterQuantizationAnomalyCount ::= λ n, n + 1 |> else row)
      <| tx_LatestMeterWh := Some meterWh |>
      <| tx_MeterObservedAt := Some (timestamptz (default at_ (Z.max at_ <$> tx_MeterObservedAt row))) |>
      <| tx_MeterSequence ::= λ n, n + 1 |>) as Hrow.
  { intros b Hb D. unfold accepted_row. destruct D as [Hy|Hn].
    - by rewrite decide_True by (by apply Hb).
    - by rewrite decide_False by (by rewrite <- Hb). }
  assert (reading_accepted row meterWh ↔
    opt_holds (λ latest, latest - v1MeterQuantizationToleranceWh ≤ meterWh) (tx_LatestMeterWh row)) as Hacc.
  { unfold reading_accepted. tauto. }
  unfold below_accepted in Hrow.
  destruct (tx_LatestMeterWh row) as [l|] eqn:El; simpl in *.
  - destruct (Hl l eq_refl) as [Hsl Hlr]. rewrite (Hrow _ (iff_refl _) (decide (meterWh < l))).
    destruct (decide (meterWh < l)) as [Hlt|Hge].
    + unfold classifyV1MeterEvidence. rewrite decide_False by lia. rewrite decide_False by lia.
      rewrite decide_False by lia. cbv zeta. unfold Int64.sub.
      rewrite Int64.wrap64_id
        by (unfold Int64.in_range, Int64.min_value, Int64.max_value in *; lia).
      destruct (decide (l - meterWh ≤ v1MeterQuantizationToleranceWh)) as [Ht|Ht].
      * rewrite decide_False by (intros [Hn|Hn]; apply Hn; done).
        rewrite decide_True by (apply Hacc; lia). done.
      * rewrite decide_True by (left; done). rewrite decide_False; [done|]. rewrite Hacc. lia.
    + rewrite decide_True; [done|]. apply Hacc. unfold v1MeterQuantizationToleranceWh. lia.
  - rewrite decide_True by (by apply Hacc). by rewrite (Hrow False (iff_refl _) (right (λ x, x))).
Qed.

(** The row a telemetry update leaves, up to the stop request it may carry. *)
Definition stop_requested_on (row row' : V1Transaction) : Prop :=
  row' = row ∨ ∃ i r, row' = row <| tx_StopState := "PERSISTED" |>
                                 <| tx_RequestedStopInitiator := i |> <| tx_RequestedStopReason := r |>.

Definition limit_reached (row : V1Transaction) (meterWh : Z) : Prop :=
  some_and (tx_EnergyLimitWh row) (λ limit, limit ≤ meterWh - tx_MeterStartWh row).

Section telemetry_spec.
Context `{FactCodec}.

Lemma enforce_reached now t s s' id row :
  tx_HALTransactionID t = id → pg_transactions s !! id = Some row → tx_CompletedAt t = tx_CompletedAt row →
  some_and (tx_EnergyLimitWh t) (λ limit,
    limit ≤ Int64.sub (default 0 (tx_LatestMeterWh t)) (tx_MeterStartWh t)) →
  enforce_energy_limit now t s = inl ((), s') → is_Some (pg_workflows s' !! id).
Proof.
  intros <- Erow Hc Hlim Hs. unfold enforce_energy_limit in Hs. rewrite decide_True in Hs by done.
  destruct (v1EnergyStopCause _ _) as [i r]. apply tx_bind_inv in Hs as (wc & s1 & He & Hs).
  injection Hs as <-. destruct (ensure_inv _ _ _ _ _ _ _ _ Erow Hc He)
    as [(-> & ? & _)|(_ & _ & _ & _ & ->)]; [done|]. simpl. by rewrite lookup_insert_eq.
Qed.

Lemma meter_half_rows now gen id row (e : bool) s s' :
  pg_transactions s !! id = Some row → tx_HALTransactionID row = id →
  (if e then
     enforce_energy_limit now (read_transaction row);;
     insertV1FactTx now (gen 0%nat) meter_fact id (Some (tx_MeterSequence row))
       (default 0 (tx_MeterObservedAt row)) (v1MeterFact (read_transaction row))
   else mret ()) s = inl ((), s') →
  (∃ row', pg_transactions s' = <[id := row']> (pg_transactions s) ∧ stop_requested_on row row') ∧
  (e = true → has_fact s' meter_fact id (Some (tx_MeterSequence row)) ∧
    (some_and (tx_EnergyLimitWh row) (λ limit,
       limit ≤ Int64.sub (default 0 (tx_LatestMeterWh row)) (tx_MeterStartWh row)) →
     is_Some (pg_workflows s' !! id))).
Proof.
  intros Erow Hid Hr. destruct e; [|injection Hr as <-; split; [|done]].
  - apply tx_bind_inv in Hr as ([] & s1 & He & Hi).
    apply insert_fact_keys in Hi as (Ho & _ & Hf); [|done].
    apply outbox_only_tables in Ho as (Ht & Hw & _). split.
    + rewrite Ht. destruct (enforce_inv now (read_transaction row) s s1 id row Hid Erow eq_refl He)
        as [->|(_ & _ & i & r & ->)].
      * exists row. split; [by rewrite insert_id|by left].
      * eexists. split; [reflexivity|]. right. eauto.
    + intros _. split; [apply Hf; by right|]. intros Hl. rewrite Hw.
      exact (enforce_reached now (read_transaction row) s s1 id row Hid Erow eq_refl Hl He).
  - exists row. split; [by rewrite insert_id|by left].
Qed.

Lemma soc_half_rows now gen id row (e : bool) s s' :
  (if e then
     insertV1FactTx now (gen 1%nat) soc_fact id (Some (tx_SoCSequence row))
       (default 0 (tx_SoCObservedAt row)) (v1SoCFact (read_transaction row))
   else mret ()) s = inl ((), s') →
  pg_transactions s' = pg_transactions s ∧ pg_workflows s' = pg_workflows s ∧
  (∀ ty ag q, has_fact s ty ag q → has_fact s' ty ag q) ∧
  (e = true → has_fact s' soc_fact id (Some (tx_SoCSequence row))).
Proof.
  destruct e; [|by intros [= <-]]. intros (Ho & _ & Hf)%insert_fact_keys; [|done].
  apply outbox_only_tables in Ho as (Ht & Hw & _). split_and!; [done|done|..].
  - intros ty ag q ?. apply Hf. by left.
  - intros _. apply Hf. by right.
Qed.
End telemetry_spec.

Lemma accepted_energy_eq tel row :
  registers_ok row → opt_holds Int64.in_range (tel_EnergyWh tel) →
  accepted_energy tel row =
  w ← tel_EnergyWh tel; at_ ← tel_EnergyObservedAt tel;
  if decide (reading_accepted row w) then Some (accepted_row row w at_) else None.
Proof.
  intros Hr Hw. unfold accepted_energy. destruct (tel_EnergyWh tel) as [w|]; [|done].
  destruct (tel_EnergyObservedAt tel) as [at_|]; [|done]. simpl in *. case_decide as D.
  - destruct D. by apply energy_row_spec.
  - rewrite decide_False; [done|]. intros (? & ? & _). tauto.
Qed.

Lemma accepted_soc_keeps tel row row' :
  accepted_soc tel row = Some row' →
  tx_LatestMeterWh row' = tx_LatestMeterWh row ∧ tx_MeterObservedAt row' = tx_MeterObservedAt row ∧
  tx_MeterSequence row' = tx_MeterSequence row ∧ tx_EnergyLimitWh row' = tx_EnergyLimitWh row ∧
  tx_MeterStartWh row' = tx_MeterStartWh row ∧ tx_HALTransactionID row' = tx_HALTransactionID row.
Proof.
  unfold accepted_soc. destruct (tel_SoCPercent tel); [|done]. destruct (tel_SoCObservedAt tel); [|done].
  case_decide; [|done]. unfold soc_row. case_decide; [|done]. by intros [= <-].
Qed.

Lemma accepted_row_keeps row w at_ :
  let row' := accepted_row row w at_ in
  tx_LatestMeterWh row' = Some w ∧
  tx_MeterObservedAt row' = Some (timestamptz (default at_ (Z.max at_ <$> tx_MeterObservedAt row))) ∧
  tx_MeterSequence row' = tx_MeterSequence row + 1 ∧ tx_EnergyLimitWh row' = tx_EnergyLimitWh row ∧
  tx_MeterStartWh row' = tx_MeterStartWh row ∧ tx_HALTransactionID row' = tx_HALTransactionID row ∧
  tx_MeterQuantizationAnomalyCount row' =
    tx_MeterQuantizationAnomalyCount row + (if decide (below_accepted row w) then 1 else 0).
Proof. unfold accepted_row. case_decide; simpl; split_and!; try done. lia. Qed.

Definition energy_reading (tel : V1MeterTelemetry) : option (Z * Time) :=
  w ← tel_EnergyWh tel; at_ ← tel_EnergyObservedAt tel; Some (w, at_).

(** What an accepted register leaves of row [row] in the tables. *)
Record register_accepted (row row' : V1Transaction) (w : Z) (at_ : Time) (id : string) (s' : pg) : Prop := {
  ra_latest : tx_LatestMeterWh row' = Some w;
  ra_observed : tx_MeterObservedAt row' =
    Some (timestamptz (default at_ (Z.max at_ <$> tx_MeterObservedAt row)));
  ra_sequence : tx_MeterSequence row' = tx_MeterSequence row + 1;
  ra_anomalies : tx_MeterQuantizationAnomalyCount row' =
    tx_MeterQuantizationAnomalyCount row + (if decide (below_accepted row w) then 1 else 0);
  ra_fact : has_fact s' meter_fact id (Some (tx_MeterSequence row'));
  ra_limit : limit_reached row w → is_Some (pg_workflows s' !! id)
}.

(** [telemetry_spec] below, with the transaction the call returns. *)
Lemma telemetry_effect `{FactCodec} now gen identity ocppID tel s t r s' :
  (∀ id row, pg_transactions s !! id = Some row → registers_ok row ∧ tx_HALTransactionID row = id) →
  opt_holds Int64.in_range (tel_EnergyWh tel) →
  run_tx (UpdateV1TelemetryForOCPP now gen identity ocppID tel) s = (s', inl (t, r)) →
  ∃ id row row',
    pg_transactions s !! id = Some row ∧ tx_HALTransactionID t = id ∧ tx_CompletedAt row' = tx_CompletedAt row ∧
    tx_ChargerOCPPIdentity row = identity ∧ tx_OCPPTransactionID row = ocppID ∧
    pg_transactions s' = <[id := row']> (pg_transactions s) ∧
    (∀ w at_, energy_reading tel = Some (w, at_) → reading_accepted row w →
       tur_EnergyAccepted r = true ∧ register_accepted row row' w at_ id s') ∧
    ((∀ w at_, energy_reading tel = Some (w, at_) → ¬ reading_accepted row w) →
       tur_EnergyAccepted r = false ∧ tx_LatestMeterWh row' = tx_LatestMeterWh row ∧
       tx_MeterObservedAt row' = tx_MeterObservedAt row ∧ tx_MeterSequence row' = tx_MeterSequence row).
Proof.
  intros Hrows Hw Hr%run_tx_inl. apply telemetry_inv in Hr as (id & row & Ef & -> & -> & s2 & s3 & -> & Hm & Hs).
  apply find_row_Some in Ef as (Erow & Hci & Hoc). destruct (Hrows id row Erow) as [Hreg Hid].
  rewrite (accepted_energy_eq tel row Hreg Hw) in Hm, Hs |- *. set (energy := tel_EnergyWh tel ≫= _) in *.
  set (row1 := default row energy) in *. set (row2 := default row1 (accepted_soc tel row1)) in *.
  assert (tx_LatestMeterWh row2 = tx_LatestMeterWh row1 ∧ tx_MeterObservedAt row2 = tx_MeterObservedAt row1 ∧
    tx_MeterSequence row2 = tx_MeterSequence row1 ∧ tx_EnergyLimitWh row2 = tx_EnergyLimitWh row1 ∧
    tx_MeterStartWh row2 = tx_MeterStartWh row1 ∧ tx_HALTransactionID row2 = tx_HALTransactionID row1 ∧
    tx_MeterQuantizationAnomalyCount row2 = tx_MeterQuantizationAnomalyCount row1 ∧
    tx_CompletedAt row2 = tx_CompletedAt row1)
    as (L2 & O2 & S2 & E2 & M2 & I2 & Q2 & C2).
  { unfold row2, accepted_soc, soc_row. destruct (tel_SoCPercent tel); [|done].
    destruct (tel_SoCObservedAt tel); [|done]. do 2 (case_decide; [|done]). done. }
  assert (tx_HALTransactionID row1 = id ∧ tx_CompletedAt row1 = tx_CompletedAt row) as [I1 C1].
  { unfold row1, energy. destruct (tel_EnergyWh tel); [|done]. destruct (tel_EnergyObservedAt tel); [|done].
    simpl. case_decide; [|done]. simpl. rewrite <- Hid. by case_decide. }
  destruct (meter_half_rows now gen id row2 _ _ _ (lookup_insert_eq _ _ _) ltac:(congruence) Hm)
    as ((row3 & Ht3 & Hst) & Hfacts).
  destruct (soc_half_rows now gen id row2 _ _ _ Hs) as (Ht' & Hw' & Hkeep & _). simpl in Ht3. rewrite insert_insert_eq in Ht3.
  assert (tx_LatestMeterWh row3 = tx_LatestMeterWh row2 ∧ tx_MeterObservedAt row3 = tx_MeterObservedAt row2 ∧
    tx_MeterSequence row3 = tx_MeterSequence row2 ∧
    tx_MeterQuantizationAnomalyCount row3 = tx_MeterQuantizationAnomalyCount row2 ∧
    tx_CompletedAt row3 = tx_CompletedAt row2) as (L3 & O3 & S3 & Q3 & C3).
  { by destruct Hst as [->|(i & rs & ->)]. }
  exists id, row, row3. split_and!; [done|simpl; congruence|congruence|done|done|congruence|..].
  - unfold energy_reading. intros w at_ Hrd Hacc. destruct (tel_EnergyWh tel) as [w0|] eqn:Ew; [|done].
    destruct (tel_EnergyObservedAt tel) as [a0|]; [|done]. simpl in Hrd. injection Hrd as -> ->.
    assert (energy = Some (accepted_row row w at_)) as Een by (unfold energy; simpl; by rewrite decide_True).
    assert (row1 = accepted_row row w at_) as Er1 by (unfold row1; by rewrite Een).
    destruct (accepted_row_keeps row w at_) as (K1 & K2 & K3 & K4 & K5 & K6 & K7). rewrite <- Er1 in *.
    destruct (Hfacts ltac:(by rewrite Een)) as [Hf Hl]. simpl. split; [by rewrite Een|].
    split; try congruence.
    + rewrite S3. by apply Hkeep.
    + rewrite Hw'. intros Hlim. apply Hl. rewrite E2, K4, L2, K1, M2, K5. unfold limit_reached in Hlim.
      destruct (tx_EnergyLimitWh row) as [lim|]; [|done]. simpl in *. unfold Int64.sub.
      destruct Hreg as [[Hs0 Hsr] _], Hacc as (_ & Hge & _).
      rewrite Int64.wrap64_id; [done|].
      unfold Int64.in_range, Int64.min_value, Int64.max_value in *. lia.
  - unfold energy_reading. intros Hno. assert (energy = None) as Een.
    { unfold energy. destruct (tel_EnergyWh tel) as [w0|] eqn:Ew; [|done].
      destruct (tel_EnergyObservedAt tel) as [a0|]; [|done]. simpl. by rewrite decide_False by (by eapply Hno). }
    assert (row1 = row) as Er1 by (unfold row1; by rewrite Een). rewrite Er1 in *. simpl. rewrite Een.
    split_and!; [done|congruence..].
Qed.

(** C16: What one committed MeterValues update does to the register.  A reading
    is accepted exactly when the transaction is open and the register is at or
    above the start and below the accepted one by the quantization tolerance (one
    Wh) at most; then it becomes the accepted register, its time never goes back,
    its sequence advances, its fact is in the outbox in the same transaction, and
    an energy limit it reaches leaves a stop workflow behind; a refused reading
    changes none of this, and no other transaction is touched.  So a reading one
    Wh below the accepted register is counted as an anomaly and then replaces the
    register and is emitted as the next meter fact ([one_wh_rollback] below): the
    contract (docs/contracts/CMS_HAL_CHARGING_V1.md, MeterValues) says that it
    does neither, and the memory store does neither; what is proved here is what
    the PostgreSQL store does. *)
Theorem telemetry_spec `{FactCodec} now gen identity ocppID tel s t r s' :
  (∀ id row, pg_transactions s !! id = Some row → registers_ok row ∧ tx_HALTransactionID row = id) →
  opt_holds Int64.in_range (tel_EnergyWh tel) →
  run_tx (UpdateV1TelemetryForOCPP now gen identity ocppID tel) s = (s', inl (t, r)) →
  ∃ id row row',
    pg_transactions s !! id = Some row ∧
    tx_ChargerOCPPIdentity row = identity ∧ tx_OCPPTransactionID row = ocppID ∧
    pg_transactions s' = <[id := row']> (pg_transactions s) ∧
    (∀ w at_, energy_reading tel = Some (w, at_) → reading_accepted row w →
       tur_EnergyAccepted r = true ∧ register_accepted row row' w at_ id s') ∧
    ((∀ w at_, energy_reading tel = Some (w, at_) → ¬ reading_accepted row w) →
       tur_EnergyAccepted r = false ∧ tx_LatestMeterWh row' = tx_LatestMeterWh row ∧
       tx_MeterObservedAt row' = tx_MeterObservedAt row ∧ tx_MeterSequence row' = tx_MeterSequence row).
Proof.
  intros Hrows Hw Hr. destruct (telemetry_effect now gen identity ocppID tel s t r s' Hrows Hw Hr)
    as (id & row & row' & H1 & _ & _ & H2). by exists id, row, row'.
Qed.

(** ** Completion *)
Section completion_spec.
Context `{FactCodec}.

(** Every answer about a completed row comes from the row alone. *)
Lemma complete_again now gen id stop reason cAt oAt s row :
  pg_transactions s !! id = Some row → is_Some (tx_CompletedAt row) →
  run_tx (CompleteV1Transaction now gen id stop reason cAt oAt) s =
  (s, if decide (replay_matches (read_transaction row) stop reason cAt)
      then inl (read_transaction row) else inr ErrV1InvalidEvidence).
Proof.
  intros Erow Hc. unfold run_tx, CompleteV1Transaction, lockV1StopLifecycleRows, getV1TransactionByID,
    mbind, txm_bind, tx_get, mret, txm_ret, tx_fail. rewrite Erow. cbn [sl_Transaction].
  rewrite decide_True by done. by case_decide.
Qed.

(** The guards of a first completion. *)
Lemma complete_guards now gen id stop reason cAt oAt s t s' row :
  CompleteV1Transaction now gen id stop reason cAt oAt s = inl (t, s') →
  pg_transactions s !! id = Some row → tx_CompletedAt row = None →
  tx_ActualStartedAt row ≤ cAt ∧ tx_ObservedStartedAt row ≤ oAt ∧ plausibleV1ProtocolTime cAt oAt = true.
Proof.
  intros Hs Erow Hopen. unfold CompleteV1Transaction in Hs.
  apply tx_bind_inv in Hs as (rows & s0 & [-> (t0 & Et & Ht & Hw)]%lock_inv & Hs). rewrite Ht in Hs.
  rewrite Erow in Et. injection Et as <-. cbv zeta in Hs.
  rewrite decide_False in Hs by (change (tx_CompletedAt (read_transaction row)) with (tx_CompletedAt row);
    rewrite Hopen; by intros [? ?]).
  case_decide as D; [done|]. apply not_or_and in D as [D1 D2]. apply not_or_and in D2 as [D2 D3].
  unfold GoTime.Before in *.
  change (tx_ActualStartedAt (read_transaction row)) with (tx_ActualStartedAt row) in D1.
  change (tx_ObservedStartedAt (read_transaction row)) with (tx_ObservedStartedAt row) in D2.
  split_and!; [lia|lia|by apply not_false_is_true].
Qed.
End completion_spec.

(** C17: What a first completion does, and what every later one answers.  The
    raw register is stored, the effective one is the higher of it and the
    accepted register, at most one quantization unit apart and never below the
    start; the transaction ends after it started, at a plausible time.  From
    then on any call for it leaves the database alone and succeeds exactly when
    it repeats the raw register, the reason and the stored time - which is the
    reported time cut to microseconds, so that repeating a report with a finer
    time is refused. *)
Theorem CompleteV1Transaction_pg_spec `{FactCodec} now gen id stop reason cAt oAt s t s' row :
  pg_transactions s !! id = Some row → tx_CompletedAt row = None →
  registers_ok row → Int64.in_range stop →
  run_tx (CompleteV1Transaction now gen id stop reason cAt oAt) s = (s', inl t) →
  (tx_ActualStartedAt row ≤ cAt ∧ tx_ObservedStartedAt row ≤ oAt ∧ plausibleV1ProtocolTime cAt oAt = true) ∧
  (tx_RawMeterStopWh t = Some stop ∧ tx_CompletedAt t = Some (timestamptz cAt) ∧
   tx_MeterStopWh t = Some (Z.max stop (default stop (tx_LatestMeterWh row))) ∧
   tx_MeterStartWh row ≤ stop ∧
   Z.max stop (default stop (tx_LatestMeterWh row)) ≤ stop + v1MeterQuantizationToleranceWh) ∧
  (∀ now' gen' stop' reason' cAt' oAt',
     run_tx (CompleteV1Transaction now' gen' id stop' reason' cAt' oAt') s' =
     (s', if decide (stop' = stop ∧ reason' = reason ∧ cAt' = timestamptz cAt)
          then inl t else inr ErrV1InvalidEvidence)).
Proof.
  intros Erow Hopen [[Hs0 Hsr] Hl] Hstop Hs%run_tx_inl.
  pose proof (complete_guards _ _ _ _ _ _ _ _ _ _ _ Hs Erow Hopen) as Hg. split; [done|].
  apply CompleteV1Transaction_inv in Hs as (row0 & E0 & Hs). rewrite Erow in E0. injection E0 as <-.
  destruct Hs as [(Hc & _)|(_ & cls & s1 & Hcls & -> & Ht1 & _ & _ & _ & _ & p & Hi)].
  { rewrite Hopen in Hc. by destruct Hc. }
  destruct (classify_accepted _ _ _ _ (λ l El, proj1 (Hl l El)) Hstop Hsr (λ l El, proj2 (Hl l El)) Hs0 Hcls)
    as (Hle & Heff & Hadj & Hbound & _).
  split; [split_and!; try done; simpl; [by rewrite Heff|lia]|].
  assert (pg_transactions s' !! id = Some (completed_row row cls stop reason cAt oAt)) as Erow'.
  { apply insertV1FactTx_completed_inv in Hi as [[_ ->]|(_ & r & _ & ->)]; simpl;
      rewrite Ht1; apply lookup_insert_eq. }
  intros now' gen' stop' reason' cAt' oAt'.
  rewrite (complete_again _ _ _ _ _ _ _ _ _ Erow' ltac:(eexists; reflexivity)).
  f_equal. destruct (decide (replay_matches _ _ _ _)) as [R|R]; destruct (decide (_ ∧ _)) as [D|D];
    try done; exfalso.
  - destruct R as (R1 & R2 & R3). unfold GoTime.Equal in R3. simpl in *. apply D. split_and!; congruence.
  - apply R. destruct D as (-> & -> & ->). unfold replay_matches, GoTime.Equal. simpl. done.
Qed.

(** ** Retrying *)
Section retry_spec.
Context `{FactCodec} {A : Type} (operation : txm pg A) (fault ctxErr ctxDone : Z → option go_error).

Definition attempt : pg * Z → (pg * Z) * option go_error := λ '(s, n),
  match fault n with
  | Some err => ((s, n + 1), Some err)
  | None =>
    match run_tx operation s with
    | (s', inl _) => ((s', n + 1), None)
    | (s', inr err) => ((s', n + 1), Some err)
    end
  end.

(** A failed attempt leaves the database as it was. *)
Lemma attempt_failed s n s' m err : attempt (s, n) = ((s', m), Some err) → s' = s ∧ m = n + 1.
Proof.
  unfold attempt, run_tx. destruct (fault n); [by intros [= <- <- _]|].
  destruct (operation s) as [[a s1]|e]; [done|]. by intros [= <- <- _].
Qed.

Lemma retry_outcome fuel k last s s' m err :
  fuel ≠ O ∨ last ≠ None →
  retry_from attempt ctxErr ctxDone fuel k last (s, k) = ((s', m), err) →
  k ≤ m ≤ k + Z.of_nat fuel ∧
  match err with None => ∃ a, operation s = inl (a, s') | Some _ => s' = s end.
Proof.
  revert k last. induction fuel as [|fuel IH]; intros k last Hlast; cbn [retry_from].
  { intros [= <- <- <-]. split; [lia|]. destruct last; [done|]. by destruct Hlast. }
  destruct (ctxErr k); [intros [= <- <- <-]; split; [lia|done]|].
  destruct (attempt (s, k)) as [[s1 n1] [e|]] eqn:Ea.
  - destruct (attempt_failed _ _ _ _ _ Ea) as [-> ->].
    case_decide; [intros [= <- <- <-]; split; [lia|done]|].
    destruct (ctxDone k); [intros [= <- <- <-]; split; [lia|done]|].
    intros (Hm & Hs)%IH; [|by right]. split; [lia|done].
  - intros [= <- <- <-]. unfold attempt, run_tx in Ea. destruct (fault k); [done|].
    destruct (operation s) as [[a s2]|e2]; [|done]. injection Ea as -> <-. split; [lia|eauto].
Qed.

(** [k] transient faults, then a clean attempt. *)
Lemma retry_recovers fuel j last k a s s1 :
  j ≤ k < v1StopLifecycleTransactionAttempts → k < j + Z.of_nat fuel →
  (∀ i, j ≤ i ≤ k → ctxErr i = None) →
  (∀ i, j ≤ i < k → ctxDone i = None ∧
     ∃ e, fault i = Some e ∧ isRetryableV1StopLifecycleTransactionError e = true) →
  fault k = None → operation s = inl (a, s1) →
  retry_from attempt ctxErr ctxDone fuel j last (s, j) = ((s1, k + 1), None).
Proof.
  revert j last. induction fuel as [|fuel IH]; intros j last Hj Hf He Ht Hk Ho; [lia|]. cbn [retry_from].
  rewrite He by lia. destruct (decide (j = k)) as [->|].
  - unfold attempt at 1, run_tx. by rewrite Hk, Ho.
  - destruct (Ht j ltac:(lia)) as (Hd & e & Hfj & Hre). unfold attempt at 1. rewrite Hfj.
    rewrite decide_False, Hd; [|intros [?|?]; [congruence|lia]].
    apply IH; [lia|lia|intros; apply He; lia|intros; apply Ht; lia|done|done].
Qed.
End retry_spec.

(** C21: The transaction-retry loop: it makes three attempts at most; it reports
    success exactly with one committed run of the operation on the database it
    started from, and any reported failure leaves that database unchanged; it
    survives up to two deadlock or serialization failures while the context is
    alive, and reports any other failure of the first attempt at once. *)
Theorem lifecycle_transaction_retry {A} (operation : txm pg A) fault ctxErr ctxDone (s : pg) :
  let '((s', n), err) :=
    retryV1StopLifecycleTransaction (attempt operation fault) ctxErr ctxDone (s, 0) in
  withV1StopLifecycleTransaction fault ctxErr ctxDone operation s = (s', err) ∧
  0 ≤ n ≤ v1StopLifecycleTransactionAttempts ∧
  match err with None => ∃ a, operation s = inl (a, s') | Some _ => s' = s end ∧
  (∀ k a s1, 0 ≤ k < v1StopLifecycleTransactionAttempts →
     (∀ i, 0 ≤ i ≤ k → ctxErr i = None) →
     (∀ i, 0 ≤ i < k → ctxDone i = None ∧
        ∃ e, fault i = Some e ∧ isRetryableV1StopLifecycleTransactionError e = true) →
     fault k = None → operation s = inl (a, s1) → s' = s1 ∧ n = k + 1 ∧ err = None) ∧
  (∀ e, ctxErr 0 = None → fault 0 = Some e → isRetryableV1StopLifecycleTransactionError e = false →
     n = 1 ∧ err = Some e).
Proof.
  destruct (retryV1StopLifecycleTransaction (attempt operation fault) ctxErr ctxDone (s, 0))
    as [[s' n] err] eqn:E. split.
  { unfold withV1StopLifecycleTransaction. change (λ '(s, n), _) with (attempt operation fault). by rewrite E. }
  pose proof E as E'. unfold retryV1StopLifecycleTransaction in E'.
  apply retry_outcome in E' as (Hn & Hs); [|by left]. split; [exact Hn|]. split; [done|]. split.
  - intros k a s1 Hk He Ht Hf Ho. unfold retryV1StopLifecycleTransaction in E.
    rewrite (retry_recovers operation fault ctxErr ctxDone _ 0 None k a s s1) in E; try done; [|lia].
    by injection E as <- <- <-.
  - intros e He Hf Hr. unfold retryV1StopLifecycleTransaction in E. change (Z.to_nat _) with 3%nat in E.
    cbn [retry_from] in E. rewrite He in E. unfold attempt at 1 in E. rewrite Hf in E.
    rewrite decide_True in E by (by left). by injection E as <- <- <-.
Qed.

(** ** Concrete runs *)
Module SpecRuns.
#[local] Existing Instance LifecycleRuns.codec.
Abbreviation before := (LifecycleRuns.db LifecycleRuns.opened).
Abbreviation read := (@UpdateV1TelemetryForOCPP LifecycleRuns.codec 3 (LifecycleRuns.gen "meter") "CP-1" 77 (LifecycleRuns.reading 600)).
Abbreviation finish := (@CompleteV1Transaction LifecycleRuns.codec 6 (LifecycleRuns.gen "complete") LifecycleRuns.id 599 "Remote"
  LifecycleRuns.stopped_at (701 * GoTime.Second)).

(** The only row: open, started at 100 Wh, limited to 500 Wh. *)
Definition opened_row (id : string) (row : V1Transaction) : Prop :=
  id = LifecycleRuns.id ∧ tx_HALTransactionID row = id ∧ tx_CompletedAt row = None ∧ tx_MeterStartWh row = 100 ∧
  tx_LatestMeterWh row = None ∧ tx_EnergyLimitWh row = Some 500.
#[local] Instance opened_row_dec id row : Decision (opened_row id row).
Proof. unfold opened_row. apply _. Defined.
Lemma opened_rows id row : pg_transactions before !! id = Some row → opened_row id row.
Proof.
  assert (map_Forall opened_row (pg_transactions before)) as Hm; [|apply Hm].
  apply (bool_decide_unpack _). vm_compute. exact I.
Defined.
Lemma opened_registers id row :
  pg_transactions before !! id = Some row → registers_ok row ∧ tx_HALTransactionID row = id.
Proof.
  intros (-> & Hid & _ & Hs & Hl & _)%opened_rows. split; [|done].
  split; [rewrite Hs; by vm_compute|]. rewrite Hl. discriminate.
Defined.
Lemma reading_range : opt_holds Int64.in_range (tel_EnergyWh (LifecycleRuns.reading 600)).
Proof. by vm_compute. Defined.
Lemma stop_range : Int64.in_range 599.
Proof. by vm_compute. Defined.
(** Register 600, then 599: the row, its anomalies and the meter facts. *)
Definition one_wh_lower : pg :=
  (run_tx (UpdateV1TelemetryForOCPP 4 (LifecycleRuns.gen "lower") "CP-1" 77 (LifecycleRuns.reading 599)) (run_tx read before).1).1.
Example one_wh_rollback :
  ((λ t, (tx_LatestMeterWh t, tx_MeterSequence t, tx_MeterQuantizationAnomalyCount t)) <$> pg_transactions one_wh_lower !! LifecycleRuns.id,
   bool_decide (has_fact one_wh_lower meter_fact LifecycleRuns.id (Some 2))) = (Some (Some 599, 2, 1), true).
Proof. vm_compute. reflexivity. Qed.
Definition succeeds {A} (r : pg * result A) : bool := match r.2 with inl _ => true | inr _ => false end.
End SpecRuns.

Lemma telemetry_spec_witness :
  ∃ t r s' row', run_tx SpecRuns.read SpecRuns.before = (s', inl (t, r)) ∧
    tur_EnergyAccepted r = true ∧ pg_transactions s' !! LifecycleRuns.id = Some row' ∧
    tx_LatestMeterWh row' = Some 600 ∧ is_Some (pg_workflows s' !! LifecycleRuns.id).
Proof.
  assert (SpecRuns.succeeds (run_tx SpecRuns.read SpecRuns.before) = true) as E
    by (vm_compute; reflexivity).
  destruct (run_tx SpecRuns.read SpecRuns.before) as [s' [[t r]|e]] eqn:Er;
    [|discriminate E].
  destruct (telemetry_spec (H := LifecycleRuns.codec) 3 (LifecycleRuns.gen "meter") "CP-1" 77
    (LifecycleRuns.reading 600) SpecRuns.before t r s' SpecRuns.opened_registers SpecRuns.reading_range Er) as (id & row & row' & Erow & _ & _ & Et & Hacc & _).
  destruct (SpecRuns.opened_rows _ _ Erow) as (-> & _ & Ho & Hs & Hl & Hlim).
  destruct (Hacc 600 (600 * GoTime.Second) eq_refl) as [Ha [H1 H2 H3 H4 H5 H6]].
  { split_and!; [exact Ho|rewrite Hs; lia|rewrite Hl; exact I]. }
  exists t, r, s', row'. split_and!; [done|done|rewrite Et; apply lookup_insert_eq|done|].
  apply H6. unfold limit_reached. rewrite Hlim, Hs. by vm_compute.
Defined.

(** The completion is accepted; its literal repetition is then refused, since
    the reported time is finer than the stored one. *)
Lemma CompleteV1Transaction_pg_spec_witness :
  ∃ s' t, run_tx SpecRuns.finish SpecRuns.before = (s', inl t) ∧ tx_MeterStopWh t = Some 599 ∧
    run_tx SpecRuns.finish s' = (s', inr ErrV1InvalidEvidence).
Proof.
  assert (SpecRuns.succeeds (run_tx SpecRuns.finish SpecRuns.before) = true) as E by (vm_compute; reflexivity).
  destruct (run_tx SpecRuns.finish SpecRuns.before) as [s' [t|e]] eqn:Er; [|discriminate E].
  destruct (pg_transactions SpecRuns.before !! LifecycleRuns.id) as [row|] eqn:Erow;
    [|exfalso; clear - Erow; vm_compute in Erow; discriminate Erow].
  destruct (SpecRuns.opened_rows _ _ Erow) as (_ & _ & Ho & Hs & Hl & _).
  destruct (CompleteV1Transaction_pg_spec (H := LifecycleRuns.codec) 6 (LifecycleRuns.gen "complete")
    LifecycleRuns.id 599 "Remote" LifecycleRuns.stopped_at (701 * GoTime.Second) SpecRuns.before t s' row Erow Ho
    (proj1 (SpecRuns.opened_registers _ _ Erow)) SpecRuns.stop_range Er) as (_ & (_ & _ & Hw & _) & Hrep).
  exists s', t. split_and!; [done|by rewrite Hw, Hl|].
  rewrite Hrep. rewrite decide_False; [reflexivity|]. intros (_ & _ & Hc). vm_compute in Hc. discriminate Hc.
Defined.
