(* ===== verification/Connections.v ===== *)
(** * Live charger connections

    internal/ocpp16hal: connections.go (the tracker of the current socket of
    each charger), v1_admission.go (identity paths and wire identities) and the
    runtime-projection retry of hal.go. *)
From Stdlib Require Import String Ascii.
From stdpp Require Import base numbers decidable option list sorting strings gmap.
From S2P Require Import Prelude GoText V1Types.
Open Scope Z_scope.

(** ** The connection tracker (connections.go) *)
Definition wrap_uint64 (z : Z) : Z := z mod 2 ^ 64.

Record connectionRecord : Type := mkconnectionRecord {
  cr_ChargerID : string;
  cr_Key : string;
  cr_Generation : Z;          (* uint64 *)
  cr_RemoteAddr : string;
  cr_ConnectedAt : Time
}.
Record connectionTracker : Type := mkconnectionTracker {
  ct_next : Z;                (* uint64 *)
  ct_active : gmap string connectionRecord
}.
#[global] Instance eta_connectionTracker : Eta connectionTracker := λ t,
  mkconnectionTracker (ct_next t) (ct_active t).

Definition newConnectionTracker : connectionTracker := mkconnectionTracker 0 ∅.

Definition register (t : connectionTracker) (now : Time) (chargerID key remoteAddr : string) :
    connectionTracker * (connectionRecord * option connectionRecord) :=
  let next := wrap_uint64 (ct_next t + 1) in
  let record := mkconnectionRecord chargerID key next remoteAddr now in
  let previous := ct_active t !! chargerID in
  (mkconnectionTracker next (<[chargerID := record]> (ct_active t)), (record, previous)).

Definition unregisterIfCurrent (t : connectionTracker) (chargerID key : string) :
    connectionTracker * (bool * option connectionRecord) :=
  match ct_active t !! chargerID with
  | None => (t, (false, None))
  | Some current =>
    if decide (cr_Key current ≠ key) then (t, (false, Some current))
    else (t <| ct_active ::= delete chargerID |>, (true, Some current))
  end.

Definition current (t : connectionTracker) (chargerID : string) : option connectionRecord :=
  ct_active t !! chargerID.

Definition identities (t : connectionTracker) : list string :=
  merge_sort String.le (map_to_list (ct_active t)).*1.

(** [HAL.nextV1ChargerOperationRecoveryIdentity]: the rotation of the recovery
    worker over the connected chargers; [next] is its uint64 counter. *)
Definition nextV1ChargerOperationRecoveryIdentity (t : connectionTracker) (next : Z) :
    Z * option string :=
  let ids := identities t in
  match ids with
  | [] => (next, None)
  | _ => (wrap_uint64 (next + 1), ids !! Z.to_nat (next mod Z.of_nat (length ids)))
  end.

(** [HAL.connectionGenerationCurrent]; [int64(current.Generation)] wraps. *)
Definition connectionGenerationCurrent (t : connectionTracker) (identity : string) (generation : Z) : bool :=
  match current t identity with
  | Some c => bool_decide (Int64.wrap64 (cr_Generation c) = generation)
  | None => false
  end.

(** ** Identity paths (v1_admission.go)

    A request is the escaped path of its URL; [None] is a nil request. *)
Definition slash : ascii := "/".

Definition parseChargerIdentityPath (request : option string) (wireIdentity : string) :
    option (string * string) :=
  match request with
  | None => None
  | Some escaped =>
    let path := TrimPrefix escaped "/" in
    if decide (path = "") then None
    else if Contains path "//" then None
    else
      let parts := Split slash path in
      if decide (length parts ≠ 1%nat ∧ length parts ≠ 2%nat) then None
      else if decide (Exists (λ part, part = "" ∨ ContainsAny part "?#%" = true) parts) then None
      else if decide (last parts ≠ Some wireIdentity) then None
      else
        let identity := default "" (head parts) in
        let serial := if decide (length parts = 2%nat) then default "" (parts !! 1%nat) else "" in
        Some (identity, serial)
  end.

(** ** Wire identities

    ocpp-go addresses a charger by the last path segment; the map goes from it
    to the canonical identity. *)
Abbreviation wired := (gmap string string).

Definition rememberWireIdentity (w : wired) (wireIdentity canonicalIdentity : string) : wired * bool :=
  match w !! wireIdentity with
  | Some previous =>
    if decide (previous ≠ canonicalIdentity) then (w, false)
    else (<[wireIdentity := canonicalIdentity]> w, true)
  | None => (<[wireIdentity := canonicalIdentity]> w, true)
  end.

Definition canonicalIdentity (w : wired) (wireIdentity : string) : string :=
  default wireIdentity (w !! wireIdentity).

(** [ks] is the order in which Go visits the map. *)
Definition wireIdentityFor (w : wired) (ks : list string) (canonical : string) : string :=
  match range_first w (λ identity, identity = canonical) ks with
  | Some (wireIdentity, _) => wireIdentity
  | None => canonical
  end.

Definition forgetWireIdentity (w : wired) (wireIdentity : string) : wired := delete wireIdentity w.

(** [HAL.validateIncomingCharger]; [admission] is the store's
    ValidateV1ChargerAdmission, [None] when there is no store. *)
Definition validateIncomingCharger (w : wired) (admission : option (string → string → option go_error))
    (chargePointID : string) (request : option string) : wired * bool :=
  match admission with
  | None => (w, false)
  | Some validate =>
    match parseChargerIdentityPath request chargePointID with
    | None => (w, false)
    | Some (identity, serial) =>
      match validate identity serial with
      | Some _ => (w, false)
      | None => rememberWireIdentity w chargePointID identity
      end
    end
  end.

(** ** Runtime projections (hal.go) *)
Record pendingRuntimeProjection : Type := mkpendingRuntimeProjection {
  pr_identity : string;
  pr_generation : Z;
  pr_online : bool;
  pr_observedAt : Time
}.
#[global] Instance pendingRuntimeProjection_eq_dec : EqDecision pendingRuntimeProjection.
Proof. solve_decision. Defined.
Abbreviation pending := (gmap string pendingRuntimeProjection).

Section projections.
(** The store and its RecordV1ChargerConnection. *)
Context {S : Type} (record : pendingRuntimeProjection → S → S * option go_error).

Definition persistRuntimeProjection (observation : pendingRuntimeProjection) (s : S) (p : pending) :
    S * pending :=
  let '(s', err) := record observation s in
  match err with
  | None => (s', delete (pr_identity observation) p)
  | Some e =>
    if decide (errors_Is e ErrV1MappingNotFound ∨ errors_Is e ErrV1CredentialRejected)
    then (s', delete (pr_identity observation) p)
    else (s', <[pr_identity observation := observation]> p)
  end.

Fixpoint persist_all (observations : list pendingRuntimeProjection) (s : S) (p : pending) : S * pending :=
  match observations with
  | [] => (s, p)
  | o :: rest => let '(s', p') := persistRuntimeProjection o s p in persist_all rest s' p'
  end.

(** The pending observations are copied in the order [ks] of the map first. *)
Definition retryRuntimeProjections (ks : list string) (s : S) (p : pending) : S * pending :=
  persist_all (omap (λ k, p !! k) ks) s p.
End projections.

(** ** Facts of the tracker

    The calls a tracker sees, in the order its mutex serialises them. *)
Inductive connection_event : Type :=
  | Connected (chargerID key remoteAddr : string) (now : Time)
  | Disconnected (chargerID key : string).

Definition connection_step (t : connectionTracker) (e : connection_event) : connectionTracker :=
  match e with
  | Connected c k addr now => (register t now c k addr).1
  | Disconnected c k => (unregisterIfCurrent t c k).1
  end.
Definition connection_run (es : list connection_event) : connectionTracker :=
  fold_left connection_step es newConnectionTracker.

Definition is_connect (e : connection_event) : bool :=
  match e with Connected _ _ _ _ => true | Disconnected _ _ => false end.
Definition connects_to (c : string) (e : connection_event) : Prop :=
  match e with Connected c' _ _ _ => c' = c | Disconnected _ _ => False end.
Definition connects (es : list connection_event) : Z := Z.of_nat (length (filter is_connect es)).

(** The socket [k] of charger [c] is the one of the last connect of [c] in
    [es], and no disconnect of that socket follows it. *)
Definition last_socket (es : list connection_event) (c : string) (r : connectionRecord) : Prop :=
  ∃ before after k addr now,
    es = before ++ Connected c k addr now :: after ∧
    r = mkconnectionRecord c k (wrap_uint64 (connects before + 1)) addr now ∧
    Forall (λ e, ¬ connects_to c e ∧ e ≠ Disconnected c k) after.

Lemma wrap_uint64_add a b : wrap_uint64 (wrap_uint64 a + b) = wrap_uint64 (a + b).
Proof. unfold wrap_uint64. by rewrite Zplus_mod_idemp_l. Qed.

Lemma connection_run_snoc es e : connection_run (es ++ [e]) = connection_step (connection_run es) e.
Proof. unfold connection_run. by rewrite fold_left_app. Qed.

Lemma connects_snoc es e : connects (es ++ [e]) = connects es + (if is_connect e then 1 else 0).
Proof.
  unfold connects. rewrite filter_app, length_app.
  destruct e; cbn [is_connect]; rewrite ?filter_cons; simpl; lia.
Qed.

Lemma connection_run_next es : ct_next (connection_run es) = wrap_uint64 (connects es).
Proof.
  induction es as [|e es IH] using rev_ind; [done|].
  rewrite connection_run_snoc, connects_snoc. destruct e as [c k addr now|c k]; simpl.
  - by rewrite IH, wrap_uint64_add.
  - unfold unregisterIfCurrent. rewrite Z.add_0_r. go_case; simpl; congruence.
Qed.

(** One more event moves the last socket of a charger as the tracker does. *)
Lemma last_socket_snoc es e c r :
  last_socket (es ++ [e]) c r ↔
  match e with
  | Connected c' k addr now =>
    if decide (c' = c) then r = mkconnectionRecord c k (wrap_uint64 (connects es + 1)) addr now
    else last_socket es c r
  | Disconnected c' k => last_socket es c r ∧ ¬ (c' = c ∧ k = cr_Key r)
  end.
Proof.
  unfold last_socket. split.
  - intros (b & a & k & addr & now & Hes & -> & Ha).
    destruct a as [|x a _] using rev_ind.
    { apply app_inj_tail in Hes as [-> ->]. by rewrite decide_True. }
    rewrite app_comm_cons, app_assoc in Hes. apply app_inj_tail in Hes as [-> ->].
    apply Forall_app in Ha as [Ha [[Hx1 Hx2] _]%Forall_cons].
    destruct x as [c' k' addr' now'|c' k']; simpl in *.
    + rewrite decide_False by done. by eexists b, a, k, addr, now.
    + split; [by eexists b, a, k, addr, now|]. intros [-> ->]. done.
  - destruct e as [c' k addr now|c' k].
    + case_decide as D.
      * subst. intros ->. by eexists es, [], k, addr, now.
      * intros (b & a & k' & addr' & now' & -> & -> & Ha).
        eexists b, (a ++ [_]), k', addr', now'. rewrite <- app_assoc. repeat split.
        apply Forall_app. split; [done|]. by apply Forall_singleton.
    + intros [(b & a & k' & addr' & now' & -> & -> & Ha) Hne].
      eexists b, (a ++ [_]), k', addr', now'. rewrite <- app_assoc. repeat split.
      apply Forall_app. split; [done|]. apply Forall_singleton. split; [tauto|].
      intros [= -> ->]. by apply Hne.
Qed.

(** C31: a charger is connected through the socket of its last connect that was
    not disconnected since, whatever disconnects of superseded sockets (or of
    other chargers) arrive late, and the generation of the record is the number
    of connects the tracker had served, modulo 2^64. *)
Theorem current_socket_spec es c r :
  current (connection_run es) c = Some r ↔ last_socket es c r.
Proof.
  revert r. induction es as [|e es IH] using rev_ind; intros r.
  { split; [done|]. intros (b & a & ? & ? & ? & Hes & _). by destruct b. }
  rewrite last_socket_snoc, connection_run_snoc. unfold current in *.
  destruct e as [c' k addr now|c' k]; simpl.
  - rewrite connection_run_next, wrap_uint64_add.
    destruct (decide (c' = c)) as [->|Hc].
    + rewrite lookup_insert_eq. split; congruence.
    + by rewrite lookup_insert_ne.
  - rewrite <- IH. unfold unregisterIfCurrent. destruct (ct_active _ !! c') as [cur|] eqn:E.
    + case_decide as Hk; simpl.
      * split; [|tauto]. intros Hr. split; [done|]. intros [-> ->]. congruence.
      * destruct (decide (c' = c)) as [->|Hc]; [rewrite lookup_delete_eq|rewrite lookup_delete_ne by done].
        -- split; [done|]. intros [Hr Hne]. exfalso. apply Hne. split; [done|]. congruence.
        -- split; [|tauto]. intros Hr. split; [done|]. by intros [-> _].
    + simpl. split; [|tauto]. intros Hr. split; [done|]. intros [-> _]. congruence.
Qed.

(** Until the counter wraps, a later connect has the greater generation. *)
Lemma connection_generations_increase before c k addr now mid c' k' addr' now' :
  let r := (register (connection_run before) now c k addr).2.1 in
  let r' := (register (connection_run (before ++ Connected c k addr now :: mid)) now' c' k' addr').2.1 in
  connects (before ++ Connected c k addr now :: mid) < 2 ^ 64 - 1 →
  cr_Generation r < cr_Generation r'.
Proof.
  simpl. rewrite !connection_run_next, !wrap_uint64_add. unfold connects, wrap_uint64.
  rewrite filter_app, filter_cons, decide_True by done. rewrite length_app. simpl. intros H.
  rewrite !Z.mod_small; lia.
Qed.

(** ** Facts of the identity paths *)
Definition clean_segment (part : string) : Prop :=
  part ≠ "" ∧ ContainsAny part "?#%" = false ∧ has_char slash part = false.

(** The two spellings the parser admits, with an optional leading slash. *)
Definition identity_path (identity serial : string) : string :=
  if decide (serial = "") then identity else identity +:+ String slash serial.

Lemma double_slash_empty_part s :
  Contains s "//" = true → "" ∈ Split slash s.
Proof.
  intros (a & b & ->)%Contains_spec. change ("//" +:+ b) with (String slash (String slash b)).
  rewrite Split_concat. cbn [Split]. rewrite decide_True by done. set_solver.
Qed.

Lemma TrimPrefix_slash path :
  path = String slash (TrimPrefix path "/") ∨ path = TrimPrefix path "/" ∧ HasPrefix path "/" = false.
Proof.
  unfold TrimPrefix, HasPrefix. destruct (GoStrings.strip "/" path) as [r|] eqn:E; [left|by right].
  by apply strip_Some in E.
Qed.

Lemma TrimPrefix_clean path i rest :
  path = rest ∨ path = String slash rest → HasPrefix rest i = true → clean_segment i →
  TrimPrefix path "/" = rest.
Proof.
  intros [->| ->] Hp (Hi & _ & Hs); [|by apply (TrimPrefix_app "/")].
  apply HasPrefix_spec in Hp as [r ->]. destruct i as [|a i]; [done|].
  cbn [has_char] in Hs. apply orb_false_iff in Hs as [Ha%bool_decide_eq_false _].
  unfold TrimPrefix. rewrite append_cons. cbn [GoStrings.strip]. by rewrite decide_False.
Qed.

Lemma identity_path_split i s :
  clean_segment i → s = "" ∨ clean_segment s →
  Split slash (identity_path i s) = if decide (s = "") then [i] else [i; s].
Proof.
  intros (_ & _ & Hi) Hs. unfold identity_path. case_decide; [by apply Split_clean|].
  destruct Hs as [|(_ & _ & Hs)]; [done|]. by rewrite Split_app, Split_clean.
Qed.

(** The path parser is exactly the inverse of printing an identity with an
    optional serial: it accepts a path and a wire identity, with that answer,
    when the path is [/identity] or [/identity/serial] (leading slash optional),
    every segment is non-empty and free of the bytes [? # % /], and the wire
    identity is the last segment. *)
Theorem parseChargerIdentityPath_spec path w i s :
  parseChargerIdentityPath (Some path) w = Some (i, s) ↔
  (path = identity_path i s ∨ path = String slash (identity_path i s)) ∧
  clean_segment i ∧ (s = "" ∨ clean_segment s) ∧ w = (if decide (s = "") then i else s).
Proof.
  cbn [parseChargerIdentityPath]. split.
  - intros H. set (rest := TrimPrefix path "/") in *.
    repeat (case_decide; [done|]). destruct (Contains rest "//"); [done|].
    destruct (decide (length _ ≠ 1%nat ∧ _)) as [|Hlen]; [done|].
    destruct (decide (Exists _ _)) as [|Hall]; [done|].
    destruct (decide (last _ ≠ _)) as [|Hlast%dec_stable]; [done|].
    assert (∀ p, p ∈ Split slash rest → clean_segment p) as Hclean.
    { intros p Hp. pose proof (Split_parts_clean _ _ _ Hp). split_and!; [| |done].
      - intros ->. apply Hall, Exists_exists. eauto.
      - apply not_true_is_false. intros Hany. apply Hall, Exists_exists. eauto. }
    pose proof (join_Split slash rest) as Hjoin.
    assert (path = rest ∨ path = String slash rest) as Hpath by (destruct (TrimPrefix_slash path); tauto).
    destruct (Split slash rest) as [|p [|q [|]]]; simpl in *; try (exfalso; lia); simplify_eq/=.
    + unfold identity_path. rewrite !decide_True by done.
      split_and!; [done|apply Hclean; set_solver|by left|done].
    + destruct (Hclean s) as [Hs _]; [set_solver|]. unfold identity_path.
      rewrite !decide_False, Hjoin by done.
      split_and!; [done|apply Hclean; set_solver|right; apply Hclean; set_solver|done].
  - intros (Hpath & Hi & Hs & ->).
    assert (HasPrefix (identity_path i s) i = true) as Hpre.
    { apply HasPrefix_spec. unfold identity_path. case_decide; eauto.
      exists "". by rewrite append_nil_r. }
    rewrite (TrimPrefix_clean _ _ _ Hpath Hpre Hi).
    assert (identity_path i s ≠ "") as Hne.
    { apply HasPrefix_spec in Hpre as [r ->]. destruct Hi as [Hi _]. by destruct i. }
    rewrite decide_False by done.
    pose proof (identity_path_split i s Hi Hs) as Hsplit.
    destruct (Contains _ "//") eqn:Hdd.
    { apply double_slash_empty_part in Hdd. rewrite Hsplit in Hdd.
      destruct Hi as [Hi _]. case_decide; set_solver. }
    rewrite Hsplit. destruct (decide (s = "")) as [->|Hs0]; simpl.
    + rewrite !decide_False; [done|by intros []|].
      destruct Hi as (? & ? & ?). rewrite Exists_cons, Exists_nil. intuition congruence.
    + destruct Hs as [|Hs]; [done|]. rewrite !decide_False; [done|by intros []|].
      destruct Hi as (? & ? & ?), Hs as (? & ? & ?).
      rewrite !Exists_cons, Exists_nil. intuition congruence.
Qed.

(** ** The recovery rotation *)
Fixpoint recovery_turns (t : connectionTracker) (next : Z) (n : nat) : list (option string) :=
  match n with
  | O => []
  | S n' => let '(next', turn) := nextV1ChargerOperationRecoveryIdentity t next in
            turn :: recovery_turns t next' n'
  end.

Lemma identities_perm t : identities t ≡ₚ (map_to_list (ct_active t)).*1.
Proof. apply merge_sort_Permutation. Qed.

Lemma recovery_turns_length t next n : length (recovery_turns t next n) = n.
Proof.
  revert next. induction n as [|n IH]; intros next; simpl; [done|].
  destruct (nextV1ChargerOperationRecoveryIdentity t next). simpl. by rewrite IH.
Qed.

Lemma recovery_turns_lookup t next n k :
  identities t ≠ [] → 0 ≤ next → next + Z.of_nat n ≤ 2 ^ 64 → (k < n)%nat →
  recovery_turns t next n !! k =
  Some (identities t !! Z.to_nat ((next + Z.of_nat k) mod Z.of_nat (length (identities t)))).
Proof.
  intros Hids. revert next k. induction n as [|n IH]; intros next k Hnext Hn Hk; [lia|].
  cbn [recovery_turns]. unfold nextV1ChargerOperationRecoveryIdentity.
  destruct (identities t) as [|i ids] eqn:E; [done|].
  destruct k as [|k]; [by rewrite Z.add_0_r|]. simpl lookup.
  unfold wrap_uint64.
  destruct (decide (next + 1 = 2 ^ 64)); [lia|].
  rewrite Z.mod_small, IH by lia. replace (next + Z.of_nat (S k)) with (next + 1 + Z.of_nat k) by lia. done.
Qed.

(** The rotation is fair: while the set of connected chargers does not
    change and the 64-bit counter does not wrap, as many consecutive turns as
    there are connected chargers give every one of them exactly one turn. *)
Theorem recovery_rotation_fair t next :
  0 ≤ next → next + Z.of_nat (size (ct_active t)) ≤ 2 ^ 64 →
  recovery_turns t next (size (ct_active t)) ≡ₚ Some <$> (map_to_list (ct_active t)).*1.
Proof.
  intros Hnext Hwrap. rewrite <- identities_perm.
  assert (size (ct_active t) = length (identities t)) as Hsize.
  { by rewrite identities_perm, length_fmap, length_map_to_list. }
  rewrite Hsize in *. destruct (decide (identities t = [])) as [->|Hne]; [done|].
  assert (recovery_turns t next (length (identities t)) = Some <$> rotate (Z.to_nat next) (identities t)) as ->.
  { apply list_eq. intros k. destruct (decide (k < length (identities t))%nat) as [Hk|Hk].
    - rewrite recovery_turns_lookup, list_lookup_fmap, lookup_rotate_r by done.
      unfold rotate_nat_add. rewrite Z2Nat.id by done.
      destruct (lookup_lt_is_Some_2 (identities t)
        (Z.to_nat ((next + Z.of_nat k) `mod` Z.of_nat (length (identities t))))) as [x Hx].
      { pose proof (Z.mod_pos_bound (next + Z.of_nat k) (Z.of_nat (length (identities t)))). lia. }
      by rewrite Hx.
    - rewrite !lookup_ge_None_2; [done| |]; rewrite ?length_fmap, ?length_rotate, ?recovery_turns_length; lia. }
  apply fmap_Permutation. unfold rotate. rewrite Permutation_app_comm. by rewrite take_drop.
Qed.

(** ** Facts of the projection retry *)
Section projection_facts.
Context {S : Type} (record : pendingRuntimeProjection → S → S * option go_error).
Implicit Types (s : S) (p : pending) (o : pendingRuntimeProjection).

(** The store took the observation, or has no mapping to project it onto. *)
Definition settled (err : option go_error) : bool :=
  match err with
  | None => true
  | Some e => bool_decide (errors_Is e ErrV1MappingNotFound ∨ errors_Is e ErrV1CredentialRejected)
  end.
Definition pending_ok p : Prop := ∀ k o, p !! k = Some o → pr_identity o = k.

Lemma persistRuntimeProjection_eq o s p :
  persistRuntimeProjection record o s p =
  ((record o s).1, if settled (record o s).2 then delete (pr_identity o) p else <[pr_identity o := o]> p).
Proof.
  unfold persistRuntimeProjection, settled. destruct (record o s) as [s' [e|]]; [|done]. cbn [fst snd].
  destruct (decide _); [by rewrite bool_decide_true|by rewrite bool_decide_false].
Qed.

Lemma persist_pending_ok o s p : pending_ok p → pending_ok (persistRuntimeProjection record o s p).2.
Proof.
  rewrite persistRuntimeProjection_eq. intros Hp k o'. simpl. destruct (settled _).
  - rewrite lookup_delete_Some. naive_solver.
  - rewrite lookup_insert_Some. naive_solver.
Qed.

Lemma persist_all_cons o os s p :
  persist_all record (o :: os) s p =
  persist_all record os (persistRuntimeProjection record o s p).1 (persistRuntimeProjection record o s p).2.
Proof. simpl. by destruct (persistRuntimeProjection record o s p). Qed.

Lemma persist_all_other os s p k :
  k ∉ pr_identity <$> os → (persist_all record os s p).2 !! k = p !! k.
Proof.
  revert s p. induction os as [|o os IH]; intros s p; [done|].
  rewrite fmap_cons, not_elem_of_cons, persist_all_cons, persistRuntimeProjection_eq. intros [Hne Hos].
  rewrite IH by done. cbn [snd]. destruct (settled _); [by rewrite lookup_delete_ne|by rewrite lookup_insert_ne].
Qed.

Lemma persist_all_at l1 o l2 s p :
  NoDup (pr_identity <$> (l1 ++ o :: l2)) →
  (persist_all record (l1 ++ o :: l2) s p).2 !! pr_identity o =
  if settled (record o (persist_all record l1 s p).1).2 then None else Some o.
Proof.
  revert s p. induction l1 as [|o1 l1 IH]; intros s p Hnd.
  - simpl in Hnd. apply NoDup_cons in Hnd as [Hno _]. cbn [app].
    rewrite persist_all_cons, persist_all_other, persistRuntimeProjection_eq by done. cbn [fst snd persist_all].
    destruct (settled _); [by rewrite lookup_delete_eq|by rewrite lookup_insert_eq].
  - simpl in Hnd. apply NoDup_cons in Hnd as [_ Hnd].
    cbn [app]. rewrite !persist_all_cons. by apply IH.
Qed.

Lemma pending_list p ks :
  pending_ok p → range_of p ks →
  NoDup (pr_identity <$> omap (λ k, p !! k) ks) ∧
  ∀ k o, p !! k = Some o → o ∈ omap (λ k, p !! k) ks.
Proof.
  intros Hp [Hnd Hks]. split.
  - clear Hks. induction Hnd as [|k ks Hk Hnd IH]; simpl; [constructor|].
    destruct (p !! k) as [o|] eqn:Ho; simpl; [|done]. constructor; [|done].
    intros (o' & Heq & (k' & Hk' & Ho')%list_elem_of_omap)%list_elem_of_fmap.
    apply Hp in Ho, Ho'. congruence.
  - intros k o Ho. apply list_elem_of_omap. exists k. split; [apply Hks; eauto|done].
Qed.

(** One retry pass (with no other observation in between) visits every
    pending observation once; each is dropped exactly when the store settled
    it at its turn and is otherwise still pending, and nothing else becomes
    pending. *)
Theorem retryRuntimeProjections_spec p ks s :
  pending_ok p → range_of p ks →
  (∀ k, p !! k = None → (retryRuntimeProjections record ks s p).2 !! k = None) ∧
  ∀ k o, p !! k = Some o →
    ∃ l1 l2, omap (λ k, p !! k) ks = l1 ++ o :: l2 ∧
      (retryRuntimeProjections record ks s p).2 !! k =
      if settled (record o (persist_all record l1 s p).1).2 then None else Some o.
Proof.
  intros Hp Hks. destruct (pending_list p ks Hp Hks) as [Hnd Hin]. unfold retryRuntimeProjections. split.
  - intros k Hk. rewrite persist_all_other; [done|].
    intros (o & -> & (k' & _ & Ho)%list_elem_of_omap)%list_elem_of_fmap.
    pose proof (Hp _ _ Ho). congruence.
  - intros k o Ho. destruct (list_elem_of_split _ _ (Hin _ _ Ho)) as (l1 & l2 & Hl).
    exists l1, l2. split; [done|]. rewrite Hl in *.
    rewrite <- (Hp _ _ Ho). by apply persist_all_at.
Qed.

(** An observation that failed while an older one of the same charger was
    being retried is forgotten when that retry settles: the pending entry is
    deleted by identity, not by observation. *)
Lemma older_retry_drops_newer older newer s p :
  pr_identity older = pr_identity newer →
  settled (record newer s).2 = false →
  settled (record older (record newer s).1).2 = true →
  let after_newer := persistRuntimeProjection record newer s p in
  after_newer.2 !! pr_identity newer = Some newer ∧
  (persistRuntimeProjection record older after_newer.1 after_newer.2).2 !! pr_identity newer = None.
Proof.
  intros Hid Hf Ho. simpl. rewrite !persistRuntimeProjection_eq, Hf. cbn [fst snd]. rewrite Ho, Hid.
  split; [apply lookup_insert_eq|apply lookup_delete_eq].
Qed.
End projection_facts.

(** ** Witnesses *)
Module ConnectionRuns.
Definition two : connectionTracker :=
  connection_run [Connected "CP-2" "k2" "r" 10; Connected "CP-1" "k1" "r" 20].
Definition obs : pendingRuntimeProjection := mkpendingRuntimeProjection "CP-1" 3 true 5.
Definition store_step (o : pendingRuntimeProjection) (s : Z) : Z * option go_error :=
  if decide (s = 0) then (1, Some (ErrOther "down")) else (s + 1, None).
Lemma pend_ok : pending_ok {["CP-1" := obs]}.
Proof. intros k o [<- <-]%lookup_singleton_Some. done. Defined.
Lemma pend_range : range_of ({["CP-1" := obs]} : pending) ["CP-1"].
Proof.
  split; [apply NoDup_singleton|]. intros k. rewrite list_elem_of_singleton. split.
  - intros ->. rewrite lookup_singleton_eq. eauto.
  - intros [o [<- _]%lookup_singleton_Some]. done.
Defined.
End ConnectionRuns.

Lemma recovery_rotation_fair_witness :
  recovery_turns ConnectionRuns.two 5 2 = [Some "CP-2"; Some "CP-1"] ∧
  recovery_turns ConnectionRuns.two 5 2 ≡ₚ Some <$> (map_to_list (ct_active ConnectionRuns.two)).*1.
Proof.
  split; [vm_compute; reflexivity|].
  exact (recovery_rotation_fair ConnectionRuns.two 5 ltac:(lia) ltac:(vm_compute; discriminate)).
Defined.

Lemma retryRuntimeProjections_spec_witness :
  (retryRuntimeProjections ConnectionRuns.store_step ["CP-1"] 0 {["CP-1" := ConnectionRuns.obs]}).2 !! "CP-1" =
    Some ConnectionRuns.obs ∧
  (retryRuntimeProjections ConnectionRuns.store_step ["CP-1"] 7 {["CP-1" := ConnectionRuns.obs]}).2 !! "CP-1" = None ∧
  (retryRuntimeProjections ConnectionRuns.store_step ["CP-1"] 7 {["CP-1" := ConnectionRuns.obs]}).2 !! "CP-9" = None.
Proof.
  split; [vm_compute; reflexivity|]. split; [vm_compute; reflexivity|].
  exact (proj1 (retryRuntimeProjections_spec ConnectionRuns.store_step {["CP-1" := ConnectionRuns.obs]} ["CP-1"] 7
    ConnectionRuns.pend_ok ConnectionRuns.pend_range) "CP-9" ltac:(vm_compute; reflexivity)).
Defined.
