(* ===== verification/Registry.v ===== *)
(** * The volatile charger registry

    internal/state: registry.go (per-charger and per-connector state) and
    inactivity.go (the inactivity check).  Every operation runs under the
    registry's mutex; [now] is the instant its calls of [time.Now] return.  A
    charger's state is reached through the registry only, so the pointers of
    the Go map are values here, and [Snapshot] returns a copy. *)
From Stdlib Require Import String Ascii.
From stdpp Require Import base numbers decidable option list sorting strings gmap pretty.
From S2P Require Import Prelude GoText GoClock.
Open Scope Z_scope.

Record ConnectorState : Type := mkConnectorState {
  cn_Status : string;
  cn_LastMeterValue : option float64;
  cn_LastTransactionConsumptionKWh : float64;
  cn_ErrorCode : string;
  cn_TransactionID : option Z;
  cn_LastMeterReceived : option string
}.
#[global] Instance eta_ConnectorState : Eta ConnectorState := λ c,
  mkConnectorState (cn_Status c) (cn_LastMeterValue c) (cn_LastTransactionConsumptionKWh c)
    (cn_ErrorCode c) (cn_TransactionID c) (cn_LastMeterReceived c).
(** The zero value a Go map yields for an absent key. *)
Definition zeroConnector : ConnectorState := mkConnectorState "" None Float64.zero "" None None.

Record ChargerState : Type := mkChargerState {
  cp_ID : string;
  cp_Online : bool;
  cp_HasError : bool;
  cp_Status : string;
  cp_Connectors : gmap string ConnectorState;
  cp_LastMessageTime : Time
}.
#[global] Instance eta_ChargerState : Eta ChargerState := λ c,
  mkChargerState (cp_ID c) (cp_Online c) (cp_HasError c) (cp_Status c) (cp_Connectors c) (cp_LastMessageTime c).

Abbreviation Registry := (gmap string ChargerState).
Definition NewRegistry : Registry := ∅.

Definition connectorKey (connectorID : Z) : string := Itoa connectorID.

Definition rollover : float64 := Float64.of_int 4294967295.
Definition deltaWh (previous current : float64) : float64 :=
  let delta := Float64.sub current previous in
  if Float64.geb delta Float64.zero then delta
  else Float64.add (Float64.add current (Float64.sub rollover previous)) (Float64.of_int 1).
Definition consumptionKWh (previous current : float64) : float64 :=
  Float64.div (deltaWh previous current) (Float64.of_int 1000).

Definition ensureLocked (r : Registry) (now : Time) (chargerID : string) : ChargerState :=
  match r !! chargerID with
  | Some cp => cp
  | None => mkChargerState chargerID true false "Inactive" ∅ now
  end.

Definition Touch (r : Registry) (now : Time) (chargerID : string) : Registry :=
  let cp := ensureLocked r now chargerID in
  <[chargerID := cp <| cp_Online := true |> <| cp_LastMessageTime := now |>]> r.

Definition MarkOffline (r : Registry) (now : Time) (chargerID : string) : Registry :=
  match r !! chargerID with
  | Some cp => <[chargerID := cp <| cp_Online := false |> <| cp_LastMessageTime := now |>]> r
  | None => r
  end.

Definition connector_of (cp : ChargerState) (key : string) : ConnectorState :=
  default zeroConnector (cp_Connectors cp !! key).
Definition or_default (s d : string) : string := if decide (s = "") then d else s.
Definition faulty (c : ConnectorState) : Prop := cn_ErrorCode c ≠ "" ∧ cn_ErrorCode c ≠ "NoError".
#[global] Instance faulty_dec c : Decision (faulty c).
Proof. unfold faulty. apply _. Defined.
(** The loop over the connectors stops at the first fault it meets. *)
Definition any_fault (m : gmap string ConnectorState) (ks : list string) : bool :=
  bool_decide (is_Some (range_first m faulty ks)).

(** [ks] is the order in which the connectors are visited. *)
Definition ApplyStatusNotification (r : Registry) (now : Time) (ks : list string)
    (chargerID : string) (connectorID : Z) (status errorCode : string) : Registry :=
  let cp := ensureLocked r now chargerID in
  let key := connectorKey connectorID in
  let conn := connector_of cp key in
  let conn := conn <| cn_Status ::= λ s, or_default s "Unknown" |>
                   <| cn_ErrorCode ::= λ e, or_default e "NoError" |> in
  let conn := conn <| cn_Status ::= λ s, or_default status s |>
                   <| cn_ErrorCode ::= λ e, or_default errorCode e |> in
  let connectors := <[key := conn]> (cp_Connectors cp) in
  <[chargerID := cp <| cp_Online := true |> <| cp_LastMessageTime := now |>
                    <| cp_Connectors := connectors |> <| cp_HasError := any_fault connectors ks |>]> r.

Definition ApplyStartTransaction (r : Registry) (now : Time) (chargerID : string)
    (connectorID transactionID : Z) (meterStart : float64) : Registry :=
  let cp := ensureLocked r now chargerID in
  let key := connectorKey connectorID in
  let conn := connector_of cp key in
  let conn := conn <| cn_ErrorCode ::= λ e, or_default e "NoError" |>
                   <| cn_Status := "Charging" |>
                   <| cn_LastMeterValue := Some meterStart |>
                   <| cn_TransactionID := Some transactionID |>
                   <| cn_LastMeterReceived := Some (Clock.RFC3339Nano now) |> in
  <[chargerID := cp <| cp_Online := true |> <| cp_Status := "Active" |> <| cp_LastMessageTime := now |>
                    <| cp_Connectors ::= <[key := conn]> |>]> r.

Definition with_consumption (conn : ConnectorState) (meter : float64) : ConnectorState :=
  match cn_LastMeterValue conn with
  | Some last => conn <| cn_LastTransactionConsumptionKWh := consumptionKWh last meter |>
  | None => conn
  end.

Definition ApplyMeterValue (r : Registry) (now : Time) (chargerID : string) (connectorID : Z)
    (transactionID : option Z) (meterValueWh : float64) : Registry :=
  let cp := ensureLocked r now chargerID in
  let key := connectorKey connectorID in
  let conn := connector_of cp key in
  let conn := conn <| cn_Status ::= λ s, or_default s "Unknown" |>
                   <| cn_ErrorCode ::= λ e, or_default e "NoError" |> in
  let conn := (with_consumption conn meterValueWh) <| cn_LastMeterValue := Some meterValueWh |> in
  let conn := match transactionID with
              | Some tx => conn <| cn_TransactionID := Some tx |>
              | None => conn
              end <| cn_LastMeterReceived := Some (Clock.RFC3339Nano now) |> in
  <[chargerID := cp <| cp_Online := true |> <| cp_LastMessageTime := now |>
                    <| cp_Connectors ::= <[key := conn]> |>]> r.

Definition ApplyStopTransaction (r : Registry) (now : Time) (chargerID : string) (connectorID : Z)
    (meterStop : float64) : Registry :=
  let cp := ensureLocked r now chargerID in
  let key := connectorKey connectorID in
  let conn := connector_of cp key in
  let conn := conn <| cn_ErrorCode ::= λ e, or_default e "NoError" |> in
  let conn := (with_consumption conn meterStop)
                   <| cn_Status := "Available" |>
                   <| cn_LastMeterValue := Some meterStop |>
                   <| cn_TransactionID := None |>
                   <| cn_LastMeterReceived := Some (Clock.RFC3339Nano now) |> in
  <[chargerID := cp <| cp_Online := true |> <| cp_Status := "Inactive" |> <| cp_LastMessageTime := now |>
                    <| cp_Connectors ::= <[key := conn]> |>]> r.

(** [ks] is the order in which the connectors are visited; a key that is not a
    number is passed over. *)
Fixpoint find_transaction (m : gmap string ConnectorState) (transactionID : Z) (ks : list string) : option Z :=
  match ks with
  | [] => None
  | key :: ks' =>
    match m !! key with
    | Some conn =>
      if decide (cn_TransactionID conn = Some transactionID) then
        match Atoi key with Some id => Some id | None => find_transaction m transactionID ks' end
      else find_transaction m transactionID ks'
    | None => find_transaction m transactionID ks'
    end
  end.

Definition FindConnectorByTransactionID (r : Registry) (ks : list string) (chargerID : string) (transactionID : Z) :
    Z * bool :=
  match r !! chargerID with
  | None => (0, false)
  | Some cp =>
    match find_transaction (cp_Connectors cp) transactionID ks with
    | Some id => (id, true)
    | None => (0, false)
    end
  end.

Definition TransactionIDForConnector (r : Registry) (chargerID : string) (connectorID : Z) : Z * bool :=
  match r !! chargerID with
  | None => (0, false)
  | Some cp =>
    match cp_Connectors cp !! connectorKey connectorID with
    | Some conn => match cn_TransactionID conn with Some tx => (tx, true) | None => (0, false) end
    | None => (0, false)
    end
  end.

Definition clone (cp : ChargerState) : ChargerState := cp.
Definition Snapshot (r : Registry) (chargerID : string) : option ChargerState := clone <$> r !! chargerID.
Definition SnapshotAll (r : Registry) : gmap string ChargerState := clone <$> r.

(** ** The inactivity check (inactivity.go) *)
Record InactivityResult : Type := mkInactivityResult {
  ir_ChargerID : string;
  ir_Found : bool;
  ir_Inactive : bool;
  ir_Online : string;
  ir_Status : string;
  ir_InactiveSeconds : float64;
  ir_InactivityLimitSeconds : float64;
  ir_LatestMessageReceivedTime : option string;
  ir_Action : string
}.
#[global] Instance eta_InactivityResult : Eta InactivityResult := λ r,
  mkInactivityResult (ir_ChargerID r) (ir_Found r) (ir_Inactive r) (ir_Online r) (ir_Status r)
    (ir_InactiveSeconds r) (ir_InactivityLimitSeconds r) (ir_LatestMessageReceivedTime r) (ir_Action r).

Definition CheckInactivity (r : Registry) (now : Time) (chargerID : string) (limit : GoTime.Duration) :
    Registry * InactivityResult :=
  match r !! chargerID with
  | None =>
    (r, mkInactivityResult chargerID false true "Offline" "Offline" Float64.zero (Float64.Seconds limit)
          None "charger_not_found")
  | Some cp =>
    let silent := decide (GoTime.IsZero (cp_LastMessageTime cp)) in
    let latest := if silent then None else Some (Clock.RFC3339Nano (cp_LastMessageTime cp)) in
    let inactiveSeconds :=
      if silent then Float64.zero else Float64.Seconds (GoTime.Sub now (cp_LastMessageTime cp)) in
    let online := if cp_Online cp && cp_HasError cp then "Online (with error)"
                  else if cp_Online cp then "Online" else "Offline" in
    let result := mkInactivityResult chargerID true false online (cp_Status cp) inactiveSeconds
                    (Float64.Seconds limit) latest "no_change" in
    if silent then (r, result <| ir_Action := "no_messages" |>)
    else
      let late := Float64.geb inactiveSeconds (Float64.Seconds limit) in
      if cp_Online cp && late then
        (<[chargerID := cp <| cp_Online := false |> <| cp_Status := "Offline" |>]> r,
         result <| ir_Inactive := true |> <| ir_Online := "Offline" |> <| ir_Status := "Offline" |>
                <| ir_Action := "marked_offline" |>)
      else if negb (cp_Online cp) && late then
        (r, result <| ir_Inactive := true |> <| ir_Online := "Offline" |> <| ir_Action := "already_offline" |>)
      else (r, result)
  end.

(** ** The calls of a registry *)
Inductive registry_op : Type :=
  | op_Touch (now : Time) (c : string)
  | op_MarkOffline (now : Time) (c : string)
  | op_Status (now : Time) (ks : list string) (c : string) (connectorID : Z) (status errorCode : string)
  | op_Start (now : Time) (c : string) (connectorID tx : Z) (meter : float64)
  | op_Meter (now : Time) (c : string) (connectorID : Z) (tx : option Z) (meter : float64)
  | op_Stop (now : Time) (c : string) (connectorID : Z) (meter : float64)
  | op_CheckInactivity (now : Time) (c : string) (limit : GoTime.Duration).

Definition registry_step (r : Registry) (o : registry_op) : Registry :=
  match o with
  | op_Touch now c => Touch r now c
  | op_MarkOffline now c => MarkOffline r now c
  | op_Status now ks c n s e => ApplyStatusNotification r now ks c n s e
  | op_Start now c n tx m => ApplyStartTransaction r now c n tx m
  | op_Meter now c n tx m => ApplyMeterValue r now c n tx m
  | op_Stop now c n m => ApplyStopTransaction r now c n m
  | op_CheckInactivity now c limit => (CheckInactivity r now c limit).1
  end.
Definition registry_run (os : list registry_op) : Registry := fold_left registry_step os NewRegistry.

(** A connector number is a Go [int]; the order of a status notification's loop
    enumerates the connectors it finds, the notified one included. *)
Definition op_connector (o : registry_op) : option Z :=
  match o with
  | op_Status _ _ _ n _ _ | op_Start _ _ n _ _ | op_Meter _ _ n _ _ | op_Stop _ _ n _ => Some n
  | _ => None
  end.
Definition op_ok (r : Registry) (o : registry_op) : Prop :=
  (∀ n, op_connector o = Some n → Int64.in_range n) ∧
  match o with
  | op_Status now ks c n _ _ => ∀ k,
      k ∈ ks ↔ k = connectorKey n ∨ is_Some (cp_Connectors (ensureLocked r now c) !! k)
  | _ => True
  end.
Fixpoint ops_ok (r : Registry) (os : list registry_op) : Prop :=
  match os with
  | [] => True
  | o :: os' => op_ok r o ∧ ops_ok (registry_step r o) os'
  end.

(** The invariant of one charger: it is stored under its own identity, its
    connectors under numerals, each has an error code, and the error flag says
    whether some connector is faulty. *)
Definition charger_ok (id : string) (cp : ChargerState) : Prop :=
  cp_ID cp = id ∧
  (∀ k c, cp_Connectors cp !! k = Some c →
     (∃ n, Int64.in_range n ∧ k = connectorKey n) ∧ cn_ErrorCode c ≠ "" ∧ cn_Status c ≠ "") ∧
  (cp_HasError cp = true ↔ ∃ k c, cp_Connectors cp !! k = Some c ∧ faulty c).
Definition registry_ok (r : Registry) : Prop := map_Forall charger_ok r.

Lemma ensureLocked_ok r now c : registry_ok r → charger_ok c (ensureLocked r now c).
Proof.
  intros Hr. unfold ensureLocked. destruct (r !! c) as [cp|] eqn:E; [by apply Hr|].
  split_and!; [done| |]; simpl.
  - intros k c' Hk. by rewrite lookup_empty in Hk.
  - split; [done|]. intros (k & c' & Hk & _). by rewrite lookup_empty in Hk.
Qed.

Lemma or_default_ne s d : d ≠ "" → or_default s d ≠ "".
Proof. unfold or_default. by case_decide. Qed.

Lemma connector_of_code cp id key :
  charger_ok id cp →
  or_default (cn_ErrorCode (connector_of cp key)) "NoError" =
  match cp_Connectors cp !! key with Some c => cn_ErrorCode c | None => "NoError" end.
Proof.
  intros (_ & Hc & _). unfold connector_of. destruct (cp_Connectors cp !! key) as [c|] eqn:E; [|done].
  destruct (Hc _ _ E) as (_ & Hne & _). unfold or_default. simpl. by rewrite decide_False.
Qed.

(** Replacing a connector by one with the same error code (or a new, healthy
    one) keeps the charger well-formed. *)
Lemma charger_ok_set id cp n conn cp' :
  charger_ok id cp → Int64.in_range n → cn_Status conn ≠ "" →
  cn_ErrorCode conn = or_default (cn_ErrorCode (connector_of cp (connectorKey n))) "NoError" →
  cp_ID cp' = cp_ID cp → cp_HasError cp' = cp_HasError cp →
  cp_Connectors cp' = <[connectorKey n := conn]> (cp_Connectors cp) →
  charger_ok id cp'.
Proof.
  intros Hok Hn Hst Hcode Hid Herr Hconn. rewrite (connector_of_code _ _ _ Hok) in Hcode.
  destruct Hok as (Hid' & Hc & Hflag). unfold charger_ok. rewrite Hid, Herr, Hconn. split_and!; [done| |].
  - intros k c [[<- <-]|[_ Hk]]%lookup_insert_Some; [|by apply Hc].
    split_and!; [by exists n| |done]. rewrite Hcode. destruct (_ !! connectorKey n) eqn:E; [|done].
    by apply Hc in E as (_ & ? & _).
  - rewrite Hflag. split; intros (k & c & Hk & Hf).
    + destruct (decide (k = connectorKey n)) as [->|Hne].
      * exists (connectorKey n), conn. rewrite lookup_insert_eq. split; [done|].
        unfold faulty. rewrite Hcode, Hk. exact Hf.
      * exists k, c. by rewrite lookup_insert_ne.
    + apply lookup_insert_Some in Hk as [[<- <-]|[_ Hk]]; [|by eauto].
      unfold faulty in Hf. rewrite Hcode in Hf.
      destruct (cp_Connectors cp !! connectorKey n) as [c'|] eqn:E; [by exists (connectorKey n), c'|].
      by destruct Hf.
Qed.

Lemma any_fault_spec m ks :
  (∀ k, is_Some (m !! k) → k ∈ ks) →
  any_fault m ks = true ↔ ∃ k c, m !! k = Some c ∧ faulty c.
Proof.
  intros Hks. unfold any_fault. rewrite bool_decide_eq_true. split.
  - intros [[k c] H]. apply range_first_Some in H. naive_solver.
  - intros (k & c & Hk & Hf). assert (k ∈ ks) as Hin by (apply Hks; eauto). clear Hks.
    induction ks as [|k' ks IH]; [by apply not_elem_of_nil in Hin|]. simpl.
    apply elem_of_cons in Hin as [<-|Hin].
    + rewrite Hk. rewrite decide_True by done. eauto.
    + destruct (m !! k'); [case_decide; [eauto|]|]; by apply IH.
Qed.

Lemma with_consumption_code c m : cn_ErrorCode (with_consumption c m) = cn_ErrorCode c.
Proof. unfold with_consumption. by destruct (cn_LastMeterValue c). Qed.
Lemma with_consumption_status c m : cn_Status (with_consumption c m) = cn_Status c.
Proof. unfold with_consumption. by destruct (cn_LastMeterValue c). Qed.

Lemma ApplyStatusNotification_ok r now ks c n status code :
  registry_ok r → op_ok r (op_Status now ks c n status code) →
  registry_ok (ApplyStatusNotification r now ks c n status code).
Proof.
  intros Hr [Hn Hks]. specialize (Hn n eq_refl). apply map_Forall_insert_2; [|done].
  destruct (ensureLocked_ok r now c Hr) as (Hid & Hc & Hflag).
  set (cp := ensureLocked r now c) in *. split_and!; [exact Hid| |].
  - cbn. intros k c' [[<- <-]|[_ Hk]]%lookup_insert_Some; [|by apply Hc].
    split; [by exists n|]. cbn. unfold or_default. repeat case_decide; done.
  - cbn. apply any_fault_spec. intros k Hk. apply Hks.
    destruct (decide (k = connectorKey n)) as [|Hne]; [by left|right].
    by rewrite lookup_insert_ne in Hk.
Qed.

Lemma registry_step_ok r o : registry_ok r → op_ok r o → registry_ok (registry_step r o).
Proof.
  intros Hr Ho. destruct o as [now c|now c|now ks c n s e|now c n tx m|now c n tx m|now c n m|now c l].
  - apply map_Forall_insert_2; [|done]. exact (ensureLocked_ok r now c Hr).
  - simpl. unfold MarkOffline. destruct (r !! c) as [cp|] eqn:E; [|done].
    apply map_Forall_insert_2; [|done]. exact (Hr _ _ E).
  - by apply ApplyStatusNotification_ok.
  - apply map_Forall_insert_2; [|done]. destruct Ho as [Hn _].
    eapply (charger_ok_set c (ensureLocked r now c) n); [by apply ensureLocked_ok|by apply Hn| | |done|done|reflexivity]; done.
  - apply map_Forall_insert_2; [|done]. destruct Ho as [Hn _].
    eapply (charger_ok_set c (ensureLocked r now c) n); [by apply ensureLocked_ok|by apply Hn| | |done|done|reflexivity];
      destruct tx; cbn; rewrite ?with_consumption_code, ?with_consumption_status; cbn;
      try done; by apply or_default_ne.
  - apply map_Forall_insert_2; [|done]. destruct Ho as [Hn _].
    eapply (charger_ok_set c (ensureLocked r now c) n); [by apply ensureLocked_ok|by apply Hn| | |done|done|reflexivity];
      cbn; by rewrite ?with_consumption_code.
  - simpl. unfold CheckInactivity. destruct (r !! c) as [cp|] eqn:E; [|done].
    destruct (decide _); [done|]. destruct (cp_Online cp && _); [|by destruct (negb _ && _)].
    apply map_Forall_insert_2; [|done]. exact (Hr _ _ E).
Qed.

(** C39: Whatever calls a registry has served, with connector numbers that are
    Go ints and ranges over all connectors, each charger is stored under its
    own identity, its connectors under the numerals of their numbers with a
    non-empty status and error code, and its error flag is set exactly when
    some connector reports an error. *)
Theorem registry_invariant os : ops_ok NewRegistry os → registry_ok (registry_run os).
Proof.
  unfold registry_run. assert (registry_ok NewRegistry) as H by apply map_Forall_empty.
  revert H. generalize NewRegistry. induction os as [|o os IH]; intros r Hr; simpl; [done|].
  intros [Ho Hos]. apply IH; [by apply registry_step_ok|done].
Qed.

(** ** Transactions of the connectors *)
Definition carries (r : Registry) (c : string) (n tx : Z) : Prop :=
  TransactionIDForConnector r c n = (tx, true).

Lemma carries_iff r c n tx :
  carries r c n tx ↔ ∃ cp conn, r !! c = Some cp ∧
    cp_Connectors cp !! connectorKey n = Some conn ∧ cn_TransactionID conn = Some tx.
Proof.
  unfold carries, TransactionIDForConnector. destruct (r !! c) as [cp|] eqn:E; [|naive_solver].
  destruct (cp_Connectors cp !! connectorKey n) as [conn|] eqn:Ec; [|naive_solver].
  destruct (cn_TransactionID conn) eqn:Et; naive_solver.
Qed.

Lemma find_transaction_Some m tx ks id :
  (∀ k, is_Some (m !! k) → ∃ n, Int64.in_range n ∧ k = connectorKey n) →
  find_transaction m tx ks = Some id →
  ∃ conn, m !! connectorKey id = Some conn ∧ cn_TransactionID conn = Some tx.
Proof.
  intros Hm. induction ks as [|k ks IH]; simpl; [done|].
  destruct (m !! k) as [conn|] eqn:E; [|done]. case_decide as Ht; [|done].
  destruct (Hm k) as (n & Hn & ->); [eauto|]. unfold connectorKey in *. rewrite Atoi_Itoa by done.
  intros [= <-]. eauto.
Qed.

Lemma find_transaction_None m tx ks k conn :
  (∀ k, is_Some (m !! k) → ∃ n, Int64.in_range n ∧ k = connectorKey n) →
  k ∈ ks → m !! k = Some conn → cn_TransactionID conn = Some tx → find_transaction m tx ks ≠ None.
Proof.
  intros Hm Hk Hc Ht. induction ks as [|k' ks IH]; [by apply not_elem_of_nil in Hk|]. simpl.
  apply elem_of_cons in Hk as [<-|Hk].
  - rewrite Hc, decide_True by done. destruct (Hm k) as (n & Hn & ->); [eauto|].
    unfold connectorKey. by rewrite Atoi_Itoa.
  - destruct (m !! k') eqn:E; [|by apply IH]. case_decide; [|by apply IH].
    destruct (Atoi k'); [done|by apply IH].
Qed.

(** Looking a transaction up finds a connector exactly when some connector
    of the charger carries it, and then the connector it names does. *)
Theorem FindConnectorByTransactionID_spec r ks c tx :
  registry_ok r → (∀ cp, r !! c = Some cp → range_of (cp_Connectors cp) ks) →
  match FindConnectorByTransactionID r ks c tx with
  | (n, true) => carries r c n tx
  | (n, false) => n = 0 ∧ ∀ m, ¬ carries r c m tx
  end.
Proof.
  intros Hr Hks. unfold FindConnectorByTransactionID. destruct (r !! c) as [cp|] eqn:E.
  - assert (∀ k, is_Some (cp_Connectors cp !! k) → ∃ n, Int64.in_range n ∧ k = connectorKey n) as Hm.
    { intros k [conn Hk]. destruct (Hr _ _ E) as (_ & Hc & _). by apply Hc in Hk as [? _]. }
    destruct (find_transaction _ _ _) as [n|] eqn:F.
    + apply carries_iff. destruct (find_transaction_Some _ _ _ _ Hm F) as (conn & ? & ?). eauto 6.
    + split; [done|]. intros n (cp' & conn & ? & Hconn & Ht)%carries_iff. simplify_eq.
      destruct (Hks _ eq_refl) as [_ Hin].
      by eapply (find_transaction_None _ tx ks (connectorKey n) conn Hm); [apply Hin; eauto|..].
  - split; [done|]. intros n (cp' & conn & ? & _)%carries_iff. congruence.
Qed.

(** A start makes its connector carry the transaction; a stop clears it. *)
Lemma start_carries r now c n tx m : carries (ApplyStartTransaction r now c n tx m) c n tx.
Proof.
  apply carries_iff. unfold ApplyStartTransaction. eexists _, _. rewrite lookup_insert_eq. split; [done|].
  cbn. by rewrite lookup_insert_eq.
Qed.
Lemma stop_clears r now c n m tx : ¬ carries (ApplyStopTransaction r now c n m) c n tx.
Proof.
  rewrite carries_iff. intros (cp & conn & Hc & Hn & Ht). unfold ApplyStopTransaction in Hc.
  rewrite lookup_insert_eq in Hc. simplify_eq. cbn in Hn. rewrite lookup_insert_eq in Hn. by simplify_eq.
Qed.

(** ** The inactivity check *)
Definition heard_of (cp : ChargerState) : Prop := cp_LastMessageTime cp ≠ 0.
Definition is_late (cp : ChargerState) (now : Time) (limit : GoTime.Duration) : bool :=
  Float64.geb (Float64.Seconds (GoTime.Sub now (cp_LastMessageTime cp))) (Float64.Seconds limit).

#[local] Opaque Float64.geb Float64.Seconds.
(** The check reports a charger inactive exactly when it is unknown or its last
    message is at least [limit] old; in the second case the charger is offline
    afterwards, and nothing else of the registry changes. *)
Lemma CheckInactivity_spec r now c limit :
  let '(r', res) := CheckInactivity r now c limit in
  (ir_Inactive res = true ↔
     r !! c = None ∨ ∃ cp, r !! c = Some cp ∧ heard_of cp ∧ is_late cp now limit = true) ∧
  (ir_Inactive res = true → ir_Online res = "Offline" ∧ ∀ cp', r' !! c = Some cp' → cp_Online cp' = false) ∧
  (ir_Inactive res = false → r' = r) ∧
  (∀ c', c' ≠ c → r' !! c' = r !! c').
Proof.
  unfold CheckInactivity, is_late, heard_of. destruct (r !! c) as [cp|] eqn:E; [|naive_solver].
  unfold GoTime.IsZero.
  destruct (decide _) as [Hz|Hz]; [by split_and!; simpl; naive_solver|].
  destruct (cp_Online cp) eqn:Ho, (Float64.geb _ _) eqn:Hl; simpl; split_and!; try done;
    try (split; [intros _; right; by exists cp|done]).
  - intros _. split; [done|]. intros cp'. rewrite lookup_insert_eq. by intros [= <-].
  - intros c' Hc. by rewrite lookup_insert_ne.
  - split; [done|]. intros [|(cp' & [= <-] & _ & H)]; [done|]. by rewrite Hl in H.
  - intros _. split; [done|]. intros cp'. rewrite E. by intros [= <-].
  - split; [done|]. intros [|(cp' & [= <-] & _ & H)]; [done|]. by rewrite Hl in H.
Qed.
#[local] Transparent Float64.geb Float64.Seconds.

(** ** Witnesses *)
Module RegistryRuns.
Definition ops : list registry_op :=
  [op_Start 100 "CP-1" 1 77 (Float64.of_int 1000);
   op_Meter 200 "CP-1" 1 (Some 77) (Float64.of_int 3500);
   op_Status 300 ["2"; "1"] "CP-1" 2 "Faulted" "GroundFailure"].
Definition reg : Registry := registry_run ops.
(** 2.5 kWh since the start, and the fault of connector 2. *)
Example reg_state :
  option_map (λ cp, (cp_HasError cp, cn_LastTransactionConsumptionKWh <$> (cp_Connectors cp !! "1"))) (reg !! "CP-1")
  = Some (true, Some (Float64.div (Float64.of_int 5) (Float64.of_int 2))).
Proof. vm_compute. reflexivity. Qed.
(** A register that wrapped at 2^32 - 1. *)
Example rolled_over :
  deltaWh (Float64.of_int 4294967290) (Float64.of_int 4) = Float64.of_int 10.
Proof. vm_compute. reflexivity. Qed.

Lemma connectors_of_reg k :
  is_Some (cp_Connectors (ensureLocked (registry_run (take 2 ops)) 300 "CP-1") !! k) ↔ k = "1".
Proof.
  assert (cp_Connectors (ensureLocked (registry_run (take 2 ops)) 300 "CP-1") =
    {["1" := default zeroConnector (cp_Connectors (ensureLocked (registry_run (take 2 ops)) 300 "CP-1") !! "1")]})
    as -> by (vm_compute; reflexivity).
  destruct (decide (k = "1")) as [->|Hk].
  - rewrite lookup_singleton_eq. split; eauto.
  - rewrite lookup_singleton_ne by congruence. split; [by intros []|done].
Defined.
Lemma ops_are_ok : ops_ok NewRegistry ops.
Proof.
  split; [|split; [|split; [|done]]].
  - split; [|done]. intros n [= <-]. vm_compute. split; discriminate.
  - split; [|done]. intros n [= <-]. vm_compute. split; discriminate.
  - split; [intros n [= <-]; vm_compute; split; discriminate|]. intros k.
    change (registry_step (registry_step NewRegistry (op_Start 100 "CP-1" 1 77 (Float64.of_int 1000)))
      (op_Meter 200 "CP-1" 1 (Some 77) (Float64.of_int 3500))) with (registry_run (take 2 ops)).
    rewrite connectors_of_reg. change (connectorKey 2) with "2". set_solver.
Defined.

Definition keys : list string :=
  (map_to_list (default ∅ (cp_Connectors <$> (reg !! "CP-1")))).*1.
Lemma keys_range cp : reg !! "CP-1" = Some cp → range_of (cp_Connectors cp) keys.
Proof. intros H. unfold keys. rewrite H. apply range_of_keys. Defined.
End RegistryRuns.

Lemma registry_invariant_witness : registry_ok RegistryRuns.reg.
Proof. exact (registry_invariant RegistryRuns.ops RegistryRuns.ops_are_ok). Defined.

Lemma FindConnectorByTransactionID_spec_witness :
  FindConnectorByTransactionID RegistryRuns.reg RegistryRuns.keys "CP-1" 77 = (1, true) ∧
  carries RegistryRuns.reg "CP-1" 1 77.
Proof.
  assert (FindConnectorByTransactionID RegistryRuns.reg RegistryRuns.keys "CP-1" 77 = (1, true)) as E
    by (vm_compute; reflexivity).
  split; [exact E|].
  pose proof (FindConnectorByTransactionID_spec RegistryRuns.reg RegistryRuns.keys "CP-1" 77
    (registry_invariant RegistryRuns.ops RegistryRuns.ops_are_ok)
    (λ cp Hcp, RegistryRuns.keys_range cp Hcp)) as H.
  rewrite E in H. exact H.
Defined.
