(* ===== verification/HalStops.v ===== *)
(** * Dispatching RemoteStop

    internal/ocpp16hal/v1.go: DispatchV1Stop, DispatchPendingV1Stops,
    EnforceV1Deadlines and RecoverV1Lifecycle, first as the sequential code of
    one goroutine, then as concurrent deliverers whose store calls and OCPP
    exchanges interleave with each other, with every other store call and with
    process restarts. *)
From Stdlib Require Import String.
From stdpp Require Import base numbers decidable option list relations sorting strings gmap.
From S2P Require Import Prelude V1Types Evidence V1Memory PgSchema Outbox PgMapping PgLifecycle StopLifecycle Histories Connections HalTraces.
Open Scope Z_scope.

Definition v1DeadlineStopCause (source legacyLimitType : string) : string * string :=
  if decide (source = "CUSTOMER_MONEY" ∨ (source = "" ∧ legacyLimitType = "MONEY"))
  then ("MONEY_LIMIT", "money_limit_reached")
  else if decide (source = "WALLET" ∨ (source = "" ∧ legacyLimitType = "AUTO"))
  then ("WALLET_LIMIT", "wallet_limit_reached")
  else ("TIME_LIMIT", "time_limit_reached").

(** What one dispatch meets outside the tables: the instants of its three
    writes, the fact identifiers of the last, and the charger's answer. *)
Record dispatch_env : Type := mkdispatch_env {
  de_claim : Time;
  de_begin : Time;
  de_mark : Time;
  de_gen : string → result string;
  de_called : Time;              (* the instants of the two trace events *)
  de_answered : Time;
  de_answer : result string
}.

Section dispatch.
Context `{FactCodec}.

(** A store call that returns the workflow it leaves. *)
Definition with_workflow {A} (r : pg * result A) (id : string) : pg * result (A * V1StopWorkflow) :=
  match r with
  | (s', inr err) => (s', inr err)
  | (s', inl a) =>
    match GetV1StopWorkflow s' id with inl w => (s', inl (a, w)) | inr err => (s', inr err) end
  end.
Definition mark_stop (e : dispatch_env) (s : pg) (id status result_ detail : string) :
    pg * result V1StopWorkflow :=
  match with_workflow (run_tx (MarkV1StopDelivery (de_mark e) (de_gen e) id status result_ detail) s) id with
  | (s', inl (_, w)) => (s', inl w)
  | (s', inr err) => (s', inr err)
  end.

(** [HAL.DispatchV1Stop] with its effects: the RemoteStop it hands to the OCPP
    stack and its trace events. *)
Definition DispatchV1Stop (e : dispatch_env) (s : pg) (id : string) :
    pg * list hal_effect * result V1StopWorkflow :=
  match with_workflow (run_tx (ClaimV1StopDelivery (de_claim e) id) s) id with
  | (s1, inr err) => (s1, [], inr err)
  | (s1, inl (false, workflow)) => (s1, [], inl workflow)
  | (s1, inl (true, _)) =>
    match with_workflow (run_tx (BeginV1StopDelivery (de_begin e) id) s1) id with
    | (s2, inr err) => (s2, [], inr err)
    | (s2, inl _) =>
      match GetV1Transaction s2 id with
      | inr err => (s2, [], inr err)
      | inl transaction =>
        match tx_CompletedAt transaction with
        | Some _ =>
          let '(s3, r) := mark_stop e s2 id "AMBIGUOUS" "" "transaction completed before dispatch" in
          (s3, [], r)
        | None =>
          let halID := tx_HALTransactionID transaction in
          let called := [Traced halID (stop_call_event (de_called e) transaction); SentStop id] in
          match de_answer e with
          | inr _ => let '(s3, r) := mark_stop e s2 id "AMBIGUOUS" "" "remote stop result unavailable" in
                     (s3, called, r)
          | inl status =>
            let '(s3, r) := mark_stop e s2 id status status "" in
            (s3, called ++ [Traced halID (stop_answer_event (de_answered e) status transaction)], r)
          end
        end
      end
    end
  end.

(** The loop of DispatchPendingV1Stops: a failed dispatch is only logged. *)
Fixpoint dispatch_each (env : string → dispatch_env) (s : pg) (ids : list string) : pg * list hal_effect :=
  match ids with
  | [] => (s, [])
  | id :: rest =>
    let '(s1, sent, _) := DispatchV1Stop (env id) s id in
    let '(s2, sent') := dispatch_each env s1 rest in
    (s2, sent ++ sent')
  end.

(** [HAL.DispatchPendingV1Stops] *)
Definition DispatchPendingV1Stops (env : string → dispatch_env) (s : pg) : pg * list hal_effect :=
  dispatch_each env s (wf_HALTransactionID <$> ListV1DispatchableStops s 100).

(** The loop of EnforceV1Deadlines: a failing EnsureV1StopWorkflow ends it. *)
Fixpoint enforce_each (now traced : Time) (env : string → dispatch_env) (s : pg) (ts : list V1Transaction) :
    pg * list hal_effect * option go_error :=
  match ts with
  | [] => (s, [], None)
  | t :: rest =>
    let id := tx_HALTransactionID t in
    let '(initiator, reason) := v1DeadlineStopCause (tx_DurationLimitSource t) (tx_LimitType t) in
    match run_tx (EnsureV1StopWorkflow now id initiator reason) s with
    | (s1, inr err) => (s1, [], Some err)
    | (s1, inl (_, created)) =>
      let reached := if created then [Traced id (automatic_stop_event traced reason)] else [] in
      let '(s2, sent, _) := DispatchV1Stop (env id) s1 id in
      let '(s3, sent', err) := enforce_each now traced env s2 rest in
      (s3, reached ++ sent ++ sent', err)
    end
  end.

Definition record_projection (now : Time) (generated : result string) (o : pendingRuntimeProjection) (s : pg) :
    pg * option go_error :=
  match run_tx (RecordV1ChargerConnection now generated (pr_identity o) (pr_generation o) (pr_online o)
                  (pr_observedAt o)) s with
  | (s', inl _) => (s', None)
  | (s', inr err) => (s', Some err)
  end.

(** [HAL.EnforceV1Deadlines]: [ks] is the order in which the pending
    projections are visited, [env1] and [env2] serve the two loops. *)
Definition EnforceV1Deadlines (now traced : Time) (generated : result string) (ks : list string)
    (env1 env2 : string → dispatch_env) (s : pg) (p : pending) : pg * pending * list hal_effect * option go_error :=
  let '(s0, p') := retryRuntimeProjections (record_projection now generated) ks s p in
  match enforce_each now traced env1 s0 (ListV1OverdueTransactions s0 now 100) with
  | (s1, sent, Some err) => (s1, p', sent, Some err)
  | (s1, sent, None) =>
    let '(s2, sent') := DispatchPendingV1Stops env2 s1 in (s2, p', sent ++ sent', None)
  end.

(** [HAL.RecoverV1Lifecycle], without the charger operations (Operations). *)
Definition RecoverV1Lifecycle (now traced : Time) (generated : result string) (ks : list string)
    (env0 env1 env2 : string → dispatch_env) (s : pg) (p : pending) :
    pg * pending * list hal_effect * option go_error :=
  let s1 := RecoverV1StopDelivery now (RecoverV1CommandDelivery now s) in
  let '(s2, sent) := DispatchPendingV1Stops env0 s1 in
  let '(s3, p', sent', err) := EnforceV1Deadlines now traced generated ks env1 env2 s2 p in
  (s3, p', sent ++ sent', err).
End dispatch.

(** ** Concurrent deliverers

    Each goroutine in DispatchV1Stop stands at one of its calls; [wait] is
    between handing the RemoteStop to the charger and its answer. *)
Inductive stop_pc : Type :=
  | at_begin | at_read | at_send | at_wait
  | at_mark (status result_ detail : string).
#[global] Instance stop_pc_eq_dec : EqDecision stop_pc.
Proof. solve_decision. Defined.

Record stop_world : Type := mkstop_world {
  sw_db : pg;
  sw_workers : gmap nat (string * stop_pc);
  sw_sent : list string
}.

Inductive dispatch_event : Type :=
  | EvClaim (i : nat) (now : Time) (id : string)   (* a new deliverer i, its claim call *)
  | EvBegin (i : nat) (now : Time)
  | EvRead (i : nat)
  | EvSend (i : nat)
  | EvAnswer (i : nat) (answer : result string)
  | EvMark (i : nat) (now : Time) (gen : string → result string)
  | EvAbort (i : nat)          (* a store call failed, or the context was cancelled *)
  | EvCall (c : store_call)    (* any store call that is not one of a deliverer *)
  | EvRestart (now : Time)     (* the process dies; its successor recovers the stops *)
  | EvOverlap (now : Time).    (* a successor recovers while deliverers still run *)

Section world.
Context `{FactCodec}.

Definition dispatch_exec (w : stop_world) (e : dispatch_event) : stop_world :=
  let '(mkstop_world s ws sent) := w in
  match e with
  | EvClaim i now id =>
    match ws !! i, run_tx (ClaimV1StopDelivery now id) s with
    | None, (s', inl true) => mkstop_world s' (<[i := (id, at_begin)]> ws) sent
    | None, (s', _) => mkstop_world s' ws sent
    | Some _, _ => w
    end
  | EvBegin i now =>
    match ws !! i with
    | Some (id, at_begin) =>
      match run_tx (BeginV1StopDelivery now id) s with
      | (s', inl _) => mkstop_world s' (<[i := (id, at_read)]> ws) sent
      | (s', inr _) => mkstop_world s' (delete i ws) sent
      end
    | _ => w
    end
  | EvRead i =>
    match ws !! i with
    | Some (id, at_read) =>
      match GetV1Transaction s id with
      | inr _ => mkstop_world s (delete i ws) sent
      | inl t =>
        match tx_CompletedAt t with
        | Some _ => mkstop_world s (<[i := (id, at_mark "AMBIGUOUS" "" "transaction completed before dispatch")]> ws) sent
        | None => mkstop_world s (<[i := (id, at_send)]> ws) sent
        end
      end
    | _ => w
    end
  | EvSend i =>
    match ws !! i with
    | Some (id, at_send) => mkstop_world s (<[i := (id, at_wait)]> ws) (sent ++ [id])
    | _ => w
    end
  | EvAnswer i answer =>
    match ws !! i with
    | Some (id, at_wait) =>
      match answer with
      | inr _ => mkstop_world s (<[i := (id, at_mark "AMBIGUOUS" "" "remote stop result unavailable")]> ws) sent
      | inl status => mkstop_world s (<[i := (id, at_mark status status "")]> ws) sent
      end
    | _ => w
    end
  | EvMark i now gen =>
    match ws !! i with
    | Some (id, at_mark status r d) =>
      mkstop_world (run_tx (MarkV1StopDelivery now gen id status r d) s).1 (delete i ws) sent
    | _ => w
    end
  | EvAbort i => mkstop_world s (delete i ws) sent
  | EvCall c => if requests c then mkstop_world (store_exec c s) ws sent else w
  | EvRestart now => mkstop_world (RecoverV1StopDelivery now s) ∅ sent
  | EvOverlap now => mkstop_world (RecoverV1StopDelivery now s) ws sent
  end.

Definition empty_world : stop_world := mkstop_world pg_empty ∅ [].
Definition world_run (es : list dispatch_event) : stop_world := fold_left dispatch_exec es empty_world.

(** A claim of facts scans the table it runs on; no two processes overlap. *)
Definition event_ok (w : stop_world) (e : dispatch_event) : Prop :=
  match e with EvCall c => call_ok c (sw_db w) | _ => True end.
Fixpoint events_ok (w : stop_world) (es : list dispatch_event) : Prop :=
  match es with [] => True | e :: es' => event_ok w e ∧ events_ok (dispatch_exec w e) es' end.
Definition overlaps (e : dispatch_event) : bool := match e with EvOverlap _ => true | _ => false end.
End world.

(** ** Lives of the transactions a deliverer holds *)
Definition settled_life (l : stop_life) : Prop :=
  ∃ st n, life_stop l = Some (st, n) ∧ st ∉ ["PERSISTED"; "PENDING_DELIVERY"].
Definition granted_life (l : stop_life) : Prop :=
  ∃ st n, life_stop l = Some (st, n) ∧ st ∈ ["PENDING_DELIVERY"; "COMPLETED"].
Definition life_at (P : stop_life → Prop) (s : pg) (id : string) : Prop := ∃ l, stop_of s id = Some l ∧ P l.

Lemma settled_step l l' : stop_step l l' → settled_life l → settled_life l'.
Proof.
  intros Hst (st & n & Hl & Hn). destruct Hst as [|m|m|st0 m st' _ Hm|c m|c m|w]; simpl in *; simplify_eq;
    try (exfalso; set_solver).
  - exists st', n. split; [done|]. unfold marks in Hm. set_solver.
  - eexists _, _. split; [done|]. set_solver.
  - eexists _, _. split; [done|]. set_solver.
Qed.
Lemma granted_step l l' : request_step l l' → granted_life l → granted_life l'.
Proof.
  intros Hst (st & n & Hl & Hn). destruct Hst as [|w]; simpl in *; simplify_eq.
  simpl. eexists _, _. split; [done|]. set_solver.
Qed.

Lemma life_at_moves R P s s' id :
  (∀ l l', R l l' → P l → P l') → moves_by R s s' id → life_at P s id → life_at P s' id.
Proof.
  intros HP Hm (l & Hl & Hp). unfold moves_by in Hm. rewrite Hl in Hm. destruct Hm as (l' & Hl' & Hr).
  exists l'. split; [done|]. clear Hl Hl'. induction Hr; eauto.
Qed.
Lemma life_at_same P s s' id : stop_of s' id = stop_of s id → life_at P s id → life_at P s' id.
Proof. unfold life_at. by intros ->. Qed.

(** ** The invariant of the world *)
Definition sending (pc : stop_pc) : Prop := pc = at_begin ∨ pc = at_read ∨ pc = at_send.
Definition worker_ok (s : pg) (sent : list string) (id : string) (pc : stop_pc) : Prop :=
  (sending pc → id ∉ sent) ∧
  life_at (if decide (pc = at_begin) then granted_life else settled_life) s id.
Record world_inv (w : stop_world) : Prop := {
  wi_ok : lifecycle_ok (sw_db w);
  wi_lives : lives (sw_db w);
  wi_workers i id pc : sw_workers w !! i = Some (id, pc) → worker_ok (sw_db w) (sw_sent w) id pc;
  wi_alone i j id pc pc' : sw_workers w !! i = Some (id, pc) → sw_workers w !! j = Some (id, pc') →
    sending pc → sending pc' → i = j;
  wi_sent id : id ∈ sw_sent w → life_at settled_life (sw_db w) id;
  wi_once : NoDup (sw_sent w)
}.

Section world_proofs.
Context `{FactCodec}.
Implicit Types (s : pg) (ws : gmap nat (string * stop_pc)) (sent : list string).

(** The tables move, the deliverers stay. *)
Lemma world_db s s' ws sent :
  world_inv (mkstop_world s ws sent) → safe s s' →
  (∀ i id, ws !! i = Some (id, at_begin) → life_at granted_life s' id) →
  world_inv (mkstop_world s' ws sent).
Proof.
  intros [Hok Hl Hw Ha Hs Hn] Hsafe Hg. simpl in *. destruct (Hsafe Hok) as [Hok' Hm].
  split; simpl; [done|by eapply lives_step| |done| |done].
  - intros i id pc Hi. destruct (Hw _ _ _ Hi) as [H1 H2]. split; [done|].
    destruct (decide (pc = at_begin)) as [->|]; [by eapply Hg|].
    exact (life_at_moves _ _ _ _ _ settled_step (Hm id) H2).
  - intros id Hid. exact (life_at_moves _ _ _ _ _ settled_step (Hm id) (Hs id Hid)).
Qed.

(** A deliverer leaves. *)
Lemma world_delete s ws sent i :
  world_inv (mkstop_world s ws sent) → world_inv (mkstop_world s (delete i ws) sent).
Proof.
  intros [Hok Hl Hw Ha Hs Hn]. split; simpl in *; try done.
  - intros j id pc [_ Hj]%lookup_delete_Some. by eapply Hw.
  - intros j k id pc pc' [_ Hj]%lookup_delete_Some [_ Hk]%lookup_delete_Some. by eapply Ha.
Qed.

(** A deliverer advances to a call where it still may send, or past it. *)
Lemma world_advance s ws sent i id pc pc' :
  world_inv (mkstop_world s ws sent) → ws !! i = Some (id, pc) → sending pc ∨ ¬ sending pc' →
  worker_ok s sent id pc' → world_inv (mkstop_world s (<[i := (id, pc')]> ws) sent).
Proof.
  intros [Hok Hl Hw Ha Hs Hn] Hi Hpc Hw'. split; simpl in *; try done.
  - intros j id' pc0 [[<- [= <- <-]]|[_ Hj]]%lookup_insert_Some; [done|by eapply Hw].
  - intros j k id' p q Hj Hk Hp Hq. apply lookup_insert_Some in Hj, Hk.
    destruct Hj as [[<- Hj]|[_ Hj]], Hk as [[<- Hk]|[_ Hk]]; simplify_eq; [done| | |by eapply Ha].
    + destruct Hpc as [Hpc|?]; [|done]. by eapply Ha.
    + destruct Hpc as [Hpc|?]; [|done]. by eapply Ha.
Qed.

Lemma granted_other s sent ws i id k :
  world_inv (mkstop_world s ws sent) → (∀ j, ws !! j ≠ Some (id, at_begin)) →
  ws !! i = Some (k, at_begin) → k ≠ id ∧ life_at granted_life s k.
Proof.
  intros Hinv Hno Hi. split; [intros ->; by eapply Hno|].
  destruct (wi_workers _ Hinv _ _ _ Hi) as [_ Hl]. by rewrite decide_True in Hl.
Qed.

Lemma world_claim s s' ws sent i now id :
  world_inv (mkstop_world s ws sent) → ws !! i = None → ClaimV1StopDelivery now id s = inl (true, s') →
  world_inv (mkstop_world s' (<[i := (id, at_begin)]> ws) sent).
Proof.
  intros Hinv Hi Hc. pose proof (Claim_safe _ _ _ _ _ Hc) as Hsafe.
  apply ClaimV1StopDelivery_inv in Hc as [[? _]|(_ & t & w & Et & Hco & Ew & Hst & Hs')]; [done|].
  assert (stop_of s id = Some (mkstop_life false (Some ("PERSISTED", wf_DeliveryAttempts w)))) as Hlife.
  { rewrite (stop_of_rows _ _ _ Et), Ew, Hco. simpl. by rewrite Hst. }
  assert (¬ life_at settled_life s id ∧ ¬ life_at granted_life s id) as [Hns Hng].
  { split; intros (l & Hl & st & n & Hln & Hin); simplify_eq/=; set_solver. }
  assert (∀ j pc, ws !! j ≠ Some (id, pc)) as Hnone.
  { intros j pc Hj. destruct (wi_workers _ Hinv _ _ _ Hj) as [_ Hl]. simpl in Hl.
    by destruct (decide (pc = at_begin)). }
  assert (id ∉ sent) as Hsent by (intros Hin; by apply Hns, (wi_sent _ Hinv)).
  assert (life_at granted_life s' id) as Hg.
  { eexists. split; [apply stop_of_rows; rewrite Hs'; exact Et|]. rewrite Hs'. simpl. rewrite lookup_insert_eq.
    eexists _, _. split; [done|]. simpl. set_solver. }
  assert (world_inv (mkstop_world s' ws sent)) as [Hok Hl Hw Ha Hs Hn].
  { eapply world_db; [done|done|]. intros j k Hj.
    destruct (granted_other _ _ _ _ id _ Hinv (λ j, Hnone j at_begin) Hj) as [Hne Hk].
    eapply life_at_same; [|done]. apply (stop_of_other _ _ id); rewrite ?Hs'; [done| |done].
    intros j' Hj'. simpl. by rewrite lookup_insert_ne. }
  split; simpl in *; try done.
  - intros j id' pc [[<- [= <- <-]]|[_ Hj]]%lookup_insert_Some; [|by eapply Hw]. by split.
  - intros j k id' p q Hj Hk Hp Hq. apply lookup_insert_Some in Hj, Hk.
    destruct Hj as [[<- Hj]|[_ Hj]], Hk as [[<- Hk]|[_ Hk]]; simplify_eq; [done| | |].
    + by destruct (Hnone k q).
    + by destruct (Hnone j p).
    + by eapply Ha.
Qed.

(** A deliverer that is still to begin is the only one of its transaction. *)
Lemma alone_at_begin s ws sent i j id pc :
  world_inv (mkstop_world s ws sent) → ws !! i = Some (id, at_begin) → ws !! j = Some (id, pc) →
  sending pc → i = j.
Proof. intros Hinv Hi Hj Hp. eapply (wi_alone _ Hinv i j); [done|done|by left|done]. Qed.

Lemma life_of s id : lives s → ∀ l, stop_of s id = Some l → life_inv l.
Proof. intros Hl l. by apply lives_inv. Qed.

Lemma Begin_refused now id s s' :
  BeginV1StopDelivery now id s = inl (false, s') →
  ∃ t, pg_transactions s !! id = Some t ∧
    (is_Some (tx_CompletedAt t) ∨ ¬ some_and (pg_workflows s !! id) (λ w, wf_State w = "PENDING_DELIVERY")).
Proof.
  intros (rows & s1 & [-> (t & Et & Ht & Hw)]%lock_inv & Hs)%tx_bind_inv. rewrite Ht, Hw in Hs.
  exists t. split; [done|]. case_decide as D; [exact D|]. rewrite tx_modify_bind in Hs. by injection Hs.
Qed.

Lemma Begin_frame now id s s' b k :
  BeginV1StopDelivery now id s = inl (b, s') → k ≠ id → stop_of s' k = stop_of s k.
Proof.
  intros [[_ ->]|(_ & t & w & _ & _ & _ & _ & Hs')]%BeginV1StopDelivery_inv Hk; [done|].
  apply (stop_of_other _ _ id); rewrite ?Hs'; [done| |done]. intros j Hj. simpl. by rewrite lookup_insert_ne.
Qed.

(** After its begin call, a granted delivery is past delivery: either this
    call moved it there, or the transaction had completed. *)
Lemma begin_settles now id s s' b :
  lives s → life_at granted_life s id → BeginV1StopDelivery now id s = inl (b, s') →
  life_at settled_life s' id.
Proof.
  intros Hlv (l & Hl & st & n & Hln & Hst) Hb. pose proof (lives_inv _ _ _ Hlv Hl) as Hli. destruct b.
  - apply BeginV1StopDelivery_inv in Hb as [[? _]|(_ & t & w & Et & _ & Ew & _ & Hs')]; [done|].
    eexists. split; [apply stop_of_rows; rewrite Hs'; exact Et|]. rewrite Hs'. simpl.
    rewrite lookup_insert_eq. eexists _, _. split; [done|]. simpl. set_solver.
  - pose proof (Begin_refused _ _ _ _ Hb) as (t & Et & Hr).
    apply BeginV1StopDelivery_inv in Hb as [[_ ->]|[? _]]; [|done].
    exists l. split; [done|]. exists st, n. split; [done|].
    rewrite (stop_of_rows _ _ _ Et) in Hl. injection Hl as <-. unfold life_inv in Hli. rewrite Hln in Hli.
    simpl in Hli, Hln. destruct (pg_workflows s !! id) as [w|] eqn:Ew; [|done]. simpl in Hln, Hr.
    injection Hln as Hws _. destruct Hli as (_ & _ & _ & Hli). rewrite bool_decide_eq_true in Hli.
    assert (st = "COMPLETED") as ->; [|set_solver]. destruct Hr as [Hr|Hr]; [tauto|].
    rewrite Hws in Hr. set_solver.
Qed.

Lemma begin_step s s' ws sent i now id b :
  world_inv (mkstop_world s ws sent) → ws !! i = Some (id, at_begin) →
  BeginV1StopDelivery now id s = inl (b, s') →
  world_inv (mkstop_world s' (<[i := (id, at_read)]> ws) sent).
Proof.
  intros Hinv Hi Hb. pose proof (Begin_safe _ _ _ _ _ Hb) as Hsafe.
  destruct (wi_workers _ Hinv _ _ _ Hi) as [Hns Hg]. rewrite decide_True in Hg by done.
  pose proof (begin_settles _ _ _ _ _ (wi_lives _ Hinv) Hg Hb) as Hset.
  destruct Hinv as [Hok Hlv Hw Ha Hse Hn]. destruct (Hsafe Hok) as [Hok' Hm]. simpl in *.
  split; simpl; [done|by eapply lives_step| | | |done].
  - intros j id' pc Hj. apply lookup_insert_Some in Hj. destruct Hj as [[<- Hj]|[Hne Hj]]; simplify_eq.
    + split; [|done]. intros _. apply Hns. by left.
    + destruct (Hw _ _ _ Hj) as [H1 H2]. split; [done|]. case_decide as D.
      * subst pc. eapply life_at_same; [|exact H2]. eapply Begin_frame; [exact Hb|]. intros ->.
        apply Hne. eapply Ha; [exact Hi|exact Hj|by left..].
      * exact (life_at_moves _ _ _ _ _ settled_step (Hm id') H2).
  - intros j k id' p q Hj Hk Hp Hq. apply lookup_insert_Some in Hj, Hk.
    destruct Hj as [[<- Hj]|[_ Hj]], Hk as [[<- Hk]|[_ Hk]]; simplify_eq; [done| | |by eapply Ha].
    + eapply Ha; [exact Hi|exact Hk|by left|done].
    + eapply Ha; [exact Hj|exact Hi|done|by left].
  - intros k Hk. exact (life_at_moves _ _ _ _ _ settled_step (Hm k) (Hse k Hk)).
Qed.

Lemma send_step s ws sent i id :
  world_inv (mkstop_world s ws sent) → ws !! i = Some (id, at_send) →
  world_inv (mkstop_world s (<[i := (id, at_wait)]> ws) (sent ++ [id])).
Proof.
  intros [Hok Hl Hw Ha Hs Hn] Hi. simpl in *. destruct (Hw _ _ _ Hi) as [Hns Hset]. simpl in Hset.
  assert (id ∉ sent) as Hsent by (apply Hns; unfold sending; auto).
  split; simpl; [done|done| | | |].
  - intros j id' pc Hj. apply lookup_insert_Some in Hj. destruct Hj as [[<- Hj]|[Hne Hj]]; simplify_eq.
    + split; [|done]. by intros [?|[?|?]].
    + destruct (Hw _ _ _ Hj) as [H1 H2]. split; [|done]. intros Hp Hin. specialize (H1 Hp).
      apply elem_of_app in Hin as [?| ->%list_elem_of_singleton]; [done|].
      apply Hne. eapply Ha; [exact Hi|exact Hj|unfold sending; auto|done].
  - intros j k id' p q Hj Hk Hp Hq. apply lookup_insert_Some in Hj, Hk.
    destruct Hj as [[<- Hj]|[_ Hj]], Hk as [[<- Hk]|[_ Hk]]; simplify_eq; [done| | |by eapply Ha];
      by destruct Hp as [?|[?|?]], Hq as [?|[?|?]].
  - intros k [Hk| ->%list_elem_of_singleton]%elem_of_app; [by apply Hs|done].
  - apply NoDup_app. split_and!; [done| |apply NoDup_singleton].
    intros k Hk ->%list_elem_of_singleton. done.
Qed.

Lemma world_mark s s' ws sent i now gen id st r d status :
  world_inv (mkstop_world s ws sent) → ws !! i = Some (id, at_mark st r d) →
  MarkV1StopDelivery now gen id status r d s = inl ((), s') →
  world_inv (mkstop_world s' ws sent).
Proof.
  intros Hinv Hi Hm. eapply world_db; [done|by eapply MarkStop_safe|]. intros j k Hj.
  destruct (wi_workers _ Hinv _ _ _ Hj) as [_ Hg]. rewrite decide_True in Hg by done. simpl in Hg.
  destruct (decide (k = id)) as [->|Hne];
    [|exact (life_at_same _ _ _ _ (MarkStop_frame _ _ _ _ _ _ _ _ _ Hm Hne) Hg)].
  destruct (wi_workers _ Hinv _ _ _ Hi) as [_ Hs]. rewrite decide_False in Hs by done. simpl in Hs.
  destruct Hg as (l & Hl & st1 & n1 & Hl1 & H1), Hs as (l2 & Hl2 & st2 & n2 & Hl2' & H2).
  rewrite Hl in Hl2. injection Hl2 as <-. rewrite Hl1 in Hl2'. injection Hl2' as <- <-.
  assert (st1 = "COMPLETED") as -> by set_solver.
  apply MarkStop_inv in Hm as [Hq|(t & w & w' & s2 & Et & _ & Ew & Hst & _)].
  - eapply life_at_same; [by apply quiet_stop|]. exists l. split; [done|]. eexists _, _. split; [done|]. set_solver.
  - exfalso. rewrite (stop_of_rows _ _ _ Et), Ew in Hl. injection Hl as <-. simpl in Hl1.
    injection Hl1 as Hws _. rewrite Hws in Hst. set_solver.
Qed.

Lemma requests_step s ws sent c :
  world_inv (mkstop_world s ws sent) → call_ok c s → requests c = true →
  world_inv (mkstop_world (store_exec c s) ws sent).
Proof.
  intros Hinv Hc Hr. pose proof (store_exec_requests c s Hc Hr) as Hs.
  eapply world_db; [done|by apply safe_request|]. intros i id Hi.
  destruct (wi_workers _ Hinv _ _ _ Hi) as [_ Hg]. rewrite decide_True in Hg by done.
  destruct (Hs (wi_ok _ Hinv)) as [_ Hm]. exact (life_at_moves _ _ _ _ _ granted_step (Hm id) Hg).
Qed.

Lemma recover_stops_safe now s : safe s (RecoverV1StopDelivery now s).
Proof.
  assert (∀ f g : V1StopWorkflow → V1StopWorkflow,
    s <| pg_workflows ::= fmap f |> <| pg_workflows ::= fmap g |> = s <| pg_workflows ::= fmap (g ∘ f) |>) as Hcomp.
  { intros f g. unfold set_field. simpl. by rewrite map_fmap_compose. }
  unfold RecoverV1StopDelivery, recover_attempted_stops, recover_pending_stops. rewrite Hcomp.
  apply recover_safe. intros w c. simpl.
  destruct (decide (wf_State w = "PENDING_DELIVERY")) as [D|D].
  - rewrite decide_False by (simpl; discriminate). rewrite D. simpl. apply rtc_once. constructor.
  - case_decide as D'; [|apply rtc_refl]. rewrite D'. simpl. apply rtc_once. constructor.
Qed.

Lemma world_step w e : world_inv w → event_ok w e → overlaps e = false → world_inv (dispatch_exec w e).
Proof.
  destruct w as [s ws sent]. intros Hinv He Ho.
  destruct e as [i now id|i now|i|i|i answer|i now gen|i|c|now|now]; try discriminate Ho; cbn [dispatch_exec].
  - destruct (ws !! i) eqn:Hi; [done|]. unfold run_tx.
    destruct (ClaimV1StopDelivery now id s) as [[[|] s']|] eqn:Hc; [by eapply world_claim| |done].
    apply ClaimV1StopDelivery_inv in Hc as [[_ ->]|[? _]]; done.
  - destruct (ws !! i) as [[id []]|] eqn:Hi; try done. unfold run_tx.
    destruct (BeginV1StopDelivery now id s) as [[b s']|] eqn:Hb; [by eapply begin_step|by apply world_delete].
  - destruct (ws !! i) as [[id []]|] eqn:Hi; try done.
    destruct (GetV1Transaction s id) as [t|] eqn:Ht; [|by apply world_delete].
    destruct (wi_workers _ Hinv _ _ _ Hi) as [Hns Hset]. simpl in *.
    destruct (tx_CompletedAt t); (eapply world_advance; [done|done|unfold sending; auto|]);
      (split; [|by rewrite decide_False]); intros _; apply Hns; unfold sending; auto.
  - destruct (ws !! i) as [[id []]|] eqn:Hi; try done. by apply send_step.
  - destruct (ws !! i) as [[id []]|] eqn:Hi; try done.
    destruct (wi_workers _ Hinv _ _ _ Hi) as [_ Hset]. simpl in *.
    destruct answer; (eapply world_advance; [done|done|right; by intros [?|[?|?]]|]);
      (split; [by intros [?|[?|?]]|by rewrite decide_False]).
  - destruct (ws !! i) as [[id pc]|] eqn:Hi; [|done]. destruct pc as [| | | |st r d]; try done.
    apply world_delete. unfold run_tx.
    destruct (MarkV1StopDelivery now gen id st r d s) as [[[] s']|] eqn:Hm; [by eapply world_mark|done].
  - by apply world_delete.
  - destruct (requests c) eqn:Hr; [by apply requests_step|done].
  - destruct Hinv as [Hok Hl Hw Ha Hs Hn]. simpl in *. destruct (recover_stops_safe now s Hok) as [Hok' Hm].
    split; simpl; [done|by eapply lives_step|done|done| |done].
    intros id Hid. exact (life_at_moves _ _ _ _ _ settled_step (Hm id) (Hs id Hid)).
Qed.

Lemma empty_world_inv : world_inv empty_world.
Proof.
  destruct empty_lifecycle as (Hok & Hl & _). split; simpl; try done.
  - intros id Hid. by apply elem_of_nil in Hid.
  - constructor.
Qed.

Lemma world_runs w es :
  world_inv w → events_ok w es → Forall (λ e, overlaps e = false) es → world_inv (fold_left dispatch_exec es w).
Proof.
  revert w. induction es as [|e es IH]; intros w Hw; simpl; [done|].
  intros [He Hes] [Ho Hos]%Forall_cons. apply IH; [by apply world_step|done|done].
Qed.
End world_proofs.

(** C2: At most one RemoteStop per transaction leaves the HAL, whatever number
    of goroutines dispatch stops concurrently (the API, the meter-value
    enforcement, the deadline and recovery workers), however their claim,
    begin, read, send and mark calls interleave with each other and with all
    other store calls, whichever of them fail, and whenever the process dies
    and restarts - provided no restarted process recovers while deliverers of
    the old one still run.  Every transaction a RemoteStop was sent for is past
    its delivery in the store. *)
Theorem remote_stop_sent_at_most_once `{FactCodec} (es : list dispatch_event) :
  events_ok empty_world es → Forall (λ e, overlaps e = false) es →
  NoDup (sw_sent (world_run es)) ∧
  ∀ id, id ∈ sw_sent (world_run es) → life_at settled_life (sw_db (world_run es)) id.
Proof.
  intros He Ho. destruct (world_runs _ _ empty_world_inv He Ho) as [_ _ _ _ Hs Hn]. split; done.
Qed.

(** ** The sequential code is one schedule of the concurrent one *)
Definition dispatch_calls (e : dispatch_env) (i : nat) (id : string) : list dispatch_event :=
  [EvClaim i (de_claim e) id; EvBegin i (de_begin e); EvRead i; EvSend i; EvAnswer i (de_answer e);
   EvMark i (de_mark e) (de_gen e)].

Section sequential.
Context `{FactCodec}.

Lemma mark_stop_db e s id st r d :
  (mark_stop e s id st r d).1 = (run_tx (MarkV1StopDelivery (de_mark e) (de_gen e) id st r d) s).1.
Proof.
  unfold mark_stop, with_workflow. destruct (run_tx _ s) as [s' [a|err]]; [|done].
  by destruct (GetV1StopWorkflow s' id).
Qed.

Lemma claimed_workflow now id s s' :
  run_tx (ClaimV1StopDelivery now id) s = (s', inl true) → is_Some (pg_workflows s' !! id).
Proof.
  intros [[? _]|(_ & t & w & _ & _ & _ & _ & ->)]%run_tx_inl%ClaimV1StopDelivery_inv; [done|].
  simpl. by rewrite lookup_insert_eq.
Qed.
Lemma begun_workflow now id s b s' :
  run_tx (BeginV1StopDelivery now id) s = (s', inl b) → is_Some (pg_workflows s !! id) → is_Some (pg_workflows s' !! id).
Proof.
  intros [[_ ->]|(_ & t & w & _ & _ & _ & _ & ->)]%run_tx_inl%BeginV1StopDelivery_inv; [done|].
  simpl. by rewrite lookup_insert_eq.
Qed.
Lemma with_workflow_some {A} s (a : A) id :
  is_Some (pg_workflows s !! id) → ∃ w, with_workflow (s, inl a) id = (s, inl (a, w)).
Proof. intros [w Hw]. exists w. simpl. unfold GetV1StopWorkflow. by rewrite Hw. Qed.

Lemma dispatch_calls_run (e : dispatch_env) (s : pg) (id : string)
    (ws : gmap nat (string * stop_pc)) (sent : list string) (i : nat) :
  ws !! i = None →
  let '(s', effects, _) := DispatchV1Stop e s id in
  fold_left dispatch_exec (dispatch_calls e i id) (mkstop_world s ws sent) =
  mkstop_world s' ws (sent ++ sent_of effects).
Proof.
  intros Hi. unfold dispatch_calls, DispatchV1Stop. cbn [fold_left].
  assert (∀ w, sw_workers w = ws → dispatch_exec (dispatch_exec (dispatch_exec (dispatch_exec
    (dispatch_exec w (EvBegin i (de_begin e))) (EvRead i)) (EvSend i)) (EvAnswer i (de_answer e)))
    (EvMark i (de_mark e) (de_gen e)) = w) as Hidle.
  { intros [s0 ws0 sent0] Hws. simpl in Hws. subst ws0. by repeat (cbn [dispatch_exec]; rewrite Hi). }
  cbn [dispatch_exec]. rewrite Hi.
  destruct (run_tx (ClaimV1StopDelivery (de_claim e) id) s) as [s1 [[|]|err]] eqn:Hc; cbn [with_workflow].
  2,3: rewrite Hidle by done; try destruct (GetV1StopWorkflow s1 id); by rewrite app_nil_r.
  destruct (with_workflow_some s1 true id (claimed_workflow _ _ _ _ Hc)) as [w1 Hw1].
  cbn [with_workflow] in Hw1. rewrite Hw1. clear Hidle.
  cbn [dispatch_exec]. rewrite lookup_insert_eq.
  destruct (run_tx (BeginV1StopDelivery (de_begin e) id) s1) as [s2 [b|err]] eqn:Hb; cbn [with_workflow];
    [|by repeat (cbn [dispatch_exec]; rewrite ?lookup_delete_eq); rewrite delete_insert_id, app_nil_r].
  destruct (with_workflow_some s2 b id (begun_workflow _ _ _ _ _ Hb (claimed_workflow _ _ _ _ Hc))) as [w2 Hw2].
  cbn [with_workflow] in Hw2. rewrite Hw2. rewrite insert_insert_eq. cbn [dispatch_exec].
  rewrite lookup_insert_eq. destruct (GetV1Transaction s2 id) as [t|err];
    [|by repeat (cbn [dispatch_exec]; rewrite ?lookup_delete_eq); rewrite delete_insert_id, app_nil_r].
  destruct (tx_CompletedAt t); rewrite insert_insert_eq; cbn [dispatch_exec]; rewrite lookup_insert_eq;
    cbn [dispatch_exec]; rewrite ?insert_insert_eq, ?lookup_insert_eq; cbn [dispatch_exec].
  - rewrite ?lookup_insert_eq. rewrite <- mark_stop_db. destruct (mark_stop _ _ _ _ _ _) as [s3 r].
    by rewrite delete_insert_id, app_nil_r.
  - destruct (de_answer e) as [status|err]; rewrite insert_insert_eq; cbn [dispatch_exec];
      rewrite lookup_insert_eq, <- mark_stop_db; destruct (mark_stop _ _ _ _ _ _) as [s3 r];
      by rewrite delete_insert_id.
Qed.
End sequential.

(** A dispatch that runs alone does exactly what its six calls do when they
    are scheduled one after the other: the same tables, the same RemoteStop,
    and no deliverer left behind. *)
Theorem DispatchV1Stop_is_its_calls `{FactCodec} (e : dispatch_env) (s : pg) (id : string)
    (ws : gmap nat (string * stop_pc)) (sent : list string) (i : nat) :
  ws !! i = None →
  fold_left dispatch_exec (dispatch_calls e i id) (mkstop_world s ws sent) =
  mkstop_world (DispatchV1Stop e s id).1.1 ws (sent ++ sent_of (DispatchV1Stop e s id).1.2).
Proof.
  intros Hi. pose proof (dispatch_calls_run e s id ws sent i Hi) as Hr.
  by destruct (DispatchV1Stop e s id) as [[s' sends] r].
Qed.


(** ** One pass over the dispatchable stops *)
Section pass.
Context `{FactCodec}.

Lemma lock_eq {A} id s t (k : v1StopLifecycleRows → txm pg A) :
  pg_transactions s !! id = Some t →
  (rows ← lockV1StopLifecycleRows id; k rows) s =
  k {| sl_Transaction := read_transaction t; sl_Workflow := pg_workflows s !! id |} s.
Proof.
  intros Et. unfold lockV1StopLifecycleRows, getV1TransactionByID, mbind, txm_bind, tx_get, mret, txm_ret.
  by rewrite Et.
Qed.

Definition waiting (s : pg) (id : string) : Prop :=
  ∃ t w, pg_transactions s !! id = Some t ∧ tx_CompletedAt t = None ∧
    pg_workflows s !! id = Some w ∧ wf_State w = "PERSISTED".

Lemma waiting_iff s id : waiting s id ↔ ∃ n, stop_of s id = Some (mkstop_life false (Some ("PERSISTED", n))).
Proof.
  unfold waiting, stop_of. split.
  - intros (t & w & -> & Hc & -> & Hst). exists (wf_DeliveryAttempts w). simpl. by rewrite Hc, Hst.
  - intros [n Hs]. destruct (pg_transactions s !! id) as [t|]; [|done]. simpl in Hs.
    injection Hs as Hc Hw. destruct (pg_workflows s !! id) as [w|]; [|done]. simpl in Hw. injection Hw as Hw _.
    exists t, w. split_and!; try done. apply bool_decide_eq_false in Hc. by apply eq_None_not_Some.
Qed.

(** Claim and begin of a waiting stop, run one after the other. *)
Lemma claim_waiting now id s :
  waiting s id → ∃ s1, run_tx (ClaimV1StopDelivery now id) s = (s1, inl true) ∧
    pg_transactions s1 = pg_transactions s ∧ (∀ k, k ≠ id → pg_workflows s1 !! k = pg_workflows s !! k) ∧
    ∃ w, pg_workflows s1 !! id = Some w ∧ wf_State w = "PENDING_DELIVERY".
Proof.
  intros (t & w & Et & Hc & Ew & Hst). eexists. split.
  - apply run_tx_ok. unfold ClaimV1StopDelivery. rewrite (lock_eq _ _ _ _ Et). cbn [sl_Transaction sl_Workflow].
    rewrite Ew, decide_False by (simpl; rewrite Hc, Hst; by intros [[? ?]|[]]).
    by rewrite tx_modify_bind, (update_workflow_eq _ _ _ _ w).
  - simpl. split_and!; [done|intros k Hk; by rewrite lookup_insert_ne|].
    eexists. rewrite lookup_insert_eq. by split.
Qed.

Lemma begin_granted now id s t w :
  pg_transactions s !! id = Some t → tx_CompletedAt t = None →
  pg_workflows s !! id = Some w → wf_State w = "PENDING_DELIVERY" →
  ∃ s1, run_tx (BeginV1StopDelivery now id) s = (s1, inl true) ∧
    pg_transactions s1 = pg_transactions s ∧ (∀ k, k ≠ id → pg_workflows s1 !! k = pg_workflows s !! k) ∧
    ∃ w', pg_workflows s1 !! id = Some w' ∧ wf_State w' = "DELIVERY_ATTEMPTED".
Proof.
  intros Et Hc Ew Hst. eexists. split.
  - apply run_tx_ok. unfold BeginV1StopDelivery. rewrite (lock_eq _ _ _ _ Et). cbn [sl_Transaction sl_Workflow].
    rewrite Ew, decide_False by (simpl; rewrite Hc, Hst; by intros [[? ?]|[]]).
    by rewrite tx_modify_bind, (update_workflow_eq _ _ _ _ w).
  - simpl. split_and!; [done|intros k Hk; by rewrite lookup_insert_ne|].
    eexists. rewrite lookup_insert_eq. by split.
Qed.

Lemma mark_stop_step e s id st r d :
  lifecycle_ok s → life_at settled_life s id →
  life_at settled_life (mark_stop e s id st r d).1 id ∧
  lifecycle_ok (mark_stop e s id st r d).1 ∧
  ∀ k, k ≠ id → stop_of (mark_stop e s id st r d).1 k = stop_of s k.
Proof.
  intros Hok Hs. rewrite mark_stop_db.
  destruct (run_tx (MarkV1StopDelivery (de_mark e) (de_gen e) id st r d) s) as [s' [[]|err]] eqn:E.
  - apply run_tx_inl in E. destruct (MarkStop_safe _ _ _ _ _ _ _ _ E Hok) as [Hok' Hm]. split_and!; [|done|].
    + exact (life_at_moves _ _ _ _ _ settled_step (Hm id) Hs).
    + intros k Hk. exact (MarkStop_frame _ _ _ _ _ _ _ _ _ E Hk).
  - unfold run_tx in E. destruct (MarkV1StopDelivery _ _ _ _ _ _ s) as [[u s1]|]; [done|].
    by injection E as <- _.
Qed.

(** A waiting stop is sent, once, and is past its delivery afterwards whatever
    the charger answers and whether or not the final mark succeeds. *)
Lemma dispatch_waiting e s id :
  lifecycle_ok s → waiting s id →
  let r := DispatchV1Stop e s id in
  sent_of r.1.2 = [id] ∧ lifecycle_ok r.1.1 ∧ life_at settled_life r.1.1 id ∧
  ∀ k, k ≠ id → stop_of r.1.1 k = stop_of s k.
Proof.
  intros Hok Hw. pose proof Hw as (t & _ & Et & Hc & _). cbv zeta.
  destruct (claim_waiting (de_claim e) id s Hw) as (s1 & Hr1 & Ht1 & Hw1 & w1 & Ew1 & Hst1).
  rewrite <- Ht1 in Et. destruct (begin_granted (de_begin e) id s1 t w1 Et Hc Ew1 Hst1)
    as (s2 & Hr2 & Ht2 & Hw2 & w2 & Ew2 & Hst2). rewrite <- Ht2 in Et.
  assert (lifecycle_ok s2) as Hok2.
  { apply run_tx_inl in Hr1, Hr2. eapply Begin_safe; [done|]. by eapply Claim_safe. }
  assert (life_at settled_life s2 id) as Hset.
  { eexists. split; [exact (stop_of_rows _ _ _ Et)|]. rewrite Ew2. eexists _, _. split; [done|]. rewrite Hst2. set_solver. }
  assert (∀ k, k ≠ id → stop_of s2 k = stop_of s k) as Hf.
  { intros k Hk. apply (stop_of_other _ _ id); [intros j _; congruence| |done].
    intros j Hj. by rewrite Hw2, Hw1. }
  unfold DispatchV1Stop. rewrite Hr1. destruct (with_workflow_some s1 true id (mk_is_Some _ _ Ew1)) as [v1 ->].
  rewrite Hr2. destruct (with_workflow_some s2 true id (mk_is_Some _ _ Ew2)) as [v2 ->].
  assert (GetV1Transaction s2 id = inl (read_transaction t)) as -> by (unfold GetV1Transaction; by rewrite Et).
  change (tx_CompletedAt (read_transaction t)) with (tx_CompletedAt t). rewrite Hc.
  destruct (de_answer e) as [status|err].
  1: pose proof (mark_stop_step e s2 id status status "" Hok2 Hset) as Hm.
  2: pose proof (mark_stop_step e s2 id "AMBIGUOUS" "" "remote stop result unavailable" Hok2 Hset) as Hm.
  all: destruct (mark_stop _ _ _ _ _ _) as [s3 r]; cbn [fst snd] in *; destruct Hm as (H1 & H2 & H3);
    split_and!; [done..|]; intros k Hk; by rewrite H3, Hf.
Qed.

Lemma dispatch_each_waiting env s ids :
  lifecycle_ok s → NoDup ids → (∀ id, id ∈ ids → waiting s id) →
  let r := dispatch_each env s ids in
  sent_of r.2 = ids ∧ lifecycle_ok r.1 ∧ (∀ id, id ∈ ids → life_at settled_life r.1 id) ∧
  ∀ k, k ∉ ids → stop_of r.1 k = stop_of s k.
Proof.
  intros Hok Hnd. revert s Hok. induction Hnd as [|id ids Hid Hnd IH]; intros s Hok Hw; cbn [dispatch_each].
  { split_and!; [done|done| |done]. intros k Hk. by apply elem_of_nil in Hk. }
  pose proof (dispatch_waiting (env id) s id Hok (Hw id (list_elem_of_here _ _))) as Hd.
  destruct (DispatchV1Stop (env id) s id) as [[s1 sent] r1]. cbn [fst snd] in Hd.
  destruct Hd as (Hsent & Hok1 & Hset & Hf).
  assert (∀ k, k ∈ ids → waiting s1 k) as Hw1.
  { intros k Hk. assert (k ≠ id) by congruence. apply waiting_iff. rewrite Hf by done.
    apply waiting_iff, Hw. by right. }
  specialize (IH s1 Hok1 Hw1). destruct (dispatch_each env s1 ids) as [s2 sent']. cbn [fst snd] in *.
  destruct IH as (Hsent' & Hok2 & Hset2 & Hf2). split_and!; [by rewrite sent_of_app, Hsent, Hsent'|done| |].
  - intros k [->|Hk]%elem_of_cons; [|by apply Hset2]. eapply life_at_same; [by apply Hf2|done].
  - intros k [Hk1 Hk2]%not_elem_of_cons. by rewrite Hf2, Hf.
Qed.

(** Every workflow is stored under the transaction it names. *)
Definition workflow_keys (s : pg) : Prop :=
  ∀ id w, pg_workflows s !! id = Some w → wf_HALTransactionID w = id.

Lemma dispatchable_waiting s n :
  workflow_keys s →
  NoDup (wf_HALTransactionID <$> ListV1DispatchableStops s n) ∧
  ∀ id, id ∈ wf_HALTransactionID <$> ListV1DispatchableStops s n → waiting s id.
Proof.
  intros Hk. unfold ListV1DispatchableStops. destruct (decide (n ≤ 0)).
  { split; [constructor|]. intros id Hid. by apply elem_of_nil in Hid. }
  set (l := filter (dispatchable_stop s) (map_to_list (pg_workflows s)).*2).
  assert (∀ w, w ∈ l → waiting s (wf_HALTransactionID w)) as Hl.
  { intros w [[Hst Ht] (p & -> & Hp)%list_elem_of_fmap]%list_elem_of_filter.
    destruct p as [id w]. apply elem_of_map_to_list in Hp. simpl in *. rewrite (Hk _ _ Hp) in *.
    apply some_and_iff in Ht as (t & Et & Hc). by exists t, w. }
  assert (NoDup (wf_HALTransactionID <$> l)) as Hnd.
  { assert (wf_HALTransactionID <$> (map_to_list (pg_workflows s)).*2 = (map_to_list (pg_workflows s)).*1) as Heq.
    { rewrite <- list_fmap_compose. apply list_fmap_ext. intros i [id w] Hi%list_elem_of_lookup_2.
      by apply elem_of_map_to_list, Hk in Hi. }
    eapply (sublist_NoDup _ (map_to_list (pg_workflows s)).*1); [apply NoDup_fst_map_to_list|].
    rewrite <- Heq. apply fmap_sublist. apply sublist_filter. }
  split; [by apply sorted_take_NoDup|].
  intros id (w & -> & Hw%sorted_take_elem)%list_elem_of_fmap. by apply Hl.
Qed.
End pass.

(** C15: A pass over the pending stops delivers: every one of the (oldest 100)
    stops that wait for delivery on an open transaction is sent to its charger,
    in that order and exactly once, and is past its delivery afterwards
    whatever the chargers answer and even if recording the answer fails; no
    other transaction is touched. *)
Theorem DispatchPendingV1Stops_delivers `{FactCodec} (env : string → dispatch_env) (s : pg) :
  lifecycle_ok s → workflow_keys s →
  let ids := wf_HALTransactionID <$> ListV1DispatchableStops s 100 in
  let r := DispatchPendingV1Stops env s in
  sent_of r.2 = ids ∧ NoDup ids ∧ (∀ id, id ∈ ids → life_at settled_life r.1 id) ∧
  ∀ k, k ∉ ids → stop_of r.1 k = stop_of s k.
Proof.
  intros Hok Hk. destruct (dispatchable_waiting s 100 Hk) as [Hnd Hw].
  destruct (dispatch_each_waiting env s _ Hok Hnd Hw) as (H1 & _ & H2 & H3). by split_and!.
Qed.

(** ** Runs *)
Module StopRuns.
Definition env : dispatch_env := mkdispatch_env 10 11 12 (λ i, inl i) 13 14 (inl "Accepted").
Definition stop : store_call := SEnsureStop 5 LifecycleRuns.id "CUSTOMER" "requested".
Definition before : list dispatch_event := EvCall <$> (LifecycleRuns.opened ++ [stop]).
(** Two deliverers race for one stop; the first claims it and both go on. *)
Definition contended : list dispatch_event :=
  before ++ [EvClaim 1 10 LifecycleRuns.id; EvClaim 2 10 LifecycleRuns.id; EvBegin 2 11; EvBegin 1 11;
    EvRead 1; EvSend 1; EvRead 2; EvSend 2; EvAnswer 1 (inl "Accepted"); EvMark 1 12 (λ i, inl i)].
(** A second process recovers between the first one's claim and begin. *)
Definition overlapped : list dispatch_event :=
  before ++ [EvClaim 1 10 LifecycleRuns.id; EvOverlap 10; EvClaim 2 10 LifecycleRuns.id; EvBegin 2 11;
    EvBegin 1 11; EvRead 1; EvRead 2; EvSend 1; EvSend 2].
Abbreviation world es := (@world_run LifecycleRuns.codec es).
Example contended_sent : sw_sent (world contended) = [LifecycleRuns.id].
Proof. vm_compute. reflexivity. Qed.
Lemma contended_ok : @events_ok LifecycleRuns.codec empty_world contended.
Proof. repeat split. Defined.
Lemma contended_alone : Forall (λ e, overlaps e = false) contended.
Proof. repeat constructor. Defined.
Abbreviation db := (LifecycleRuns.db (LifecycleRuns.opened ++ [stop])).
Lemma db_ok : history_ok (H := LifecycleRuns.codec) pg_empty (LifecycleRuns.opened ++ [stop]).
Proof. repeat split. Defined.
End StopRuns.

(** The exception is real: BeginV1StopDelivery reports nothing when it refuses
    and DispatchV1Stop goes on, so a recovery that overlaps a live deliverer
    lets two RemoteStops out for one transaction. *)
Theorem overlapping_recovery_sends_twice :
  sw_sent (@world_run LifecycleRuns.codec StopRuns.overlapped) = [LifecycleRuns.id; LifecycleRuns.id].
Proof. vm_compute. reflexivity. Qed.

Lemma remote_stop_sent_at_most_once_witness :
  sw_sent (StopRuns.world StopRuns.contended) = [LifecycleRuns.id] ∧
  NoDup (sw_sent (StopRuns.world StopRuns.contended)).
Proof.
  split; [vm_compute; reflexivity|].
  exact (proj1 (remote_stop_sent_at_most_once (H := LifecycleRuns.codec) StopRuns.contended
    StopRuns.contended_ok StopRuns.contended_alone)).
Defined.

Lemma DispatchV1Stop_is_its_calls_witness :
  fold_left (@dispatch_exec LifecycleRuns.codec) (dispatch_calls StopRuns.env 7 LifecycleRuns.id)
    (mkstop_world StopRuns.db ∅ []) =
  mkstop_world (@DispatchV1Stop LifecycleRuns.codec StopRuns.env StopRuns.db LifecycleRuns.id).1.1 ∅
    ([] ++ sent_of (@DispatchV1Stop LifecycleRuns.codec StopRuns.env StopRuns.db LifecycleRuns.id).1.2).
Proof.
  exact (DispatchV1Stop_is_its_calls (H := LifecycleRuns.codec) StopRuns.env StopRuns.db LifecycleRuns.id ∅ [] 7
    (lookup_empty 7%nat)).
Defined.

Lemma StopRuns_keys : workflow_keys StopRuns.db.
Proof.
  assert (pg_workflows StopRuns.db = {[LifecycleRuns.id := default (mkV1StopWorkflow "" "" "" "" 0 "" "" "" 0 0 None)
    (pg_workflows StopRuns.db !! LifecycleRuns.id)]}) as E by (vm_compute; reflexivity).
  intros id w Hw. rewrite E in Hw. apply lookup_singleton_Some in Hw as [<- <-]. vm_compute. reflexivity.
Defined.

Lemma DispatchPendingV1Stops_delivers_witness :
  sent_of (@DispatchPendingV1Stops LifecycleRuns.codec (λ _, StopRuns.env) StopRuns.db).2 = [LifecycleRuns.id] ∧
  life_at settled_life (@DispatchPendingV1Stops LifecycleRuns.codec (λ _, StopRuns.env) StopRuns.db).1 LifecycleRuns.id.
Proof.
  split; [vm_compute; reflexivity|].
  assert (wf_HALTransactionID <$> ListV1DispatchableStops StopRuns.db 100 = [LifecycleRuns.id]) as E
    by (vm_compute; reflexivity).
  apply (proj1 (proj2 (proj2 (DispatchPendingV1Stops_delivers (H := LifecycleRuns.codec) (λ _, StopRuns.env)
    StopRuns.db (proj1 (history_reaches _ StopRuns.db_ok)) StopRuns_keys)))).
  rewrite E. apply list_elem_of_here.
Defined.
