(* ===== verification/Hal.v ===== *)
(** * The HAL object

    internal/ocpp16hal: the state of [HAL] (hal.go) that its handlers share,
    over the PostgreSQL store of [PgLifecycle].  The OCPP stack below it
    (github.com/lorenzodonini/ocpp-go) is not part of the repository: what it
    delivers are the arguments of the handlers, what it answers to the HAL's
    requests is an argument of the commands. *)
From Stdlib Require Import String.
From stdpp Require Import base numbers decidable option list strings gmap.
From S2P Require Import Prelude V1Types PgSchema PgTraces Connections Registry.
Open Scope Z_scope.

Definition defaultHeartbeatIntervalSeconds : Z := 300.
Definition defaultMeterValueSampleIntervalSeconds : Z := 15.

Record HAL : Type := mkHAL {
  h_v1Store : option pg;                 (* None: a nil store *)
  h_traces : trace_db;                   (* the trace tables of the same database *)
  h_registry : Registry;
  h_connections : connectionTracker;
  h_pendingRuntime : pending;
  h_wiredIdentity : wired;
  h_operationRecoveryNext : Z;           (* uint64 *)
  h_heartbeatIntervalSeconds : Z;
  h_configurationMeterSampleIntervalSeconds : Z;
  h_configurationReconcileTimeout : GoTime.Duration;
  h_vendorConfigurationProfile : string;
  h_vendorConfigurationVendor : string
}.
#[global] Instance eta_HAL : Eta HAL := λ h,
  mkHAL (h_v1Store h) (h_traces h) (h_registry h) (h_connections h) (h_pendingRuntime h) (h_wiredIdentity h)
    (h_operationRecoveryNext h) (h_heartbeatIntervalSeconds h) (h_configurationMeterSampleIntervalSeconds h)
    (h_configurationReconcileTimeout h) (h_vendorConfigurationProfile h) (h_vendorConfigurationVendor h).

(** [New]: the object before any charger connects. *)
Definition New (store : option pg) (traces : trace_db) : HAL :=
  mkHAL store traces NewRegistry newConnectionTracker ∅ ∅ 0 defaultHeartbeatIntervalSeconds
    defaultMeterValueSampleIntervalSeconds (20 * GoTime.Second) "" "".

Definition SetHeartbeatIntervalSeconds (h : HAL) (seconds : Z) : HAL :=
  if decide (0 < seconds) then h <| h_heartbeatIntervalSeconds := seconds |> else h.

(** The identity the HAL knows a wire identity by. *)
Definition canonical (h : HAL) (wireIdentity : string) : string :=
  canonicalIdentity (h_wiredIdentity h) wireIdentity.
