(* ===== verification/Reconcile.v ===== *)
(** * Configuration reconciliation

    internal/ocpp16hal/configuration.go: after a boot the HAL reads the keys it
    owns from the charger and changes those that differ.  What the charger
    answers and whether the connection is still the one that booted are
    arguments of the run. *)
From Stdlib Require Import String Ascii.
From stdpp Require Import base numbers decidable option list sorting strings gmap.
From S2P Require Import Prelude GoText V1Types HttpValidation Connections Hal.
Open Scope Z_scope.

Record ConfigurationReconciliationConfig : Type := mkConfigurationReconciliationConfig {
  crc_MeterValueSampleIntervalSeconds : Z;
  crc_Timeout : GoTime.Duration;
  crc_VendorProfile : string;
  crc_Vendor : string
}.
Definition SetConfigurationReconciliation (cfg : ConfigurationReconciliationConfig) (h : HAL) : HAL :=
  let h := if decide (0 < crc_MeterValueSampleIntervalSeconds cfg)
           then h <| h_configurationMeterSampleIntervalSeconds := crc_MeterValueSampleIntervalSeconds cfg |> else h in
  let h := if decide (0 < crc_Timeout cfg) then h <| h_configurationReconcileTimeout := crc_Timeout cfg |> else h in
  h <| h_vendorConfigurationProfile := GoStrings.TrimSpace (crc_VendorProfile cfg) |>
    <| h_vendorConfigurationVendor := GoStrings.TrimSpace (crc_Vendor cfg) |>.

Definition legacyRemoteOnlyVendorProfile : gmap string string := list_to_map
  [("AuthorizeRemoteTxRequests", "true"); ("LocalAuthorizeOffline", "false"); ("LocalPreAuthorize", "false");
   ("AuthorizationCacheEnabled", "false"); ("AllowOfflineTxForUnknownId", "false");
   ("StopTransactionOnInvalidId", "true"); ("ChargePointAuthEnable", "true"); ("FreevendEnabled", "false")].

(** [vendor] is the vendor of the BootNotification, if there is a request.
    EqualFold is exact for a configured vendor in ASCII. *)
Definition desiredConfiguration (h : HAL) (vendor : option string) : gmap string string :=
  let desired : gmap string string :=
    <["HeartbeatInterval" := Itoa (h_heartbeatIntervalSeconds h)]>
      {["MeterValueSampleInterval" := Itoa (h_configurationMeterSampleIntervalSeconds h)]} in
  match vendor with
  | Some v =>
    if decide (h_vendorConfigurationProfile h = "legacy-remote-only" ∧
               EqualFold (GoStrings.TrimSpace v) (h_vendorConfigurationVendor h) = true)
    then legacyRemoteOnlyVendorProfile ∪ desired else desired
  | None => desired
  end.

(** [scheduleConfigurationReconciliation]: the configuration the goroutine it
    starts reconciles, if it starts one. *)
Definition scheduleConfigurationReconciliation (h : HAL) (identity : string) (generation : Z) (vendor : option string) :
    option (gmap string string) :=
  let desired := desiredConfiguration h vendor in
  if decide (size desired = 0%nat ∨ connectionGenerationCurrent (h_connections h) identity generation = false)
  then None else Some desired.

(** ** One run *)
Record ConfigurationKey : Type := mkConfigurationKey {
  ck_Key : string;
  ck_Readonly : bool;
  ck_Value : option string
}.
Record configurationOutcome : Type := mkconfigurationOutcome { oc_Key : string; oc_Outcome : string }.

(** [current n]: what the n-th check of the connection finds; [get]: the answer
    of GetConfiguration; [change]: that of ChangeConfiguration for a key. *)
Record reconcile_env : Type := mkreconcile_env {
  re_current : nat → bool;
  re_get : result (option (list ConfigurationKey));
  re_change : string → result string
}.

Definition current_values (l : list ConfigurationKey) : gmap string ConfigurationKey :=
  foldl (λ m k, <[ck_Key k := k]> m) ∅ l.

Section reconcile.
Context (env : reconcile_env) (desired : gmap string string).

Definition wanted (key : string) : string := default "" (desired !! key).

(** The outcome of one key and the ChangeConfiguration it takes. *)
Definition reconcile_key (values : gmap string ConfigurationKey) (key : string) :
    configurationOutcome * list (string * string) :=
  match values !! key with
  | None => (mkconfigurationOutcome key "unsupported", [])
  | Some observed =>
    if ck_Readonly observed then (mkconfigurationOutcome key "readonly", [])
    else if decide (ck_Value observed = Some (wanted key)) then (mkconfigurationOutcome key "already_current", [])
    else
      (mkconfigurationOutcome key
         match re_change env key with
         | inr _ => "change_failed"
         | inl status => if decide (status = "Accepted") then "changed" else "rejected"
         end, [(key, wanted key)])
  end.

(** The loop; [n] checks have been made. *)
Fixpoint reconcile_keys (n : nat) (values : gmap string ConfigurationKey) (keys : list string) :
    list configurationOutcome * list (string * string) :=
  match keys with
  | [] => ([], [])
  | key :: rest =>
    if negb (re_current env n) then ([mkconfigurationOutcome key "superseded"], [])
    else
      let '(outcome, calls) := reconcile_key values key in
      let '(outcomes, calls') := reconcile_keys (S n) values rest in
      (outcome :: outcomes, calls ++ calls')
  end.

Definition desired_keys : list string := merge_sort String.le (map_to_list desired).*1.

(** [reconcileConfiguration], with the ChangeConfiguration requests it makes. *)
Definition reconcileConfiguration : list configurationOutcome * list (string * string) :=
  if negb (re_current env 0) then ([mkconfigurationOutcome "" "superseded"], [])
  else
    match re_get env with
    | inl (Some l) => reconcile_keys 1 (current_values l) desired_keys
    | _ => ([mkconfigurationOutcome "" "get_failed"], [])
    end.
End reconcile.

(** ** What a run may change *)
Definition reported (env : reconcile_env) : gmap string ConfigurationKey :=
  match re_get env with inl (Some l) => current_values l | _ => ∅ end.

(** The charger reported the key, lets it be written and has another value. *)
Definition to_change (values : gmap string ConfigurationKey) (desired : gmap string string) (key : string) : Prop :=
  ∃ observed, values !! key = Some observed ∧ ck_Readonly observed = false ∧
    ck_Value observed ≠ Some (wanted desired key).
#[global] Instance to_change_dec values desired key : Decision (to_change values desired key).
Proof.
  unfold to_change. destruct (values !! key) as [o|]; [|right; by intros (? & ? & _)].
  destruct (decide (ck_Readonly o = false ∧ ck_Value o ≠ Some (wanted desired key))) as [H|H].
  - left. by exists o.
  - right. intros (? & [= <-] & H'). by apply H.
Defined.

Lemma reconcile_key_calls env desired values key :
  (reconcile_key env desired values key).2 =
  if decide (to_change values desired key) then [(key, wanted desired key)] else [].
Proof.
  unfold reconcile_key. destruct (values !! key) as [o|] eqn:E.
  2:{ rewrite decide_False; [done|]. intros (? & ? & _). congruence. }
  destruct (ck_Readonly o) eqn:Er.
  { rewrite decide_False; [done|]. intros (? & ? & ? & _). congruence. }
  destruct (decide (ck_Value o = Some (wanted desired key))) as [Ev|Ev].
  - rewrite decide_False; [done|]. intros (? & ? & _ & ?). congruence.
  - by rewrite decide_True by (by exists o).
Qed.

(** How many keys a run gets to before it finds the connection superseded. *)
Fixpoint reached (current : nat → bool) (n : nat) (keys : list string) : list string :=
  match keys with
  | [] => []
  | key :: rest => if current n then key :: reached current (S n) rest else []
  end.
Lemma reached_prefix current keys : ∀ n, reached current n keys `prefix_of` keys.
Proof.
  induction keys as [|k keys IH]; intros n; simpl; [done|]. destruct (current n); [|apply prefix_nil].
  apply prefix_cons, IH.
Qed.
Lemma reached_all current keys : (∀ n, current n = true) → ∀ n, reached current n keys = keys.
Proof. intros Hc. induction keys as [|k keys IH]; intros n; simpl; [done|]. by rewrite Hc, IH. Qed.

Lemma reached_length current n keys : current n = false → ∀ m, (m ≤ n)%nat → (length (reached current m keys) ≤ n - m)%nat.
Proof.
  intros Hn. induction keys as [|k keys IH]; intros m Hm; simpl; [lia|]. destruct (current m) eqn:Em; simpl; [|lia].
  assert (m ≠ n) by congruence. specialize (IH (S m)). lia.
Qed.

Lemma reconcile_keys_calls env desired values keys : ∀ n,
  (reconcile_keys env desired n values keys).2 =
  (λ key, (key, wanted desired key)) <$> filter (to_change values desired) (reached (re_current env) n keys).
Proof.
  induction keys as [|key keys IH]; intros n; [done|]. cbn [reconcile_keys reached].
  destruct (re_current env n); [|done]. cbn [negb]. specialize (IH (S n)).
  pose proof (reconcile_key_calls env desired values key) as Hk.
  destruct (reconcile_key env desired values key) as [o calls].
  destruct (reconcile_keys env desired (S n) values keys) as [os calls']. cbn [snd] in *. subst calls calls'.
  rewrite filter_cons. by case_decide.
Qed.

Lemma desired_keys_spec desired : NoDup (desired_keys desired) ∧ ∀ k, k ∈ desired_keys desired ↔ is_Some (desired !! k).
Proof.
  unfold desired_keys. destruct (range_of_keys desired) as [Hn Hk]. split.
  - by rewrite merge_sort_Permutation.
  - intros k. by rewrite merge_sort_Permutation, Hk.
Qed.

(** The requests of any run. *)
Lemma reconcile_calls env desired :
  (reconcileConfiguration env desired).2 =
  if re_current env 0 then
    (λ key, (key, wanted desired key)) <$>
      filter (to_change (reported env) desired) (reached (re_current env) 1 (desired_keys desired))
  else [].
Proof.
  unfold reconcileConfiguration, reported. destruct (re_current env 0); [|done]. cbn [negb].
  assert (∀ keys : list string, filter (to_change ∅ desired) keys = []) as Hnone.
  { intros keys. induction keys as [|k keys IH]; [done|]. rewrite filter_cons_False; [done|].
    intros (? & Hl & _). by rewrite lookup_empty in Hl. }
  destruct (re_get env) as [[l|]|err]; [apply reconcile_keys_calls|by rewrite Hnone..].
Qed.

(** C34: Whatever the charger answers and whenever the connection is replaced,
    reconciliation asks for changes only of keys it owns, only to the desired
    value, only where the charger reported the key as writable with another
    value, each key at most once and in order, and nothing after the check
    that found the connection superseded. *)
Theorem reconcile_safe (env : reconcile_env) (desired : gmap string string) :
  let calls := (reconcileConfiguration env desired).2 in
  NoDup calls.*1 ∧
  (∀ key value, (key, value) ∈ calls → desired !! key = Some value ∧ to_change (reported env) desired key) ∧
  calls.*1 `sublist_of` desired_keys desired ∧
  (∀ n, re_current env n = false → (length calls ≤ n - 1)%nat).
Proof.
  cbv zeta. rewrite reconcile_calls. destruct (desired_keys_spec desired) as [Hnd Hk].
  destruct (re_current env 0) eqn:H0.
  2:{ split_and!; [constructor| |apply sublist_nil_l|simpl; lia]. intros key value Hc. by apply elem_of_nil in Hc. }
  set (R := reached (re_current env) 1 (desired_keys desired)).
  assert (((λ key, (key, wanted desired key)) <$> filter (to_change (reported env) desired) R).*1 =
    filter (to_change (reported env) desired) R) as Hfst.
  { rewrite <- list_fmap_compose. apply list_fmap_id. }
  assert (filter (to_change (reported env) desired) R `sublist_of` desired_keys desired) as Hsub.
  { etrans; [apply sublist_filter|]. destruct (reached_prefix (re_current env) (desired_keys desired) 1) as [l Hl].
    rewrite Hl. by apply sublist_inserts_r. }
  rewrite Hfst. split_and!; [by eapply sublist_NoDup| |done|].
  - intros key value (k & [= -> ->] & Hin)%list_elem_of_fmap.
    assert (k ∈ desired_keys desired) as [v Hv]%Hk by (by eapply elem_of_sublist).
    apply list_elem_of_filter in Hin as [Hc _]. unfold wanted. by rewrite Hv.
  - intros n Hn. rewrite length_fmap. etrans; [apply sublist_length, sublist_filter|].
    apply reached_length; [done|]. destruct n; [congruence|lia].
Qed.

(** ** A charger that obeys *)
(** Its configuration: each key with its value and whether it may be written. *)
Abbreviation charger_configuration := (gmap string (string * bool)).
Definition report (cfg : charger_configuration) (keys : list string) : list ConfigurationKey :=
  omap (λ k, (λ v : string * bool, mkConfigurationKey k v.2 (Some v.1)) <$> cfg !! k) keys.
Definition change_answer (cfg : charger_configuration) (key : string) : string :=
  match cfg !! key with
  | None => "NotSupported"
  | Some (_, true) => "Rejected"
  | Some (_, false) => "Accepted"
  end.
Definition apply_change (cfg : charger_configuration) (c : string * string) : charger_configuration :=
  alter (λ v : string * bool, if v.2 then v else (c.2, false)) c.1 cfg.
(** A run on an unbroken connection. *)
Definition obeys (cfg : charger_configuration) (desired : gmap string string) : reconcile_env :=
  mkreconcile_env (λ _, true) (inl (Some (report cfg (desired_keys desired)))) (λ k, inl (change_answer cfg k)).
Definition reconciled (cfg : charger_configuration) (desired : gmap string string) : charger_configuration :=
  foldl apply_change cfg (reconcileConfiguration (obeys cfg desired) desired).2.

Lemma report_values cfg keys k :
  current_values (report cfg keys) !! k =
  if decide (k ∈ keys) then (λ v, mkConfigurationKey k v.2 (Some v.1)) <$> cfg !! k else None.
Proof.
  unfold current_values.
  assert (∀ m : gmap string ConfigurationKey, foldl (λ m c, <[ck_Key c := c]> m) m (report cfg keys) !! k =
    match cfg !! k with
    | Some v => if decide (k ∈ keys) then Some (mkConfigurationKey k v.2 (Some v.1)) else m !! k
    | None => m !! k
    end) as Hf.
  { induction keys as [|k' keys IH]; intros m; cbn [report omap list_omap foldl].
    { destruct (cfg !! k); [|done]. rewrite decide_False; [done|]. intros H. by apply elem_of_nil in H. }
    fold (report cfg keys). destruct (cfg !! k') as [v'|] eqn:E'; cbn [fmap option_fmap option_map foldl].
    - rewrite IH. cbn [ck_Key]. destruct (decide (k' = k)) as [->|Hne].
      + rewrite E', lookup_insert_eq. rewrite (decide_True (P := k ∈ k :: keys)) by (by left). by case_decide.
      + rewrite lookup_insert_ne by done. destruct (cfg !! k); [|done].
        destruct (decide (k ∈ keys)); [by rewrite decide_True by (by right)|].
        rewrite decide_False; [done|]. by intros [|]%elem_of_cons.
    - rewrite IH. destruct (cfg !! k) as [v|] eqn:E; [|done].
      destruct (decide (k ∈ keys)); [by rewrite decide_True by (by right)|].
      rewrite decide_False; [done|]. intros [->|]%elem_of_cons; congruence. }
  rewrite Hf, lookup_empty. by destruct (cfg !! k); case_decide.
Qed.

(** The keys to change, in order. *)
Definition differing (cfg : charger_configuration) (desired : gmap string string) : list string :=
  filter (to_change (reported (obeys cfg desired)) desired) (desired_keys desired).
Lemma obeys_calls cfg desired :
  (reconcileConfiguration (obeys cfg desired) desired).2 = (λ key, (key, wanted desired key)) <$> differing cfg desired.
Proof. rewrite reconcile_calls. cbn [re_current obeys]. by rewrite reached_all. Qed.

Lemma differing_spec cfg desired k :
  k ∈ differing cfg desired ↔
  ∃ v w, cfg !! k = Some (v, false) ∧ desired !! k = Some w ∧ v ≠ w.
Proof.
  unfold differing, to_change, reported. cbn [re_get obeys]. rewrite list_elem_of_filter.
  destruct (desired_keys_spec desired) as [_ Hk]. rewrite report_values. split.
  - intros [(o & Ho & Hr & Hv) Hin]. rewrite decide_True in Ho by done. apply Hk in Hin as [w Hw].
    destruct (cfg !! k) as [[v ro]|]; [|done]. injection Ho as <-. simpl in Hr, Hv. subst ro.
    exists v, w. unfold wanted in Hv. rewrite Hw in Hv. split_and!; [done|done|]. simpl in Hv. congruence.
  - intros (v & w & Hc & Hw & Hne). assert (k ∈ desired_keys desired) as Hin by (apply Hk; eauto).
    split; [|done]. rewrite decide_True, Hc by done. eexists. split; [done|]. split; [done|].
    unfold wanted. rewrite Hw. simpl. congruence.
Qed.

Lemma apply_changes_lookup desired keys k : ∀ cfg,
  NoDup keys →
  foldl apply_change cfg ((λ key, (key, wanted desired key)) <$> keys) !! k =
  if decide (k ∈ keys) then (λ v : string * bool, if v.2 then v else (wanted desired k, false)) <$> cfg !! k else cfg !! k.
Proof.
  induction keys as [|k' keys IH]; intros cfg Hnd; cbn [fmap list_fmap foldl].
  { rewrite decide_False; [done|]. intros H. by apply elem_of_nil in H. }
  apply NoDup_cons in Hnd as [Hn Hnd]. rewrite IH by done. unfold apply_change. cbn [fst snd].
  destruct (decide (k' = k)) as [->|Hne].
  - rewrite decide_False by done. rewrite decide_True by (by left). by rewrite lookup_alter_eq.
  - rewrite lookup_alter_ne by done. destruct (decide (k ∈ keys)); [by rewrite decide_True by (by right)|].
    rewrite decide_False; [done|]. by intros [|]%elem_of_cons.
Qed.

Lemma reconciled_lookup cfg desired k :
  reconciled cfg desired !! k =
  match cfg !! k, desired !! k with
  | Some (_, false), Some w => Some (w, false)
  | c, _ => c
  end.
Proof.
  unfold reconciled. rewrite obeys_calls, apply_changes_lookup.
  2:{ apply NoDup_filter, desired_keys_spec. }
  destruct (decide (k ∈ differing cfg desired)) as [Hd|Hd].
  - apply differing_spec in Hd as (v & w & Hc & Hw & _). rewrite Hc, Hw. simpl. unfold wanted. by rewrite Hw.
  - destruct (cfg !! k) as [[v [|]]|] eqn:Hc; [done| |done]. destruct (desired !! k) as [w|] eqn:Hw; [|done].
    destruct (decide (v = w)) as [->|Hne]; [done|]. destruct Hd. apply differing_spec. eauto.
Qed.

(** C35: Against a charger that obeys - it reports what it is asked for, accepts
    the change of every writable key it knows and asks for no reboot - one
    undisturbed run converges: every
    owned key the charger knows and lets be written has the desired value
    afterwards, every other key is as before, and a second run asks for no
    change at all. *)
Theorem reconcile_converges (cfg : charger_configuration) (desired : gmap string string) :
  let cfg' := reconciled cfg desired in
  (∀ k, cfg' !! k =
     match cfg !! k, desired !! k with
     | Some (_, false), Some w => Some (w, false)
     | c, _ => c
     end) ∧
  (reconcileConfiguration (obeys cfg' desired) desired).2 = [].
Proof.
  split; [apply reconciled_lookup|]. rewrite obeys_calls.
  destruct (differing (reconciled cfg desired) desired) as [|k l] eqn:E; [done|]. exfalso.
  assert (k ∈ differing (reconciled cfg desired) desired) as Hk by (rewrite E; by left).
  apply differing_spec in Hk as (v & w & Hc & Hw & Hne). rewrite reconciled_lookup, Hw in Hc.
  destruct (cfg !! k) as [[x [|]]|]; simplify_eq.
Qed.

(** The API and the reconciliation never fight over a key: a configuration
    change the API lets a CPO make is never of a key the HAL reconciles,
    whatever vendor profile is in force. *)
Theorem owned_keys_protected (h : HAL) (vendor : option string) (parameters : gmap string string) :
  validV1ConfigurationChange parameters = true →
  desiredConfiguration h vendor !! GoStrings.TrimSpace (value_of parameters "key") = None.
Proof.
  unfold validV1ConfigurationChange. case_decide; [done|]. cbv zeta. intros Hv.
  apply andb_true_iff in Hv as [Hv _]. apply andb_true_iff in Hv as [_ Hv]. revert Hv.
  generalize (GoStrings.TrimSpace (value_of parameters "key")). intros key Ho%negb_true_iff.
  apply eq_None_not_Some. intros Hd.
  assert (key ∈ (map_to_list legacyRemoteOnlyVendorProfile).*1 ++ ["HeartbeatInterval"; "MeterValueSampleInterval"]) as Hk.
  { unfold desiredConfiguration in Hd. revert Hd. generalize (Itoa (h_heartbeatIntervalSeconds h)).
    generalize (Itoa (h_configurationMeterSampleIntervalSeconds h)). intros a b Hd.
    assert (is_Some ((<["HeartbeatInterval" := b]> {["MeterValueSampleInterval" := a]} : gmap string string) !! key) →
      key ∈ ["HeartbeatInterval"; "MeterValueSampleInterval"]) as Hbase.
    { intros [x [[<- _]|[_ [<- _]%lookup_singleton_Some]]%lookup_insert_Some]; [by left|right; by left]. }
    apply elem_of_app. destruct vendor as [v|]; [|by right; apply Hbase].
    case_decide; [|by right; apply Hbase]. apply lookup_union_is_Some in Hd as [[x Hx]|Hd]; [left|by right; apply Hbase].
    apply (list_elem_of_fmap_2 fst _ (key, x)). by apply elem_of_map_to_list. }
  assert (Forall (λ k, v1HALOwnedConfigurationKey k = true) ((map_to_list legacyRemoteOnlyVendorProfile).*1 ++
    ["HeartbeatInterval"; "MeterValueSampleInterval"])) as Hall by (refine (bool_decide_unpack _ _); by vm_compute).
  revert Hk Hall. generalize ((map_to_list legacyRemoteOnlyVendorProfile).*1 ++
    ["HeartbeatInterval"; "MeterValueSampleInterval"]). intros l Hk Hall.
  rewrite List.Forall_forall in Hall. apply list_elem_of_In, Hall in Hk. congruence.
Qed.

(** ** A concrete run *)
Module ReconcileRuns.
Definition hal : HAL := SetConfigurationReconciliation
  (mkConfigurationReconciliationConfig 30 0 " legacy-remote-only " "ACME") (New None PgTraces.trace_db_empty).
Definition desired : gmap string string := desiredConfiguration hal (Some " acme ").
Definition cfg : charger_configuration := list_to_map
  [("HeartbeatInterval", ("60", false)); ("MeterValueSampleInterval", ("60", true)); ("FreevendEnabled", ("false", false))].
Example outcomes :
  (λ o, (oc_Key o, oc_Outcome o)) <$> (reconcileConfiguration (obeys cfg desired) desired).1 =
  [("AllowOfflineTxForUnknownId", "unsupported"); ("AuthorizationCacheEnabled", "unsupported");
   ("AuthorizeRemoteTxRequests", "unsupported"); ("ChargePointAuthEnable", "unsupported");
   ("FreevendEnabled", "already_current"); ("HeartbeatInterval", "changed"); ("LocalAuthorizeOffline", "unsupported");
   ("LocalPreAuthorize", "unsupported"); ("MeterValueSampleInterval", "readonly");
   ("StopTransactionOnInvalidId", "unsupported")].
Proof. vm_compute. reflexivity. Qed.
Example cut_short :
  (reconcileConfiguration (mkreconcile_env (λ n, bool_decide (n < 3)%nat) (inl (Some [])) (λ _, inl "Accepted")) desired).1 =
  [mkconfigurationOutcome "AllowOfflineTxForUnknownId" "unsupported";
   mkconfigurationOutcome "AuthorizationCacheEnabled" "unsupported";
   mkconfigurationOutcome "AuthorizeRemoteTxRequests" "superseded"].
Proof. vm_compute. reflexivity. Qed.
End ReconcileRuns.

Lemma owned_keys_protected_witness :
  desiredConfiguration ReconcileRuns.hal (Some "ACME") !! "ConnectionTimeOut" = None.
Proof.
  exact (owned_keys_protected ReconcileRuns.hal (Some "ACME") {["key" := " ConnectionTimeOut"; "value" := "120"]} eq_refl).
Defined.
