(* ===== verification/HalMeter.v ===== *)
(** * Meter values and transaction ends

    internal/ocpp16hal/v1.go: reading energy and state of charge out of an
    OCPP MeterValues request, and the handlers of MeterValues and
    StopTransaction; internal/store/v1.go: the state-of-charge text. *)
From Stdlib Require Import String Ascii.
From stdpp Require Import base numbers decidable option list relations sorting strings gmap pretty.
From S2P Require Import Prelude GoText GoClock GoRat V1Types Evidence V1Memory PgSchema Outbox TraceHistory PgMapping PgLifecycle StopLifecycle Histories LifecycleSpec PgTraces Connections Registry HalTraces HalStops Hal.
Open Scope Z_scope.

(** ** State of charge as text (store/v1.go)

    [V1SoCPercent.String] is [soc_string] of PgSchema; this is its reader. *)
Definition ParseV1SoCPercent (raw : string) : option V1SoCPercent :=
  match SetString (GoStrings.TrimSpace raw) with
  | None => None
  | Some rational =>
    if decide (num rational < 0 ∨ rat_gt rational (NewRat 100 1)) then None
    else
      let scaled := rat_mul rational (NewRat v1SoCScale 1) in
      if decide (¬ IsInt scaled ∨ ¬ IsInt64 (num scaled)) then None else Some (num scaled)
  end.

(** ** Energy as text (v1.go) *)
Definition parseV1EnergyWh (raw rawUnit : string) : option Z :=
  match SetString (GoStrings.TrimSpace raw) with
  | None => None
  | Some rational =>
    let unit := ToLower (GoStrings.TrimSpace rawUnit) in
    let rational := if decide (unit = "kwh" ∨ unit = "kilowatthour")
                    then rat_mul rational (NewRat 1000 1) else rational in
    if decide (¬ IsInt rational ∨ ¬ IsInt64 (num rational)) then None else Some (num rational)
  end.

Definition validV1SoCUnit (raw : string) : bool :=
  let unit := ToLower (GoStrings.TrimSpace raw) in
  bool_decide (unit = "" ∨ unit = "percent" ∨ unit = "%").

(** ** MeterValues requests (the fields the code reads) *)
Record SampledValue : Type := mkSampledValue {
  sv_Value : string;
  sv_Measurand : string;
  sv_Unit : string
}.
Record MeterValue : Type := mkMeterValue {
  mv_Timestamp : option Time;
  mv_SampledValue : list SampledValue
}.
Record MeterValuesRequest : Type := mkMeterValuesRequest {
  mr_ConnectorId : Z;
  mr_TransactionId : option Z;
  mr_MeterValue : list MeterValue
}.

(** A charger's own time, when it gives one. *)
Definition reported_time (timestamp : option Time) (receivedAt : Time) : Time :=
  match timestamp with
  | Some t => if decide (GoTime.IsZero t) then receivedAt else t
  | None => receivedAt
  end.

(** [observed == nil || !at.Before( *observed)] *)
Definition not_older (at_ : Time) (observed : option Time) : Prop :=
  opt_holds (λ o, ¬ GoTime.Before at_ o) observed.
#[global] Instance not_older_dec at_ o : Decision (not_older at_ o).
Proof. unfold not_older. apply _. Defined.

Definition is_energy (measurand : string) : bool :=
  EqualFold measurand "Energy.Active.Import.Register" || EqualFold measurand "Energy.Active.Import".

(** One round of the inner loop. *)
Definition extract_sample (observedAt : Time) (telemetry : V1MeterTelemetry) (sample : SampledValue) :
    V1MeterTelemetry :=
  let measurand := GoStrings.TrimSpace (sv_Measurand sample) in
  if is_energy measurand then
    match parseV1EnergyWh (sv_Value sample) (sv_Unit sample) with
    | Some value =>
      if decide (not_older observedAt (tel_EnergyObservedAt telemetry))
      then telemetry <| tel_EnergyWh := Some value |> <| tel_EnergyObservedAt := Some observedAt |>
      else telemetry
    | None => telemetry
    end
  else if EqualFold measurand "SoC" && validV1SoCUnit (sv_Unit sample) then
    match ParseV1SoCPercent (sv_Value sample) with
    | Some value =>
      if decide (not_older observedAt (tel_SoCObservedAt telemetry))
      then telemetry <| tel_SoCPercent := Some value |> <| tel_SoCObservedAt := Some observedAt |>
      else telemetry
    | None => telemetry
    end
  else telemetry.

Definition extractV1MeterTelemetry (receivedAt : Time) (request : MeterValuesRequest) : V1MeterTelemetry :=
  fold_left (λ telemetry meterValue,
      fold_left (extract_sample (reported_time (mv_Timestamp meterValue) receivedAt))
        (mv_SampledValue meterValue) telemetry)
    (mr_MeterValue request) (mkV1MeterTelemetry None None None None).

(** ** The handlers *)
Inductive meterPersistenceResult : Type := meterIgnored | meterPersisted | meterPersistenceFailed.
#[global] Instance meterPersistenceResult_eq_dec : EqDecision meterPersistenceResult.
Proof. solve_decision. Defined.

Definition automaticV1StopInitiator (initiator : string) : bool :=
  bool_decide (initiator ∈ ["ENERGY_LIMIT"; "TIME_LIMIT"; "MONEY_LIMIT"; "WALLET_LIMIT"]).

(** What one handler call meets: the clock of its parts, the identifiers it is
    given and the charger's answer to a RemoteStop. *)
Record handler_env : Type := mkhandler_env {
  he_received : Time;
  he_now : Time;
  he_registry : Time;
  he_gen : generator;
  he_dispatch : dispatch_env;
  he_traced : Time;              (* the instant of the handler's own trace events *)
  he_ticks : nat → trace_tick
}.

Section handlers.
Context `{HC : FactCodec, HJ : JsonView}.

(** The trace calls among the effects of a handler, performed. *)
Definition with_traces {A} (e : handler_env) (r : HAL * list hal_effect * A) : HAL * list hal_effect * A :=
  (r.1.1 <| h_traces ::= record_effects (he_ticks e) r.1.2 |>, r.1.2, r.2).

(** [HAL.HandleV1MeterValues] with its effects. *)
Definition HandleV1MeterValues (e : handler_env) (h : HAL) (chargePointID : string) (request : MeterValuesRequest) :
    HAL * list hal_effect * meterPersistenceResult :=
  let chargePointID := canonical h chargePointID in
  match h_v1Store h, mr_TransactionId request with
  | Some s, Some transactionID =>
    if decide (transactionID ≤ 0) then (h, [], meterIgnored)
    else
      let telemetry := extractV1MeterTelemetry (he_received e) request in
      if decide (Empty telemetry) then (h, [], meterIgnored)
      else
        match run_tx (UpdateV1TelemetryForOCPP (he_now e) (he_gen e) chargePointID transactionID telemetry) s with
        | (s', inr err) =>
          (h <| h_v1Store := Some s' |>, [],
           if decide (errors_Is err ErrV1TransactionNotFound ∨ errors_Is err ErrV1InvalidEvidence)
           then meterIgnored else meterPersistenceFailed)
        | (s', inl (transaction, accepted)) =>
          let id := tx_HALTransactionID transaction in
          let observed := [Traced id (meter_event (he_traced e) telemetry)] in
          with_traces e
            (if tur_EnergyAccepted accepted then
               let h' := h <| h_v1Store := Some s' |>
                           <| h_registry ::= λ r, ApplyMeterValue r (he_registry e) chargePointID
                                (mr_ConnectorId request) (Some (tx_OCPPTransactionID transaction))
                                (Float64.of_int (default 0 (tel_EnergyWh telemetry))) |> in
               match GetV1StopWorkflow s' id with
               | inl workflow =>
                 if decide (wf_State workflow = "PERSISTED") then
                   let reached :=
                     if decide (wf_DeliveryAttempts workflow = 0 ∧
                                automaticV1StopInitiator (wf_RequestedStopInitiator workflow) = true)
                     then [Traced id (automatic_stop_event (he_traced e) (wf_RequestedStopReason workflow))] else [] in
                   let '(s'', effects, _) := DispatchV1Stop (he_dispatch e) s' id in
                   (h' <| h_v1Store := Some s'' |>, reached ++ effects ++ observed, meterPersisted)
                 else (h', observed, meterPersisted)
               | inr _ => (h', observed, meterPersisted)
               end
             else if tur_SoCAccepted accepted then (h <| h_v1Store := Some s' |>, observed, meterPersisted)
             else (h <| h_v1Store := Some s' |>, [], meterIgnored))
        end
  | _, _ => (h, [], meterIgnored)
  end.

Record StopTransactionRequest : Type := mkStopTransactionRequest {
  sr_TransactionId : Z;
  sr_MeterStop : Z;
  sr_Timestamp : option Time;
  sr_Reason : string
}.

(** [HAL.HandleV1StopTransaction] with its effects. *)
Definition HandleV1StopTransaction (e : handler_env) (h : HAL) (chargePointID : string)
    (request : StopTransactionRequest) : HAL * list hal_effect * bool :=
  let chargePointID := canonical h chargePointID in
  match h_v1Store h with
  | None => (h, [], false)
  | Some s =>
    if decide (sr_TransactionId request ≤ 0) then (h, [], false)
    else
      match GetV1TransactionByOCPP s chargePointID (sr_TransactionId request) with
      | inr _ => (h, [], false)
      | inl transaction =>
        let id := tx_HALTransactionID transaction in
        let observedAt := he_received e in
        let received := Traced id (stop_received_event observedAt (sr_TransactionId request) (sr_MeterStop request)
                                     (sr_Reason request)) in
        let completedAt := reported_time (sr_Timestamp request) observedAt in
        with_traces e
          match run_tx (CompleteV1Transaction (he_now e) (he_gen e) id
                          (sr_MeterStop request) (sr_Reason request) completedAt observedAt) s with
          | (s', inr err) => (h <| h_v1Store := Some s' |>, [received; Traced id (stop_failed_event observedAt err)], false)
          | (s', inl completed) =>
            match tx_MeterStopWh completed with
            | None => (h <| h_v1Store := Some s' |>, [received], false)
            | Some meterStopWh =>
              (h <| h_v1Store := Some s' |>
                 <| h_registry ::= λ r, ApplyStopTransaction r (he_registry e) chargePointID
                      (tx_OCPPConnectorNumber completed) (Float64.of_int meterStopWh) |>,
               [received; Traced (tx_HALTransactionID completed) (completed_event observedAt completed meterStopWh)], true)
            end
          end
      end
  end.
End handlers.

(** ** Facts of the texts *)
Lemma Itoa_decimal n : 0 ≤ n → decimal_value 0 (Itoa n) = Some n ∧ Itoa n ≠ "".
Proof.
  intros Hn. pose proof (unsigned_decimal_pretty (Z.to_N n)) as H. rewrite Z2N.id in H by done.
  assert (pretty (Z.to_N n) = Itoa n) as E by (by destruct n).
  rewrite E in H. unfold unsigned_decimal in H. by destruct (Itoa n).
Qed.

Lemma decimal_text_plain neg whole fraction a f :
  decimal_value 0 whole = Some a → decimal_value 0 fraction = Some f → plain_text (decimal_text neg whole fraction).
Proof.
  intros Ha Hf. unfold decimal_text.
  assert (plain_text (whole +:+ (if decide (fraction = "") then "" else String "." fraction))) as Hu.
  { apply plain_text_app; [by eapply decimal_plain|]. case_decide; [constructor|].
    constructor; [done|]. by eapply decimal_plain. }
  destruct neg; [|done]. by constructor.
Qed.

(** The fraction the printer writes is the one it was given, cut of zeros. *)
Definition fraction_checks (f : Z) : bool :=
  let t := trim_right_zeros (sprintf_03d f) in
  match decimal_value 0 t with
  | Some g => bool_decide (g * 10 ^ (3 - Z.of_nat (String.length t)) = f ∧
                           0 < Z.of_nat (String.length t) ≤ 3)
  | None => false
  end.
Lemma fractions_check : forallb fraction_checks (seqZ 1 999) = true.
Proof. vm_compute. reflexivity. Qed.
Lemma fraction_check f :
  0 < f < 1000 → let t := trim_right_zeros (sprintf_03d f) in
  ∃ g, decimal_value 0 t = Some g ∧ g * 10 ^ (3 - Z.of_nat (String.length t)) = f ∧
    0 < Z.of_nat (String.length t) ≤ 3.
Proof.
  intros Hf t. pose proof fractions_check as H. rewrite forallb_forall in H.
  specialize (H f). unfold fraction_checks in H. fold t in H.
  assert (In f (seqZ 1 999)) as Hin by (apply list_elem_of_In, elem_of_seqZ; lia).
  specialize (H Hin). destruct (decimal_value 0 t) as [g|]; [|done]. apply bool_decide_eq_true in H. eauto.
Qed.

(** The printed text of a non-negative value: a decimal text of that value. *)
Lemma soc_string_decimal v :
  0 ≤ v → ∃ whole fraction a f,
    soc_string v = decimal_text false whole fraction ∧
    decimal_value 0 whole = Some a ∧ whole ≠ "" ∧ decimal_value 0 fraction = Some f ∧
    Z.of_nat (String.length fraction) ≤ 3 ∧
    (a * 10 ^ Z.of_nat (String.length fraction) + f) * 1000 = v * 10 ^ Z.of_nat (String.length fraction).
Proof.
  intros Hv. unfold soc_string, v1SoCScale. rewrite bool_decide_false by lia. cbv zeta iota.
  pose proof (Z.quot_rem v 1000 ltac:(lia)) as Hqr. pose proof (Z.rem_bound_pos v 1000 Hv ltac:(lia)) as Hr.
  assert (0 ≤ Z.quot v 1000) as Hq by (apply Z.quot_pos; lia).
  set (q := Z.quot v 1000) in *. set (r := Z.rem v 1000) in *. clearbody q r.
  destruct (Itoa_decimal q Hq) as [Hw Hwne].
  destruct (decide (r ≠ 0)) as [Hr0|Hr0%dec_stable].
  - destruct (fraction_check r ltac:(lia)) as (g & Hg & Hgr & Hlen).
    set (t := trim_right_zeros _) in *. exists (Itoa q), t, q, g. unfold decimal_text.
    rewrite (decide_False (P := t = "")) by (intros Ht; rewrite Ht in Hlen; simpl in Hlen; lia).
    split_and!; try done; [lia|].
    assert (10 ^ (3 - Z.of_nat (String.length t)) * 10 ^ Z.of_nat (String.length t) = 1000) as Hp.
    { rewrite <- Z.pow_add_r by lia. by replace (3 - Z.of_nat (String.length t) + Z.of_nat (String.length t)) with 3 by lia. }
    generalize dependent (10 ^ Z.of_nat (String.length t)). intros k Hk. nia.
  - exists (Itoa q), "", q, 0. unfold decimal_text. rewrite decide_True by done.
    split_and!; try done; [by rewrite append_nil_r|simpl; lia].
Qed.

(** The printed state of charge is read back as the same value, over the
    whole range 0 to 100 percent in thousandths, and no text whatsoever reads
    as a value outside it. *)
Theorem SoC_text_roundtrip :
  (∀ v, 0 ≤ v ≤ 100 * v1SoCScale → ParseV1SoCPercent (soc_string v) = Some v) ∧
  (∀ raw v, ParseV1SoCPercent raw = Some v → 0 ≤ v ≤ 100 * v1SoCScale).
Proof.
  unfold v1SoCScale. split.
  - intros v Hv. destruct (soc_string_decimal v ltac:(lia)) as (whole & fraction & a & f & -> & Ha & Hne & Hf & Hlen & Heq).
    unfold ParseV1SoCPercent. rewrite TrimSpace_plain by (by eapply decimal_text_plain).
    rewrite (SetString_decimal_text false whole fraction a f) by (done || lia).
    set (k := 10 ^ Z.of_nat (String.length fraction)) in *.
    assert (0 < k) as Hk by (apply Z.pow_pos_nonneg; lia).
    set (x := a * k + f) in *. clearbody k x. destruct (norm_spec x k Hk) as [Hd Hn].
    change (NewRat 100 1) with (mkRat 100 1). unfold rat_gt, v1SoCScale. cbn [num den].
    assert (0 ≤ x ≤ 100 * k) as Hx by (split; nia).
    assert (0 ≤ num (norm x k) ≤ 100 * den (norm x k)) as Hrange.
    { generalize dependent (num (norm x k)). generalize dependent (den (norm x k)). intros d Hd n Hn.
      assert (0 ≤ n * k) by nia. assert (n * k ≤ 100 * d * k) by nia. split; nia. }
    rewrite decide_False by lia.
    destruct (rat_scale_num x k 1000 v Hk ltac:(lia)) as [Hint Hnum]. rewrite decide_False; [by rewrite Hnum|].
    rewrite Hnum. unfold IsInt64, Int64.min_value, Int64.max_value. intros [?|Hno]; [done|]. apply Hno. lia.
  - intros raw v. unfold ParseV1SoCPercent. destruct (SetString _) as [r|] eqn:E; [|done].
    apply SetString_den in E. change (NewRat 100 1) with (mkRat 100 1).
    case_decide as D; [done|]. unfold rat_gt in D. cbn [num den] in D. case_decide as D'; [done|]. intros Hs. apply (inj Some) in Hs as <-.
    apply not_or_and in D' as [D'%dec_stable _]. pose proof (rat_scaled_num r v1SoCScale E D') as Hx.
    apply not_or_and in D as [D1 D2]. revert Hx. generalize (num (rat_mul r (NewRat v1SoCScale 1))).
    unfold v1SoCScale. intros x Hx. assert (0 ≤ x * den r ≤ 100 * 1000 * den r) as [? ?] by lia. split; nia.
Qed.

Definition energy_multiplier (unit : string) : Z :=
  let unit := ToLower (GoStrings.TrimSpace unit) in
  if decide (unit = "kwh" ∨ unit = "kilowatthour") then 1000 else 1.

(** C32: An energy text is converted exactly or not at all: a decimal numeral
    with sign and fraction becomes the watt-hours it denotes (times 1000 for a
    kilowatt-hour unit, however the unit is capitalised or spaced) when that is
    a whole number that fits an int64, and is refused otherwise - no rounding,
    no wrap-around.  (Numerals with more than a million fraction digits, which
    big.Rat refuses, are left out.) *)
Theorem parseV1EnergyWh_exact (neg : bool) (whole fraction : string) (a f : Z) (unit : string) :
  decimal_value 0 whole = Some a → whole ≠ "" → decimal_value 0 fraction = Some f →
  Z.of_nat (String.length fraction) ≤ 1000000 →
  let k := 10 ^ Z.of_nat (String.length fraction) in
  let v := (if neg then - (a * k + f) else a * k + f) * energy_multiplier unit in
  parseV1EnergyWh (decimal_text neg whole fraction) unit =
  if decide (v mod k = 0 ∧ IsInt64 (v / k)) then Some (v / k) else None.
Proof.
  intros Ha Hne Hf Hlen k v. unfold parseV1EnergyWh.
  rewrite TrimSpace_plain by (by eapply decimal_text_plain).
  rewrite (SetString_decimal_text neg whole fraction a f) by done. cbv zeta.
  assert (0 < k) as Hk by (apply Z.pow_pos_nonneg; lia). fold k.
  set (x := if neg then - (a * k + f) else a * k + f) in *.
  set (scaled := if decide _ then rat_mul _ _ else _).
  assert ((IsInt scaled ↔ (k | v)) ∧ ∀ q, v = q * k → num scaled = q) as [Hint Hnum].
  { unfold scaled, v, energy_multiplier. case_decide.
    - split; [by apply rat_scale_IsInt|]. intros q Hq. by apply rat_scale_num.
    - rewrite Z.mul_1_r. split; [by apply norm_den_one|]. intros q Hq.
      destruct (norm_spec x k Hk) as [_ Hn].
      assert (den (norm x k) = 1) as Hd by (apply norm_den_one; [done|by exists q]).
      rewrite Hd in Hn. apply (Z.mul_reg_r _ _ k); lia. }
  clearbody scaled. rewrite <- (Z.mod_divide v k) in Hint by lia.
  destruct (decide (v mod k = 0 ∧ IsInt64 (v / k))) as [[Hm Hr]|Hno].
  - assert (v = v / k * k) as Hq by (pose proof (Z.div_mod v k ltac:(lia)); lia).
    rewrite decide_False; [by rewrite (Hnum _ Hq)|]. intros [Hn|Hn]; [tauto|].
    apply Hn. by rewrite (Hnum _ Hq).
  - rewrite decide_True; [done|]. destruct (decide (IsInt scaled)) as [Hi|]; [right|by left].
    apply Hint in Hi. intros Hr. apply Hno. split; [done|].
    rewrite (Hnum (v / k)) in Hr; [exact Hr|]. pose proof (Z.div_mod v k ltac:(lia)). lia.
Qed.

(** ** What is extracted *)
Definition samples_of (receivedAt : Time) (request : MeterValuesRequest) : list (Time * SampledValue) :=
  concat ((λ mv, pair (reported_time (mv_Timestamp mv) receivedAt) <$> mv_SampledValue mv) <$> mr_MeterValue request).

(** The readings of one kind, in the order of the request. *)
Definition energy_of (p : Time * SampledValue) : option (Z * Time) :=
  let '(at_, sample) := p in
  if is_energy (GoStrings.TrimSpace (sv_Measurand sample))
  then (λ v, (v, at_)) <$> parseV1EnergyWh (sv_Value sample) (sv_Unit sample) else None.
Definition soc_of (p : Time * SampledValue) : option (Z * Time) :=
  let '(at_, sample) := p in
  if negb (is_energy (GoStrings.TrimSpace (sv_Measurand sample))) &&
     EqualFold (GoStrings.TrimSpace (sv_Measurand sample)) "SoC" && validV1SoCUnit (sv_Unit sample)
  then (λ v, (v, at_)) <$> ParseV1SoCPercent (sv_Value sample) else None.

(** The reading a request stands for: the newest one, and of equally new ones
    the last. *)
Definition newest (l : list (Z * Time)) (r : option (Z * Time)) : Prop :=
  match r with
  | None => l = []
  | Some p => ∃ before after, l = before ++ p :: after ∧
      Forall (λ q, q.2 ≤ p.2) before ∧ Forall (λ q, q.2 < p.2) after
  end.

Definition both {A B} (a : option A) (b : option B) : option (A * B) :=
  match a, b with Some x, Some y => Some (x, y) | _, _ => None end.
Definition energy_reading_of (t : V1MeterTelemetry) := both (tel_EnergyWh t) (tel_EnergyObservedAt t).
Definition soc_reading_of (t : V1MeterTelemetry) := both (tel_SoCPercent t) (tel_SoCObservedAt t).

(** Value and time are set together. *)
Definition paired (t : V1MeterTelemetry) : Prop :=
  (is_Some (tel_EnergyWh t) ↔ is_Some (tel_EnergyObservedAt t)) ∧
  (is_Some (tel_SoCPercent t) ↔ is_Some (tel_SoCObservedAt t)).

Lemma newest_snoc l r v t :
  newest l r → newest (l ++ [(v, t)]) (if decide (not_older t (snd <$> r)) then Some (v, t) else r).
Proof.
  unfold not_older, GoTime.Before. destruct r as [[v0 t0]|]; simpl.
  - intros (b & a & -> & Hb & Ha). case_decide as D.
    + exists (b ++ (v0, t0) :: a), []. split_and!; [done| |constructor]. simpl in *.
      rewrite Forall_app, Forall_cons. split_and!; [|simpl; lia|];
        (eapply Forall_impl; [eassumption|]); simpl; intros; lia.
    + exists b, (a ++ [(v, t)]). rewrite <- app_assoc. split_and!; [done|done|].
      rewrite Forall_app, Forall_singleton. split; [done|]. simpl. lia.
  - intros ->. exists [], []. by split_and!.
Qed.

Lemma extract_flat receivedAt request :
  extractV1MeterTelemetry receivedAt request =
  fold_left (λ t p, extract_sample p.1 t p.2) (samples_of receivedAt request) (mkV1MeterTelemetry None None None None).
Proof.
  unfold extractV1MeterTelemetry, samples_of. generalize (mkV1MeterTelemetry None None None None).
  induction (mr_MeterValue request) as [|mv mvs IH]; intros t; [done|]. simpl. rewrite fold_left_app, <- IH. f_equal.
  generalize (reported_time (mv_Timestamp mv) receivedAt). intros at_.
  revert t. induction (mv_SampledValue mv) as [|s ss IHs]; intros t; [done|]. simpl. by rewrite IHs.
Qed.

(** One sample adds one reading of at most one kind. *)
Lemma extract_sample_step at_ t sample :
  paired t →
  let t' := extract_sample at_ t sample in
  paired t' ∧
  energy_reading_of t' = match energy_of (at_, sample) with
    | Some (v, a) => if decide (not_older a (snd <$> energy_reading_of t)) then Some (v, a) else energy_reading_of t
    | None => energy_reading_of t
    end ∧
  soc_reading_of t' = match soc_of (at_, sample) with
    | Some (v, a) => if decide (not_older a (snd <$> soc_reading_of t)) then Some (v, a) else soc_reading_of t
    | None => soc_reading_of t
    end.
Proof.
  intros [He Hs]. cbv zeta. unfold extract_sample, energy_of, soc_of.
  assert (snd <$> energy_reading_of t = tel_EnergyObservedAt t ∧ snd <$> soc_reading_of t = tel_SoCObservedAt t) as [-> ->].
  { unfold energy_reading_of, soc_reading_of, both.
    destruct (tel_EnergyWh t), (tel_EnergyObservedAt t), (tel_SoCPercent t), (tel_SoCObservedAt t); split; try done;
      exfalso; naive_solver. }
  destruct (is_energy _); simpl.
  - destruct (parseV1EnergyWh _ _) as [v|]; simpl; [|done]. by case_decide.
  - destruct (EqualFold _ _ && validV1SoCUnit _); simpl; [|done].
    destruct (ParseV1SoCPercent _) as [v|]; simpl; [|done]. by case_decide.
Qed.

Lemma extract_newest receivedAt request :
  let t := extractV1MeterTelemetry receivedAt request in
  paired t ∧
  newest (omap energy_of (samples_of receivedAt request)) (energy_reading_of t) ∧
  newest (omap soc_of (samples_of receivedAt request)) (soc_reading_of t).
Proof.
  cbv zeta. rewrite extract_flat. induction (samples_of receivedAt request) as [|[at_ sample] l IH] using rev_ind.
  { split_and!; [by split|done|done]. }
  rewrite fold_left_app. simpl. set (t := fold_left _ l _) in *. destruct IH as (Hp & He & Hs).
  destruct (extract_sample_step at_ t sample Hp) as (Hp' & He' & Hs'). split; [done|].
  rewrite He', Hs', !omap_app. cbn [omap list_omap]. split.
  - destruct (energy_of (at_, sample)) as [[v a]|]; [by apply newest_snoc|by rewrite app_nil_r].
  - destruct (soc_of (at_, sample)) as [[v a]|]; [by apply newest_snoc|by rewrite app_nil_r].
Qed.

(** A MeterValues request stands for its newest usable energy reading and,
    independently, its newest usable state-of-charge reading (the last of
    equally new ones), each with its own time; samples that do not parse, or
    carry another measurand or an unusable unit, never mask or age them. *)
Theorem extractV1MeterTelemetry_spec receivedAt request :
  let t := extractV1MeterTelemetry receivedAt request in
  paired t ∧
  newest (omap energy_of (samples_of receivedAt request)) (energy_reading_of t) ∧
  newest (omap soc_of (samples_of receivedAt request)) (soc_reading_of t).
Proof. apply extract_newest. Qed.

Lemma parseV1EnergyWh_range raw unit w : parseV1EnergyWh raw unit = Some w → Int64.in_range w.
Proof.
  unfold parseV1EnergyWh. destruct (SetString _) as [r|]; [|done]. case_decide as D; [done|].
  intros Hw. apply (inj Some) in Hw as <-. apply not_or_and in D as [_ D]. by apply dec_stable in D.
Qed.

Lemma extracted_range receivedAt request :
  opt_holds Int64.in_range (tel_EnergyWh (extractV1MeterTelemetry receivedAt request)).
Proof.
  destruct (extract_newest receivedAt request) as ([Hp _] & Hn & _).
  unfold energy_reading_of, both in Hn. destruct (tel_EnergyWh _) as [w|] eqn:Ew; [|done]. simpl.
  destruct (tel_EnergyObservedAt _) as [at_|] eqn:Ea.
  - simpl in Hn. destruct Hn as (b & a & Hl & _).
    assert ((w, at_) ∈ omap energy_of (samples_of receivedAt request)) as Hin by (rewrite Hl; set_solver).
    apply list_elem_of_omap in Hin as ([t sample] & _ & Hs). unfold energy_of in Hs.
    destruct (is_energy _); [|done]. destruct (parseV1EnergyWh _ _) as [v|] eqn:E; [|done]. simpl in Hs.
    simplify_eq. by eapply parseV1EnergyWh_range.
  - exfalso. destruct Hp as [Hp _]. destruct Hp; [eauto|done].
Qed.

(** ** A reading that reaches the energy limit stops the charge *)
Lemma fresh_requests l :
  rtc request_step fresh_life l → life_completed l = false → life_stop l = None ∨ life_stop l = Some ("PERSISTED", 0).
Proof.
  intros Hr. revert l Hr.
  apply (rtc_ind_r (λ l, life_completed l = false → life_stop l = None ∨ life_stop l = Some ("PERSISTED", 0))).
  - intros _. by left.
  - intros l l' _ Hst IH Hc. destruct Hst as [|w]; [by right|done].
Qed.

Lemma telemetry_requests_stop `{FactCodec} now gen identity ocppID tel s s' t r id row w at_ :
  lifecycle_ok s →
  (∀ id row, pg_transactions s !! id = Some row → registers_ok row ∧ tx_HALTransactionID row = id) →
  opt_holds Int64.in_range (tel_EnergyWh tel) →
  (∀ k row, pg_transactions s !! k = Some row → tx_ChargerOCPPIdentity row = identity →
     tx_OCPPTransactionID row = ocppID → k = id) →
  pg_transactions s !! id = Some row → pg_workflows s !! id = None →
  energy_reading tel = Some (w, at_) → reading_accepted row w → limit_reached row w →
  run_tx (UpdateV1TelemetryForOCPP now gen identity ocppID tel) s = (s', inl (t, r)) →
  lifecycle_ok s' ∧ waiting s' id ∧ tx_HALTransactionID t = id ∧ tur_EnergyAccepted r = true.
Proof.
  intros Hok Hrows Hw Huniq Erow Enone Hread Hacc Hlim Hrun.
  destruct (telemetry_effect _ _ _ _ _ _ _ _ _ Hrows Hw Hrun)
    as (k & row0 & row' & Ek & Ht & Hc & Hi & Ho & Es' & Hyes & _).
  assert (k = id) as -> by eauto. rewrite Erow in Ek. injection Ek as <-.
  destruct (Hyes w at_ Hread Hacc) as [Hr [_ _ _ _ _ Hwf]].
  destruct (Telemetry_safe _ _ _ _ _ _ _ _ (run_tx_inl _ _ _ _ Hrun) Hok) as [Hok' Hm].
  split_and!; [done| |done|done].
  specialize (Hm id). unfold moves_by in Hm. rewrite (stop_of_rows _ _ _ Erow), Enone in Hm.
  destruct Hacc as (Hopen & _ & _). rewrite Hopen in Hm, Hc. destruct Hm as (l & Hl & Hsteps).
  assert (pg_transactions s' !! id = Some row') as Erow' by (rewrite Es'; apply lookup_insert_eq).
  rewrite (stop_of_rows _ _ _ Erow') in Hl. injection Hl as <-. rewrite Hc in Hsteps.
  destruct (fresh_requests _ Hsteps eq_refl) as [Hn|Hp]; simpl in *.
  - exfalso. destruct (Hwf Hlim) as [w0 Hw0]. by rewrite Hw0 in Hn.
  - destruct (pg_workflows s' !! id) as [w0|] eqn:Ew0; [|done]. simpl in Hp. injection Hp as Hst _.
    by exists row', w0.
Qed.

Lemma energy_reading_eq t : energy_reading t = energy_reading_of t.
Proof. unfold energy_reading, energy_reading_of, both. by destruct (tel_EnergyWh t), (tel_EnergyObservedAt t). Qed.

(** C11: A meter reading that reaches the customer's energy limit stops the
    charge: once the reading is committed, the same handler call creates the
    stop, hands one RemoteStop for that transaction to the charger and leaves
    the delivery recorded as made, whatever the charger answers. *)
Theorem energy_limit_stops `{HC : FactCodec, HJ : JsonView} (e : handler_env) (h : HAL) (chargePointID : string)
    (request : MeterValuesRequest) (s s' : pg) (ocppID : Z) (id : string) (row t : V1Transaction)
    (r : V1TelemetryUpdateResult) (w : Z) (at_ : Time) :
  h_v1Store h = Some s → lifecycle_ok s →
  (∀ id row, pg_transactions s !! id = Some row → registers_ok row ∧ tx_HALTransactionID row = id) →
  mr_TransactionId request = Some ocppID → 0 < ocppID →
  (∀ k row, pg_transactions s !! k = Some row → tx_ChargerOCPPIdentity row = canonical h chargePointID →
     tx_OCPPTransactionID row = ocppID → k = id) →
  pg_transactions s !! id = Some row → pg_workflows s !! id = None →
  let telemetry := extractV1MeterTelemetry (he_received e) request in
  energy_reading_of telemetry = Some (w, at_) → reading_accepted row w → limit_reached row w →
  run_tx (UpdateV1TelemetryForOCPP (he_now e) (he_gen e) (canonical h chargePointID) ocppID telemetry) s
    = (s', inl (t, r)) →
  let out := HandleV1MeterValues e h chargePointID request in
  sent_of out.1.2 = [id] ∧ out.2 = meterPersisted ∧
  ∃ s'', h_v1Store out.1.1 = Some s'' ∧ life_at settled_life s'' id.
Proof.
  intros Hst Hok Hrows Htx Hpos Huniq Erow Enone telemetry Hread Hacc Hlim Hrun. cbv zeta.
  rewrite <- energy_reading_eq in Hread.
  destruct (telemetry_requests_stop _ _ _ _ _ _ _ _ _ _ _ _ _ Hok Hrows (extracted_range _ _) Huniq Erow Enone
    Hread Hacc Hlim Hrun) as (Hok' & Hwait & Hid & Hea).
  unfold HandleV1MeterValues. rewrite Hst, Htx. rewrite decide_False by lia. cbv zeta. fold telemetry.
  rewrite decide_False.
  2:{ intros [Hn _]. unfold energy_reading in Hread. by rewrite Hn in Hread. }
  rewrite Hrun, Hea, Hid. pose proof Hwait as (t0 & w0 & _ & _ & Ew & Hw0).
  unfold GetV1StopWorkflow. rewrite Ew, decide_True by done.
  pose proof (dispatch_waiting (he_dispatch e) s' id Hok' Hwait) as Hd.
  destruct (DispatchV1Stop (he_dispatch e) s' id) as [[s2 sent] x]. cbn [fst snd] in Hd.
  destruct Hd as (Hsent & _ & Hset & _). cbn [with_traces fst snd]. split_and!; [|done|by exists s2].
  rewrite !sent_of_app, Hsent. by case_decide.
Qed.

(** ** Witnesses *)
Module MeterRuns.
Definition sample (v m u : string) : SampledValue := mkSampledValue v m u.
Definition request : MeterValuesRequest := mkMeterValuesRequest 1 (Some 77)
  [mkMeterValue (Some (600 * GoTime.Second))
     [sample "0.6" "Energy.Active.Import.Register" "kWh"; sample "banana" "SoC" "Percent"];
   mkMeterValue None [sample "not a number" "energy.active.import" "Wh"; sample "67.5" "SOC" " % "]].
Definition received : Time := 590 * GoTime.Second.
Example extracted :
  extractV1MeterTelemetry received request =
  mkV1MeterTelemetry (Some 600) (Some (600 * GoTime.Second)) (Some 67500) (Some received).
Proof. vm_compute. reflexivity. Qed.
Definition env : handler_env :=
  mkhandler_env received 3 3 (LifecycleRuns.gen "meter") (mkdispatch_env 10 11 12 (λ i, inl i) 13 14 (inl "Accepted")) 20
    (λ n, (20, inl ("tick" +:+ Itoa (Z.of_nat n)))).
Abbreviation before := SpecRuns.before.
Abbreviation update := (@UpdateV1TelemetryForOCPP LifecycleRuns.codec 3 (LifecycleRuns.gen "meter") "CP-1" 77
  (extractV1MeterTelemetry received request)).
Lemma unique k row :
  pg_transactions before !! k = Some row → tx_ChargerOCPPIdentity row = "CP-1" →
  tx_OCPPTransactionID row = 77 → k = LifecycleRuns.id.
Proof. intros (-> & _)%SpecRuns.opened_rows _ _. reflexivity. Defined.
Lemma reading : energy_reading_of (extractV1MeterTelemetry received request) = Some (600, 600 * GoTime.Second).
Proof. vm_compute. reflexivity. Defined.
Lemma no_stop : pg_workflows before !! LifecycleRuns.id = None.
Proof. vm_compute. reflexivity. Defined.
Lemma before_ok : history_ok (H := LifecycleRuns.codec) pg_empty LifecycleRuns.opened.
Proof. repeat split. Defined.
End MeterRuns.

Lemma SoC_text_roundtrip_witness :
  soc_string 63500 = "63.5" ∧ ParseV1SoCPercent (soc_string 63500) = Some 63500.
Proof. split; [vm_compute; reflexivity|]. exact (proj1 SoC_text_roundtrip 63500 ltac:(unfold v1SoCScale; lia)). Defined.

Lemma parseV1EnergyWh_exact_witness :
  parseV1EnergyWh (decimal_text true "12" "5") " KWh" = Some (-12500).
Proof.
  assert (decimal_value 0 "12" = Some 12) as H1 by reflexivity.
  assert (decimal_value 0 "5" = Some 5) as H2 by reflexivity.
  exact (parseV1EnergyWh_exact true "12" "5" 12 5 " KWh" H1 ltac:(discriminate) H2 ltac:(vm_compute; discriminate)).
Defined.

Lemma energy_limit_stops_witness :
  sent_of (@HandleV1MeterValues LifecycleRuns.codec TraceHistoryRuns.view MeterRuns.env
    (New (Some MeterRuns.before) trace_db_empty) "CP-1" MeterRuns.request).1.2 =
  [LifecycleRuns.id].
Proof.
  assert (SpecRuns.succeeds (run_tx MeterRuns.update MeterRuns.before) = true) as E by (vm_compute; reflexivity).
  destruct (run_tx MeterRuns.update MeterRuns.before) as [s' [[t r]|err]] eqn:Er; [|discriminate E].
  destruct (pg_transactions MeterRuns.before !! LifecycleRuns.id) as [row|] eqn:Erow;
    [|exfalso; clear - Erow; vm_compute in Erow; discriminate Erow].
  destruct (SpecRuns.opened_rows _ _ Erow) as (_ & _ & Ho & Hs & Hl & Hlim).
  assert (reading_accepted row 600) as Hacc by (split_and!; [exact Ho|rewrite Hs; lia|rewrite Hl; exact I]).
  assert (limit_reached row 600) as Hlimit by (unfold limit_reached; rewrite Hlim, Hs; by vm_compute).
  exact (proj1 (energy_limit_stops (HC := LifecycleRuns.codec) (HJ := TraceHistoryRuns.view) MeterRuns.env
    (New (Some MeterRuns.before) trace_db_empty) "CP-1"
    MeterRuns.request MeterRuns.before s' 77 LifecycleRuns.id row t r 600 (600 * GoTime.Second) eq_refl
    (proj1 (history_reaches _ MeterRuns.before_ok)) SpecRuns.opened_registers eq_refl ltac:(lia) MeterRuns.unique
    Erow MeterRuns.no_stop MeterRuns.reading Hacc Hlimit Er)).
Defined.
