(* ===== verification/HalRequests.v ===== *)
(** * The OCPP requests of the HAL

    The request functions of internal/ocpp16hal/hal.go and extra.go.  Each
    resolves the wire identity, hands one request to the OCPP library with a
    callback, and waits for the callback or the context.  What the library and
    the charger make of it is an argument. *)
From Stdlib Require Import String Ascii.
From stdpp Require Import base numbers decidable option list strings gmap.
From S2P Require Import Prelude GoText GoClock GoDate V1Types Connections Hal HalMeter.
Open Scope Z_scope.

(** ** Waiting for a confirmation *)
Inductive request_outcome (C : Type) : Type :=
  | NotSent (err : go_error)              (* the library refused the request *)
  | CallbackError (err : go_error)
  | NilConfirmation
  | Confirmed (conf : C)
  | ContextEnded (err : go_error).        (* the context ended first *)
Arguments NotSent {_} _.
Arguments CallbackError {_} _.
Arguments NilConfirmation {_}.
Arguments Confirmed {_} _.
Arguments ContextEnded {_} _.

Definition nil_confirmation (action : string) : go_error := ErrOther ("nil " +:+ action +:+ " confirmation").
(** The callback, the channel and the select. *)
Definition await {C} (action : string) (o : request_outcome C) : result C :=
  match o with
  | NotSent err | CallbackError err | ContextEnded err => inr err
  | NilConfirmation => inr (nil_confirmation action)
  | Confirmed conf => inl conf
  end.

Inductive hal_request : Type :=
  | RRemoteStart (idTag : string) (connectorId : option Z)
  | RRemoteStop (transactionID : Z)
  | RChangeAvailability (connectorID : Z) (type_ : string)
  | RChangeConfiguration (key value : string)
  | RClearCache
  | RUnlockConnector (connectorID : Z)
  | RReset (type_ : string)
  | RGetConfiguration (keys : list string)
  | RTriggerMessage (requestedMessage : string) (connectorId : option Z)
  | RGetDiagnostics (location : string) (retries retryInterval : option Z) (startTime stopTime : option Time)
  | RUpdateFirmware (location : string) (retrieveDate : Time) (retries retryInterval : option Z).

(** The request handed to the library, with the wire identity it goes to. *)
Definition handed (R : Type) : Type := option (string * hal_request) * result R.

Section requests.
Context (h : HAL) (ks : list string).   (* ks: the order the identity map is visited in *)

Definition wire (chargerID : string) : string := wireIdentityFor (h_wiredIdentity h) ks chargerID.
Definition request {C} (action chargerID : string) (r : hal_request) (o : request_outcome C) : handed C :=
  (Some (wire chargerID, r), await action o).
Definition positive (n : Z) : option Z := if decide (0 < n) then Some n else None.

Definition RemoteStartTransaction (chargerID idTag : string) (connectorID : Z) (o : request_outcome string) : handed string :=
  request "RemoteStartTransaction" chargerID (RRemoteStart idTag (positive connectorID)) o.
Definition RemoteStopTransaction (chargerID : string) (transactionID : Z) (o : request_outcome string) : handed string :=
  request "RemoteStopTransaction" chargerID (RRemoteStop transactionID) o.
Definition ChangeAvailability (chargerID : string) (connectorID : Z) (availabilityType : string)
    (o : request_outcome string) : handed string :=
  let t := ToLower (GoStrings.TrimSpace availabilityType) in
  if decide (t = "operative") then request "ChangeAvailability" chargerID (RChangeAvailability connectorID "Operative") o
  else if decide (t = "inoperative") then
    request "ChangeAvailability" chargerID (RChangeAvailability connectorID "Inoperative") o
  else (None, inr (ErrOther "invalid availability type")).
Definition ChangeConfiguration (chargerID key value : string) (o : request_outcome string) : handed string :=
  request "ChangeConfiguration" chargerID (RChangeConfiguration key value) o.
Definition ClearCache (chargerID : string) (o : request_outcome string) : handed string :=
  request "ClearCache" chargerID RClearCache o.
Definition UnlockConnector (chargerID : string) (connectorID : Z) (o : request_outcome string) : handed string :=
  request "UnlockConnector" chargerID (RUnlockConnector connectorID) o.
Definition Reset (chargerID resetType : string) (o : request_outcome string) : handed string :=
  let t := ToLower (GoStrings.TrimSpace resetType) in
  if decide (t = "soft") then request "Reset" chargerID (RReset "Soft") o
  else if decide (t = "hard") then request "Reset" chargerID (RReset "Hard") o
  else (None, inr (ErrOther "invalid reset type")).
Definition GetConfiguration {Conf} (chargerID : string) (keys : list string) (o : request_outcome Conf) : handed Conf :=
  request "GetConfiguration" chargerID (RGetConfiguration keys) o.
Definition TriggerMessage (chargerID requestedMessage : string) (connectorID : Z) (o : request_outcome string) :
    handed string :=
  request "TriggerMessage" chargerID (RTriggerMessage requestedMessage (positive connectorID)) o.

(** [inl None]: no date was given. *)
Definition parseOptionalDateTime (raw : string) : result (option Time) :=
  let raw := GoStrings.TrimSpace raw in
  if decide (raw = "") then inl None
  else match Date.Parse raw with Some t => inl (Some t) | None => inr (ErrOther "parsing time") end.
Definition parseRequiredDateTime (raw : string) : result Time :=
  match parseOptionalDateTime raw with
  | inr err => inr err
  | inl None => inr (ErrOther "missing datetime")
  | inl (Some t) => inl t
  end.

Definition GetDiagnostics {Conf} (chargerID location startTime stopTime : string) (retries retryInterval : option Z)
    (o : request_outcome Conf) : handed Conf :=
  match parseOptionalDateTime startTime with
  | inr _ => (None, inr (ErrOther "invalid start_time"))
  | inl start =>
    match parseOptionalDateTime stopTime with
    | inr _ => (None, inr (ErrOther "invalid stop_time"))
    | inl stop => request "GetDiagnostics" chargerID (RGetDiagnostics location retries retryInterval start stop) o
    end
  end.
Definition UpdateFirmware (chargerID location retrieveDateRaw : string) (retries retryInterval : option Z)
    (o : request_outcome unit) : handed unit :=
  match parseRequiredDateTime retrieveDateRaw with
  | inr _ => (None, inr (ErrOther "invalid retrieve_date"))
  | inl retrieveDate => request "UpdateFirmware" chargerID (RUpdateFirmware location retrieveDate retries retryInterval) o
  end.

End requests.

(** ** Printed dates *)
Lemma plain_digits n : 0 ≤ n → plain_text (Itoa n).
Proof. intros Hn. destruct (Itoa_decimal n Hn) as [Hd _]. by eapply decimal_plain. Qed.
Lemma plain_list s : plain_text s ↔ ∀ c, c ∈ String.list_ascii_of_string s → plain c = true.
Proof.
  unfold plain_text. rewrite List.Forall_forall. by setoid_rewrite list_elem_of_In.
Qed.
Lemma plain_zeros n : plain_text (Clock.zeros n).
Proof. induction n as [|n IH]; [constructor|]. by constructor. Qed.
Lemma plain_pad w n : plain_text (Clock.pad w n).
Proof.
  unfold Clock.pad. apply plain_text_app; [case_decide; repeat constructor|].
  apply plain_text_app; [apply plain_zeros|apply plain_digits; lia].
Qed.
Lemma plain_reverse s : plain_text s → plain_text (GoStrings.reverse s).
Proof.
  unfold plain_text, GoStrings.reverse. rewrite list_ascii_of_string_of_list_ascii. apply List.Forall_rev.
Qed.
Lemma plain_trim_zeros fuel : ∀ s, plain_text s → plain_text (Clock.trim_zeros fuel s).
Proof.
  induction fuel as [|fuel IH]; intros s Hs; [done|]. simpl. destruct s as [|c s]; [done|].
  case_decide as Hc; [|done]. apply IH. by inversion Hs.
Qed.
Lemma plain_fraction n : plain_text (Clock.fraction n).
Proof.
  unfold Clock.fraction. case_decide; [constructor|]. apply plain_text_app; [repeat constructor|].
  apply plain_reverse, plain_trim_zeros, plain_reverse, plain_pad.
Qed.
Lemma plain_RFC3339Nano t : plain_text (Clock.RFC3339Nano t).
Proof.
  unfold Clock.RFC3339Nano. cbv zeta. destruct (Clock.civil _) as [[y m] d].
  repeat (apply plain_text_app; [first [apply plain_pad|apply plain_fraction|repeat constructor]|]). repeat constructor.
Qed.

Definition date_text (t : option Time) : string := match t with Some t => Clock.RFC3339Nano t | None => "" end.
Definition printable (t : option Time) : Prop :=
  match t with Some t => Date.first_instant ≤ t < Date.last_instant | None => True end.
Lemma parse_date_text t : printable t → parseOptionalDateTime (date_text t) = inl t.
Proof.
  destruct t as [t|]; [|done]. simpl. intros Ht. unfold parseOptionalDateTime.
  rewrite (TrimSpace_plain _ (plain_RFC3339Nano t)), Date.print_parse by done. rewrite decide_False; [done|].
  intros He. pose proof (Date.print_parse t Ht) as Hp. rewrite He in Hp. discriminate Hp.
Qed.

(** The dates of a diagnostics request reach the charger unchanged: given as
    RFC 3339 texts (or left out) they are exactly the instants of the OCPP
    request, which goes to the charger's wire identity; a text that is no date
    is refused and nothing is handed to the charger. *)
Theorem GetDiagnostics_dates {Conf} (h : HAL) (ks : list string) (chargerID location : string) (start stop : option Time)
    (retries retryInterval : option Z) (o : request_outcome Conf) :
  printable start → printable stop →
  GetDiagnostics h ks chargerID location (date_text start) (date_text stop) retries retryInterval o =
    (Some (wire h ks chargerID, RGetDiagnostics location retries retryInterval start stop), await "GetDiagnostics" o) ∧
  ∀ bad other err, parseOptionalDateTime bad = inr err →
    (GetDiagnostics h ks chargerID location bad other retries retryInterval o).1 = None ∧
    (GetDiagnostics h ks chargerID location (date_text start) bad retries retryInterval o).1 = None.
Proof.
  intros Hs Ht. unfold GetDiagnostics. rewrite !parse_date_text by done. split; [done|].
  intros bad other err ->. done.
Qed.

Lemma GetDiagnostics_dates_witness :
  (GetDiagnostics (Conf := unit) (New None PgTraces.trace_db_empty) [] "CP-1" "ftp://x"
     "2024-02-29T12:34:56.12Z" "" None None NilConfirmation).1 =
  Some ("CP-1", RGetDiagnostics "ftp://x" None None (Some (Clock.Unix 1709210096 120000000)) None).
Proof.
  rewrite <- Clock.RFC3339Nano_leap.
  assert (printable (Some (Clock.Unix 1709210096 120000000))) as Hp by (vm_compute; split; [discriminate|reflexivity]).
  exact (f_equal fst (proj1 (GetDiagnostics_dates (Conf := unit) (New None PgTraces.trace_db_empty) [] "CP-1" "ftp://x"
    (Some (Clock.Unix 1709210096 120000000)) None None None NilConfirmation Hp I))).
Defined.
