(* ===== verification/HalHandlers.v ===== *)
(** * The callbacks of the OCPP central system

    The handlers internal/ocpp16hal registers with the OCPP library: admission,
    connect and disconnect, and one per charger message (hal.go, extra.go,
    trigger_message_follow_on.go).  Each takes the [HAL] and what it meets
    outside of it - clocks, identifiers, map orders - and returns the [HAL],
    its reply and what else it starts. *)
From Stdlib Require Import String.
From stdpp Require Import base numbers decidable option list strings gmap.
From S2P Require Import Prelude GoText GoClock V1Types V1Memory Operations PgSchema TraceData MemTraces PgTraces HalTraces PgMapping PgLifecycle Connections Registry HalStops Hal Reconcile HalMeter.
Open Scope Z_scope.

(** What one callback meets: its own readings of the clock, the registry's, the
    database's; the identifiers of the facts and trace events it writes; the
    order of a map it visits. *)
Record hal_env : Type := mkhal_env {
  ev_at : nat → Time;
  ev_registry : Time;
  ev_stored : Time;
  ev_gen : PgMapping.generator;
  ev_identifier : Z;                            (* store.RandomTransactionID *)
  ev_ks : list string;
  ev_follow : Time * (nat → result string);     (* follow-on evidence *)
  ev_root : trace_tick;                         (* a trace root *)
  ev_tick : nat → trace_tick;                   (* trace events *)
  ev_handler : handler_env                      (* MeterValues, StopTransaction *)
}.

(** ** The messages *)
Record BootNotificationRequest : Type := mkBootNotificationRequest {
  bn_ChargeBoxSerialNumber : string;
  bn_ChargePointSerialNumber : string;
  bn_ChargePointVendor : string;
  bn_ChargePointModel : string;
  bn_FirmwareVersion : string
}.
Record StatusNotificationRequest : Type := mkStatusNotificationRequest {
  sn_ConnectorId : Z;
  sn_Status : string;
  sn_ErrorCode : string;
  sn_Info : string;
  sn_VendorId : string;
  sn_VendorErrorCode : string
}.
Record StartTransactionRequest : Type := mkStartTransactionRequest {
  st_ConnectorId : Z;
  st_IdTag : string;
  st_MeterStart : Z;
  st_Timestamp : option Time
}.

(** The confirmations. *)
Record BootNotificationConfirmation : Type := mkBootNotificationConfirmation {
  bc_CurrentTime : Time;
  bc_Interval : Z;
  bc_Status : string
}.
Record StartTransactionConfirmation : Type := mkStartTransactionConfirmation {
  sc_Status : string;
  sc_TransactionId : Z
}.

Section handlers.
Context `{HC : FactCodec, HJ : JsonView}.
Context (e : hal_env).

Definition touch (h : HAL) (identity : string) : HAL :=
  h <| h_registry ::= λ r, Touch r (ev_registry e) identity |>.
Definition connector_trace (i : nat) (h : HAL) (identity : string) (connector : Z) (input : V1TraceEventInput) : HAL :=
  match h_v1Store h with
  | Some s => h <| h_traces ::= recordV1ConnectorTrace (ev_tick e i) (pg_transactions s) (ev_at e (10 + i))
                     identity connector input |>
  | None => h
  end.

(** [HAL.recordTriggerMessageFollowOn]; its error is only logged. *)
Definition recordTriggerMessageFollowOn (h : HAL) (chargerID action : string) (connector : Z) (observedAt : Time) : HAL :=
  match h_v1Store h with
  | None => h
  | Some _ =>
    if decide (V1TriggerMessageAction action = false ∨
               (V1TriggerMessageConnectorScoped action = true ∧ connector < 1)) then h
    else
      let observedAt := if decide (GoTime.IsZero observedAt) then ev_at e 9 else observedAt in
      h <| h_traces ::= λ t, (run_tx (RecordV1TriggerMessageFollowOn (ev_follow e).1 (ev_follow e).2
                                        chargerID action connector observedAt) t).1 |>
  end.

(** [HAL.persistRuntimeProjection] *)
Definition persist (h : HAL) (observation : pendingRuntimeProjection) : HAL :=
  match h_v1Store h with
  | None => h
  | Some s =>
    let '(s', p) := persistRuntimeProjection (record_projection (ev_stored e) (ev_gen e 0)) observation s
                      (h_pendingRuntime h) in
    h <| h_v1Store := Some s' |> <| h_pendingRuntime := p |>
  end.

(** ** Connections *)

(** [HAL.validateIncomingCharger] *)
Definition OnValidate (h : HAL) (chargePointID : string) (request : option string) : HAL * bool :=
  let '(w, ok) := validateIncomingCharger (h_wiredIdentity h) (ValidateV1ChargerAdmission <$> h_v1Store h)
                    chargePointID request in
  (h <| h_wiredIdentity := w |>, ok).

(** The new-charge-point handler of [New]; the identity whose persisted
    operations the goroutine it starts dispatches. *)
Definition OnConnect (h : HAL) (wireIdentity connKey remoteAddr : string) : HAL * string :=
  let chargePointID := canonical h wireIdentity in
  let '(tracker, (current, _)) := Connections.register (h_connections h) (ev_at e 0) chargePointID connKey remoteAddr in
  let h := touch (h <| h_connections := tracker |>) chargePointID in
  (persist h (mkpendingRuntimeProjection chargePointID (Int64.wrap64 (cr_Generation current)) true
                (cr_ConnectedAt current)), chargePointID).

(** The disconnected handler of [New]; the wire identity handed to
    [operationObserver.forgetCharger]. *)
Definition OnDisconnect (h : HAL) (wireIdentity connKey : string) : HAL * option string :=
  let chargePointID := canonical h wireIdentity in
  match unregisterIfCurrent (h_connections h) chargePointID connKey with
  | (tracker, (true, Some current)) =>
    let h := h <| h_connections := tracker |>
               <| h_registry ::= λ r, MarkOffline r (ev_registry e) chargePointID |> in
    let h := persist h (mkpendingRuntimeProjection chargePointID (Int64.wrap64 (cr_Generation current)) false (ev_at e 0)) in
    (h <| h_wiredIdentity ::= λ w, forgetWireIdentity w wireIdentity |>, Some wireIdentity)
  | (_, _) => (h, None)
  end.

(** ** Charger messages *)
Definition OnAuthorize (h : HAL) (chargePointID idTag : string) : HAL * string :=
  let chargePointID := canonical h chargePointID in
  let h := touch h chargePointID in
  match h_v1Store h with
  | None => (h, "Invalid")
  | Some s =>
    match GetV1Credential s idTag with
    | inr _ => (h, "Invalid")
    | inl credential =>
      let accepted := bool_decide (AuthorizeV1Credential s chargePointID idTag (ev_at e 0) = None) in
      let outcome := if accepted then "Accepted" else "Invalid" in
      let connector := cred_OCPPConnectorNumber credential in
      let h := connector_trace 0 h chargePointID connector
        (hal_event "CHARGER" "HAL" "OCPP_CALL" "OCPP1.6" "STARTING" "Authorize received" (ev_at e 1)
           [("action", AString "Authorize")]) in
      let h := connector_trace 1 h chargePointID connector
        (hal_event "HAL" "CHARGER" "OCPP_CALL" "OCPP1.6" "STARTING" ("Authorize confirmation: " +:+ outcome) (ev_at e 2)
           [("action", AString "Authorize"); ("result", AString outcome)]) in
      (h, outcome)
    end
  end.

Definition boot_evidence (h : HAL) (chargePointID : string) (request : BootNotificationRequest) : V1BootEvidence :=
  let wireIdentity := wireIdentityFor (h_wiredIdentity h) (ev_ks e) chargePointID in
  mkV1BootEvidence (if decide (wireIdentity ≠ chargePointID) then wireIdentity else "")
    (bn_ChargeBoxSerialNumber request) (bn_ChargePointSerialNumber request) (bn_ChargePointVendor request)
    (bn_ChargePointModel request) (bn_FirmwareVersion request) (ev_at e 1).

(** The configuration a goroutine reconciles afterwards, if one is started. *)
Definition OnBootNotification (h : HAL) (chargePointID : string) (request : option BootNotificationRequest) :
    HAL * BootNotificationConfirmation * option (gmap string string) :=
  let chargePointID := canonical h chargePointID in
  let h := recordTriggerMessageFollowOn h chargePointID "BootNotification" 0 (ev_at e 0) in
  let h := touch h chargePointID in
  let h := match h_v1Store h, request with
           | Some s, Some r =>
             h <| h_v1Store := Some (run_tx (RecordV1BootEvidence chargePointID (boot_evidence h chargePointID r)) s).1 |>
           | _, _ => h
           end in
  let scheduled :=
    match current (h_connections h) chargePointID with
    | Some c => scheduleConfigurationReconciliation h chargePointID (Int64.wrap64 (cr_Generation c))
                  (bn_ChargePointVendor <$> request)
    | None => None
    end in
  (h, mkBootNotificationConfirmation (ev_at e 2) (h_heartbeatIntervalSeconds h) "Accepted", scheduled).

Definition OnDataTransfer (h : HAL) (chargePointID : string) : HAL * string :=
  (touch h (canonical h chargePointID), "Accepted").

Definition OnHeartbeat (h : HAL) (chargePointID : string) : HAL * Time :=
  let chargePointID := canonical h chargePointID in
  let h := recordTriggerMessageFollowOn h chargePointID "Heartbeat" 0 (ev_at e 0) in
  let h := touch h chargePointID in
  let h := match h_v1Store h, current (h_connections h) chargePointID with
           | Some s, Some c =>
             h <| h_v1Store := Some (run_tx (RenewCurrentV1ChargerConnection (ev_stored e) (ev_gen e 0) chargePointID
                                               (Int64.wrap64 (cr_Generation c)) (ev_at e 1)) s).1 |>
           | _, _ => h
           end in
  (h, ev_at e 2).

Definition connector_runtime (chargePointID : string) (request : StatusNotificationRequest) (observedAt : Time) :
    V1ConnectorRuntime :=
  mkV1ConnectorRuntime "" "" "" chargePointID (sn_ConnectorId request) (sn_Status request) (sn_ErrorCode request)
    (sn_Info request) (sn_VendorId request) (sn_VendorErrorCode request) (Some observedAt) 0 0.
(** The diagnostic copy of a stored status. *)
Definition status_trace (h : HAL) (s : pg) (chargePointID : string) (request : StatusNotificationRequest)
    (observedAt : Time) : HAL :=
  let tick := ev_tick e 0 in
  match FindV1TraceForConnector (pg_transactions s) (ev_at e 10) (h_traces h) chargePointID (sn_ConnectorId request) with
  | inr _ => h
  | inl trace =>
    match connectorStatusTracePhase (GetV1Transaction s) trace with
    | inr _ => h
    | inl phase =>
      h <| h_traces ::= λ t, (run_tx (AppendV1TraceEvent tick.1 tick.2 (tr_TraceID trace)
        (hal_event "CHARGER" "HAL" "STATUS" "OCPP1.6" phase ("Connector status: " +:+ sn_Status request) observedAt
           [("status", AString (sn_Status request)); ("connector_id", AInt (sn_ConnectorId request))])) t).1 |>
    end
  end.
Definition OnStatusNotification (h : HAL) (chargePointID : string) (request : StatusNotificationRequest) :
    HAL * result () :=
  let chargePointID := canonical h chargePointID in
  match h_v1Store h with
  | None => (h, inr (ErrOther "StatusNotification requires durable v1 storage"))
  | Some s =>
    let observedAt := ev_at e 0 in
    let h := recordTriggerMessageFollowOn h chargePointID "StatusNotification" (sn_ConnectorId request) observedAt in
    match run_tx (RecordV1ConnectorStatus (ev_stored e) (ev_at e 1) (ev_gen e 0)
                    (connector_runtime chargePointID request observedAt)) s with
    | (s', inr err) =>
      (h <| h_v1Store := Some s' |>,
       if decide (errors_Is err ErrV1MappingNotFound ∨ errors_Is err ErrV1CredentialRejected) then inl ()
       else inr (ErrOther "StatusNotification was not durably persisted"))
    | (s', inl _) =>
      let h := status_trace (h <| h_v1Store := Some s' |>) s' chargePointID request observedAt in
      (h <| h_registry ::= λ r, ApplyStatusNotification r (ev_registry e) (ev_ks e) chargePointID
             (sn_ConnectorId request) (sn_Status request) (sn_ErrorCode request) |>, inl ())
    end
  end.

Definition materialization_input (chargePointID : string) (request : StartTransactionRequest) : V1StartMaterialization :=
  let receivedAt := ev_at e 0 in
  mkV1StartMaterialization chargePointID (st_ConnectorId request) (st_IdTag request) (st_MeterStart request)
    (reported_time (st_Timestamp request) receivedAt) receivedAt (ev_identifier e).
(** The diagnostic copy of a materialized start: find or make its root, bind
    it, append the two events; each step only logs its failure. *)
Definition start_trace (tx : V1Transaction) (request : StartTransactionRequest) (t : trace_db) : trace_db :=
  let receivedAt := ev_at e 0 in
  let fields := [("transaction_id", AInt64 (tx_OCPPTransactionID tx)); ("connector_id", AInt (st_ConnectorId request));
                 ("meter_wh", AInt (st_MeterStart request))] in
  match EnsureV1TraceForTransaction (ev_root e).1 (ev_root e).2 tx t with
  | (t, inr _) => t
  | (t, inl trace) =>
    let append i input t := (run_tx (AppendV1TraceEvent (ev_tick e i).1 (ev_tick e i).2 (tr_TraceID trace) input) t).1 in
    let t := (BindV1TraceTransaction (tr_TraceID trace) tx t).1 in
    let t := append 0%nat (hal_event "CHARGER" "HAL" "OCPP_CALL" "OCPP1.6" "STARTING" "StartTransaction received" receivedAt
                         (("action", AString "StartTransaction") :: fields)) t in
    append 1%nat (mkV1TraceEventInput "HAL" "HAL" "LIFECYCLE" "POSTGRES" "STARTING" "Transaction materialized" receivedAt
                "" "ACTIVE" "" (AMap (obj fields))) t
  end.
Definition OnStartTransaction (h : HAL) (chargePointID : string) (request : StartTransactionRequest) :
    HAL * StartTransactionConfirmation :=
  let chargePointID := canonical h chargePointID in
  let h := touch h chargePointID in
  match h_v1Store h with
  | None => (h, mkStartTransactionConfirmation "Invalid" 0)
  | Some s =>
    if negb (HasPrefix (st_IdTag request) "appv1_") then (h, mkStartTransactionConfirmation "Invalid" 0)
    else
      match run_tx (MaterializeV1Start (ev_stored e) (ev_gen e) (materialization_input chargePointID request)) s with
      | (s', inr err) =>
        (h <| h_v1Store := Some s' |>,
         mkStartTransactionConfirmation (if decide (errors_Is err ErrV1CredentialRejected) then "Invalid" else "Blocked") 0)
      | (s', inl (tx, _)) =>
        (h <| h_v1Store := Some s' |> <| h_traces ::= start_trace tx request |>
           <| h_registry ::= λ r, ApplyStartTransaction r (ev_registry e) chargePointID (st_ConnectorId request)
                (tx_OCPPTransactionID tx) (Float64.of_int (st_MeterStart request)) |>,
         mkStartTransactionConfirmation "Accepted" (tx_OCPPTransactionID tx))
      end
  end.

(** HandleV1MeterValues and HandleV1StopTransaction canonicalise the identity
    they are given once more. *)
Definition OnMeterValues (h : HAL) (chargePointID : string) (request : MeterValuesRequest) :
    HAL * list hal_effect * result () :=
  let chargePointID := canonical h chargePointID in
  let h := recordTriggerMessageFollowOn h chargePointID "MeterValues" (mr_ConnectorId request) (ev_at e 0) in
  let h := touch h chargePointID in
  let '(h, effects, persisted) := HandleV1MeterValues (ev_handler e) h chargePointID request in
  (h, effects, if decide (persisted = meterPersistenceFailed)
               then inr (ErrOther "MeterValues was not durably persisted") else inl ()).

Definition OnStopTransaction (h : HAL) (chargePointID : string) (request : StopTransactionRequest) :
    HAL * list hal_effect * result () :=
  let chargePointID := canonical h chargePointID in
  let h := touch h chargePointID in
  let '(h, effects, ok) := HandleV1StopTransaction (ev_handler e) h chargePointID request in
  (h, effects, if ok then inl () else inr (ErrOther "StopTransaction was not durably persisted")).

Definition OnDiagnosticsStatusNotification (h : HAL) (chargePointID : string) : HAL :=
  let chargePointID := canonical h chargePointID in
  touch (recordTriggerMessageFollowOn h chargePointID "DiagnosticsStatusNotification" 0 (ev_at e 0)) chargePointID.
Definition OnFirmwareStatusNotification (h : HAL) (chargePointID : string) : HAL :=
  let chargePointID := canonical h chargePointID in
  touch (recordTriggerMessageFollowOn h chargePointID "FirmwareStatusNotification" 0 (ev_at e 0)) chargePointID.
End handlers.

(** ** Charger operations

    The ledger of operations is a store of its own here ([Operations]); the HAL
    contributes its connections and the trace root of the operation. *)
Section operations.
Context `{HC : FactCodec, HJ : JsonView} {S : Type} `{OperationStore S} {Conf : Type}.
Implicit Types (h : HAL) (s : S).

Definition operation_connected (h : HAL) (op : V1ChargerOperation) : bool :=
  bool_decide (is_Some (current (h_connections h) (canonical h (op_ChargerOCPPIdentity op)))).
Definition operation_root (op : V1ChargerOperation) : V1Trace :=
  mkV1Trace (op_TraceID op) (op_CPOID op) "" "" "" (op_CMSOperationID op) (op_HALOperationID op) "" None
    (op_ChargerOCPPIdentity op) (op_OCPPConnectorNumber op) 0.

(** [HAL.DispatchV1ChargerOperation]: the HAL and the store, the operations
    handed to the charger, and Go's four results. *)
Definition DispatchV1ChargerOperation (e : hal_env) (env : Operations.dispatch_env Conf) (h : HAL) (s : S)
    (cmsOperationID : string) :
    HAL * (S * list V1ChargerOperation * (option V1ChargerOperation * option Conf * bool * option go_error)) :=
  match h_v1Store h, os_rows s !! cmsOperationID with
  | Some _, Some op =>
    if negb (operation_connected h op) then (h, (s, [], (Some op, None, false, None)))
    else
      let h := if decide (op_TraceID op ≠ "")
               then h <| h_traces ::= λ t, (EnsureV1Trace (ev_root e).1 (operation_root op) t).1 |> else h in
      (h, dispatchClaimedV1ChargerOperation env s cmsOperationID)
  | _, _ => (h, (s, [], (None, None, false, Some ErrV1OperationNotFound)))
  end.

(** [HAL.dispatchPendingV1ChargerOperationsForCharger] *)
Definition dispatchPendingV1ChargerOperationsForCharger (ctxErr : string → option go_error)
    (env : string → Operations.dispatch_env Conf) (h : HAL) (s : S) (chargerOCPPIdentity : string) :
    S * list V1ChargerOperation * option go_error :=
  match h_v1Store h with
  | None => (s, [], None)
  | Some _ => recoverDispatchableV1ChargerOperations ctxErr env (operation_connected h) s
                (canonical h chargerOCPPIdentity)
  end.

(** [HAL.DispatchPendingV1ChargerOperations]: one pass of the recovery worker,
    for the next of the connected chargers. *)
Definition DispatchPendingV1ChargerOperations (ctxErr : string → option go_error)
    (env : string → Operations.dispatch_env Conf) (h : HAL) (s : S) :
    HAL * (S * list V1ChargerOperation * option go_error) :=
  match h_v1Store h with
  | None => (h, (s, [], None))
  | Some _ =>
    let '(next, identity) := nextV1ChargerOperationRecoveryIdentity (h_connections h) (h_operationRecoveryNext h) in
    let h := h <| h_operationRecoveryNext := next |> in
    match identity with
    | None => (h, (s, [], None))
    | Some identity => (h, dispatchPendingV1ChargerOperationsForCharger ctxErr env h s identity)
    end
  end.

(** [runV1ChargerOperationRecoveryWorker]: a pass per tick until the context
    ends; [ended n] is what ctx.Err() says before pass [n]. *)
Fixpoint recovery_worker (n : nat) (ended : nat → bool)
    (pass : nat → HAL * S → HAL * S * list V1ChargerOperation) (ticks : nat) (w : HAL * S) :
    HAL * S * list V1ChargerOperation :=
  match ticks with
  | O => (w, [])
  | Datatypes.S ticks' =>
    if ended n then (w, [])
    else
      let '(w', sent) := pass n w in
      let '(w'', sent') := recovery_worker (Datatypes.S n) ended pass ticks' w' in (w'', sent ++ sent')
  end.
End operations.
