(* ===== verification/HalRuns.v ===== *)
(** * The HAL as a whole

    Whole runs of the HAL: any sequence of charger connections and messages,
    passes of its workers, API calls into the store and restarts.  The run
    implements the concurrent world of [HalStops] and the trace histories of
    [TraceHistory], so what these establish holds of the HAL; and what the
    diagnostics do never changes what it does otherwise. *)
From Stdlib Require Import String.
From stdpp Require Import base numbers decidable option list strings gmap.
From S2P Require Import Prelude GoText GoClock V1Types Evidence V1Memory PgSchema TraceData MemTraces PgTraces TraceHistory HalTraces PgMapping PgLifecycle StopLifecycle Histories Connections Registry HalStops Hal Reconcile HalMeter HalHandlers.
Open Scope Z_scope.

(** ** Runs *)
Inductive hal_input : Type :=
  | InValidate (wire : string) (path : option string)
  | InConnect (e : hal_env) (wire key addr : string)
  | InDisconnect (e : hal_env) (wire key : string)
  | InAuthorize (e : hal_env) (wire idTag : string)
  | InBoot (e : hal_env) (wire : string) (request : option BootNotificationRequest)
  | InDataTransfer (e : hal_env) (wire : string)
  | InHeartbeat (e : hal_env) (wire : string)
  | InStatus (e : hal_env) (wire : string) (request : StatusNotificationRequest)
  | InStart (e : hal_env) (wire : string) (request : StartTransactionRequest)
  | InMeter (e : hal_env) (wire : string) (request : MeterValuesRequest)
  | InStop (e : hal_env) (wire : string) (request : StopTransactionRequest)
  | InDiagnostics (e : hal_env) (wire : string)
  | InFirmware (e : hal_env) (wire : string)
  | InDispatchStop (e : dispatch_env) (ticks : nat → trace_tick) (id : string)   (* the API *)
  | InPendingStops (env : string → dispatch_env) (ticks : nat → trace_tick)      (* the workers *)
  | InDeadlines (now traced : Time) (generated : result string) (ks : list string)
      (env1 env2 : string → dispatch_env) (ticks : nat → trace_tick)
  | InRestart (now traced : Time) (generated : result string) (ks : list string)
      (env0 env1 env2 : string → dispatch_env) (ticks : nat → trace_tick)        (* and RecoverV1Lifecycle *)
  | InStore (c : store_call)                                                     (* the API *)
  | InTrace (c : trace_call).                                                    (* the observer, retention *)

Inductive hal_reply : Type :=
  | RNone
  | RAdmitted (ok : bool)
  | RConnected (recover : string)
  | RDisconnected (forgotten : option string)
  | RStatusText (status : string)
  | RBoot (conf : BootNotificationConfirmation) (scheduled : option (gmap string string))
  | RTime (now : Time)
  | RStart (conf : StartTransactionConfirmation)
  | RDone (r : result ())
  | RWorkflow (r : result V1StopWorkflow)
  | RPass (err : option go_error).

Section runs.
Context `{HC : FactCodec, HJ : JsonView}.

(** A worker's store, pending projections and effects, put into the HAL. *)
Definition with_pass (ticks : nat → trace_tick) (h : HAL) (s : pg) (p : pending) (effects : list hal_effect) : HAL :=
  h <| h_v1Store := Some s |> <| h_pendingRuntime := p |> <| h_traces ::= record_effects ticks effects |>.

Definition hal_step (h : HAL) (i : hal_input) : HAL * list hal_effect * hal_reply :=
  match i with
  | InValidate wire path => let '(h', ok) := OnValidate h wire path in (h', [], RAdmitted ok)
  | InConnect e wire key addr => let '(h', c) := OnConnect e h wire key addr in (h', [], RConnected c)
  | InDisconnect e wire key => let '(h', f) := OnDisconnect e h wire key in (h', [], RDisconnected f)
  | InAuthorize e wire idTag => let '(h', st) := OnAuthorize e h wire idTag in (h', [], RStatusText st)
  | InBoot e wire request => let '(h', conf, sch) := OnBootNotification e h wire request in (h', [], RBoot conf sch)
  | InDataTransfer e wire => let '(h', st) := OnDataTransfer e h wire in (h', [], RStatusText st)
  | InHeartbeat e wire => let '(h', now) := OnHeartbeat e h wire in (h', [], RTime now)
  | InStatus e wire request => let '(h', r) := OnStatusNotification e h wire request in (h', [], RDone r)
  | InStart e wire request => let '(h', conf) := OnStartTransaction e h wire request in (h', [], RStart conf)
  | InMeter e wire request => let '(h', eff, r) := OnMeterValues e h wire request in (h', eff, RDone r)
  | InStop e wire request => let '(h', eff, r) := OnStopTransaction e h wire request in (h', eff, RDone r)
  | InDiagnostics e wire => (OnDiagnosticsStatusNotification e h wire, [], RNone)
  | InFirmware e wire => (OnFirmwareStatusNotification e h wire, [], RNone)
  | InTrace c => (h <| h_traces ::= trace_exec c |>, [], RNone)
  | InStore c =>
    match h_v1Store h with
    | Some s => (h <| h_v1Store := Some (store_exec c s) |>, [], RNone)
    | None => (h, [], RNone)
    end
  | InDispatchStop e ticks id =>
    match h_v1Store h with
    | Some s => let '(s', eff, r) := DispatchV1Stop e s id in
                (with_pass ticks h s' (h_pendingRuntime h) eff, eff, RWorkflow r)
    | None => (h, [], RWorkflow (inr ErrV1TransactionNotFound))
    end
  | InPendingStops env ticks =>
    match h_v1Store h with
    | Some s => let '(s', eff) := DispatchPendingV1Stops env s in
                (with_pass ticks h s' (h_pendingRuntime h) eff, eff, RPass None)
    | None => (h, [], RPass None)
    end
  | InDeadlines now traced g ks env1 env2 ticks =>
    match h_v1Store h with
    | Some s => let '(s', p, eff, err) := EnforceV1Deadlines now traced g ks env1 env2 s (h_pendingRuntime h) in
                (with_pass ticks h s' p eff, eff, RPass err)
    | None => (h, [], RPass None)
    end
  | InRestart now traced g ks env0 env1 env2 ticks =>
    match h_v1Store h with
    | Some s => let '(s', p, eff, err) := RecoverV1Lifecycle now traced g ks env0 env1 env2 s ∅ in
                (with_pass ticks (New (Some s) (h_traces h)) s' p eff, eff, RPass err)
    | None => (New None (h_traces h), [], RPass None)
    end
  end.

(** The HAL and all it has sent and traced. *)
Definition run_step (w : HAL * list hal_effect) (i : hal_input) : HAL * list hal_effect :=
  let '(h', eff, _) := hal_step w.1 i in (h', w.2 ++ eff).
Definition boot_hal : HAL := New (Some pg_empty) trace_db_empty.
Definition hal_run (ins : list hal_input) : HAL * list hal_effect := fold_left run_step ins (boot_hal, []).

(** API calls are requests; a claim scans the table it runs on; only the
    HAL's windows append follow-on evidence. *)
Definition input_ok (h : HAL) (i : hal_input) : Prop :=
  match i with
  | InStore c => requests c = true ∧ ∀ s, h_v1Store h = Some s → call_ok c s
  | InTrace c => trace_call_ok c (h_traces h)
  | _ => True
  end.
Fixpoint inputs_ok (w : HAL * list hal_effect) (ins : list hal_input) : Prop :=
  match ins with [] => True | i :: rest => input_ok w.1 i ∧ inputs_ok (run_step w i) rest end.

(** ** What a step does to the store and the traces *)
Definition alone (s : pg) (sent : list string) : stop_world := mkstop_world s ∅ sent.
Definition sim (s : pg) (t : trace_db) (new : list string) (s' : pg) (t' : trace_db) : Prop :=
  ∃ es tcs, Forall (λ e, overlaps e = false) es ∧
    (∀ sent, events_ok (alone s sent) es ∧ fold_left dispatch_exec es (alone s sent) = alone s' (sent ++ new)) ∧
    trace_history_ok t tcs ∧ t' = trace_history t tcs.

Lemma events_ok_app w es es' :
  events_ok w es → events_ok (fold_left dispatch_exec es w) es' → events_ok w (es ++ es').
Proof. revert w. induction es as [|e es IH]; intros w; simpl; [done|]. intros [? ?] ?. auto. Qed.
Lemma trace_history_ok_app t tcs tcs' :
  trace_history_ok t tcs → trace_history_ok (trace_history t tcs) tcs' → trace_history_ok t (tcs ++ tcs').
Proof. revert t. induction tcs as [|c tcs IH]; intros t; simpl; [done|]. intros [? ?] ?. auto. Qed.
Lemma trace_history_app t tcs tcs' : trace_history t (tcs ++ tcs') = trace_history (trace_history t tcs) tcs'.
Proof. revert t. induction tcs as [|c tcs IH]; intros t; simpl; [done|]. apply IH. Qed.

Lemma sim_refl s t : sim s t [] s t.
Proof. exists [], []. split_and!; try done. intros sent. simpl. by rewrite app_nil_r. Qed.
Lemma sim_trans s1 t1 n1 s2 t2 n2 s3 t3 : sim s1 t1 n1 s2 t2 → sim s2 t2 n2 s3 t3 → sim s1 t1 (n1 ++ n2) s3 t3.
Proof.
  intros (es1 & tc1 & Ho1 & Hr1 & Hk1 & ->) (es2 & tc2 & Ho2 & Hr2 & Hk2 & ->).
  exists (es1 ++ es2), (tc1 ++ tc2). split_and!; [by apply Forall_app| |by apply trace_history_ok_app|by rewrite trace_history_app].
  intros sent. destruct (Hr1 sent) as [He1 Hf1]. destruct (Hr2 (sent ++ n1)) as [He2 Hf2].
  split; [apply events_ok_app; [done|by rewrite Hf1]|]. by rewrite fold_left_app, Hf1, Hf2, app_assoc.
Qed.
Lemma sim_call c s t : call_ok c s → requests c = true → sim s t [] (store_exec c s) t.
Proof.
  intros Hc Hr. exists [EvCall c], []. split_and!; [by repeat constructor| |done..].
  intros sent. cbn. rewrite Hr, app_nil_r. done.
Qed.
Lemma sim_trace c s t : trace_call_ok c t → sim s t [] s (trace_exec c t).
Proof. intros Hc. exists [], [c]. split_and!; [constructor| |done..]. intros sent. by rewrite app_nil_r. Qed.
Lemma sim_dispatch e s t id : sim s t (sent_of (DispatchV1Stop e s id).1.2) (DispatchV1Stop e s id).1.1 t.
Proof.
  exists (dispatch_calls e 0 id), []. split_and!; [by repeat constructor| |done..].
  intros sent. split; [by vm_compute|].
  pose proof (dispatch_calls_run e s id ∅ sent 0 eq_refl) as Hd. unfold alone.
  by destruct (DispatchV1Stop e s id) as [[s' eff] r].
Qed.
Lemma sim_restart now s t : sim s t [] (RecoverV1StopDelivery now s) t.
Proof. exists [EvRestart now], []. split_and!; [by repeat constructor| |done..]. intros sent. by rewrite app_nil_r. Qed.

(** The HAL appends no follow-on evidence of its own. *)
Definition plain_event (input : V1TraceEventInput) : Prop := evi_Category input ∉ follow_on_categories.
Definition effect_ok (x : hal_effect) : Prop := match x with Traced _ input => plain_event input | SentStop _ => True end.
Definition plain_categories : list string := ["OCPP_CALL"; "STATUS"; "LIFECYCLE"; "PERSISTENCE"; "METER"].
Lemma plain_category input : evi_Category input ∈ plain_categories → plain_event input.
Proof.
  unfold plain_event, plain_categories, follow_on_categories. intros Hin Hf.
  rewrite !elem_of_cons, elem_of_nil in *. naive_solver congruence.
Qed.
Ltac plain := apply plain_category; cbv [plain_categories]; simpl; rewrite !elem_of_cons; tauto.

Lemma sim_append s t now g id input : plain_event input → sim s t [] s (run_tx (AppendV1TraceEvent now g id input) t).1.
Proof. intros Hp. by apply (sim_trace (TAppend now g id input)). Qed.
Lemma sim_effects ticks l s t : Forall effect_ok l → sim s t [] s (record_effects ticks l t).
Proof.
  intros Hl. revert t. induction Hl as [|x l Hx Hl IH]; intros t; [apply sim_refl|].
  destruct x as [id|id input]; simpl; [apply IH|]. eapply (sim_trans _ _ []); [|apply IH].
  unfold recordV1Trace. destruct (FindV1TraceByTransaction t id); [|apply sim_refl]. by apply sim_append.
Qed.

Lemma dispatch_effects_ok e s id : Forall effect_ok (DispatchV1Stop e s id).1.2.
Proof.
  unfold DispatchV1Stop. repeat (case_match; simpl; try constructor); simpl;
    repeat (constructor || plain).
Qed.

(** *** The workers' passes *)
Definition pass_sim (s : pg) (t : trace_db) (s' : pg) (eff : list hal_effect) : Prop :=
  sim s t (sent_of eff) s' t ∧ Forall effect_ok eff.
Lemma pass_nil s t : pass_sim s t s [].
Proof. split; [apply sim_refl|constructor]. Qed.
Lemma pass_call c s t : call_ok c s → requests c = true → pass_sim s t (store_exec c s) [].
Proof. intros Hc Hr. split; [by apply sim_call|constructor]. Qed.
Lemma pass_app s t s1 l1 s2 l2 : pass_sim s t s1 l1 → pass_sim s1 t s2 l2 → pass_sim s t s2 (l1 ++ l2).
Proof. intros [? ?] [? ?]. split; [rewrite sent_of_app; by eapply sim_trans|by apply Forall_app]. Qed.
Lemma pass_dispatch e s t id : pass_sim s t (DispatchV1Stop e s id).1.1 (DispatchV1Stop e s id).1.2.
Proof. split; [apply sim_dispatch|apply dispatch_effects_ok]. Qed.
Lemma pass_traced s t id input : plain_event input → pass_sim s t s [Traced id input].
Proof. intros. split; [apply sim_refl|by repeat constructor]. Qed.

Lemma pass_each env s t ids : let '(s', eff) := dispatch_each env s ids in pass_sim s t s' eff.
Proof.
  revert s. induction ids as [|id ids IH]; intros s; simpl; [apply pass_nil|].
  pose proof (pass_dispatch (env id) s t id) as Hd. destruct (DispatchV1Stop (env id) s id) as [[s1 l1] r].
  specialize (IH s1). destruct (dispatch_each env s1 ids) as [s2 l2]. by eapply pass_app.
Qed.
Lemma pass_pending env s t : let '(s', eff) := DispatchPendingV1Stops env s in pass_sim s t s' eff.
Proof. apply pass_each. Qed.

Lemma pass_enforce now traced env s t ts : let '(s', eff, _) := enforce_each now traced env s ts in pass_sim s t s' eff.
Proof.
  revert s. induction ts as [|x ts IH]; intros s; simpl; [apply pass_nil|].
  destruct (v1DeadlineStopCause _ _) as [initiator reason].
  pose proof (pass_call (SEnsureStop now (tx_HALTransactionID x) initiator reason) s t I eq_refl) as He. cbn [store_exec] in He.
  destruct (run_tx (EnsureV1StopWorkflow now _ initiator reason) s) as [s1 [[w created]|err]]; [|done]. cbn [fst] in He.
  pose proof (pass_dispatch (env (tx_HALTransactionID x)) s1 t (tx_HALTransactionID x)) as Hd.
  destruct (DispatchV1Stop _ s1 _) as [[s2 l2] r]. cbn [fst snd] in Hd.
  specialize (IH s2). destruct (enforce_each now traced env s2 ts) as [[s3 l3] err].
  eapply (pass_app _ _ s1 (if created then _ else _)); [|by eapply pass_app].
  destruct created; [|done]. eapply (pass_app _ _ _ [] _ [_]); [done|]. apply pass_traced. plain.
Qed.

Lemma sim_record now g o s t : sim s t [] (record_projection now g o s).1 t.
Proof.
  pose proof (sim_call (SMapping (CallRecord now g (pr_identity o) (pr_generation o) (pr_online o) (pr_observedAt o))) s t I eq_refl) as Hc.
  unfold record_projection. cbn [store_exec mapping_exec] in Hc. by destruct (run_tx _ s) as [s' [?|?]].
Qed.
Lemma sim_persist now g o s t p : sim s t [] (persistRuntimeProjection (record_projection now g) o s p).1 t.
Proof.
  unfold persistRuntimeProjection. pose proof (sim_record now g o s t) as Hs.
  destruct (record_projection now g o s) as [s' [err|]]; [case_decide|]; done.
Qed.
Lemma sim_retry now g ks s t p : sim s t [] (retryRuntimeProjections (record_projection now g) ks s p).1 t.
Proof.
  unfold retryRuntimeProjections. generalize (omap (λ k, p !! k) ks). intros l. revert s p.
  induction l as [|o l IH]; intros s q; simpl; [apply sim_refl|].
  pose proof (sim_persist now g o s t q) as Hp. destruct (persistRuntimeProjection _ o s q) as [s1 q1].
  eapply (sim_trans _ _ []); [done|]. apply IH.
Qed.
Lemma pass_deadlines now traced g ks env1 env2 s t p :
  let '(s', _, eff, _) := EnforceV1Deadlines now traced g ks env1 env2 s p in pass_sim s t s' eff.
Proof.
  unfold EnforceV1Deadlines. pose proof (sim_retry now g ks s t p) as Hr.
  destruct (retryRuntimeProjections _ ks s p) as [s0 p']. cbn [fst] in Hr.
  pose proof (pass_enforce now traced env1 s0 t (ListV1OverdueTransactions s0 now 100)) as He.
  destruct (enforce_each _ _ _ _ _) as [[s1 l1] [err|]];
    [by apply (pass_app _ _ s0 []); [split; [done|constructor]|]|].
  pose proof (pass_pending env2 s1 t) as Hd. destruct (DispatchPendingV1Stops env2 s1) as [s2 l2].
  apply (pass_app _ _ s0 []); [split; [done|constructor]|]. by eapply pass_app.
Qed.
Lemma pass_recover now traced g ks env0 env1 env2 s t p :
  let '(s', _, eff, _) := RecoverV1Lifecycle now traced g ks env0 env1 env2 s p in pass_sim s t s' eff.
Proof.
  unfold RecoverV1Lifecycle. set (s1 := RecoverV1StopDelivery now _).
  assert (pass_sim s t s1 []) as H1.
  { split; [|constructor]. unfold s1, RecoverV1CommandDelivery. eapply (sim_trans _ _ []); [|apply sim_restart].
    eapply (sim_trans _ _ []); [by apply (sim_call (SRecoverPendingCommands now))|].
    by apply (sim_call (SRecoverAttemptedCommands now)). }
  pose proof (pass_pending env0 s1 t) as Hp. destruct (DispatchPendingV1Stops env0 s1) as [s2 l2].
  pose proof (pass_deadlines now traced g ks env1 env2 s2 t p) as Hd.
  destruct (EnforceV1Deadlines now traced g ks env1 env2 s2 p) as [[[s3 p'] l3] err].
  apply (pass_app _ _ s1 []); [done|]. by eapply pass_app.
Qed.

(** *** The callbacks *)
Definition hsim (h : HAL) (new : list string) (h' : HAL) : Prop :=
  ∀ s, h_v1Store h = Some s → ∃ s', h_v1Store h' = Some s' ∧ sim s (h_traces h) new s' (h_traces h').

Lemma hsim_same h h' : h_v1Store h' = h_v1Store h → h_traces h' = h_traces h → hsim h [] h'.
Proof. intros Hs Ht s E. exists s. rewrite Hs, Ht. split; [done|apply sim_refl]. Qed.
Lemma hsim_trans h1 n1 h2 n2 h3 : hsim h1 n1 h2 → hsim h2 n2 h3 → hsim h1 (n1 ++ n2) h3.
Proof.
  intros H1 H2 s E. destruct (H1 s E) as (s2 & E2 & Hs2). destruct (H2 s2 E2) as (s3 & E3 & Hs3).
  exists s3. split; [done|]. by eapply sim_trans.
Qed.
Lemma hsim_then h1 h2 n h3 : hsim h1 [] h2 → hsim h2 n h3 → hsim h1 n h3.
Proof. apply (hsim_trans h1 []). Qed.
Lemma hsim_pass ticks h s s' eff h' :
  h_v1Store h = Some s → pass_sim s (h_traces h) s' eff → h_v1Store h' = Some s' →
  h_traces h' = record_effects ticks eff (h_traces h) → hsim h (sent_of eff) h'.
Proof.
  intros E [Hs He] E' Ht s0 E0. rewrite E in E0. injection E0 as <-. exists s'. split; [done|]. rewrite Ht.
  rewrite <- (app_nil_r (sent_of eff)). eapply sim_trans; [done|]. by apply sim_effects.
Qed.
Lemma hsim_call c h s h' :
  h_v1Store h = Some s → call_ok c s → requests c = true → h_v1Store h' = Some (store_exec c s) →
  h_traces h' = h_traces h → hsim h [] h'.
Proof. intros E Hc Hr E' Ht. eapply (hsim_pass (λ _, (0, inr ErrV1InvalidEvidence)) _ _ _ []); [done|by apply pass_call|done..]. Qed.
Lemma hsim_traced h h' : h_v1Store h' = h_v1Store h → (∀ s, sim s (h_traces h) [] s (h_traces h')) → hsim h [] h'.
Proof. intros Hs Ht s E. exists s. by rewrite Hs. Qed.

Lemma hsim_touch e h c : hsim h [] (touch e h c).
Proof. by apply hsim_same. Qed.
Lemma hsim_follow e h c a n at_ : hsim h [] (recordTriggerMessageFollowOn e h c a n at_).
Proof.
  unfold recordTriggerMessageFollowOn. destruct (h_v1Store h) eqn:E; [|by apply hsim_same].
  case_decide; [by apply hsim_same|]. apply hsim_traced; [done|]. intros s. by apply (sim_trace (TRecord _ _ c a n _)).
Qed.
Lemma hsim_connector_trace e i h c n input : plain_event input → hsim h [] (connector_trace e i h c n input).
Proof.
  intros Hp. unfold connector_trace. destruct (h_v1Store h) as [s|] eqn:E; [|by apply hsim_same].
  apply hsim_traced; [done|]. intros s0. cbn. unfold recordV1ConnectorTrace.
  destruct (FindV1TraceForConnector _ _ _ _ _); [by apply sim_append|apply sim_refl].
Qed.
Lemma hsim_persist e h o : hsim h [] (persist e h o).
Proof.
  intros s E. unfold persist. rewrite E. pose proof (sim_persist (ev_stored e) (ev_gen e 0) o s (h_traces h) (h_pendingRuntime h)) as Hp.
  destruct (persistRuntimeProjection _ o s _) as [s' p]. exists s'. done.
Qed.
Lemma hsim_start_trace e tx request s t : sim s t [] s (start_trace e tx request t).
Proof.
  unfold start_trace. pose proof (sim_trace (TEnsureTransaction (ev_root e).1 (ev_root e).2 tx) s t I) as He.
  cbn [trace_exec] in He. destruct (EnsureV1TraceForTransaction _ _ tx t) as [t1 [trace|err]]; [|done].
  eapply (sim_trans _ _ []); [done|]. eapply (sim_trans _ _ []); [by apply (sim_trace (TBind (tr_TraceID trace) tx))|].
  eapply (sim_trans _ _ []); apply sim_append; plain.
Qed.

Lemma hsim_meter e h c request : hsim h (sent_of (HandleV1MeterValues e h c request).1.2) (HandleV1MeterValues e h c request).1.1.
Proof.
  unfold HandleV1MeterValues. cbv zeta. destruct (h_v1Store h) as [s|] eqn:E; [|by apply hsim_same].
  destruct (mr_TransactionId request) as [n|]; [|by apply hsim_same]. case_decide; [by apply hsim_same|].
  set (tel := extractV1MeterTelemetry _ _). case_decide; [by apply hsim_same|].
  pose proof (λ t, pass_call (STelemetry (he_now e) (he_gen e) (canonical h c) n tel) s t I eq_refl) as Hu. cbn [store_exec] in Hu.
  destruct (run_tx (UpdateV1TelemetryForOCPP _ _ _ _ _) s) as [s1 [[tx acc]|err]]; cbn [fst] in Hu.
  2:{ by apply (hsim_pass (he_ticks e) _ s s1 []). }
  assert (∀ t, pass_sim s1 t s1 [Traced (tx_HALTransactionID tx) (meter_event (he_traced e) tel)]) as Hm
    by (intros t; apply pass_traced; plain).
  destruct (tur_EnergyAccepted acc).
  2:{ destruct (tur_SoCAccepted acc); [|by apply (hsim_pass (he_ticks e) _ s s1 [])].
      eapply (hsim_pass (he_ticks e) _ s s1); [done|by apply (pass_app _ _ s1 [])|done..]. }
  destruct (GetV1StopWorkflow s1 _) as [wf|]; [|eapply (hsim_pass (he_ticks e) _ s s1); [done|by apply (pass_app _ _ s1 [])|done..]].
  case_decide; [|eapply (hsim_pass (he_ticks e) _ s s1); [done|by apply (pass_app _ _ s1 [])|done..]].
  pose proof (λ t, pass_dispatch (he_dispatch e) s1 t (tx_HALTransactionID tx)) as Hd.
  destruct (DispatchV1Stop _ s1 _) as [[s2 l2] r]. cbn [fst snd] in Hd.
  eapply (hsim_pass (he_ticks e) _ s s2); [done| |done..].
  apply (pass_app _ _ s1 []); [done|]. eapply (pass_app _ _ s1); [case_decide; [apply pass_traced; plain|apply pass_nil]|].
  eapply pass_app; [done|]. split; [apply sim_refl|]. by destruct (Hm trace_db_empty).
Qed.

Lemma hsim_stop e h c request : hsim h (sent_of (HandleV1StopTransaction e h c request).1.2) (HandleV1StopTransaction e h c request).1.1.
Proof.
  unfold HandleV1StopTransaction. cbv zeta. destruct (h_v1Store h) as [s|] eqn:E; [|by apply hsim_same].
  case_decide; [by apply hsim_same|]. destruct (GetV1TransactionByOCPP s _ _) as [tx|]; [|by apply hsim_same].
  set (id := tx_HALTransactionID tx). set (cAt := reported_time _ _).
  pose proof (λ t, pass_call (SComplete (he_now e) (he_gen e) id (sr_MeterStop request) (sr_Reason request) cAt (he_received e)) s t I eq_refl) as Hu.
  cbn [store_exec] in Hu.
  assert (∀ s1 t x y, Forall effect_ok [x; y] → sent_of [x; y] = [] → pass_sim s t s1 [] → pass_sim s t s1 [x; y]) as Happ.
  { intros s1 t x y Hx Hn [Hs _]. split; [by rewrite Hn|done]. }
  destruct (run_tx (CompleteV1Transaction _ _ _ _ _ _ _) s) as [s1 [done_|err]]; cbn [fst] in Hu;
    [destruct (tx_MeterStopWh done_)|].
  - eapply (hsim_pass (he_ticks e) _ s s1); [done| |done..]. apply Happ; [|done|done]. repeat (constructor || plain).
  - eapply (hsim_pass (he_ticks e) _ s s1); [done| |done..]. apply (pass_app _ _ s1 []); [done|]. apply pass_traced. plain.
  - eapply (hsim_pass (he_ticks e) _ s s1); [done| |done..]. apply Happ; [|done|done]. repeat (constructor || plain).
Qed.

Lemma hsim_boot e h c request : hsim h [] (OnBootNotification e h c request).1.1.
Proof.
  unfold OnBootNotification. cbv zeta. cbn [fst]. set (c' := canonical h c).
  eapply hsim_then; [apply (hsim_follow e h c' "BootNotification" 0 (ev_at e 0))|].
  set (h1 := recordTriggerMessageFollowOn _ _ _ _ _ _).
  eapply hsim_then; [apply (hsim_touch e h1 c')|]. set (h2 := touch e h1 c').
  destruct (h_v1Store h2) as [s|] eqn:E; [|by apply hsim_same]. destruct request as [r|]; [|by apply hsim_same].
  by apply (hsim_call (SMapping (CallBoot c' (boot_evidence e h2 c' r))) _ s).
Qed.
Lemma hsim_heartbeat e h c : hsim h [] (OnHeartbeat e h c).1.
Proof.
  unfold OnHeartbeat. cbv zeta. cbn [fst]. set (c' := canonical h c).
  eapply hsim_then; [apply (hsim_follow e h c' "Heartbeat" 0 (ev_at e 0))|].
  set (h1 := recordTriggerMessageFollowOn _ _ _ _ _ _).
  eapply hsim_then; [apply (hsim_touch e h1 c')|]. set (h2 := touch e h1 c').
  destruct (h_v1Store h2) as [s|] eqn:E; [|by apply hsim_same].
  destruct (current _ c') as [r|]; [|by apply hsim_same].
  by apply (hsim_call (SMapping (CallRenew (ev_stored e) (ev_gen e 0) c' (Int64.wrap64 (cr_Generation r)) (ev_at e 1))) _ s).
Qed.
Lemma hsim_status e h c request : hsim h [] (OnStatusNotification e h c request).1.
Proof.
  unfold OnStatusNotification. cbv zeta. set (c' := canonical h c). destruct (h_v1Store h) as [s|] eqn:E; [|by apply hsim_same].
  eapply hsim_then; [apply (hsim_follow e h c' "StatusNotification" (sn_ConnectorId request) (ev_at e 0))|].
  set (h1 := recordTriggerMessageFollowOn _ _ _ _ _ _).
  assert (h_v1Store h1 = Some s) as E1.
  { unfold h1, recordTriggerMessageFollowOn. rewrite E. by case_decide. }
  set (r := connector_runtime c' request _).
  pose proof (λ h', hsim_call (SMapping (CallStatus (ev_stored e) (ev_at e 1) (ev_gen e 0) r)) h1 s h' E1 I eq_refl) as Hc.
  cbn [store_exec mapping_exec] in Hc.
  destruct (run_tx (RecordV1ConnectorStatus _ _ _ r) s) as [s1 [u|err]]; cbn [fst] in *; [|by apply Hc].
  eapply hsim_then; [by apply (Hc (h1 <| h_v1Store := Some s1 |>))|].
  apply hsim_traced; unfold status_trace; destruct (FindV1TraceForConnector _ _ _ _ _) as [trace|]; try done;
    [by destruct (connectorStatusTracePhase _ _)| |intros; apply sim_refl].
  intros s0. destruct (connectorStatusTracePhase _ _); [|apply sim_refl]. apply sim_append. plain.
Qed.
Lemma hsim_start e h c request : hsim h [] (OnStartTransaction e h c request).1.
Proof.
  unfold OnStartTransaction. cbv zeta. set (c' := canonical h c).
  eapply hsim_then; [apply (hsim_touch e h c')|]. set (h1 := touch e h c').
  destruct (h_v1Store h1) as [s|] eqn:E; [|by apply hsim_same]. destruct (HasPrefix _ _); cbn [negb]; [|by apply hsim_same].
  pose proof (λ h', hsim_call (SMaterialize (ev_stored e) (ev_gen e) (materialization_input e c' request)) h1 s h' E I eq_refl) as Hc.
  cbn [store_exec] in Hc.
  destruct (run_tx (MaterializeV1Start _ _ _) s) as [s1 [[tx b]|err]]; cbn [fst] in *; [|by apply Hc].
  eapply hsim_then; [by apply (Hc (h1 <| h_v1Store := Some s1 |>))|].
  apply hsim_traced; [done|]. intros s0. apply hsim_start_trace.
Qed.
Lemma hsim_authorize e h c idTag : hsim h [] (OnAuthorize e h c idTag).1.
Proof.
  unfold OnAuthorize. cbv zeta. eapply hsim_then; [apply (hsim_touch e h (canonical h c))|].
  destruct (h_v1Store _) as [s|]; [|by apply hsim_same]. destruct (GetV1Credential s idTag) as [cr|]; [|by apply hsim_same].
  eapply hsim_then; apply hsim_connector_trace; plain.
Qed.

Lemma hal_step_sim h i :
  input_ok h i → hsim h (sent_of (hal_step h i).1.2) (hal_step h i).1.1.
Proof.
  intros Hi. destruct i; cbn [hal_step] in *.
  - unfold OnValidate. destruct (validateIncomingCharger _ _ _ _). by apply hsim_same.
  - unfold OnConnect. destruct (Connections.register _ _ _ _ _) as [tr [cur prev]]. cbv zeta. cbn [fst snd].
    eapply hsim_then; [|apply hsim_persist]. by apply hsim_same.
  - unfold OnDisconnect. destruct (unregisterIfCurrent _ _ _) as [tr [[|] [cur|]]]; try (by apply hsim_same). cbv zeta. cbn [fst snd].
    eapply (hsim_then _ (h <| h_connections := tr |> <| h_registry ::= λ r, MarkOffline r (ev_registry e) (canonical h wire) |>));
      [by apply hsim_same|]. eapply hsim_then; [apply hsim_persist|]. by apply hsim_same.
  - pose proof (hsim_authorize e h wire idTag) as Hs. by destruct (OnAuthorize e h wire idTag).
  - pose proof (hsim_boot e h wire request) as Hs. by destruct (OnBootNotification e h wire request) as [[]].
  - by apply hsim_same.
  - pose proof (hsim_heartbeat e h wire) as Hs. by destruct (OnHeartbeat e h wire).
  - pose proof (hsim_status e h wire request) as Hs. by destruct (OnStatusNotification e h wire request).
  - pose proof (hsim_start e h wire request) as Hs. by destruct (OnStartTransaction e h wire request).
  - unfold OnMeterValues. set (h1 := recordTriggerMessageFollowOn _ _ _ _ _ _).
    pose proof (hsim_meter (ev_handler e) (touch e h1 (canonical h wire)) (canonical h wire) request) as Hs.
    destruct (HandleV1MeterValues _ _ _ _) as [[h2 eff] r]. cbn [fst snd] in *.
    eapply hsim_then; [apply hsim_follow|]. eapply hsim_then; [apply hsim_touch|done].
  - unfold OnStopTransaction. pose proof (hsim_stop (ev_handler e) (touch e h (canonical h wire)) (canonical h wire) request) as Hs.
    destruct (HandleV1StopTransaction _ _ _ _) as [[h2 eff] r]. cbn [fst snd] in *. eapply hsim_then; [apply hsim_touch|done].
  - eapply hsim_then; [apply hsim_follow|apply hsim_touch].
  - eapply hsim_then; [apply hsim_follow|apply hsim_touch].
  - destruct (h_v1Store h) as [s|] eqn:E; [|by apply hsim_same]. pose proof (pass_dispatch e s (h_traces h) id) as Hd.
    destruct (DispatchV1Stop e s id) as [[s' eff] r]. by eapply (hsim_pass ticks).
  - destruct (h_v1Store h) as [s|] eqn:E; [|by apply hsim_same]. pose proof (pass_pending env s (h_traces h)) as Hd.
    destruct (DispatchPendingV1Stops env s) as [s' eff]. by eapply (hsim_pass ticks).
  - destruct (h_v1Store h) as [s|] eqn:E; [|by apply hsim_same].
    pose proof (pass_deadlines now traced generated ks env1 env2 s (h_traces h) (h_pendingRuntime h)) as Hd.
    destruct (EnforceV1Deadlines _ _ _ _ _ _ s _) as [[[s' p] eff] err]. by eapply (hsim_pass ticks).
  - destruct (h_v1Store h) as [s|] eqn:E; [|by apply hsim_same].
    pose proof (pass_recover now traced generated ks env0 env1 env2 s (h_traces h) ∅) as Hd.
    destruct (RecoverV1Lifecycle _ _ _ _ _ _ _ s ∅) as [[[s' p] eff] err]. by eapply (hsim_pass ticks).
  - destruct (h_v1Store h) as [s|] eqn:E; [|by apply hsim_same]. destruct Hi as [Hr' Hc]. by eapply hsim_call; [|apply Hc| | |].
  - apply hsim_traced; [done|]. intros s. by apply sim_trace.
Qed.

(** *** Whole runs *)
Lemma runs_sim ins : ∀ w s,
  inputs_ok w ins → h_v1Store w.1 = Some s →
  ∃ s' eff, h_v1Store (fold_left run_step ins w).1 = Some s' ∧ (fold_left run_step ins w).2 = w.2 ++ eff ∧
    sim s (h_traces w.1) (sent_of eff) s' (h_traces (fold_left run_step ins w).1).
Proof.
  induction ins as [|i ins IH]; intros w s; simpl.
  - intros _ E. exists s, []. rewrite app_nil_r. split_and!; [done..|apply sim_refl].
  - intros [Hi Hins] E. destruct (hal_step_sim w.1 i Hi s E) as (s1 & E1 & H1).
    assert (run_step w i = ((hal_step w.1 i).1.1, w.2 ++ (hal_step w.1 i).1.2)) as Hw
      by (unfold run_step; by destruct (hal_step w.1 i) as [[h1 eff1] r]).
    rewrite Hw in *. clear Hw. destruct (hal_step w.1 i) as [[h1 eff1] r]. cbn [fst snd] in *.
    destruct (IH (h1, w.2 ++ eff1) s1 Hins E1) as (s' & eff & E' & Hl & H2). cbn [fst snd] in *.
    exists s', (eff1 ++ eff). split_and!; [done|by rewrite Hl, app_assoc|]. rewrite sent_of_app. by eapply sim_trans.
Qed.

(** The tables of a concurrent world are those of a history of store calls. *)
Definition is_history (s s' : pg) : Prop := ∃ cs, history_ok s cs ∧ (history s cs).1 = s'.
Lemma is_history_refl s : is_history s s.
Proof. by exists []. Qed.
Lemma is_history_call c s : call_ok c s → is_history s (store_exec c s).
Proof. intros Hc. exists [c]. done. Qed.
Lemma is_history_trans s1 s2 s3 : is_history s1 s2 → is_history s2 s3 → is_history s1 s3.
Proof.
  intros (cs1 & Hok1 & <-) (cs2 & Hok2 & <-). exists (cs1 ++ cs2). split; [by apply history_ok_app|].
  clear Hok2. revert s1 Hok1. induction cs1 as [|c cs1 IH]; intros s1 Hok1; simpl; [done|]. destruct Hok1 as [_ Hok1].
  specialize (IH _ Hok1). destruct (history (store_exec c s1) cs1) as [sa na], (history (store_exec c s1) (cs1 ++ cs2)). done.
Qed.
Lemma world_history es : ∀ w, events_ok w es → is_history (sw_db w) (sw_db (fold_left dispatch_exec es w)).
Proof.
  induction es as [|e es IH]; intros w; simpl; [intros; apply is_history_refl|]. intros [He Hes].
  eapply is_history_trans; [|by apply IH]. clear IH Hes. destruct w as [s ws sent].
  assert (∀ now, is_history s (RecoverV1StopDelivery now s)) as Hrec.
  { intros now. eapply is_history_trans; [by apply (is_history_call (SRecoverPendingStops now))|].
    by apply (is_history_call (SRecoverAttemptedStops now)). }
  destruct e as [i now id|i now|i|i|i answer|i now gen|i|c|now|now]; cbn [dispatch_exec];
    try (repeat case_match; simplify_eq/=; by apply is_history_refl || by apply Hrec).
  - destruct (ws !! i); [apply is_history_refl|]. pose proof (is_history_call (SClaimStop now id) s I) as Hc. cbn [store_exec] in Hc.
    by destruct (run_tx (ClaimV1StopDelivery now id) s) as [s' [[]|]].
  - destruct (ws !! i) as [[id []]|]; try apply is_history_refl.
    pose proof (is_history_call (SBeginStop now id) s I) as Hc. cbn [store_exec] in Hc.
    by destruct (run_tx (BeginV1StopDelivery now id) s) as [s' []].
  - destruct (ws !! i) as [[id [| | | |st r d]]|]; try apply is_history_refl.
    by apply (is_history_call (SMarkStop now gen id st r d) s I).
  - destruct (requests c); [by apply is_history_call|apply is_history_refl].
Qed.

Lemma hal_run_sim ins :
  inputs_ok (boot_hal, []) ins →
  ∃ s es tcs, h_v1Store (hal_run ins).1 = Some s ∧ events_ok empty_world es ∧ Forall (λ e, overlaps e = false) es ∧
    world_run es = mkstop_world s ∅ (sent_of (hal_run ins).2) ∧
    trace_history_ok trace_db_empty tcs ∧ h_traces (hal_run ins).1 = trace_history trace_db_empty tcs.
Proof.
  intros Hok. destruct (runs_sim ins (boot_hal, []) pg_empty Hok eq_refl) as (s & eff & E & Hl & es & tcs & Ho & Hr & Hk & Ht).
  destruct (Hr []) as [He Hf]. exists s, es, tcs. unfold hal_run in *. rewrite Hl. split_and!; done.
Qed.
End runs.

(** What holds of all that simulates a run from the empty database. *)
Lemma sim_guarantees `{HC : FactCodec, HJ : JsonView} sent s t :
  sim pg_empty trace_db_empty sent s t →
  (NoDup sent ∧ ∀ id, id ∈ sent → life_at settled_life s id) ∧
  (∀ id q, has_fact s completed_fact id q ↔ q = None ∧ completed s id) ∧ facts_distinct s completed_fact ∧
  trace_ok t.
Proof.
  intros (es & tcs & Ho & Hr & Hk & ->). destruct (Hr []) as [He Hw].
  destruct (world_runs _ _ empty_world_inv He Ho) as [Hlo _ _ _ Hs Hn].
  change (fold_left dispatch_exec es empty_world) with (fold_left dispatch_exec es (alone pg_empty [])) in *.
  rewrite Hw in Hlo, Hs, Hn. destruct Hlo as (_ & _ & Hd & Hc). split_and!; try done.
  - intros id q. by destruct (Hc id).
  - by apply trace_history_ok_inv; [|apply trace_ok_empty].
Qed.

(** C8: The HAL implements the models its parts are verified in: whatever
    connections, messages, API calls, worker passes and restarts it is given,
    its RemoteStops and its store are those of a run of the concurrent
    deliverers without an overlap, its store is reached by a history of store
    calls, and its diagnostic tables by a history of trace calls. *)
Theorem hal_implements `{HC : FactCodec, HJ : JsonView} (ins : list hal_input) :
  inputs_ok (boot_hal, []) ins →
  let h := (hal_run ins).1 in
  ∃ s es cs tcs,
    h_v1Store h = Some s ∧
    (events_ok empty_world es ∧ Forall (λ e, overlaps e = false) es ∧
     world_run es = mkstop_world s ∅ (sent_of (hal_run ins).2)) ∧
    (history_ok pg_empty cs ∧ s = (history pg_empty cs).1) ∧
    trace_history_ok trace_db_empty tcs ∧ h_traces h = trace_history trace_db_empty tcs.
Proof.
  intros Hok. destruct (hal_run_sim ins Hok) as (s & es & tcs & E & He & Ho & Hw & Hk & Ht).
  destruct (world_history es empty_world He) as (cs & Hcs & Hs).
  exists s, es, cs, tcs. split_and!; try done. change (fold_left dispatch_exec es empty_world) with (world_run es) in Hs.
  rewrite Hw in Hs. by symmetry.
Qed.

(** End to end, no charge is stopped or billed twice: over any run of the
    HAL each transaction is sent RemoteStop at most once, each completed
    transaction has exactly one completion fact and no other has any, and
    every TriggerMessage window has exactly the follow-on evidence its state
    says. *)
Theorem hal_end_to_end `{HC : FactCodec, HJ : JsonView} (ins : list hal_input) (s : pg) :
  inputs_ok (boot_hal, []) ins → h_v1Store (hal_run ins).1 = Some s →
  NoDup (sent_of (hal_run ins).2) ∧
  (∀ id, id ∈ sent_of (hal_run ins).2 → life_at settled_life s id) ∧
  (∀ id q, has_fact s completed_fact id q ↔ q = None ∧ completed s id) ∧ facts_distinct s completed_fact ∧
  trace_ok (h_traces (hal_run ins).1).
Proof.
  intros Hok E. destruct (runs_sim ins (boot_hal, []) pg_empty Hok eq_refl) as (s' & eff & E' & Hl & Hs).
  change (fold_left run_step ins (boot_hal, [])) with (hal_run ins) in *. rewrite E in E'. injection E' as <-.
  rewrite Hl. destruct (sim_guarantees _ _ _ Hs) as ([? ?] & ? & ? & ?). done.
Qed.

(** ** Diagnostics

    The trace tables can hold anything, and observer and retention can run at
    any time: nothing else of the HAL depends on it. *)
Section inert.
Context `{HC : FactCodec, HJ : JsonView}.

(** Two HALs that differ in their trace tables at most. *)
Definition alike (h1 h2 : HAL) : Prop := h1 <| h_traces := trace_db_empty |> = h2 <| h_traces := trace_db_empty |>.
#[local] Infix "≈" := alike (at level 70).
#[global] Instance alike_equivalence : Equivalence alike.
Proof. split; unfold alike; [by intros h|by intros h1 h2|intros h1 h2 h3; congruence]. Qed.
Lemma alike_inv h1 h2 : h1 ≈ h2 → ∃ t, h2 = h1 <| h_traces := t |>.
Proof. destruct h1, h2. unfold alike. cbn. intros [=]. subst. by eexists. Qed.
Lemma alike_tables h t : h ≈ h <| h_traces := t |>.
Proof. by destruct h. Qed.

Definition is_trace (i : hal_input) : bool := match i with InTrace _ => true | _ => false end.

(** A run with what it does and answers to its inputs, those of the
    diagnostics apart. *)
Fixpoint hal_answers (h : HAL) (ins : list hal_input) : HAL * list (list hal_effect * hal_reply) :=
  match ins with
  | [] => (h, [])
  | i :: rest =>
    let '(h1, eff, r) := hal_step h i in
    let '(h2, a) := hal_answers h1 rest in
    (h2, if is_trace i then a else (eff, r) :: a)
  end.

#[local] Notation agree := (prod_relation alike eq).
Ltac alike_start := intros [st1 tr1 rg1 cn1 pe1 wi1 ne1 hb1 me1 to1 vp1 vv1] ? (t & ->)%alike_inv.
Ltac alike_cases :=
  unfold touch, canonical; cbv [set_field]; cbn;
  repeat (first [done | split; done | case_match; simplify_eq; cbn]).

#[local] Instance touch_alike e : Proper (alike ==> eq ==> alike) (touch e).
Proof. alike_start. by intros c ? <-. Qed.
#[local] Instance follow_alike e :
  Proper (alike ==> eq ==> eq ==> eq ==> eq ==> alike) (recordTriggerMessageFollowOn e).
Proof. alike_start. intros c ? <- a ? <- n ? <- at_ ? <-. unfold recordTriggerMessageFollowOn. alike_cases. Qed.
#[local] Instance connector_trace_alike e i :
  Proper (alike ==> eq ==> eq ==> eq ==> alike) (connector_trace e i).
Proof. alike_start. intros c ? <- n ? <- x ? <-. unfold connector_trace. alike_cases. Qed.
#[local] Instance persist_alike e : Proper (alike ==> eq ==> alike) (persist e).
Proof. alike_start. intros o ? <-. unfold persist. alike_cases. Qed.
#[local] Instance status_trace_alike e : Proper (alike ==> eq ==> eq ==> eq ==> eq ==> alike) (status_trace e).
Proof. alike_start. intros s ? <- c ? <- r ? <- at_ ? <-. unfold status_trace. alike_cases. Qed.

Lemma alike_canonical h1 h2 c : h1 ≈ h2 → canonical h1 c = canonical h2 c.
Proof. by intros (t & ->)%alike_inv. Qed.
(** The steps a handler starts with, passed over. *)
Ltac alike_prefix :=
  lazymatch goal with
  | |- context [touch ?e (recordTriggerMessageFollowOn ?e ?h1 ?c ?a ?n ?w) ?c] =>
    generalize (touch_alike e _ _ (follow_alike e h1 _ ltac:(eassumption) c c eq_refl a a eq_refl n n eq_refl w w eq_refl) c c eq_refl);
    generalize (touch e (recordTriggerMessageFollowOn e h1 c a n w) c);
    lazymatch goal with |- context [touch e (recordTriggerMessageFollowOn e ?h2 c a n w) c] =>
      generalize (touch e (recordTriggerMessageFollowOn e h2 c a n w) c) end;
    let h2 := fresh in let h1 := fresh in intros h2 h1; revert h1 h2
  end.

Lemma boot_alike e c request : Proper (alike ==> prod_relation agree eq) (λ h, OnBootNotification e h c request).
Proof.
  intros h1 h2 Hh. unfold OnBootNotification. rewrite (alike_canonical _ _ c Hh). alike_prefix. alike_start.
  unfold boot_evidence, scheduleConfigurationReconciliation, desiredConfiguration. alike_cases.
Qed.
Lemma heartbeat_alike e c : Proper (alike ==> prod_relation alike eq) (λ h, OnHeartbeat e h c).
Proof.
  intros h1 h2 Hh. unfold OnHeartbeat. rewrite (alike_canonical _ _ c Hh). alike_prefix. alike_start. alike_cases.
Qed.
Lemma meter_alike e c request : Proper (alike ==> prod_relation agree eq) (λ h, HandleV1MeterValues e h c request).
Proof. alike_start. unfold HandleV1MeterValues. alike_cases. Qed.
Lemma stop_alike e c request : Proper (alike ==> prod_relation agree eq) (λ h, HandleV1StopTransaction e h c request).
Proof. alike_start. unfold HandleV1StopTransaction. alike_cases. Qed.
Lemma status_alike e c request : Proper (alike ==> prod_relation alike eq) (λ h, OnStatusNotification e h c request).
Proof.
  intros h1 h2 Hh. unfold OnStatusNotification. rewrite (alike_canonical _ _ c Hh).
  assert (h_v1Store h1 = h_v1Store h2) as -> by (by destruct (alike_inv _ _ Hh) as (t & ->)).
  destruct (h_v1Store h2) as [s|]; [|by split].
  generalize (follow_alike e _ _ Hh (canonical h2 c) _ eq_refl "StatusNotification" _ eq_refl (sn_ConnectorId request) _ eq_refl (ev_at e 0) _ eq_refl).
  generalize (recordTriggerMessageFollowOn e h1 (canonical h2 c) "StatusNotification" (sn_ConnectorId request) (ev_at e 0)).
  generalize (recordTriggerMessageFollowOn e h2 (canonical h2 c) "StatusNotification" (sn_ConnectorId request) (ev_at e 0)).
  intros g2 g1 Hg. destruct (run_tx _ s) as [s' [u|err]].
  - assert (g1 <| h_v1Store := Some s' |> ≈ g2 <| h_v1Store := Some s' |>) as Hs
      by (destruct (alike_inv _ _ Hg) as (t & ->); by destruct g1).
    pose proof (status_trace_alike e _ _ Hs s' _ eq_refl (canonical h2 c) _ eq_refl request _ eq_refl (ev_at e 0) _ eq_refl) as Hk.
    revert Hk. generalize (status_trace e (g1 <| h_v1Store := Some s' |>) s' (canonical h2 c) request (ev_at e 0)).
    generalize (status_trace e (g2 <| h_v1Store := Some s' |>) s' (canonical h2 c) request (ev_at e 0)).
    intros k2 k1 (t & ->)%alike_inv. split; [by destruct k1|done].
  - split; [|done]. destruct (alike_inv _ _ Hg) as (t & ->). by destruct g1.
Qed.

Lemma wired_alike f h1 h2 : h1 ≈ h2 → h1 <| h_wiredIdentity ::= f |> ≈ h2 <| h_wiredIdentity ::= f |>.
Proof. intros (t & ->)%alike_inv. by destruct h1. Qed.
Lemma validate_alike wire path : Proper (alike ==> prod_relation alike eq) (λ h, OnValidate h wire path).
Proof. alike_start. unfold OnValidate. alike_cases. Qed.
Lemma connect_alike e wire key addr : Proper (alike ==> prod_relation alike eq) (λ h, OnConnect e h wire key addr).
Proof. alike_start. unfold OnConnect, persist. alike_cases. Qed.
Lemma disconnect_alike e wire key : Proper (alike ==> prod_relation alike eq) (λ h, OnDisconnect e h wire key).
Proof.
  intros h1 h2 Hh. unfold OnDisconnect. rewrite (alike_canonical _ _ wire Hh).
  assert (h_connections h1 = h_connections h2) as -> by (by destruct (alike_inv _ _ Hh) as (t & ->)).
  destruct (unregisterIfCurrent _ _ _) as [tr [[|] [cur|]]]; try (by split). split; [|done]. cbv zeta. cbn [fst].
  apply wired_alike, persist_alike; [|done]. destruct (alike_inv _ _ Hh) as (t & ->). by destruct h1.
Qed.
Lemma authorize_alike e wire idTag : Proper (alike ==> prod_relation alike eq) (λ h, OnAuthorize e h wire idTag).
Proof. alike_start. unfold OnAuthorize, connector_trace. alike_cases. Qed.
Lemma start_alike e wire request : Proper (alike ==> prod_relation alike eq) (λ h, OnStartTransaction e h wire request).
Proof. alike_start. unfold OnStartTransaction. alike_cases. Qed.
Lemma on_meter_alike e wire request : Proper (alike ==> prod_relation agree eq) (λ h, OnMeterValues e h wire request).
Proof.
  intros h1 h2 Hh. unfold OnMeterValues. rewrite (alike_canonical _ _ wire Hh). alike_prefix. intros g1 g2 Hg.
  pose proof (meter_alike (ev_handler e) (canonical h2 wire) request g1 g2 Hg) as Hb. simpl in Hb.
  destruct (HandleV1MeterValues _ g1 _ _) as [[a1 b1] c1], (HandleV1MeterValues _ g2 _ _) as [[a2 b2] c2].
  destruct Hb as [[Ha Hb] Hc]. simpl in *. by subst.
Qed.
Lemma on_stop_alike e wire request : Proper (alike ==> prod_relation agree eq) (λ h, OnStopTransaction e h wire request).
Proof.
  intros h1 h2 Hh. unfold OnStopTransaction. rewrite (alike_canonical _ _ wire Hh).
  pose proof (stop_alike (ev_handler e) (canonical h2 wire) request _ _
    (touch_alike e h1 h2 Hh (canonical h2 wire) _ eq_refl)) as Hb. simpl in Hb.
  destruct (HandleV1StopTransaction _ _ _ _) as [[a1 b1] c1], (HandleV1StopTransaction _ (touch e h2 _) _ _) as [[a2 b2] c2].
  destruct Hb as [[Ha Hb] Hc]. simpl in *. by subst.
Qed.
Lemma with_pass_alike ticks h1 h2 s p l : h1 ≈ h2 → with_pass ticks h1 s p l ≈ with_pass ticks h2 s p l.
Proof. intros (t & ->)%alike_inv. by destruct h1. Qed.
Lemma traces_alike h1 h2 f : h1 ≈ h2 → h1 <| h_traces ::= f |> ≈ h2 <| h_traces ::= f |>.
Proof. intros (t & ->)%alike_inv. by destruct h1. Qed.

(** Applies a handler's lemma to a step. *)
Ltac alike_pair H :=
  let Hb := fresh in pose proof (H _ _ ltac:(eassumption)) as Hb; cbv beta in Hb;
  lazymatch type of Hb with prod_relation _ _ ?x ?y =>
    destruct x, y; destruct Hb as [? ?]; simpl in *; subst; done end.
Ltac alike_triple H :=
  let Hb := fresh in pose proof (H _ _ ltac:(eassumption)) as Hb; cbv beta in Hb;
  lazymatch type of Hb with prod_relation _ _ ?x ?y =>
    destruct x as [[? ?] ?], y as [[? ?] ?]; destruct Hb as [[? ?] ?]; simpl in *; subst; done end.
Lemma hal_step_alike : Proper (alike ==> eq ==> prod_relation agree eq) hal_step.
Proof.
  intros h1 h2 Hh i ? <-. pose proof (alike_inv _ _ Hh) as (t & Ht).
  assert (h_v1Store h1 = h_v1Store h2 ∧ h_pendingRuntime h1 = h_pendingRuntime h2) as [Est Epe] by (by rewrite Ht).
  destruct i; cbn [hal_step].
  - alike_pair (validate_alike wire path).
  - alike_pair (connect_alike e wire key addr).
  - alike_pair (disconnect_alike e wire key).
  - alike_pair (authorize_alike e wire idTag).
  - alike_triple (boot_alike e wire request).
  - unfold OnDataTransfer. rewrite (alike_canonical _ _ wire Hh). split; [|done]. split; [by apply touch_alike|done].
  - alike_pair (heartbeat_alike e wire).
  - alike_pair (status_alike e wire request).
  - alike_pair (start_alike e wire request).
  - alike_triple (on_meter_alike e wire request).
  - alike_triple (on_stop_alike e wire request).
  - unfold OnDiagnosticsStatusNotification. rewrite (alike_canonical _ _ wire Hh). split; [|done]. split; [|done].
    apply touch_alike; [by apply follow_alike|done].
  - unfold OnFirmwareStatusNotification. rewrite (alike_canonical _ _ wire Hh). split; [|done]. split; [|done].
    apply touch_alike; [by apply follow_alike|done].
  - rewrite Est, Epe. destruct (h_v1Store h2); [|done]. destruct (DispatchV1Stop _ _ _) as [[]].
    split; [|done]. split; [by apply with_pass_alike|done].
  - rewrite Est, Epe. destruct (h_v1Store h2); [|done]. destruct (DispatchPendingV1Stops _ _) as [].
    split; [|done]. split; [by apply with_pass_alike|done].
  - rewrite Est, Epe. destruct (h_v1Store h2); [|done]. destruct (EnforceV1Deadlines _ _ _ _ _ _ _ _) as [[[]]].
    split; [|done]. split; [by apply with_pass_alike|done].
  - rewrite Est. destruct (h_v1Store h2); [|done]. destruct (RecoverV1Lifecycle _ _ _ _ _ _ _ _ _) as [[[]]].
    split; [|done]. split; [by apply with_pass_alike|done].
  - rewrite Est. destruct (h_v1Store h2); [|done]. split; [|done]. split; [|done]. rewrite Ht. by destruct h1.
  - split; [|done]. split; [by apply traces_alike|done].
Qed.

Lemma hal_answers_alike ins : ∀ h1 h2, h1 ≈ h2 →
  (hal_answers h1 ins).1 ≈ (hal_answers h2 (filter (λ i, is_trace i = false) ins)).1 ∧
  (hal_answers h1 ins).2 = (hal_answers h2 (filter (λ i, is_trace i = false) ins)).2.
Proof.
  induction ins as [|i ins IH]; intros h1 h2 Hh; [done|]. rewrite filter_cons. cbn [hal_answers].
  destruct (is_trace i) eqn:Hi.
  - rewrite decide_False by done. destruct i; try discriminate Hi. cbn [hal_step].
    specialize (IH (h1 <| h_traces ::= trace_exec c |>) h2). destruct (hal_answers _ ins) as [h3 a].
    apply IH. rewrite <- Hh. symmetry. by destruct h1.
  - rewrite decide_True by done. cbn [hal_answers]. pose proof (hal_step_alike h1 h2 Hh i i eq_refl) as Hs.
    destruct (hal_step h1 i) as [[k1 e1] r1], (hal_step h2 i) as [[k2 e2] r2]. destruct Hs as [[Hk He] Hr]. simpl in *. subst.
    specialize (IH k1 k2 Hk). destruct (hal_answers k1 ins) as [h3 a3]. rewrite Hi.
    destruct (hal_answers k2 _) as [h4 a4]. simpl in *. destruct IH as [? ->]. done.
Qed.
End inert.

(** C14: Diagnostics never alter what the HAL does: with the observer, the
    retention and every other user of the trace tables left out, and with any
    contents of those tables at the start, the same inputs get the same
    replies, hand the same requests to the chargers and leave the same HAL,
    its trace tables apart. *)
Theorem diagnostics_inert `{HC : FactCodec, HJ : JsonView} (h : HAL) (t : trace_db) (ins : list hal_input) :
  let quiet := filter (λ i, is_trace i = false) ins in
  alike (hal_answers h ins).1 (hal_answers (h <| h_traces := t |>) quiet).1 ∧
  (hal_answers h ins).2 = (hal_answers (h <| h_traces := t |>) quiet).2.
Proof. apply hal_answers_alike, alike_tables. Qed.

(** ** What a charger is told is durable *)

(** The transaction a start request is accepted under. *)
Definition started (s : pg) (identity : string) (request : StartTransactionRequest) (id : string) (n : Z) : Prop :=
  (∃ row, pg_transactions s !! id = Some row ∧ tx_OCPPTransactionID row = n ∧ tx_ChargerOCPPIdentity row = identity ∧
     tx_OCPPConnectorNumber row = st_ConnectorId request ∧ tx_IDTag row = st_IdTag request ∧
     tx_MeterStartWh row = st_MeterStart request) ∧
  ∃ c, pg_credentials s !! st_IdTag request = Some c ∧ cred_HALTransactionID c = id.

Section acknowledged.
Context `{HC : FactCodec, HJ : JsonView}.

Lemma Materialize_started now gen input s t b s' :
  MaterializeV1Start now gen input s = inl ((t, b), s') →
  0 ≤ mat_MeterStartWh input ∧ 0 < mat_OCPPConnectorNumber input ∧
  ∃ id, ((∀ i, gen i ≠ inl "") → id ≠ "") ∧ started s' (mat_ChargerOCPPIdentity input)
      (mkStartTransactionRequest (mat_OCPPConnectorNumber input) (mat_IDTag input) (mat_MeterStartWh input) None)
      id (tx_OCPPTransactionID t).
Proof.
  intros Hs. unfold MaterializeV1Start in Hs. case_decide as Dm; [done|]. rewrite tx_get_bind in Hs.
  split; [lia|]. split; [lia|]. clear Dm.
  destruct (pg_credentials s !! mat_IDTag input) as [c|] eqn:Ec; [|done]. case_decide as Dh.
  { apply tx_bind_inv in Hs as (t0 & s1 & Hg & Hs). unfold getV1TransactionByID in Hg.
    destruct (pg_transactions s !! cred_HALTransactionID c) as [row|] eqn:Er; [|done]. injection Hg as <- <-.
    case_decide as Dm; [|done]. destruct Dm as (D1 & D2 & D3 & D4). injection Hs as <- <- <-.
    exists (cred_HALTransactionID c). split; [done|]. split; [exists row; by split_and!|by exists c]. }
  case_decide; [done|]. destruct (find_row _ (pg_commands s)) as [[key row]|]; [|done].
  cbv zeta in Hs. case_decide; [done|].
  apply tx_bind_inv in Hs as (halID & s1 & Hg & Hs). unfold tx_lift in Hg.
  destruct (NewSecureUUIDString (gen 0%nat)) as [hal|] eqn:Eg; [|done]. injection Hg as <- <-.
  apply tx_bind_inv in Hs as ([] & s2 & Hi & Hs). set (tx := stored_transaction _) in Hi.
  assert (insert_transaction tx s = inl ((), s2)) as Hi'.
  { destruct (insert_transaction tx s) as [[[] s2']|]; [|done]. by injection Hi as <-. }
  apply insert_transaction_inv in Hi' as (_ & _ & ->).
  apply tx_bind_inv in Hs as ([] & s3 & [= <-] & Hs). apply tx_bind_inv in Hs as ([] & s4 & [= <-] & Hs).
  apply tx_bind_inv in Hs as ([] & s5 & Hf1 & Hs). apply tx_bind_inv in Hs as ([] & s6 & Hf2 & Hs).
  assert (∀ ty id sq at_ p (g : result string) sa sb, ty ≠ "transaction.completed" → insertV1FactTx now g ty id sq at_ p sa = inl ((), sb) →
    pg_transactions sb = pg_transactions sa ∧ pg_credentials sb = pg_credentials sa) as Hfact.
  { intros ty id sq at_ p g sa sb Hty Hi'. apply insertV1FactTx_inv in Hi' as [[-> _]|(r & _ & ->)]; done. }
  apply Hfact in Hf1 as [Ht1 Hc1]; [|done]. apply Hfact in Hf2 as [Ht2 Hc2]; [|done].
  apply tx_bind_inv in Hs as (t1 & s7 & Hg & [= <- <- <-]). unfold getV1TransactionByID in Hg.
  assert (pg_transactions s6 !! hal = Some tx) as Erow by (rewrite Ht2, Ht1; simpl; apply lookup_insert_eq).
  rewrite Erow in Hg. injection Hg as <- <-. exists hal. split; [intros Hg ->; apply (Hg 0%nat); revert Eg; unfold NewSecureUUIDString; destruct (gen 0%nat); [case_decide|]; congruence|].
  split; [exists tx; by split_and!|].
  rewrite Hc2, Hc1. simpl. rewrite lookup_alter_eq, Ec. by eexists.
Qed.
Lemma Materialize_again now gen input s id n :
  started s (mat_ChargerOCPPIdentity input)
    (mkStartTransactionRequest (mat_OCPPConnectorNumber input) (mat_IDTag input) (mat_MeterStartWh input) None) id n →
  id ≠ "" → 0 ≤ mat_MeterStartWh input → 0 < mat_OCPPConnectorNumber input → 0 < mat_OCPPTransactionID input →
  plausibleV1ProtocolTime (mat_ActualStartedAt input) (mat_ObservedAt input) = true →
  ∃ t, run_tx (MaterializeV1Start now gen input) s = (s, inl (t, true)) ∧ tx_OCPPTransactionID t = n.
Proof.
  intros ((row & Er & Hn & D1 & D2 & D3 & D4) & c & Ec & Hc) Hid Hm Hco Ht Hp. simpl in *.
  exists (read_transaction row). split; [|done]. apply run_tx_ok.
  unfold MaterializeV1Start. rewrite decide_False by (rewrite Hp; intros [?|[?|[?|?]]]; lia || done).
  rewrite tx_get_bind, Ec, decide_True by congruence.
  unfold mbind, txm_bind, getV1TransactionByID. rewrite Hc, Er. by rewrite decide_True by done.
Qed.
Lemma start_again e h wire request s id n :
  h_v1Store h = Some s → started s (canonical h wire) request id n → HasPrefix (st_IdTag request) "appv1_" = true →
  id ≠ "" → 0 ≤ st_MeterStart request → 0 < st_ConnectorId request → 0 < ev_identifier e →
  plausibleV1ProtocolTime (reported_time (st_Timestamp request) (ev_at e 0)) (ev_at e 0) = true →
  (OnStartTransaction e h wire request).2 = mkStartTransactionConfirmation "Accepted" n ∧
  h_v1Store (OnStartTransaction e h wire request).1 = Some s.
Proof.
  intros E Hs Hpre Hid Hm Hc Hi Hp. unfold OnStartTransaction. cbv zeta.
  assert (h_v1Store (touch e h (canonical h wire)) = Some s) as -> by (by destruct h). rewrite Hpre. cbn [negb].
  destruct (Materialize_again (ev_stored e) (ev_gen e) (materialization_input e (canonical h wire) request) s id n) as (t & -> & <-); done.
Qed.
End acknowledged.

(** C12: A start the charger is told was accepted is durable: the transaction
    the confirmation names is stored for that charger, connector, credential
    and meter reading, the credential is spent on it, and the registry shows
    it; the charger's retry of the request, at any later time the clock check
    lets through, gets the same confirmation.  A start that is refused gets
    transaction 0 and stores nothing. *)
Theorem start_acknowledged `{HC : FactCodec, HJ : JsonView} (e : hal_env) (h : HAL) (wire : string)
    (request : StartTransactionRequest) :
  let identity := canonical h wire in
  let h' := (OnStartTransaction e h wire request).1 in
  let conf := (OnStartTransaction e h wire request).2 in
  (sc_Status conf = "Accepted" →
     ∃ s' id, h_v1Store h' = Some s' ∧ started s' identity request id (sc_TransactionId conf) ∧
       carries (h_registry h') identity (st_ConnectorId request) (sc_TransactionId conf) ∧
       ∀ e', (∀ i, ev_gen e i ≠ inl "") → 0 < ev_identifier e' →
         plausibleV1ProtocolTime (reported_time (st_Timestamp request) (ev_at e' 0)) (ev_at e' 0) = true →
         (OnStartTransaction e' h' wire request).2 = conf ∧
         h_v1Store (OnStartTransaction e' h' wire request).1 = Some s') ∧
  (sc_Status conf ≠ "Accepted" → sc_TransactionId conf = 0 ∧ h_v1Store h' = h_v1Store h).
Proof.
  destruct (OnStartTransaction e h wire request) as [h' conf] eqn:Ho. cbv zeta. cbn [fst snd].
  unfold OnStartTransaction in Ho. cbv zeta in Ho.
  replace (h_v1Store (touch e h (canonical h wire))) with (h_v1Store h) in Ho by (by destruct h).
  destruct (h_v1Store h) as [s|] eqn:E; [|by simplify_eq; split].
  destruct (HasPrefix (st_IdTag request) "appv1_") eqn:Hpre; cbn [negb] in Ho; [|by simplify_eq; split].
  destruct (run_tx (MaterializeV1Start _ _ (materialization_input e _ request)) s) as [s' [[t b]|err]] eqn:Hr.
  2:{ assert (s' = s) as -> by (revert Hr; unfold run_tx; repeat case_match; congruence).
      injection Ho as <- <-. cbn. by case_decide. }
  injection Ho as Ho <-. split; [|by intros []]. intros _.
  apply run_tx_inl in Hr. apply Materialize_started in Hr as (Hm & Hco & id & Hid & Hs).
  assert (h_v1Store h' = Some s' ∧ canonical h' wire = canonical h wire) as [E' Hcan] by (subst h'; by destruct h).
  exists s', id. split; [done|]. split; [done|]. split; [subst h'; apply start_carries|]. intros e' Hg Hi Hp.
  eapply start_again; [done|by rewrite Hcan|done|by apply Hid|done..].
Qed.

(** C13: A stop the charger is told was received is durable: the transaction it
    named is completed in the store and the connector no longer carries it.  A
    stop that is refused - so that the charger sends it again - has changed
    nothing in the store. *)
Theorem stop_acknowledged `{HC : FactCodec, HJ : JsonView} (e : hal_env) (h : HAL) (wire : string)
    (request : StopTransactionRequest) :
  let h' := (OnStopTransaction e h wire request).1.1 in
  let identity := canonical h (canonical h wire) in
  match (OnStopTransaction e h wire request).2 with
  | inl () => ∃ s s' t connector, h_v1Store h = Some s ∧ h_v1Store h' = Some s' ∧
      GetV1TransactionByOCPP s identity (sr_TransactionId request) = inl t ∧ completed s' (tx_HALTransactionID t) ∧
      ∀ n, ¬ carries (h_registry h') identity connector n
  | inr _ => h_v1Store h' = h_v1Store h
  end.
Proof.
  destruct (OnStopTransaction e h wire request) as [[h' eff] r] eqn:Ho. cbv zeta. cbn [fst snd].
  unfold OnStopTransaction, HandleV1StopTransaction in Ho. cbv zeta in Ho.
  replace (canonical (touch e h (canonical h wire)) (canonical h wire)) with (canonical h (canonical h wire)) in Ho by (by destruct h).
  replace (h_v1Store (touch e h (canonical h wire))) with (h_v1Store h) in Ho by (by destruct h).
  destruct (h_v1Store h) as [s|] eqn:E; [|by simplify_eq]. case_decide; [by simplify_eq|].
  destruct (GetV1TransactionByOCPP s _ _) as [t|] eqn:Et; [|by simplify_eq].
  destruct (run_tx (CompleteV1Transaction _ _ _ _ _ _ _) s) as [s' [row|err]] eqn:Hr.
  2:{ assert (s' = s) as -> by (revert Hr; unfold run_tx; repeat case_match; congruence). by injection Ho as <- <- <-. }
  apply run_tx_inl in Hr. pose proof Hr as (t0 & E0 & Hc)%CompleteV1Transaction_inv.
  destruct (tx_MeterStopWh row) as [w|] eqn:Ew; injection Ho as <- <- <-.
  - exists s, s', t, (tx_OCPPConnectorNumber row). split_and!; try done; [|intros n; apply stop_clears].
    unfold completed. destruct Hc as [(Hc & -> & _)|(_ & cls & s1 & _ & _ & Ht & _ & _ & _ & _ & p & Hi)]; [by rewrite E0|].
    apply insertV1FactTx_completed_inv in Hi as [[_ ->]|(_ & x & _ & ->)]; simpl; rewrite Ht, lookup_insert_eq; by eexists.
  - destruct Hc as [(_ & -> & _)|(_ & cls & s1 & _ & -> & _)]; [done|by simpl in Ew].
Qed.

Lemma persist_keeps `{FactCodec} e h o :
  h_connections (persist e h o) = h_connections h ∧ h_registry (persist e h o) = h_registry h ∧
  h_wiredIdentity (persist e h o) = h_wiredIdentity h.
Proof. unfold persist. by repeat case_match. Qed.

(** A late disconnect of a replaced connection changes nothing: whatever
    the HAL's state, once the charger has connected again the disconnect of
    any older socket leaves the HAL as it is, while that of the new one takes
    the charger offline and forgets its wire identity. *)
Theorem stale_disconnect_ignored `{HC : FactCodec, HJ : JsonView} (e e' : hal_env) (h : HAL) (wire key addr old : string) :
  let h' := (OnConnect e h wire key addr).1 in
  (old ≠ key → OnDisconnect e' h' wire old = (h', None)) ∧
  let gone := (OnDisconnect e' h' wire key).1 in
  (OnDisconnect e' h' wire key).2 = Some wire ∧
  current (h_connections gone) (canonical h wire) = None ∧
  (∀ cp, h_registry gone !! canonical h wire = Some cp → cp_Online cp = false) ∧
  h_wiredIdentity gone !! wire = None.
Proof.
  destruct (OnConnect e h wire key addr) as [h' c] eqn:Ho. cbv zeta. cbn [fst].
  unfold OnConnect, Connections.register in Ho. cbv zeta in Ho. cbn [fst snd] in Ho. injection Ho as Ho <-.
  assert (h_connections h' = mkconnectionTracker (wrap_uint64 (ct_next (h_connections h) + 1))
    (<[canonical h wire := mkconnectionRecord (canonical h wire) key (wrap_uint64 (ct_next (h_connections h) + 1)) addr (ev_at e 0)]>
      (ct_active (h_connections h))) ∧ canonical h' wire = canonical h wire) as [Ec Ecan].
  { rewrite <- Ho. match goal with |- context [h_connections (persist e ?g ?o)] =>
      destruct (persist_keeps e g o) as (Kc & _ & Kw) end. rewrite Kc. split; [done|]. exact (f_equal (λ w, canonicalIdentity w wire) Kw). }
  unfold OnDisconnect. rewrite Ecan, Ec. unfold unregisterIfCurrent. cbn [ct_active]. rewrite lookup_insert_eq. cbn [cr_Key].
  split; [intros Hne; by rewrite decide_True by congruence|]. rewrite decide_False by tauto. cbv zeta. cbn [fst snd].
  split; [done|]. set (o := mkpendingRuntimeProjection _ _ false _). set (g := h' <| h_connections := _ |> <| h_registry ::= _ |>).
  destruct (persist_keeps e' g o) as (Kc & Kr & Kw). revert Kc Kr Kw. generalize (persist e' g o). intros k Kc Kr Kw.
  change (h_connections (k <| h_wiredIdentity ::= _ |>)) with (h_connections k).
  change (h_registry (k <| h_wiredIdentity ::= _ |>)) with (h_registry k).
  change (h_wiredIdentity (k <| h_wiredIdentity ::= (λ w, forgetWireIdentity w wire) |>)) with (forgetWireIdentity (h_wiredIdentity k) wire).
  rewrite Kc, Kr. split; [apply lookup_delete_eq|]. split; [|apply lookup_delete_eq]. intros cp.
  change (h_registry g) with (MarkOffline (h_registry h') (ev_registry e') (canonical h wire)). unfold MarkOffline.
  destruct (h_registry h' !! canonical h wire) eqn:Er; [|congruence]. rewrite lookup_insert_eq. by intros [= <-].
Qed.

(** ** A concrete run *)
Module HalRunsExample.
#[local] Existing Instance LifecycleRuns.codec.
#[local] Existing Instance TraceHistoryRuns.view.
Definition at_ : Time := 501 * GoTime.Second.
Definition handler (call : string) : handler_env :=
  mkhandler_env MeterRuns.received 3 3 (LifecycleRuns.gen call) (mkdispatch_env 10 11 12 (λ i, inl i) 13 14 (inl "Accepted")) 20
    (λ n, (20, inl (call +:+ "event" +:+ LifecycleRuns.digit n))).
Definition env (call : string) (identifier : Z) : hal_env :=
  mkhal_env (λ _, at_) at_ at_ (LifecycleRuns.gen call) identifier ["1"]
    (at_, λ n, inl ("follow" +:+ LifecycleRuns.digit n)) (at_, inl "root")
    (λ n, (at_, inl (call +:+ "trace" +:+ LifecycleRuns.digit n))) (handler call).
Definition enrolment : V1MappingInput := mkV1MappingInput "cpo" "charger" "CP-1" "SN-9" true
  [mkV1ConnectorMappingInput "connector" 1] "corr" "digest".
Definition start : StartTransactionRequest := mkStartTransactionRequest 1 "appv1_tag" 100 (Some (500 * GoTime.Second)).
Definition stop : StopTransactionRequest := mkStopTransactionRequest 77 600 (Some (601 * GoTime.Second)) "Remote".
Definition session : list hal_input :=
  [InStore (SMapping (CallSync 100 (LifecycleRuns.gen "map") enrolment));
   InStore (SStart 1 (LifecycleRuns.gen "command") LifecycleRuns.start_input);
   InValidate "SN-9" (Some "/CP-1/SN-9"); InConnect (env "connect" 0) "SN-9" "socket" "10.0.0.9";
   InStatus (env "status" 0) "SN-9" (mkStatusNotificationRequest 1 "Preparing" "NoError" "" "" "");
   InAuthorize (env "authorize" 0) "SN-9" "appv1_tag"; InStart (env "start" 77) "SN-9" start;
   InStart (env "again" 78) "SN-9" start; InMeter (env "meter" 0) "SN-9" MeterRuns.request;
   InStop (env "stop" 0) "SN-9" stop].
Lemma session_ok : inputs_ok (boot_hal, []) session.
Proof. repeat split. Defined.
Definition replies : list hal_reply := snd <$> (hal_answers boot_hal session).2.
Example sent : sent_of (hal_run session).2 = ["start0"].
Proof. vm_compute. reflexivity. Qed.
Example answered : omap (λ r, match r with RStart c => Some (sc_Status c, sc_TransactionId c) | _ => None end) replies =
  [("Accepted", 77); ("Accepted", 77)].
Proof. vm_compute. reflexivity. Qed.
Example stop_reply : last replies = Some (RDone (inl ())).
Proof. vm_compute. reflexivity. Qed.

(** The readings of one charger under another's transaction: "X" is a charger
    whose path ends in "W"; "CP-1" is one whose path ends in "X".  OnMeterValues
    turns the wire identity "W" into "X", HandleV1MeterValues that into "CP-1":
    the reading of "X" stops the session of "CP-1". *)
Definition crossed : HAL :=
  (New (Some MeterRuns.before) trace_db_empty) <| h_wiredIdentity := <["W" := "X"]> {["X" := "CP-1"]} |>.
Example crossed_identity : canonical crossed "W" = "X".
Proof. vm_compute. reflexivity. Qed.
Example misattributed : sent_of (OnMeterValues (env "meter" 0) crossed "W" MeterRuns.request).1.2 = ["start0"].
Proof. vm_compute. reflexivity. Qed.
End HalRunsExample.

Lemma hal_implements_witness :
  sent_of (@hal_run LifecycleRuns.codec TraceHistoryRuns.view HalRunsExample.session).2 = ["start0"] ∧
  ∃ cs, history_ok (H := LifecycleRuns.codec) pg_empty cs ∧
    h_v1Store (@hal_run LifecycleRuns.codec TraceHistoryRuns.view HalRunsExample.session).1 =
      Some (@history LifecycleRuns.codec pg_empty cs).1.
Proof.
  split; [vm_compute; reflexivity|].
  destruct (hal_implements (HC := LifecycleRuns.codec) (HJ := TraceHistoryRuns.view) HalRunsExample.session
    HalRunsExample.session_ok) as (s & es & cs & tcs & E & _ & (Hok & Hs) & _).
  exists cs. split; [exact Hok|]. exact (eq_trans E (f_equal Some Hs)).
Defined.

Lemma hal_end_to_end_witness :
  sent_of (@hal_run LifecycleRuns.codec TraceHistoryRuns.view HalRunsExample.session).2 = ["start0"] ∧
  ∃ s, h_v1Store (@hal_run LifecycleRuns.codec TraceHistoryRuns.view HalRunsExample.session).1 = Some s ∧
    life_at settled_life s "start0" ∧ has_fact s completed_fact "start0" None.
Proof.
  assert (sent_of (@hal_run LifecycleRuns.codec TraceHistoryRuns.view HalRunsExample.session).2 = ["start0"]) as Hsent
    by (vm_compute; reflexivity).
  split; [exact Hsent|].
  destruct (h_v1Store (@hal_run LifecycleRuns.codec TraceHistoryRuns.view HalRunsExample.session).1) as [s|] eqn:E;
    [|exfalso; clear Hsent; revert E; vm_compute; discriminate].
  exists s. split; [reflexivity|].
  destruct (hal_end_to_end (HC := LifecycleRuns.codec) (HJ := TraceHistoryRuns.view) HalRunsExample.session s
    HalRunsExample.session_ok E) as (_ & Hset & Hfact & _).
  split; [apply Hset; rewrite Hsent; left|]. apply Hfact. split; [reflexivity|].
  assert (match h_v1Store (@hal_run LifecycleRuns.codec TraceHistoryRuns.view HalRunsExample.session).1 with
    | Some s => bool_decide (completed s "start0") | None => false end = true) as Hc by (vm_compute; reflexivity).
  rewrite E in Hc. exact (bool_decide_eq_true_1 _ Hc).
Defined.
