(* ===== verification/HalOperations.v ===== *)
(** * The recovery worker drains the charger operations

    The worker of v1_charger_operation_recovery_worker.go over the HAL's
    connections ([Connections]) and any ledger ([Operations]): each pass sends a
    batch of what waits for one connected charger, each rotation over the
    connected chargers a batch for each of them, and enough rotations all. *)
From Stdlib Require Import String.
From stdpp Require Import base numbers decidable option list strings gmap pretty.
From S2P Require Import Prelude V1Types V1Memory Operations PgSchema PgTraces TraceHistory Histories Connections Hal HalHandlers.
Open Scope Z_scope.

Section drains.
Context {S Conf : Type} `{OperationStoreLaws S} `{HC : FactCodec, HJ : JsonView}.
Implicit Types (h : HAL) (s : S).

(** One pass of the worker, its context alive. *)
Definition recovery_pass (env : nat → string → dispatch_env Conf) (n : nat) (w : HAL * S) :
    HAL * S * list V1ChargerOperation :=
  let '(h', (s', out, _)) := DispatchPendingV1ChargerOperations (λ _, None) (env n) w.1 w.2 in (h', s', out).

Definition waiting_for (s : S) (c : string) : gmap string V1ChargerOperation :=
  filter (λ kv, dispatchable c kv.2) (os_rows s).
Definition batch : nat := Z.to_nat v1ChargerOperationRecoveryBatch.

Definition taken (s : S) (id : string) : Prop := ∃ op, os_rows s !! id = Some op ∧ op_State op ≠ "PERSISTED".
(** From [s] to [s'], sending [out]. *)
Record advanced (h : HAL) (s s' : S) (out : list V1ChargerOperation) : Prop := {
  adv_ledger : ledger_ok (os_rows s');
  adv_row id : os_rows s' !! id = os_rows s !! id ∨
    taken s' id ∧ ∀ op, os_rows s !! id = Some op → op_State op = "PERSISTED" → op_identity op ∈ op_identity <$> out;
  adv_sent op : op ∈ out → ∃ old, os_rows s !! op_CMSOperationID op = Some old ∧ op_State old = "PERSISTED" ∧
    op_identity op = op_identity old ∧ taken s' (op_CMSOperationID op) ∧ operation_connected h op = true;
  adv_once : NoDup (op_CMSOperationID <$> out)
}.

Lemma identity_id (a b : V1ChargerOperation) : op_identity a = op_identity b →
  op_CMSOperationID a = op_CMSOperationID b ∧ op_ChargerOCPPIdentity a = op_ChargerOCPPIdentity b.
Proof. unfold op_identity. by intros [=]. Qed.

Lemma identities_ids (l1 l2 : list V1ChargerOperation) : op_identity <$> l1 = op_identity <$> l2 →
  op_CMSOperationID <$> l1 = op_CMSOperationID <$> l2.
Proof.
  revert l2. induction l1 as [|a l1 IH]; intros [|b l2]; try done. rewrite !fmap_cons. intros [Hab Hl]%(inj2 cons).
  f_equal; [by apply identity_id|by apply IH].
Qed.
Lemma list_filter_all {A} (P : A → Prop) `{!∀ x, Decision (P x)} (l : list A) : (∀ x, x ∈ l → P x) → filter P l = l.
Proof.
  induction l as [|x l IH]; intros Hl; [done|]. rewrite filter_cons, decide_True by (apply Hl; by left).
  f_equal. apply IH. intros y Hy. apply Hl. by right.
Qed.

(** What waits shrinks by what is taken. *)
Lemma waiting_kept h s s' out c : advanced h s s' out → dom (waiting_for s' c) ⊆ dom (waiting_for s c).
Proof.
  intros Ha id (op & Hop)%elem_of_dom. apply elem_of_dom.
  apply map_lookup_filter_Some in Hop as [E Hd]. exists op. apply map_lookup_filter_Some. split; [|done].
  destruct (adv_row _ _ _ _ Ha id) as [<-|[(x & Ex & Hx) _]]; [done|]. destruct Hd. simpl in *. congruence.
Qed.
Lemma waiting_batch h s s' out c l : advanced h s s' out →
  NoDup (op_CMSOperationID <$> l) →
  (∀ op, op ∈ l → os_rows s !! op_CMSOperationID op = Some op ∧ dispatchable c op) →
  (∀ k op, os_rows s !! k = Some op → dispatchable c op → Z.of_nat (length l) < v1ChargerOperationRecoveryBatch → op ∈ l) →
  (∀ k op, os_rows s !! k = Some op → op_CMSOperationID op = k) →
  (∀ op, op ∈ l → operation_connected h op = true) →
  (∀ op, op ∈ l → operation_connected h op = true → taken s' (op_CMSOperationID op)) →
  (size (waiting_for s' c) ≤ size (waiting_for s c) - batch)%nat.
Proof.
  intros Ha Hnd Hl Hall Hk Hcon Hdone. set (ids := list_to_set (op_CMSOperationID <$> l) : gset string).
  assert (dom (waiting_for s' c) ⊆ dom (waiting_for s c) ∖ ids) as Hsub.
  { intros id Hid. apply elem_of_difference. split; [by eapply waiting_kept|].
    intros (op & -> & Hop)%elem_of_list_to_set%list_elem_of_fmap. destruct (Hdone op Hop (Hcon op Hop)) as (x & Ex & Hx).
    apply elem_of_dom in Hid as (y & [Ey [Hy _]]%map_lookup_filter_Some). simpl in *. congruence. }
  assert (ids ⊆ dom (waiting_for s c)) as Hids.
  { intros id (op & -> & Hop)%elem_of_list_to_set%list_elem_of_fmap. apply elem_of_dom. exists op.
    apply map_lookup_filter_Some. by apply Hl. }
  apply subseteq_size in Hsub. rewrite size_difference in Hsub by done. unfold ids in Hsub.
  rewrite size_list_to_set, length_fmap, !size_dom in Hsub by done.
  destruct (decide (Z.of_nat (length l) < v1ChargerOperationRecoveryBatch)) as [Hlt|Hge];
    [|unfold batch, v1ChargerOperationRecoveryBatch in *; lia].
  assert (dom (waiting_for s c) ⊆ ids) as Hrev; [|apply subseteq_size in Hrev; unfold ids in Hrev;
    rewrite size_list_to_set, length_fmap, size_dom in Hrev by done; lia].
  intros id (op & [E Hd]%map_lookup_filter_Some)%elem_of_dom. apply elem_of_list_to_set. rewrite <- (Hk _ _ E).
  apply list_elem_of_fmap_2. by eapply Hall.
Qed.

Lemma recover_ledger ctxErr env connected pending : ∀ s sent,
  ledger_ok (os_rows s) → ledger_ok (os_rows (recover_loop (Conf := Conf) ctxErr env connected pending s sent).1.1).
Proof.
  induction pending as [|op rest IH]; intros s sent Hl; simpl; [done|].
  destruct (ctxErr _); [done|]. destruct (connected op); [|by apply IH].
  pose proof (dispatch_ledger_ok (env (op_CMSOperationID op)) s (op_CMSOperationID op) Hl) as Hl1.
  destruct (dispatchClaimedV1ChargerOperation _ _ _) as [[s' out] r]. by apply IH.
Qed.

(** A pass for a charger takes a batch of what waits for it, or all of it. *)
Lemma recover_advances (env : string → dispatch_env Conf) h s c :
  ledger_ok (os_rows s) → c ≠ "" → is_Some (current (h_connections h) c) → canonical h c = c →
  let '(s', out, err) := recoverDispatchableV1ChargerOperations (λ _, None) env (operation_connected h) s c in
  advanced h s s' out ∧ (size (waiting_for s' c) ≤ size (waiting_for s c) - batch)%nat.
Proof.
  intros Hl Hc Hcur Hcan.
  assert (∀ k o, os_rows s !! k = Some o → op_CMSOperationID o = k) as Hk by (intros k o Ho; by destruct (Hl _ _ Ho)).
  pose proof (recover_ledger (λ _, None) env (operation_connected h) (os_list s c v1ChargerOperationRecoveryBatch) s [] Hl) as Hl'.
  pose proof (law_list_NoDup s c v1ChargerOperationRecoveryBatch Hk) as Hnd.
  pose proof (law_list s c v1ChargerOperationRecoveryBatch) as Hlist. specialize (λ op, Hlist op Hk) as Hlist.
  pose proof (law_list_complete s c v1ChargerOperationRecoveryBatch) as Hall.
  unfold recoverDispatchableV1ChargerOperations. set (l := os_list s c _) in *.
  assert (∀ op, op ∈ l → operation_connected h op = true) as Hcon.
  { intros op [_ [_ [?|Hd]]]%Hlist; [done|]. unfold operation_connected. rewrite Hd, Hcan. by apply bool_decide_eq_true. }
  destruct (recover_loop_spec (λ _, None) env (operation_connected h) l s [] Hl (λ _, eq_refl) Hnd)
    as (s' & out & Hrun & Hout & Hdone & Hframe); [by intros op [? [? _]]%Hlist|].
  rewrite Hrun in Hl' |- *. simpl in Hl' |- *. rewrite list_filter_all in Hout by done.
  assert (advanced h s s' out) as Ha; [|split; [done|by eapply (waiting_batch h s s' out c l)]].
  split.
  - done.
  - intros id. destruct (decide (id ∈ op_CMSOperationID <$> l)) as [(op & -> & Hop)%list_elem_of_fmap|Hno].
    + right. split; [by apply Hdone; [|apply Hcon]|]. intros op' E _. apply Hlist in Hop as Hop'. destruct Hop' as [E0 _]. simplify_eq.
      rewrite Hout. by apply list_elem_of_fmap_2.
    + left. apply Hframe. intros op Hop _ Heq. apply Hno. rewrite <- Heq. by apply list_elem_of_fmap_2.
  - intros op Hop%(list_elem_of_fmap_2 op_identity). rewrite Hout in Hop. apply list_elem_of_fmap in Hop as (old & He & Hold).
    destruct (identity_id _ _ He) as [Hid Hch]. pose proof (Hlist _ Hold) as [E [Hp _]]. pose proof (Hcon _ Hold) as Hco.
    exists old. rewrite Hid. split_and!; try done; [by apply Hdone|]. unfold operation_connected in *. by rewrite Hch.
  - rewrite (identities_ids out l Hout). done.
Qed.

Lemma advanced_refl h s : ledger_ok (os_rows s) → advanced h s s [].
Proof. intros Hl. split; [done|by left| |constructor]. intros op Hop. by apply elem_of_nil in Hop. Qed.
Lemma taken_kept h s s' out id : advanced h s s' out → taken s id → taken s' id.
Proof. intros Ha (op & E & Hp). destruct (adv_row _ _ _ _ Ha id) as [He|[Ht _]]; [|done]. exists op. by rewrite He. Qed.
Lemma advanced_trans h s1 s2 s3 o1 o2 : advanced h s1 s2 o1 → advanced h s2 s3 o2 → advanced h s1 s3 (o1 ++ o2).
Proof.
  intros H1 H2. split.
  - apply (adv_ledger _ _ _ _ H2).
  - intros id. rewrite fmap_app. setoid_rewrite elem_of_app. destruct (adv_row _ _ _ _ H1 id) as [E1|[Ht Hs]].
    + rewrite <- E1. destruct (adv_row _ _ _ _ H2 id) as [|[? Hs]]; [by left|right]. eauto.
    + right. split; [by eapply taken_kept|]. eauto.
  - intros op [Hop|Hop]%elem_of_app.
    + destruct (adv_sent _ _ _ _ H1 op Hop) as (old & E & Hp & He & Ht & Hc). exists old. split_and!; try done. by eapply taken_kept.
    + destruct (adv_sent _ _ _ _ H2 op Hop) as (old & E & Hp & He & Ht & Hc).
      destruct (adv_row _ _ _ _ H1 (op_CMSOperationID op)) as [Hr|[(x & Ex & Hx) _]]; [|congruence]. exists old. by rewrite <- Hr.
  - rewrite fmap_app. apply NoDup_app. split; [apply (adv_once _ _ _ _ H1)|]. split; [|apply (adv_once _ _ _ _ H2)].
    intros id (a & -> & Ha)%list_elem_of_fmap (b & Hab & Hb)%list_elem_of_fmap.
    destruct (adv_sent _ _ _ _ H1 a Ha) as (_ & _ & _ & _ & (x & Ex & Hx) & _).
    destruct (adv_sent _ _ _ _ H2 b Hb) as (y & Ey & Hy & _). rewrite <- Hab in Ey. congruence.
Qed.
(** What the worker's passes leave of the HAL. *)
Definition same_connections (h h' : HAL) : Prop :=
  h_v1Store h' = h_v1Store h ∧ h_connections h' = h_connections h ∧ h_wiredIdentity h' = h_wiredIdentity h.
(** With a store, and connected under canonical identities (no charger connects
    without one: it is the last element of the URL path). *)
Definition drainable h s : Prop :=
  h_v1Store h ≠ None ∧ ledger_ok (os_rows s) ∧
  ∀ c, is_Some (current (h_connections h) c) → c ≠ "" ∧ canonical h c = c.
Lemma same_connected h h' op : same_connections h h' → operation_connected h' op = operation_connected h op.
Proof. intros (_ & Hc & Hw). unfold operation_connected, canonical. by rewrite Hc, Hw. Qed.

Lemma next_identity h : ∃ next turn,
  nextV1ChargerOperationRecoveryIdentity (h_connections h) (h_operationRecoveryNext h) = (next, turn) ∧
  ∀ c, turn = Some c → is_Some (current (h_connections h) c).
Proof.
  unfold nextV1ChargerOperationRecoveryIdentity. destruct (identities (h_connections h)) as [|i l] eqn:Ei;
    [eexists _, _; split; [done|]; done|]. eexists _, _. split; [done|]. intros c Hc.
  apply list_elem_of_lookup_2 in Hc. rewrite <- Ei, identities_perm in Hc.
  apply list_elem_of_fmap in Hc as ([k r] & -> & Hk%elem_of_map_to_list). by exists r.
Qed.

Lemma pass_drains env n h s :
  drainable h s →
  let '(h', s', out) := recovery_pass env n (h, s) in
  let turn := nextV1ChargerOperationRecoveryIdentity (h_connections h) (h_operationRecoveryNext h) in
  same_connections h h' ∧ h_operationRecoveryNext h' = turn.1 ∧ advanced h s s' out ∧
  ∀ c, turn.2 = Some c → (size (waiting_for s' c) ≤ size (waiting_for s c) - batch)%nat.
Proof.
  intros (Hst & Hl & Hc). unfold recovery_pass, DispatchPendingV1ChargerOperations. simpl.
  destruct (h_v1Store h) as [db|] eqn:E; [|done]. destruct (next_identity h) as (next & turn & Ht & Hturn). rewrite Ht.
  destruct turn as [c|]; [|split_and!; try done; by apply advanced_refl].
  destruct (Hc c (Hturn c eq_refl)) as [Hne Hcan]. cbn [fst snd].
  unfold dispatchPendingV1ChargerOperationsForCharger. cbn [h_v1Store]. cbv [set_field]. cbn [h_v1Store h_connections].
  rewrite E. change (canonical _ c) with (canonical h c). rewrite Hcan.
  change (operation_connected (mkHAL _ _ _ _ _ _ _ _ _ _ _ _)) with (operation_connected h).
  pose proof (recover_advances (env n) h s c Hl Hne (Hturn c eq_refl) Hcan) as Hr.
  destruct (recoverDispatchableV1ChargerOperations _ _ _ _ _) as [[s' out] err]. destruct Hr as [Ha Hd].
  split; [by rewrite <- E|]. split; [done|]. split; [done|]. by intros c' [= <-].
Qed.

(** How often a charger's turn comes. *)
Definition turns_of (c : string) (turns : list (option string)) : nat := length (filter (λ t, t = Some c) turns).
Lemma worker_drains env ticks : ∀ n h s,
  drainable h s →
  let '(h', s', sent) := recovery_worker n (λ _, false) (recovery_pass env) ticks (h, s) in
  advanced h s s' sent ∧
  ∀ c, (size (waiting_for s' c) ≤
    size (waiting_for s c) - batch * turns_of c (recovery_turns (h_connections h) (h_operationRecoveryNext h) ticks))%nat.
Proof.
  induction ticks as [|ticks IH]; intros n h s Hd; cbn [recovery_worker recovery_turns].
  { split; [apply advanced_refl; by destruct Hd as (_ & ? & _)|]. intros c. cbn. lia. }
  pose proof (pass_drains env n h s Hd) as Hp. destruct (recovery_pass env n (h, s)) as [[h1 s1] out1].
  destruct Hp as (Hsame & Hnext & Ha1 & Hd1). pose proof Hsame as (Hst & Hcn & Hw).
  assert (drainable h1 s1) as Hdr.
  { destruct Hd as (Hs & Hl & Hc). split_and!; [by rewrite Hst|apply (adv_ledger _ _ _ _ Ha1)|]. intros c. rewrite Hcn.
    intros [Hne Hcan]%Hc. split; [done|]. unfold canonical in *. by rewrite Hw. }
  specialize (IH (Datatypes.S n) h1 s1 Hdr). destruct (recovery_worker _ _ _ ticks (h1, s1)) as [[h2 s2] out2].
  destruct IH as [Ha2 Hd2]. rewrite Hcn, Hnext in Hd2.
  assert (advanced h s1 s2 out2) as Ha2'.
  { destruct Ha2 as [L R St O]. split; try done. intros op Hop. rewrite <- (same_connected _ _ op Hsame). by apply St. }
  split; [by eapply advanced_trans|]. intros c. specialize (Hd2 c).
  destruct (nextV1ChargerOperationRecoveryIdentity _ _) as [next turn]. cbn [fst snd] in *.
  unfold turns_of in *. rewrite filter_cons. case_decide as Ht.
  - specialize (Hd1 c Ht). cbn [length]. lia.
  - pose proof (subseteq_size _ _ (waiting_kept _ _ _ _ c Ha1)) as Hk. rewrite !size_dom in Hk. lia.
Qed.

(** In [k] rotations a connected charger has [k] turns. *)
Lemma recovery_turns_app (t : connectionTracker) a b : ∀ next,
  identities t ≠ [] → 0 ≤ next → next + Z.of_nat a ≤ 2 ^ 64 - 1 →
  recovery_turns t next (a + b) = recovery_turns t next a ++ recovery_turns t (next + Z.of_nat a) b.
Proof.
  induction a as [|a IH]; intros next Hi Hn Hw; [by rewrite Z.add_0_r|]. cbn [Nat.add recovery_turns].
  unfold nextV1ChargerOperationRecoveryIdentity. destruct (identities t) as [|i l] eqn:Ei; [done|]. cbn [app]. f_equal.
  unfold wrap_uint64. rewrite Z.mod_small by lia. rewrite IH by (done || lia). do 2 f_equal. lia.
Qed.
Lemma turns_of_NoDup c (l : list string) : NoDup l → c ∈ l → turns_of c (Some <$> l) = 1%nat.
Proof.
  unfold turns_of. induction 1 as [|x l Hx Hnd IH]; [by intros ?%elem_of_nil|]. rewrite fmap_cons, filter_cons.
  intros [->|Hin]%elem_of_cons.
  - rewrite decide_True by done. cbn [length]. f_equal. apply length_zero_iff_nil, elem_of_nil_inv.
    intros y [-> (z & [= <-] & Hz)%list_elem_of_fmap]%list_elem_of_filter. done.
  - rewrite decide_False by (by intros [= ->]). by apply IH.
Qed.
Lemma turns_of_app c l1 l2 : turns_of c (l1 ++ l2) = (turns_of c l1 + turns_of c l2)%nat.
Proof. unfold turns_of. by rewrite filter_app, length_app. Qed.
Lemma turns_of_rotations (t : connectionTracker) c k : ∀ next,
  is_Some (current t c) → 0 ≤ next → next + Z.of_nat (k * size (ct_active t)) ≤ 2 ^ 64 - 1 →
  turns_of c (recovery_turns t next (k * size (ct_active t))) = k.
Proof.
  induction k as [|k IH]; intros next [r Hr] Hn Hw; [done|].
  assert (c ∈ (map_to_list (ct_active t)).*1) as Hin.
  { apply (list_elem_of_fmap_2 fst _ (c, r)). by apply elem_of_map_to_list. }
  cbn [Nat.mul]. rewrite recovery_turns_app; [|intros Hi; pose proof (identities_perm t) as Hp; rewrite Hi in Hp;
    apply Permutation_nil in Hp; rewrite Hp in Hin; by apply elem_of_nil in Hin|done|lia].
  rewrite turns_of_app, IH by (by eexists) || lia.
  assert (turns_of c (recovery_turns t next (size (ct_active t))) = 1%nat) as ->; [|done].
  unfold turns_of. rewrite recovery_rotation_fair by lia. apply turns_of_NoDup; [apply NoDup_fst_map_to_list|done].
Qed.

(** A pass never sends more than a batch. *)
Lemma recover_loop_length ctxErr (env : string → dispatch_env Conf) connected pending : ∀ (s : S) sent,
  (length (recover_loop ctxErr env connected pending s sent).1.2 ≤ length sent + length pending)%nat.
Proof.
  induction pending as [|op rest IH]; intros s sent; cbn [recover_loop]; [cbn; lia|].
  destruct (ctxErr _); [cbn; lia|]. destruct (connected op); [|specialize (IH s sent); cbn [length]; lia].
  assert (length (dispatchClaimedV1ChargerOperation (env (op_CMSOperationID op)) s (op_CMSOperationID op)).1.2 ≤ 1)%nat as Hd.
  { unfold dispatchClaimedV1ChargerOperation. destruct (os_claim _ _ _) as [s1 [[o [|]]|e]]; cbn; try lia.
    destruct (de_answer _ _) as [[]|]; (destruct (de_markErr _); [cbn; lia|]); by destruct (os_mark _ _ _ _ _ _) as [? [|]]. }
  destruct (dispatchClaimedV1ChargerOperation _ _ _) as [[s' out] r]. specialize (IH s' (sent ++ out)).
  rewrite length_app in IH. cbn [length fst snd] in *. lia.
Qed.
Lemma recovery_pass_bounded env n (w : HAL * S) : (length (recovery_pass env n w).2 ≤ batch)%nat.
Proof.
  unfold recovery_pass, DispatchPendingV1ChargerOperations. destruct (h_v1Store w.1); [|cbn; lia].
  destruct (nextV1ChargerOperationRecoveryIdentity _ _) as [next [c|]]; [|cbn; lia].
  unfold dispatchPendingV1ChargerOperationsForCharger. destruct (h_v1Store _); [|cbn; lia].
  unfold recoverDispatchableV1ChargerOperations. match goal with |- context [recover_loop ?c ?e ?f ?l ?s ?o] =>
    pose proof (recover_loop_length c e f l s o) as Hr; destruct (recover_loop c e f l s o) as [[s' out] err] end.
  cbn [length fst snd Nat.add] in *. match goal with H : context [os_list ?s ?c ?b] |- _ => pose proof (law_list_bounded s c b) end.
  unfold batch. lia.
Qed.
End drains.

(** C20: The recovery worker leaves no connected charger's operation behind: a
    pass hands over a batch of at most 100 operations of one charger, a rotation
    is as many passes as chargers are connected, and after [k] rotations, while
    the connections stay as they are, every operation that waited in the ledger
    for a connected charger with at most [k] batches waiting has been handed to
    it and is past PERSISTED, whatever the chargers answer and whichever
    finalizing write fails; no operation is handed over twice, and none to a
    charger that is not connected. *)
Theorem recovery_worker_drains {S Conf : Type} `{OperationStoreLaws S} `{HC : FactCodec, HJ : JsonView}
    (env : nat → string → dispatch_env Conf) (h : HAL) (s : S) (k : nat) :
  drainable h s → 0 ≤ h_operationRecoveryNext h →
  h_operationRecoveryNext h + Z.of_nat (k * size (ct_active (h_connections h))) < 2 ^ 64 →
  let '(_, s', sent) :=
    recovery_worker 0 (λ _, false) (recovery_pass env) (k * size (ct_active (h_connections h))) (h, s) in
  (∀ id op, os_rows s !! id = Some op → op_State op = "PERSISTED" →
     is_Some (current (h_connections h) (op_ChargerOCPPIdentity op)) →
     (size (waiting_for s (op_ChargerOCPPIdentity op)) ≤ k * 100)%nat →
     op_identity op ∈ op_identity <$> sent ∧
     ∃ op', os_rows s' !! id = Some op' ∧ op_State op' ≠ "PERSISTED") ∧
  NoDup (op_CMSOperationID <$> sent) ∧
  (∀ op, op ∈ sent → operation_connected h op = true) ∧
  ∀ n w, (length (recovery_pass (S := S) env n w).2 ≤ 100)%nat.
Proof.
  intros Hd Hn Hb. pose proof (worker_drains env (k * size (ct_active (h_connections h))) 0 h s Hd) as Hw.
  destruct (recovery_worker _ _ _ _ _) as [[h' s'] sent]. destruct Hw as [Ha Hs]. split_and!.
  - intros id op E Hp Hc Hk. specialize (Hs (op_ChargerOCPPIdentity op)). rewrite turns_of_rotations in Hs by (done || lia).
    assert (waiting_for s' (op_ChargerOCPPIdentity op) = ∅) as He.
    { apply map_size_empty_inv. change batch with 100%nat in Hs. lia. }
    destruct (adv_row _ _ _ _ Ha id) as [Er|[Ht Hi]]; [|split; [by apply Hi|done]].
    assert (waiting_for s' (op_ChargerOCPPIdentity op) !! id = Some op) as Hin; [|by rewrite He in Hin].
    apply map_lookup_filter_Some. split; [by rewrite Er|]. split; [done|by right].
  - apply (adv_once _ _ _ _ Ha).
  - intros op Hop. by destruct (adv_sent _ _ _ _ Ha op Hop) as (_ & _ & _ & _ & _ & ?).
  - intros n w. apply recovery_pass_bounded.
Qed.

(** ** Two rotations *)
Module RecoveryRuns.
Definition row (id charger : string) : V1ChargerOperation :=
  new_operation ("hal-" +:+ id) 10 (mkV1ChargerOperationInput id "" "d" "cpo" "ch" "" charger 0 "CLEAR_CACHE" ∅ None "corr").
(** A batch and one more for one charger, one for another and one for a charger
    that is not connected. *)
Definition rows : list (string * string) :=
  ((λ n, ("op-" +:+ pretty n, "CP-1")) <$> seq 0 101) ++ [("op-b", "CP-2"); ("op-c", "CP-3")].
Definition mem : V1MemoryStore := NewV1MemoryStore <| ms_operations :=
  list_to_map ((λ '(id, charger), (id, row id charger)) <$> rows) |>.
Definition hal : HAL := (New (Some pg_empty) trace_db_empty) <| h_connections := connection_run
  [Connected "CP-1" "k1" "a1" 1; Connected "CP-2" "k2" "a2" 2] |>.
Definition env (n : nat) (id : string) : dispatch_env unit := {|
  de_claimAt := 20; de_markAt := 30; de_answer _ := if decide (id = "op-b") then inr (ErrOther "timeout") else inl ("Accepted", None);
  de_markErr := None |}.
Definition rotations (k : nat) := recovery_worker 0 (λ _, false) (recovery_pass env) (k * 2) (hal, mem).
Definition waiting_after (k : nat) : list string := op_CMSOperationID <$> os_list (rotations k).1.2 "CP-1" 1000.
Example rotations_sent : (length (rotations 1).2, length (waiting_after 1), length (rotations 2).2, waiting_after 2) =
  (101, 1, 102, [])%nat.
Proof. vm_compute. reflexivity. Qed.
Lemma ledger_mem_ok : ledger_ok (os_rows mem).
Proof.
  change (map_Forall (λ id op, op_CMSOperationID op = id ∧ 0 ≤ op_DeliveryAttempts op ≤ 1 ∧
    (op_State op = "PERSISTED" ↔ op_DeliveryAttempts op = 0)) (os_rows mem)).
  refine (bool_decide_unpack _ _). vm_compute. exact I.
Qed.
Lemma connected_ok : map_Forall (λ c _, c ≠ "" ∧ canonical hal c = c) (ct_active (h_connections hal)).
Proof. refine (bool_decide_unpack _ _). vm_compute. exact I. Qed.
Lemma hal_drainable : drainable hal mem.
Proof. split_and!; [discriminate|apply ledger_mem_ok|]. intros c [r Hr]. exact (connected_ok c r Hr). Qed.
Lemma last_row : os_rows mem !! "op-100" = Some (row "op-100" "CP-1").
Proof. vm_compute. reflexivity. Qed.
Lemma two_batches : (size (waiting_for mem "CP-1") ≤ 2 * 100)%nat.
Proof. apply Nat.leb_le. vm_compute. reflexivity. Qed.
End RecoveryRuns.

Lemma recovery_worker_drains_witness :
  length (RecoveryRuns.rotations 2).2 = 102%nat ∧
  op_identity (RecoveryRuns.row "op-100" "CP-1") ∈ op_identity <$> (RecoveryRuns.rotations 2).2.
Proof.
  split; [vm_compute; reflexivity|].
  pose proof (recovery_worker_drains (HC := LifecycleRuns.codec) (HJ := TraceHistoryRuns.view) RecoveryRuns.env RecoveryRuns.hal
    RecoveryRuns.mem 2 RecoveryRuns.hal_drainable ltac:(vm_compute; discriminate) ltac:(vm_compute; reflexivity)) as Hd.
  change (2 * size (ct_active (h_connections RecoveryRuns.hal)))%nat with (2 * 2)%nat in Hd.
  fold (RecoveryRuns.rotations 2) in Hd. destruct (RecoveryRuns.rotations 2) as [[h' s'] sent].
  refine (proj1 (proj1 Hd "op-100" _ RecoveryRuns.last_row _ _ RecoveryRuns.two_batches)); [reflexivity|]. eexists. reflexivity.
Defined.
