(* ===== verification/HttpStarts.v ===== *)
(** * RemoteStart as concurrent requests deliver it

    The delivery of start commands in [v1Start] of httpapi/v1.go as interleaved
    requests: each is a claim, a begin, the RemoteStart and a mark, and between
    any two of them other requests, the charger and the workers call the store.
    A START command only moves forward - PERSISTED, PENDING_DELIVERY, then
    anything later - except that the recovery of a restart takes
    PENDING_DELIVERY back. *)
From Stdlib Require Import String.
From stdpp Require Import base numbers decidable option list strings gmap.
From S2P Require Import Prelude V1Types V1Memory PgSchema Outbox PgMapping PgLifecycle StopLifecycle Histories.
Open Scope Z_scope.

(** ** How far a start command is *)
Definition start_level (r : command_row) : nat :=
  if decide (cmd_State (cr_command r) = "PERSISTED") then 0
  else if decide (cmd_State (cr_command r) = "PENDING_DELIVERY") then 1 else 2.
Definition at_level (n : nat) (s : pg) (id : string) : Prop :=
  ∃ r, pg_commands s !! id = Some r ∧ cmd_Kind (cr_command r) = "START" ∧ (n ≤ start_level r)%nat.
(** Its delivery may have been attempted. *)
Definition attempted : pg → string → Prop := at_level 2.

Definition rises (s s' : pg) : Prop := ∀ n id, at_level n s id → at_level n s' id.
#[global] Instance rises_preorder : PreOrder rises.
Proof. split; [by intros s n id|]. intros s1 s2 s3 H1 H2 n id Hn. by apply H2, H1. Qed.
Lemma rises_same s s' : pg_commands s' = pg_commands s → rises s s'.
Proof. intros E n id. unfold at_level. by rewrite E. Qed.

Lemma level_le_2 r : (start_level r ≤ 2)%nat.
Proof. unfold start_level. repeat case_decide; lia. Qed.
Lemma level_top r : cmd_State (cr_command r) ∉ ["PERSISTED"; "PENDING_DELIVERY"] → start_level r = 2%nat.
Proof. intros Hn. unfold start_level. rewrite !decide_False; set_solver. Qed.

(** A statement that rewrites rows of the command table. *)
Definition row_rises (f : command_row → command_row) : Prop :=
  ∀ r, cmd_Kind (cr_command r) = "START" → cmd_Kind (cr_command (f r)) = "START" ∧ (start_level r ≤ start_level (f r))%nat.
Lemma rises_rows s f : row_rises f → rises s (s <| pg_commands ::= fmap f |>).
Proof.
  intros Hf n id (r & E & Hk & Hn). exists (f r). cbn. rewrite lookup_fmap, E. destruct (Hf r Hk) as [? ?].
  split_and!; [done|done|lia].
Qed.
Lemma rises_row s f id : row_rises f → rises s (s <| pg_commands ::= alter f id |>).
Proof.
  intros Hf n k (r & E & Hk & Hn). unfold at_level. cbn. destruct (decide (id = k)) as [->|].
  - exists (f r). rewrite lookup_alter_eq, E. destruct (Hf r Hk) as [? ?]. split_and!; [done|done|lia].
  - exists r. by rewrite lookup_alter_ne.
Qed.
Lemma row_rises_top f :
  (∀ r, cmd_Kind (cr_command (f r)) = cmd_Kind (cr_command r) ∧ cmd_State (cr_command (f r)) ∉ ["PERSISTED"; "PENDING_DELIVERY"]) →
  row_rises f.
Proof. intros Hf r Hk. destruct (Hf r) as [-> Hs]. split; [done|]. rewrite (level_top (f r)) by done. apply level_le_2. Qed.
Lemma row_rises_if (P : command_row → Prop) `{!∀ r, Decision (P r)} f :
  (∀ r, P r → cmd_Kind (cr_command r) = "START" →
     cmd_Kind (cr_command (f r)) = "START" ∧ (start_level r ≤ start_level (f r))%nat) →
  row_rises (λ r, if decide (P r) then f r else r).
Proof. intros Hf r Hk. case_decide; [by apply Hf|done]. Qed.

(** ** Transactions that only move start commands forward *)
Definition rising {A} (c : txm pg A) : Prop := ∀ s a s', c s = inl (a, s') → rises s s'.
Section rising.
Context `{FactCodec}.
Lemma rising_ret {A} (a : A) : rising (mret a).
Proof. by intros s b s' [= _ <-]. Qed.
Lemma rising_get : rising tx_get.
Proof. by intros s b s' [= _ <-]. Qed.
Lemma rising_fail {A} e : rising (tx_fail (A := A) e).
Proof. by intros s b s'. Qed.
Lemma rising_lift {A} (r : result A) : rising (tx_lift r).
Proof. intros s b s'. unfold tx_lift. destruct r; [|done]. by intros [= _ <-]. Qed.
Lemma rising_bind {A B} (c : txm pg A) (k : A → txm pg B) : rising c → (∀ a, rising (k a)) → rising (c ≫= k).
Proof. intros Hc Hk s b s' (a & s1 & H1 & H2)%tx_bind_inv. trans s1; [by eapply Hc|by eapply Hk]. Qed.
Lemma rising_modify f : (∀ s, rises s (f s)) → rising (tx_modify f).
Proof. intros Hf s b s'. rewrite tx_modify_eq. by intros [= _ <-]. Qed.
Lemma rising_same f : (∀ s, pg_commands (f s) = pg_commands s) → rising (tx_modify f).
Proof. intros Hf. apply rising_modify. intros s. by apply rises_same. Qed.
Lemma rising_fact now g ty ag q at_ p : rising (insertV1FactTx now g ty ag q at_ p).
Proof.
  intros s [] s' Hi. apply rises_same. unfold insertV1FactTx, tx_lift in Hi.
  apply tx_bind_inv in Hi as (b & s1 & Hb & Hi). destruct (canonicalV1JSON _); simplify_eq.
  apply tx_bind_inv in Hi as (i & s2 & Hg & Hi). destruct (NewSecureUUIDString g); simplify_eq.
  apply tx_bind_inv in Hi as (en & s3 & He & Hi). destruct (canonicalV1JSON _); simplify_eq.
  assert (∀ row s4 s5 u, insert_fact_row row s4 = inl (u, s5) → pg_commands s5 = pg_commands s4) as Hrow.
  { intros row s4 s5 u. unfold insert_fact_row. repeat case_match; try done; by intros [= _ <-]. }
  case_decide; [|by eapply Hrow]. tx_simpl Hi. case_match; tx_simpl Hi; [by simplify_eq|].
  apply tx_bind_inv in Hi as (u & s4 & Hr & Hi). tx_simpl Hi. injection Hi as <-. apply Hrow in Hr. exact Hr.
Qed.
Lemma rising_on_duplicate {A} e (c : txm pg A) : rising c → rising (on_duplicate e c).
Proof. intros Hc s a s' Hs%on_duplicate_inv. by eapply Hc. Qed.
Lemma rising_new row : rising (insert_command row).
Proof.
  intros s a s'. unfold insert_command. cbv zeta. case_decide; [done|].
  destruct (pg_commands s !! _) eqn:E; [by intros [= _ <-]|]. case_decide; [done|]. intros [= _ <-].
  intros n id (r & Er & Hk & Hn). exists r. cbn. rewrite lookup_insert_ne; [done|]. congruence.
Qed.
Lemma rising_getV1CommandWith id : rising (getV1CommandWith id).
Proof. intros s a s'. unfold getV1CommandWith. destruct (_ !! id); [|done]. by intros [= _ <-]. Qed.
Lemma rising_getV1TransactionByID id : rising (getV1TransactionByID id).
Proof. intros s a s'. unfold getV1TransactionByID. destruct (_ !! id); [|done]. by intros [= _ <-]. Qed.
Lemma rising_credential c : rising (insert_credential c).
Proof. intros s a s'. unfold insert_credential. case_decide; [done|]. intros [= _ <-]. by apply rises_same. Qed.
Lemma rising_mapping m : rising (insert_mapping m).
Proof. intros s [] s' (_ & _ & ->)%insert_mapping_inv. by apply rises_same. Qed.
Lemma rising_connector c : rising (insert_connector c).
Proof. intros s [] s' (_ & _ & ->)%insert_connector_inv. by apply rises_same. Qed.
Lemma rising_transaction t : rising (insert_transaction t).
Proof.
  intros s a s'. unfold insert_transaction. case_decide; [done|]. case_decide; [done|]. intros [= _ <-]. by apply rises_same.
Qed.
End rising.
Create HintDb rising.
#[export] Hint Resolve rising_getV1CommandWith rising_getV1TransactionByID rising_credential rising_mapping
  rising_connector rising_transaction rising_new : rising.
Ltac rising_step :=
  match goal with
  | |- rising (mret _) => apply rising_ret
  | |- rising tx_get => apply rising_get
  | |- rising (tx_fail _) => apply rising_fail
  | |- rising (tx_lift _) => apply rising_lift
  | |- rising (_ ≫= _) => apply rising_bind; [|intros ?]
  | |- rising (tx_modify _) => apply rising_same; intros ?; by try reflexivity
  | |- rising (insertV1FactTx _ _ _ _ _ _ _) => apply rising_fact
  | |- rising (on_duplicate _ _) => apply rising_on_duplicate
  | |- rising (if decide _ then _ else _) => case_decide
  | |- rising (if ?b then _ else _) => destruct b
  | |- rising (match ?x with _ => _ end) => destruct x
  | |- rising _ => progress cbv zeta
  | |- rising _ => solve [eauto with rising]
  end.
Ltac rising_solve := repeat rising_step.

Section calls.
Context `{FactCodec}.

Lemma rising_put id t : rising (put_transaction id t).
Proof. unfold put_transaction. rising_solve. Qed.
Lemma rising_update id f : rising (update_transaction id f).
Proof. unfold update_transaction, put_transaction. rising_solve. Qed.
Lemma rising_lock id : rising (lockV1StopLifecycleRows id).
Proof. unfold lockV1StopLifecycleRows. rising_solve. Qed.
Lemma rising_write_row id row : rising (write_row id row).
Proof. unfold write_row, put_transaction. rising_solve. Qed.
Lemma rising_command_facts now gen ids : rising (insert_command_facts now gen ids).
Proof. induction ids; simpl; rising_solve. Qed.
Lemma rising_sync_connectors input cs : rising (sync_connectors input cs).
Proof. induction cs; simpl; rising_solve. Qed.
Lemma rising_reset_facts now gen changed : rising (insert_reset_facts now gen changed).
Proof. induction changed as [|[]]; simpl; rising_solve. Qed.
Lemma rising_enabled id : rising (enabled_mapping id).
Proof. unfold enabled_mapping. rising_solve. Qed.
End calls.
#[export] Hint Resolve rising_put rising_update rising_lock rising_write_row rising_command_facts rising_sync_connectors
  rising_reset_facts rising_enabled : rising.

Section store_calls.
Context `{FactCodec}.

Lemma run_rising {A} (c : txm pg A) s : rising c → rises s (run_tx c s).1.
Proof. intros Hc. unfold run_tx. destruct (c s) as [[a s']|e] eqn:E; [by eapply Hc|done]. Qed.
Lemma rising_ensure now t i r : rising (ensureV1StopWorkflowTx now t i r).
Proof. unfold ensureV1StopWorkflowTx. rising_solve. Qed.
Lemma rising_start now gen input : rising (CreateV1StartCommand now gen input).
Proof.
  unfold CreateV1StartCommand. rising_step; [rising_solve|]. rising_step; [|rising_solve].
  intros s r s' Hs. destruct (insert_command _ s) as [[n s1]|e] eqn:E; [|done].
  injection Hs as <- <-. by eapply rising_new.
Qed.
Lemma rising_stop_command now clock gen input : rising (CreateV1StopCommand now clock gen input).
Proof.
  unfold CreateV1StopCommand. rising_solve; try apply rising_ensure.
Qed.
Lemma rising_materialize now gen input : rising (MaterializeV1Start now gen input).
Proof.
  unfold MaterializeV1Start. rising_solve.
  - intros sA x sB Hs. destruct (insert_transaction _ sA) as [[[] sC]|e'] eqn:E; [|done]. injection Hs as <- <-. by eapply rising_transaction.
  - apply rising_modify. intros s0. apply rises_row, row_rises_top. intros x. split; [done|]. set_solver.
Qed.
Lemma mark_state_top status : (mark_state status).1 ∉ ["PERSISTED"; "PENDING_DELIVERY"].
Proof. unfold mark_state. repeat case_decide; set_solver. Qed.
Lemma rising_mark now gen id st r d : rising (MarkV1CommandDelivery now gen id st r d).
Proof.
  unfold MarkV1CommandDelivery. pose proof (mark_state_top st) as Ht. destruct (mark_state st) as [state category].
  rising_solve. apply rising_modify. intros s. apply rises_row, row_rises_top. by intros r0.
Qed.
Lemma rises_step now id from f s :
  (∀ c, cmd_Kind (f c) = cmd_Kind c) →
  (∀ r, cmd_State (cr_command r) = from → (start_level r ≤ start_level (r <| cr_command ::= f |>))%nat) →
  rises s (start_command_step now id from f s).1.
Proof.
  intros Hk Hf. unfold start_command_step. destruct (pg_commands s !! id) as [r|] eqn:E; [|done].
  case_decide as Hs; [|done]. intros n k (r0 & E0 & Hk0 & Hn). cbn [fst].
  unfold at_level. cbn. destruct (decide (id = k)) as [->|].
  - rewrite lookup_insert_eq. eexists. split; [done|]. rewrite E in E0. injection E0 as <-. cbn.
    split; [by rewrite Hk|]. exact (Nat.le_trans _ _ _ Hn (Hf r (proj2 Hs))).
  - exists r0. by rewrite lookup_insert_ne.
Qed.
Ltac use_step s' Hr :=
  match goal with |- context [start_command_step ?a ?b ?c ?f ?s] =>
    pose proof (rises_step a b c f s (λ _, eq_refl)) as Hr; destruct (start_command_step a b c f s) as [s' rows] end;
  cbn [fst] in Hr.
Lemma rises_claim s now id : rises s (ClaimV1StartDelivery s now id).1.
Proof.
  unfold ClaimV1StartDelivery. use_step s' Hr.
  assert (rises s s') by (apply Hr; intros r E; unfold start_level; rewrite decide_True by done; lia).
  by destruct (pg_commands s' !! id).
Qed.
Lemma rises_begin s now id : rises s (BeginV1CommandDelivery s now id).1.
Proof.
  unfold BeginV1CommandDelivery. use_step s' Hr. assert (rises s s') by (apply Hr; intros r E; apply level_le_2).
  by destruct (pg_commands s' !! id).
Qed.
Lemma rises_recover_attempted now s : rises s (recover_attempted_commands now s).
Proof.
  apply rises_rows, row_rises_if. intros r [Hk _] _. cbn. split; [done|]. apply level_le_2.
Qed.
Lemma rising_telemetry now gen identity ocppID tel : rising (UpdateV1TelemetryForOCPP now gen identity ocppID tel).
Proof.
  unfold UpdateV1TelemetryForOCPP, enforce_energy_limit. rising_solve; apply rising_ensure.
Qed.
Lemma rising_complete now gen id w r c o : rising (CompleteV1Transaction now gen id w r c o).
Proof.
  unfold CompleteV1Transaction, getV1CompletionCommandTx. rising_solve.
  all: apply rising_modify; intros s; apply rises_rows, row_rises_if; intros x _ Hk; split; [done|apply level_le_2].
Qed.
Lemma rising_mark_stop now gen id st r d : rising (MarkV1StopDelivery now gen id st r d).
Proof.
  unfold MarkV1StopDelivery. destruct (mark_state st) as [state category]. rising_solve.
  apply rising_modify; intros s; apply rises_rows, row_rises_if. intros x [Hs _] Hk. by rewrite Hk in Hs.
Qed.
Lemma rises_mapping c s : rises s (mapping_exec c s).
Proof.
  destruct c; cbn [mapping_exec]; apply run_rising;
    unfold SyncV1Mapping, RecordV1BootEvidence, RecordV1ChargerConnection,
      RenewCurrentV1ChargerConnection, RecordV1ConnectorStatus, ResetV1ConnectionRuntime, write_connection; rising_solve.
  all: apply rising_same; intros s0; unfold seed_runtime; by case_match.
Qed.

(** Every store call but the recovery of pending commands. *)
Definition retreats (c : store_call) : bool := match c with SRecoverPendingCommands _ => true | _ => false end.
Lemma store_exec_rises c s : retreats c = false → rises s (store_exec c s).
Proof.
  destruct c; try discriminate; intros _; cbn [store_exec].
  - apply run_rising, rising_start.
  - apply run_rising, rising_stop_command.
  - apply run_rising, rising_materialize.
  - apply run_rising, rising_mark.
  - apply rises_claim.
  - apply rises_begin.
  - apply rises_recover_attempted.
  - apply run_rising, rising_telemetry.
  - apply run_rising. unfold EnsureV1StopWorkflow. rising_solve. apply rising_ensure.
  - apply run_rising. unfold ClaimV1StopDelivery. rising_solve.
  - apply run_rising. unfold BeginV1StopDelivery. rising_solve.
  - apply run_rising, rising_mark_stop.
  - by apply rises_same.
  - by apply rises_same.
  - apply run_rising, rising_complete.
  - apply rises_mapping.
  - by apply rises_same.
  - apply run_rising. intros s0 [] s' (r & f & _ & ->)%RequeueV1Fact_tables. by apply rises_same.
Qed.
(** That one takes back what was not attempted only. *)
Lemma recover_pending_attempted now s id : attempted s id → attempted (recover_pending_commands now s) id.
Proof.
  intros (r & E & Hk & Hn). unfold attempted, at_level, recover_pending_commands, update_commands. cbn.
  assert (cmd_State (cr_command r) ≠ "PENDING_DELIVERY") as Hs.
  { intros Hs. revert Hn. unfold start_level. rewrite Hs, decide_False, decide_True by done. lia. }
  rewrite lookup_fmap, E. exists r. split; [|done]. cbn. rewrite decide_False; [done|]. by intros [_ ?].
Qed.
Lemma store_exec_attempted c s id : attempted s id → attempted (store_exec c s) id.
Proof.
  destruct (retreats c) eqn:Hr; [|by apply store_exec_rises]. destruct c; try discriminate. apply recover_pending_attempted.
Qed.
End store_calls.

(** ** Requests that deliver a start *)
Inductive start_pc : Type :=
  | s_begin | s_send | s_wait
  | s_mark (status result_ detail : string).
Record start_world : Type := mkstart_world {
  rw_db : pg;
  rw_requests : gmap nat (string * start_pc);     (* by request: the command and where its handler is *)
  rw_sent : list string                           (* the commands whose RemoteStart was handed over *)
}.
Inductive start_event : Type :=
  | StClaim (i : nat) (now : Time) (id : string)
  | StBegin (i : nat) (now : Time)
  | StSend (i : nat)
  | StAnswer (i : nat) (answer : result string)
  | StMark (i : nat) (now : Time) (gen : generator)
  | StGone (i : nat)               (* a store call failed, or the request was cancelled *)
  | StCall (c : store_call)        (* any other store call *)
  | StRestart (now : Time)         (* the process dies; its successor recovers the commands *)
  | StOverlap (now : Time).        (* a successor recovers while requests still run *)

Section world.
Context `{FactCodec}.

Definition start_exec (w : start_world) (e : start_event) : start_world :=
  let '(mkstart_world s ws sent) := w in
  match e with
  | StClaim i now id =>
    match ws !! i, ClaimV1StartDelivery s now id with
    | None, (s', inl (_, true)) => mkstart_world s' (<[i := (id, s_begin)]> ws) sent
    | None, (s', _) => mkstart_world s' ws sent
    | Some _, _ => w
    end
  | StBegin i now =>
    match ws !! i with
    | Some (id, s_begin) =>
      match BeginV1CommandDelivery s now id with
      | (s', inl _) => mkstart_world s' (<[i := (id, s_send)]> ws) sent
      | (s', inr _) => mkstart_world s' (delete i ws) sent
      end
    | _ => w
    end
  | StSend i =>
    match ws !! i with
    | Some (id, s_send) => mkstart_world s (<[i := (id, s_wait)]> ws) (sent ++ [id])
    | _ => w
    end
  | StAnswer i answer =>
    match ws !! i with
    | Some (id, s_wait) =>
      match answer with
      | inr _ => mkstart_world s (<[i := (id, s_mark "AMBIGUOUS" "" "remote start result unavailable")]> ws) sent
      | inl status => mkstart_world s (<[i := (id, s_mark status status "")]> ws) sent
      end
    | _ => w
    end
  | StMark i now gen =>
    match ws !! i with
    | Some (id, s_mark status r d) =>
      mkstart_world (run_tx (MarkV1CommandDelivery now gen id status r d) s).1 (delete i ws) sent
    | _ => w
    end
  | StGone i => mkstart_world s (delete i ws) sent
  | StCall c => if retreats c then w else mkstart_world (store_exec c s) ws sent
  | StRestart now => mkstart_world (RecoverV1CommandDelivery now s) ∅ sent
  | StOverlap now => mkstart_world (RecoverV1CommandDelivery now s) ws sent
  end.
Definition start_run (es : list start_event) : start_world := fold_left start_exec es (mkstart_world pg_empty ∅ []).
Definition start_overlaps (e : start_event) : bool := match e with StOverlap _ => true | _ => false end.

(** ** The invariant *)
Definition unsent (pc : start_pc) : Prop := pc = s_begin ∨ pc = s_send.
Definition request_level (pc : start_pc) : nat := match pc with s_begin => 1 | _ => 2 end.
Record start_inv (w : start_world) : Prop := {
  sv_requests i id pc : rw_requests w !! i = Some (id, pc) →
    at_level (request_level pc) (rw_db w) id ∧ (unsent pc → id ∉ rw_sent w);
  sv_alone i j id pc pc' : rw_requests w !! i = Some (id, pc) → rw_requests w !! j = Some (id, pc') →
    unsent pc → unsent pc' → i = j;
  sv_sent id : id ∈ rw_sent w → attempted (rw_db w) id;
  sv_once : NoDup (rw_sent w)
}.

Lemma level_weaken m n s id : (m ≤ n)%nat → at_level n s id → at_level m s id.
Proof. intros Hm (r & E & Hk & Hn). exists r. split_and!; [done|done|lia]. Qed.

(** The store moves on, the requests stay. *)
Lemma inv_db s s' ws sent : start_inv (mkstart_world s ws sent) → rises s s' → start_inv (mkstart_world s' ws sent).
Proof.
  intros [Hw Ha Hs Hn] Hr. split; cbn in *; [|done| |done].
  - intros i id pc Hi. destruct (Hw _ _ _ Hi) as [Hl Hu]. split; [by apply Hr|done].
  - intros id Hid. by apply Hr, Hs.
Qed.
(** A request ends. *)
Lemma inv_gone s ws sent i : start_inv (mkstart_world s ws sent) → start_inv (mkstart_world s (delete i ws) sent).
Proof.
  intros [Hw Ha Hs Hn]. split; cbn in *; [| |done|done].
  - intros j id pc Hj. apply lookup_delete_Some in Hj as [_ Hj]. eauto.
  - intros j k id pc pc' Hj Hk. apply lookup_delete_Some in Hj as [_ Hj]. apply lookup_delete_Some in Hk as [_ Hk]. eauto.
Qed.
(** A request moves on, sending at most its own command. *)
Lemma inv_move s ws sent i id pc pc' :
  start_inv (mkstart_world s ws sent) → ws !! i = Some (id, pc) → at_level (request_level pc') s id →
  (unsent pc' → unsent pc) → start_inv (mkstart_world s (<[i := (id, pc')]> ws) sent).
Proof.
  intros [Hw Ha Hs Hn] Hi Hl Hu. split; cbn in *; [| |done|done].
  - intros j id' p [[-> [= <- <-]]|[_ Hj]]%lookup_insert_Some; [|eauto]. split; [done|]. intros ?%Hu. by apply (Hw _ _ _ Hi).
  - intros j k id' p p' Hj Hk Hp Hp'. apply lookup_insert_Some in Hj as [[<- [= <- <-]]|[Hj' Hj]], Hk as [[<- Hk]|[Hk' Hk]]; [done|..].
    + by eapply Ha; eauto.
    + injection Hk as <- <-. by eapply Ha; eauto.
    + by eapply Ha.
Qed.

Lemma claim_fresh s now id s' c : ClaimV1StartDelivery s now id = (s', inl (c, true)) → at_level 1 s' id ∧ ¬ at_level 1 s id.
Proof.
  unfold ClaimV1StartDelivery, start_command_step. destruct (pg_commands s !! id) as [r|] eqn:E; [|by rewrite E].
  case_decide as Hs; [|by rewrite E]. cbn. rewrite lookup_insert_eq. intros [= <- _]. split.
  - eexists. cbn. rewrite lookup_insert_eq. split; [done|]. cbn. split; [by destruct Hs|].
    unfold start_level. cbn. rewrite decide_False, decide_True by done. lia.
  - intros (r0 & E0 & _ & Hn). rewrite E in E0. injection E0 as <-. revert Hn. unfold start_level.
    rewrite decide_True by (by destruct Hs). lia.
Qed.
Lemma begin_attempts s now id s' r :
  BeginV1CommandDelivery s now id = (s', r) → at_level 1 s id → attempted s' id.
Proof.
  unfold BeginV1CommandDelivery, start_command_step. intros Hb (row & E & Hk & Hn). rewrite E in Hb.
  case_decide as Hs.
  - cbn in Hb. rewrite lookup_insert_eq in Hb. injection Hb as <- _. eexists. cbn. rewrite lookup_insert_eq.
    split; [done|]. cbn. split; [done|]. rewrite level_top; [done|]. cbn. set_solver.
  - rewrite E in Hb. injection Hb as <- _. exists row. split_and!; [done|done|]. revert Hn. unfold start_level.
    repeat case_decide; naive_solver lia.
Qed.

Lemma start_exec_inv w e : start_inv w → start_overlaps e = false → start_inv (start_exec w e).
Proof.
  intros Hinv Ho. destruct w as [s ws sent], e as [i now id|i now|i|i answer|i now gen|i|c|now|now]; cbn [start_exec] in *; try done.
  - destruct (ws !! i) eqn:Hi; [done|]. pose proof (rises_claim s now id) as Hr.
    destruct (ClaimV1StartDelivery s now id) as [s' [[c [|]]|err]] eqn:Hc; cbn [fst] in Hr; try by eapply inv_db.
    destruct (claim_fresh _ _ _ _ _ Hc) as [Hl Hf].
    assert (∀ j pc, ws !! j = Some (id, pc) → False) as Hnone.
    { intros j pc Hj. destruct (sv_requests _ Hinv _ _ _ Hj) as [Hj' _]. cbn in Hj'. apply Hf.
      eapply level_weaken; [|done]. destruct pc; cbn; lia. }
    assert (id ∉ sent) as Hid by (intros Hin%(sv_sent _ Hinv); apply Hf; by eapply level_weaken; [|done]; lia).
    apply (inv_db _ s') in Hinv; [|done]. destruct Hinv as [Hw Ha Hs Hn]. split; cbn in *; [| |done|done].
    + intros j id' p [[-> [= <- <-]]|[_ Hj]]%lookup_insert_Some; [done|eauto].
    + intros j k id' p p' Hj Hk Hp Hp'. apply lookup_insert_Some in Hj as [[<- [= <- <-]]|[Hj' Hj]], Hk as [[<- Hk]|[Hk' Hk]]; [done|..].
      * by destruct (Hnone _ _ Hk).
      * injection Hk as <- <-. by destruct (Hnone _ _ Hj).
      * by eapply Ha.
  - destruct (ws !! i) as [[id []]|] eqn:Hi; try done. pose proof (rises_begin s now id) as Hr.
    destruct (BeginV1CommandDelivery s now id) as [s' [c|err]] eqn:Hb; cbn [fst] in Hr;
      [|by apply inv_gone; eapply inv_db].
    eapply inv_move; [by eapply inv_db|done| |]; [|by left].
    eapply begin_attempts; [done|]. by apply (sv_requests _ Hinv _ _ _ Hi).
  - destruct (ws !! i) as [[id []]|] eqn:Hi; try done.
    destruct (sv_requests _ Hinv _ _ _ Hi) as [Hl Hu]. cbn in Hl, Hu.
    pose proof (inv_move _ _ _ _ _ _ s_wait Hinv Hi Hl ltac:(by intros [|])) as [Hw Ha Hs Hn]. cbn in *.
    assert (id ∉ sent) as Hid by (apply Hu; by right). split; cbn.
    + intros j id' p Hj. destruct (Hw _ _ _ Hj) as [? Hp]. split; [done|]. intros Hup. rewrite not_elem_of_app. split; [by apply Hp|].
      rewrite list_elem_of_singleton. intros ->. apply lookup_insert_Some in Hj as [[_ [= <-]]|[Hne Hj]]; [by destruct Hup|].
      apply Hne. eapply (sv_alone _ Hinv); [done|done|by right|done].
    + done.
    + intros id' [?| ->%list_elem_of_singleton]%elem_of_app; [by apply Hs|done].
    + apply NoDup_app. split_and!; [done|set_solver|apply NoDup_singleton].
  - destruct (ws !! i) as [[id []]|] eqn:Hi; try done. destruct (sv_requests _ Hinv _ _ _ Hi) as [Hl _].
    destruct answer; (eapply inv_move; [done|done|done|by intros [|]]).
  - destruct (ws !! i) as [[id []]|] eqn:Hi; try done.
    apply inv_gone. eapply inv_db; [done|]. apply run_rising, rising_mark.
  - by apply inv_gone.
  - destruct (retreats c) eqn:Hc; [done|]. eapply inv_db; [done|]. by apply store_exec_rises.
  - destruct Hinv as [_ _ Hs Hn]. split; cbn in *; [by intros ???|by intros ?????| |done]. intros id Hid.
    unfold RecoverV1CommandDelivery. by apply rises_recover_attempted, recover_pending_attempted, Hs.
Qed.
Lemma start_run_inv es : Forall (λ e, start_overlaps e = false) es → start_inv (start_run es).
Proof.
  intros Hes. induction es as [|e es IH] using rev_ind.
  { split; cbn; [by intros ???|by intros ?????|by intros ? ?%elem_of_nil|constructor]. }
  apply Forall_app in Hes as [Hes He]. unfold start_run in *. rewrite fold_left_app. cbn.
  apply start_exec_inv; [by apply IH|by inversion He].
Qed.
End world.

(** C3: As long as no process recovers while another still serves: however start
    requests, retries of them, the charger's messages, the workers and restarts
    interleave, the RemoteStart of a command is handed to the charger at most once;
    and from then on the stored command is a START command past PERSISTED and
    PENDING_DELIVERY, which no request can claim again.  Where a recovery overlaps
    with a serving process it can be sent twice ([started_twice] below).  Being
    past these states does not mean that the delivery was recorded as attempted:
    v1Start also sends where the transaction has materialized in between
    ([started_after_materialized]). *)
Theorem remote_start_sent_at_most_once `{FactCodec} (es : list start_event) :
  Forall (λ e, start_overlaps e = false) es →
  NoDup (rw_sent (start_run es)) ∧
  ∀ id, id ∈ rw_sent (start_run es) →
    (∃ r, pg_commands (rw_db (start_run es)) !! id = Some r ∧ cmd_Kind (cr_command r) = "START" ∧
      cmd_State (cr_command r) ∉ ["PERSISTED"; "PENDING_DELIVERY"]) ∧
    ∀ now s' c, ClaimV1StartDelivery (rw_db (start_run es)) now id ≠ (s', inl (c, true)).
Proof.
  intros Hes. destruct (start_run_inv es Hes) as [_ _ Hs Hn]. split; [done|].
  intros id Hid%Hs. split.
  - destruct Hid as (r & E & Hk & Hl). exists r. split; [done|]. split; [done|]. revert Hl. unfold start_level.
    rewrite !not_elem_of_cons. repeat case_decide; try lia. intros _. split_and!; [done|done|apply not_elem_of_nil].
  - intros now s' c [_ Hf]%claim_fresh. apply Hf. by eapply level_weaken; [|exact Hid]; lia.
Qed.

(** ** Runs *)
Module StartRuns.
#[local] Existing Instance LifecycleRuns.codec.
Definition command : string := "cmd-1".
Definition before : list start_event := [StCall (SStart 1 (LifecycleRuns.gen "command") LifecycleRuns.start_input)].
(** The CMS retries while the first request waits for the charger; then the
    process restarts and the CMS retries again. *)
Definition retried : list start_event :=
  before ++ [StClaim 1 10 command; StClaim 2 10 command; StBegin 1 11; StSend 1; StClaim 3 12 command; StBegin 2 12;
    StSend 2; StRestart 13; StClaim 4 14 command; StBegin 4 15; StSend 4].
Definition overlapped : list start_event :=
  before ++ [StClaim 1 10 command; StOverlap 10; StClaim 2 10 command; StBegin 2 11; StBegin 1 11; StSend 1; StSend 2].
(** The charger starts with the tag between a request's claim and its begin. *)
Definition started_before : list start_event :=
  before ++ [StClaim 1 2 command; StCall (SMaterialize 2 (LifecycleRuns.gen "start") LifecycleRuns.start); StBegin 1 3].
Abbreviation run es := (@start_run LifecycleRuns.codec es).
Definition state_of (w : start_world) : option string := cmd_State ∘ cr_command <$> pg_commands (rw_db w) !! command.
Lemma retried_alone : Forall (λ e, start_overlaps e = false) retried.
Proof. repeat constructor. Defined.
End StartRuns.

Lemma remote_start_sent_at_most_once_witness :
  rw_sent (StartRuns.run StartRuns.retried) = [StartRuns.command] ∧ NoDup (rw_sent (StartRuns.run StartRuns.retried)).
Proof.
  split; [vm_compute; reflexivity|].
  exact (proj1 (remote_start_sent_at_most_once (H := LifecycleRuns.codec) StartRuns.retried StartRuns.retried_alone)).
Defined.

(** v1Start does not look at the state BeginV1CommandDelivery returns: it sends
    RemoteStart for a command whose transaction has already materialized, and
    two requests send it when a recovery overlaps them. *)
Example started_twice : rw_sent (StartRuns.run StartRuns.overlapped) = [StartRuns.command; StartRuns.command].
Proof. vm_compute. reflexivity. Qed.
Example started_after_materialized :
  StartRuns.state_of (StartRuns.run StartRuns.started_before) = Some "MATERIALIZED" ∧
  rw_sent (StartRuns.run (StartRuns.started_before ++ [StSend 1])) = [StartRuns.command].
Proof. vm_compute. done. Qed.
