(* ===== verification/HttpApi.v ===== *)
(** * The HTTP API of the CMS

    internal/httpapi: server.go, v1.go, v1_operations.go, v1_docs.go and the
    response views of v1_response.go and v1_operations_response.go, as functions
    from the server's state and one request to the state, what the request made
    the HAL do, and the response.  The requests [net/http] hands over are values; JSON
    decoding and encoding of the request structs are the class [RequestJson],
    whose decoders answer [None] where [decodeJSON] refuses the body. *)
From Stdlib Require Import String Ascii.
From stdpp Require Import base numbers decidable option list strings gmap.
From S2P Require Import Prelude GoText GoClock V1Types V1Memory Operations PgSchema TraceData MemTraces Outbox PgTraces TraceHistory HalTraces PgMapping PgLifecycle Histories Connections Registry HalStops Hal HttpValidation Reconcile HalMeter HalRequests HalHandlers HalRuns.
Open Scope Z_scope.

(** ** Responses *)
Record v1CommandResponse : Type := mkv1CommandResponse {
  cmr_HALCommandID : string;
  cmr_CMSCommandID : string;
  cmr_Kind : string;
  cmr_State : string;
  cmr_HALTransactionID : option string;
  cmr_OCPPTransactionID : option Z;
  cmr_UpdatedAt : Time
}.

Record v1ConnectorMappingResponse : Type := mkv1ConnectorMappingResponse {
  nmr_CPOID : string;
  nmr_CMSChargerID : string;
  nmr_CMSConnectorID : string;
  nmr_ChargerOCPPIdentity : string;
  nmr_OCPPConnectorNumber : Z
}.

Record v1MappingResponse : Type := mkv1MappingResponse {
  mpr_CPOID : string;
  mpr_CMSChargerID : string;
  mpr_ChargerOCPPIdentity : string;
  mpr_ExpectedSerial : string;
  mpr_Enabled : bool;
  mpr_Connectors : list v1ConnectorMappingResponse
}.

Record v1StopWorkflowResponse : Type := mkv1StopWorkflowResponse {
  swr_HALTransactionID : string;
  swr_RequestedStopInitiator : string;
  swr_RequestedStopReason : string;
  swr_State : string;
  swr_DeliveryAttempts : Z;
  swr_LastOCPPResult : string;
  swr_LastErrorCategory : string;
  swr_CreatedAt : Time;
  swr_UpdatedAt : Time;
  swr_CompletedAt : option Time
}.

Record v1TransactionResponse : Type := mkv1TransactionResponse {
  txr_HALTransactionID : string;
  txr_CMSStartIntentID : string;
  txr_CMSCommandID : string;
  txr_CPOID : string;
  txr_CMSChargerID : string;
  txr_CMSConnectorID : string;
  txr_ChargerOCPPIdentity : string;
  txr_OCPPConnectorNumber : Z;
  txr_OCPPTransactionID : Z;
  txr_ActualStartedAt : Time;
  txr_ObservedStartedAt : Time;
  txr_MeterStartWh : Z;
  txr_LimitType : string;
  txr_LatestMeterWh : option Z;
  txr_ConsumedWh : option Z;
  txr_MeterObservedAt : option Time;
  txr_MeterSequence : Z;
  txr_InitialSoCPercent : option V1SoCPercent;
  txr_LatestSoCPercent : option V1SoCPercent;
  txr_SoCObservedAt : option Time;
  txr_SoCSequence : Z;
  txr_EnergyLimitWh : option Z;
  txr_EnergyLimitSource : string;
  txr_MaxDurationSeconds : option Z;
  txr_DurationLimitSource : string;
  txr_StopDeadlineAt : option Time;
  txr_StopState : string;
  txr_RequestedStopInitiator : string;
  txr_RequestedStopReason : string;
  txr_OCPPStopReason : string;
  txr_CompletedAt : option Time;
  txr_ObservedCompletedAt : option Time;
  txr_MeterStopWh : option Z
}.

Record v1ConnectorRuntimeResponse : Type := mkv1ConnectorRuntimeResponse {
  ncr_CPOID : string;
  ncr_CMSChargerID : string;
  ncr_CMSConnectorID : string;
  ncr_ChargerOCPPIdentity : string;
  ncr_OCPPConnectorNumber : Z;
  ncr_Status : string;
  ncr_ErrorCode : string;
  ncr_Info : string;
  ncr_VendorID : string;
  ncr_VendorErrorCode : string;
  ncr_ObservedAt : option Time;
  ncr_StatusSequence : Z;
  ncr_UpdatedAt : Time
}.

Record v1ChargerRuntimeResponse : Type := mkv1ChargerRuntimeResponse {
  chr_CPOID : string;
  chr_CMSChargerID : string;
  chr_ChargerOCPPIdentity : string;
  chr_ConnectionState : string;
  chr_ConnectionGeneration : Z;
  chr_ConnectionSequence : Z;
  chr_ConnectedAt : option Time;
  chr_LastObservedAt : option Time;
  chr_UpdatedAt : Time;
  chr_Connectors : list v1ConnectorRuntimeResponse
}.

Record v1ChargerOperationResponse : Type := mkv1ChargerOperationResponse {
  opr_HALOperationID : string;
  opr_CMSOperationID : string;
  opr_CPOID : string;
  opr_CMSChargerID : string;
  opr_CMSConnectorID : string;
  opr_OCPPConnectorNumber : Z;
  opr_Kind : string;
  opr_State : string;
  opr_OCPPResult : string;
  opr_ErrorCategory : string;
  opr_DeliveryAttempts : Z;
  opr_CreatedAt : Time;
  opr_UpdatedAt : Time;
  opr_CompletedAt : option Time
}.

Definition v1StopWorkflowView (workflow : V1StopWorkflow) : v1StopWorkflowResponse :=
  mkv1StopWorkflowResponse
    (wf_HALTransactionID workflow) (wf_RequestedStopInitiator workflow) (wf_RequestedStopReason workflow)
    (wf_State workflow) (wf_DeliveryAttempts workflow) (wf_LastOCPPResult workflow) (wf_LastErrorCategory workflow)
    (wf_CreatedAt workflow) (wf_UpdatedAt workflow) (wf_CompletedAt workflow).

Definition v1TransactionView (transaction : V1Transaction) : v1TransactionResponse :=
  mkv1TransactionResponse
    (tx_HALTransactionID transaction) (tx_CMSStartIntentID transaction) (tx_CMSCommandID transaction)
    (tx_CPOID transaction) (tx_CMSChargerID transaction) (tx_CMSConnectorID transaction)
    (tx_ChargerOCPPIdentity transaction) (tx_OCPPConnectorNumber transaction) (tx_OCPPTransactionID transaction)
    (tx_ActualStartedAt transaction) (tx_ObservedStartedAt transaction) (tx_MeterStartWh transaction)
    (tx_LimitType transaction) (tx_LatestMeterWh transaction) (tx_ConsumedWh transaction)
    (tx_MeterObservedAt transaction) (tx_MeterSequence transaction) (tx_InitialSoCPercent transaction)
    (tx_LatestSoCPercent transaction) (tx_SoCObservedAt transaction) (tx_SoCSequence transaction)
    (tx_EnergyLimitWh transaction) (tx_EnergyLimitSource transaction) (tx_MaxDurationSeconds transaction)
    (tx_DurationLimitSource transaction) (tx_StopDeadlineAt transaction) (tx_StopState transaction)
    (tx_RequestedStopInitiator transaction) (tx_RequestedStopReason transaction) (tx_OCPPStopReason transaction)
    (tx_CompletedAt transaction) (tx_ObservedCompletedAt transaction) (tx_MeterStopWh transaction).

Definition v1ConnectorRuntimeView (runtime : V1ConnectorRuntime) : v1ConnectorRuntimeResponse :=
  mkv1ConnectorRuntimeResponse
    (cort_CPOID runtime) (cort_CMSChargerID runtime) (cort_CMSConnectorID runtime)
    (cort_ChargerOCPPIdentity runtime) (cort_OCPPConnectorNumber runtime) (cort_Status runtime)
    (cort_ErrorCode runtime) (cort_Info runtime) (cort_VendorID runtime) (cort_VendorErrorCode runtime)
    (cort_ObservedAt runtime) (cort_StatusSequence runtime) (cort_UpdatedAt runtime).

Definition v1ChargerOperationView (operation : V1ChargerOperation) : v1ChargerOperationResponse :=
  mkv1ChargerOperationResponse
    (op_HALOperationID operation) (op_CMSOperationID operation) (op_CPOID operation) (op_CMSChargerID operation)
    (op_CMSConnectorID operation) (op_OCPPConnectorNumber operation) (op_Kind operation) (op_State operation)
    (op_OCPPResult operation) (op_ErrorCategory operation) (op_DeliveryAttempts operation) (op_CreatedAt operation)
    (op_UpdatedAt operation) (op_CompletedAt operation).

Definition v1CommandView (command : V1RemoteCommand) : v1CommandResponse :=
  mkv1CommandResponse (cmd_HALCommandID command) (cmd_CMSCommandID command) (cmd_Kind command) (cmd_State command)
    (if decide (cmd_HALTransactionID command ≠ "") then Some (cmd_HALTransactionID command) else None)
    (cmd_OCPPTransactionID command) (cmd_UpdatedAt command).
Definition connector_mapping_view (c : V1ConnectorMapping) : v1ConnectorMappingResponse :=
  mkv1ConnectorMappingResponse (com_CPOID c) (com_CMSChargerID c) (com_CMSConnectorID c) (com_ChargerOCPPIdentity c)
    (com_OCPPConnectorNumber c).
Definition v1MappingView (mapping : V1ChargerMapping) : v1MappingResponse :=
  mkv1MappingResponse (cm_CPOID mapping) (cm_CMSChargerID mapping) (cm_ChargerOCPPIdentity mapping)
    (cm_ExpectedSerial mapping) (cm_Enabled mapping) (connector_mapping_view <$> cm_Connectors mapping).
Definition v1ChargerRuntimeView (runtime : V1ChargerRuntime) : v1ChargerRuntimeResponse :=
  mkv1ChargerRuntimeResponse (crt_CPOID runtime) (crt_CMSChargerID runtime) (crt_ChargerOCPPIdentity runtime)
    (crt_ConnectionState runtime) (crt_ConnectionGeneration runtime) (crt_ConnectionSequence runtime)
    (crt_ConnectedAt runtime) (crt_LastObservedAt runtime) (crt_UpdatedAt runtime)
    (v1ConnectorRuntimeView <$> crt_Connectors runtime).

(** ocpp-go's GetConfigurationConfirmation, and what of it is shown. *)
Record GetConfigurationConfirmation : Type := mkGetConfigurationConfirmation {
  gc_ConfigurationKey : list ConfigurationKey;
  gc_UnknownKey : list string
}.
Record configuration_item : Type := mkconfiguration_item {
  ci_key : string;
  ci_readonly : bool;
  ci_redacted : bool;
  ci_value : option string
}.
Definition shown_item (item : ConfigurationKey) : configuration_item :=
  let redacted := v1SensitiveConfigurationKey (ck_Key item) in
  mkconfiguration_item (ck_Key item) (ck_Readonly item) redacted (if redacted then None else ck_Value item).
Definition v1SafeConfigurationView (confirmation : GetConfigurationConfirmation) : list configuration_item * list string :=
  (shown_item <$> gc_ConfigurationKey confirmation, gc_UnknownKey confirmation).

Inductive response_body : Type :=
  | NoBody
  | ErrorBody (error : string)
  | MappingBody (mapping : v1MappingResponse) (idempotency_key correlation_id : string)
  | CommandBody (command : v1CommandResponse) (correlation_id : string) (duplicate : bool)
  | StopBody (command : v1CommandResponse) (stop_workflow : option v1StopWorkflowResponse) (correlation_id : string)
      (duplicate : bool)
  | StoredCommandBody (command : v1CommandResponse)
  | TransactionBody (transaction : v1TransactionResponse) (stop_workflow : option v1StopWorkflowResponse)
  | ChargerRuntimeBody (runtime : v1ChargerRuntimeResponse) (fresh : bool)
  | ConnectorRuntimeBody (runtime : v1ConnectorRuntimeResponse) (fresh : bool)
  | FactBody (fact_id status : string)
  | OperationBody (operation : v1ChargerOperationResponse) (correlation_id : string) (duplicate : bool)
      (configuration : option (list configuration_item * list string))
  | StoredOperationBody (operation : v1ChargerOperationResponse)
  | ConfigurationBody (configuration : list configuration_item * list string)
  | OpenAPIBody                                           (* the embedded v1_openapi.json *)
  | DocsBody                                              (* v1DocsHTML *)
  | Panicked.   (* the handler dereferences nil: net/http drops the connection *)
Definition response : Type := Z * response_body.

(** [Server.writeV1StoreError] *)
Definition writeV1StoreError (err : go_error) : response :=
  if decide (errors_Is err ErrV1MappingNotFound ∨ errors_Is err ErrV1CommandNotFound ∨
             errors_Is err ErrV1OperationNotFound ∨ errors_Is err ErrV1TransactionNotFound ∨
             errors_Is err ErrV1FactNotFound) then (404, ErrorBody "v1 resource not found")
  else if decide (errors_Is err ErrV1MappingConflict ∨ errors_Is err ErrV1IdempotencyConflict ∨
                  errors_Is err ErrV1FactNotReconciliable) then (409, ErrorBody "v1 idempotency or mapping conflict")
  else if decide (errors_Is err ErrV1CredentialRejected)
  then (422, ErrorBody "v1 request is not permitted by current mapping state")
  else if decide (errors_Is err ErrV1InvalidEvidence) then (422, ErrorBody "invalid v1 transaction evidence")
  else (500, ErrorBody "v1 persistence operation failed").

(** ** Requests *)
Record v1ConnectorRequest : Type := mkv1ConnectorRequest {
  kcr_CMSConnectorID : string;
  kcr_OCPPConnectorNumber : Z
}.
Record v1MappingRequest : Type := mkv1MappingRequest {
  mrq_CPOID : string;
  mrq_CMSChargerID : string;
  mrq_ChargerOCPPIdentity : string;
  mrq_ExpectedSerial : string;
  mrq_Enabled : bool;
  mrq_Connectors : list v1ConnectorRequest
}.
Record v1StartRequest : Type := mkv1StartRequest {
  srq_TraceID : string;
  srq_CMSCommandID : string;
  srq_CMSStartIntentID : string;
  srq_CPOID : string;
  srq_CustomerID : string;
  srq_CMSChargerID : string;
  srq_CMSConnectorID : string;
  srq_ChargerOCPPIdentity : string;
  srq_OCPPConnectorNumber : Z;
  srq_IDTag : string;
  srq_CredentialExpiresAt : Time;
  srq_CommandExpiresAt : Time;
  srq_LimitType : string;
  srq_EnergyLimitWh : Z;
  srq_EnergyLimitSource : string;
  srq_MaxDurationSeconds : Z;
  srq_DurationLimitSource : string
}.

Record v1StopRequest : Type := mkv1StopRequest {
  prq_TraceID : string;
  prq_CMSCommandID : string;
  prq_CMSChargingSessionID : string;
  prq_CPOID : string;
  prq_CustomerID : string;
  prq_CMSChargerID : string;
  prq_CMSConnectorID : string;
  prq_ChargerOCPPIdentity : string;
  prq_OCPPConnectorNumber : Z;
  prq_HALTransactionID : string;
  prq_OCPPTransactionID : Z;
  prq_RequestedStopInitiator : string;
  prq_RequestedStopReason : string;
  prq_CommandExpiresAt : Time
}.

Record v1ConfigurationReadRequest : Type := mkv1ConfigurationReadRequest {
  rrq_CPOID : string;
  rrq_CMSChargerID : string;
  rrq_ChargerOCPPIdentity : string;
  rrq_Keys : option (list string)
}.

#[global] Instance eta_v1StartRequest : Eta v1StartRequest := λ r,
  mkv1StartRequest (srq_TraceID r) (srq_CMSCommandID r) (srq_CMSStartIntentID r) (srq_CPOID r) (srq_CustomerID r)
    (srq_CMSChargerID r) (srq_CMSConnectorID r) (srq_ChargerOCPPIdentity r) (srq_OCPPConnectorNumber r) (srq_IDTag r)
    (srq_CredentialExpiresAt r) (srq_CommandExpiresAt r) (srq_LimitType r) (srq_EnergyLimitWh r)
    (srq_EnergyLimitSource r) (srq_MaxDurationSeconds r) (srq_DurationLimitSource r) .

Record http_request : Type := mkhttp_request {
  rq_Method : string;
  rq_Path : string;
  rq_Header : string → string;      (* Header.Get *)
  rq_Query : string → string;       (* URL.Query().Get *)
  rq_Body : string
}.

(** encoding/json on the request structs. *)
Class RequestJson : Type := {
  decode_mapping : string → option v1MappingRequest;
  decode_start : string → option v1StartRequest;
  decode_stop : string → option v1StopRequest;
  decode_operation : string → option v1ChargerOperationRequest;
  decode_read : string → option v1ConfigurationReadRequest;
  marshal_mapping : v1MappingRequest → string;
  marshal_start : v1StartRequest → string;
  marshal_stop : v1StopRequest → string;
  marshal_operation : v1ChargerOperationRequest → string
}.

(** ** Handlers

    What one request meets outside the server: the handler's readings of the
    clock, the instant and the identifiers of each of its store calls, its
    trace calls, and what the charger answers. *)
Record api_env : Type := mkapi_env {
  ae_now : nat → Time;
  ae_stored : nat → Time;
  ae_gen : nat → PgMapping.generator;
  ae_since : Time;                                  (* updated_at of the mapping tables *)
  ae_root : Time;                                   (* a trace root *)
  ae_tick : nat → trace_tick;
  ae_ks : list string;
  ae_remoteStart : request_outcome string;
  ae_stop : HalStops.dispatch_env;
  ae_stopTicks : nat → trace_tick;
  ae_hal : hal_env;
  ae_operation : Operations.dispatch_env GetConfigurationConfirmation;
  ae_read : request_outcome GetConfigurationConfirmation
}.

Inductive api_effect : Type :=
  | FromHAL (x : hal_effect)
  | Requested (command : option string)                   (* handed to the OCPP library, for a start command *)
      (wireIdentity : string) (r : hal_request)
  | SentOperation (op : V1ChargerOperation).

(** What the server reads of its configuration. *)
Record ServerConfig : Type := mkServerConfig { sc_V1CMSBearerToken : string; sc_APIDocsEnabled : bool }.

(** A handler over the HAL and the operation ledger: [inl] once it has written
    its response and returned. *)
Definition handler (S A : Type) : Type := HAL * S → HAL * S * list api_effect * (response + A).
#[global] Instance handler_ret {S} : MRet (handler S) := λ A a w, (w, [], inr a).
#[global] Instance handler_bind {S} : MBind (handler S) := λ A B k m w,
  match m w with
  | (w1, l, inl resp) => (w1, l, inl resp)
  | (w1, l, inr a) => let '(w2, l', r) := k a w1 in (w2, l ++ l', r)
  end.

Section steps.
Context {S : Type}.
Definition respond {A} (status : Z) (body : response_body) : handler S A := λ w, (w, [], inl (status, body)).
Definition refuse {A} (status : Z) (error : string) : handler S A := respond status (ErrorBody error).
(** [if !ok { respond; return }] *)
Definition require (ok : bool) (status : Z) (error : string) : handler S () :=
  if ok then mret () else refuse status error.
Definition method_is (r : http_request) (m : string) : handler S () :=
  if decide (rq_Method r = m) then mret () else respond 405 NoBody.
Definition decodeJSON {A} (decode : string → option A) (r : http_request) : handler S A :=
  match decode (rq_Body r) with Some a => mret a | None => refuse 400 "invalid JSON request" end.

(** Calls of [s.v1Store]; [Routes] below serves nothing without one. *)
Definition on_store {A} (f : pg → pg * result A) : handler S (result A) := λ w,
  match h_v1Store w.1 with
  | Some s => let '(s', r) := f s in ((w.1 <| h_v1Store := Some s' |>, w.2), [], inr r)
  | None => (w, [], inl (500, Panicked))
  end.
(** [if err != nil { s.writeV1StoreError(w, err); return }] *)
Definition or_error {A} (m : handler S (result A)) : handler S A :=
  r ← m;
  match r with
  | inl a => mret a
  | inr err => λ w, (w, [], inl (writeV1StoreError err))
  end.
Definition store_call {A} (f : pg → pg * result A) : handler S A := or_error (on_store f).
Definition store_read {A} (f : pg → result A) : handler S A := store_call (λ s, (s, f s)).
Definition store_check (f : pg → option go_error) : handler S () :=
  store_read (λ s, match f s with Some err => inr err | None => inl () end).
Definition on_traces {A} (f : trace_db → trace_db * result A) : handler S (result A) := λ w,
  let '(t, r) := f (h_traces w.1) in ((w.1 <| h_traces := t |>, w.2), [], inr r).
Definition get_hal : handler S HAL := λ w, (w, [], inr w.1).
Definition emit (l : list api_effect) : handler S () := λ w, (w, l, inr ()).
(** A request handed to the OCPP library, and its outcome. *)
Definition request_charger {C} (command : option string) (x : handed C) : handler S (result C) :=
  emit (match x.1 with Some (wireIdentity, q) => [Requested command wireIdentity q] | None => [] end);;
  mret x.2.
End steps.

(** [v1MutationHeaders] *)
Definition v1MutationHeaders `{UuidLib} {S} (r : http_request) : handler S (string * string) :=
  let idempotency := GoStrings.TrimSpace (rq_Header r "Idempotency-Key") in
  let correlation := GoStrings.TrimSpace (rq_Header r "X-Correlation-ID") in
  if validUUID idempotency && validUUID correlation then mret (correlation, idempotency)
  else refuse 400 "Idempotency-Key and X-Correlation-ID must be canonical UUIDs".

(** [digestJSON] of an already marshalled request. *)
Definition newline : string := String (ascii_of_nat 10) EmptyString.
Definition digestJSON `{FactCodec} (marshalled idempotency : string) : string :=
  sha256_hex (marshalled +:+ newline +:+ idempotency).

(** [sanitizedTraceData] *)
Definition sanitized_keys : list string :=
  ["action"; "result"; "status"; "transaction_id"; "connector_id"; "meter_wh"; "reason"; "error_class"].
Definition sanitizedTraceData (input : data_map) : data_map := filter (λ p, p.1 ∈ sanitized_keys) input.

(** The events of the two command handlers. *)
Definition api_event (source target category protocol phase summary : string) (at_ : Time) (correlation : string)
    (data : any) : V1TraceEventInput :=
  mkV1TraceEventInput source target category protocol phase summary at_ "" "" correlation data.
Definition start_accepted_event (at_ : Time) (correlation : string) : V1TraceEventInput :=
  api_event "CMS" "HAL" "COMMAND" "HTTP" "STARTING" "CMS start command accepted by HAL" at_ correlation ANil.
Definition start_call_event (at_ : Time) (correlation : string) : V1TraceEventInput :=
  api_event "HAL" "CHARGER" "OCPP_CALL" "OCPP1.6" "STARTING" "RemoteStartTransaction" at_ correlation
    (AMap (sanitizedTraceData (obj [("action", AString "RemoteStartTransaction")]))).
Definition start_answer_event (at_ : Time) (correlation status : string) : V1TraceEventInput :=
  api_event "CHARGER" "HAL" "OCPP_CALL" "OCPP1.6" "STARTING" ("RemoteStartTransaction confirmation: " +:+ status) at_
    correlation
    (AMap (sanitizedTraceData (obj [("action", AString "RemoteStartTransaction"); ("result", AString status)]))).
Definition stop_accepted_event (at_ : Time) (correlation : string) : V1TraceEventInput :=
  api_event "CMS" "HAL" "COMMAND" "HTTP" "STOPPING" "CMS stop command accepted by HAL" at_ correlation ANil.

(** [store.V1Transaction{HALTransactionID: ..., OCPPTransactionID: ...}] *)
Definition transaction_key (halTransactionID : string) (ocppTransactionID : Z) : V1Transaction :=
  mkV1Transaction halTransactionID "" "" "" "" "" "" "" 0 "" ocppTransactionID 0 0 0 "" None None None 0
    None None None 0 None "" None "" None "" "" "" "" None None None None None "" 0.

Definition TrimSuffix (s suffix : string) : string :=
  GoStrings.reverse (TrimPrefix (GoStrings.reverse s) (GoStrings.reverse suffix)).
Definition HasSuffix (s suffix : string) : bool := HasPrefix (GoStrings.reverse s) (GoStrings.reverse suffix).

Section handlers.
Context `{HC : FactCodec, HJ : JsonView, HU : UuidLib, HR : RequestJson} {S : Type} `{HO : OperationStore S}.
Context (e : api_env) (q : http_request).
Notation handler := (handler S).

(** [Server.appendV1Trace]: a failed append is only logged. *)
Definition appendV1Trace (i : nat) (traceID : string) (input : V1TraceEventInput) : handler () :=
  _ ← on_traces (run_tx (AppendV1TraceEvent (ae_tick e i).1 (ae_tick e i).2 traceID input));
  mret ().
Definition append_if (i : nat) (traceID : string) (input : V1TraceEventInput) : handler () :=
  if decide (traceID ≠ "") then appendV1Trace i traceID input else mret ().

(** ** Mappings *)

(** The loop over the connectors of a mapping; [seen] holds the numbers so far. *)
Fixpoint mapping_connectors (seen : list Z) (cs : list v1ConnectorRequest) : option (list V1ConnectorMappingInput) :=
  match cs with
  | [] => Some []
  | c :: rest =>
    let n := kcr_OCPPConnectorNumber c in
    if decide (validUUID (kcr_CMSConnectorID c) = false ∨ n ≤ 0 ∨ n ∈ seen) then None
    else (λ l, mkV1ConnectorMappingInput (kcr_CMSConnectorID c) n :: l) <$> mapping_connectors (n :: seen) rest
  end.
Definition valid_mapping (req : v1MappingRequest) : bool :=
  let pathID := TrimPrefix (rq_Path q) "/v1/mappings/chargers/" in
  bool_decide (pathID ≠ "" ∧ pathID = mrq_CMSChargerID req) && validUUID (mrq_CPOID req) &&
  validUUID (mrq_CMSChargerID req) &&
  bool_decide (GoStrings.TrimSpace (mrq_ChargerOCPPIdentity req) ≠ "" ∧
    Z.of_nat (String.length (mrq_ChargerOCPPIdentity req)) ≤ 255) &&
  validIdentityEvidence (mrq_ExpectedSerial req) && bool_decide (mrq_Connectors req ≠ []).
Definition mapping_input (req : v1MappingRequest) (connectors : list V1ConnectorMappingInput)
    (correlation idempotency : string) : V1MappingInput :=
  mkV1MappingInput (mrq_CPOID req) (mrq_CMSChargerID req) (mrq_ChargerOCPPIdentity req)
    (GoStrings.TrimSpace (mrq_ExpectedSerial req)) (mrq_Enabled req) connectors correlation
    (digestJSON (marshal_mapping req) idempotency).
(** [SyncV1Mapping] with the mapping it returns. *)
Definition sync_and_load (now : Time) (gen : PgMapping.generator) (input : V1MappingInput) (s : pg) :
    pg * result (V1ChargerMapping * bool) :=
  match run_tx (SyncV1Mapping now gen input) s with
  | (s', inl existed) => (s', rbind (loadV1Mapping s' (mi_CMSChargerID input)) (λ m, inl (m, existed)))
  | (s', inr err) => (s', inr err)
  end.
Definition v1Mapping : handler response :=
  method_is q "PUT";;
  ids ← v1MutationHeaders q;
  req ← decodeJSON decode_mapping q;
  require (valid_mapping req) 422 "invalid immutable charger mapping";;
  connectors ← match mapping_connectors [] (mrq_Connectors req) with
               | Some l => mret l
               | None => refuse 422 "invalid connector mapping"
               end;
  synced ← store_call (sync_and_load (ae_stored e 0) (ae_gen e 0) (mapping_input req connectors ids.1 ids.2));
  mret (if synced.2 : bool then 200 else 201, MappingBody (v1MappingView synced.1) ids.2 ids.1).

(** ** Starts *)

(** The request with the legacy defaults filled in, and sourcesValid. *)
Definition normalize_start (req : v1StartRequest) : v1StartRequest * bool :=
  let req := if decide (srq_LimitType req = "") then req <| srq_LimitType := "AUTO" |> else req in
  let energy := normalizeV1LimitSource (srq_LimitType req) (srq_EnergyLimitSource req) (srq_EnergyLimitWh req) true in
  let req := req <| srq_EnergyLimitSource := energy.1 |> in
  if energy.2 then
    let duration := normalizeV1LimitSource (srq_LimitType req) (srq_DurationLimitSource req)
                      (srq_MaxDurationSeconds req) false in
    (req <| srq_DurationLimitSource := duration.1 |>, duration.2)
  else (req, false).
Definition valid_start (req : v1StartRequest) (sourcesValid : bool) : bool :=
  bool_decide (rq_Header q "Idempotency-Key" = srq_CMSCommandID req) &&
  (bool_decide (srq_TraceID req = "") || validUUID (srq_TraceID req)) && validUUID (srq_CMSCommandID req) &&
  validUUID (srq_CMSStartIntentID req) && validUUID (srq_CPOID req) && validUUID (srq_CustomerID req) &&
  validUUID (srq_CMSChargerID req) && validUUID (srq_CMSConnectorID req) &&
  bool_decide (0 < srq_OCPPConnectorNumber req) && HasPrefix (srq_IDTag req) "appv1_" &&
  bool_decide (Z.of_nat (String.length (srq_IDTag req)) ≤ 20) && validV1LimitType (srq_LimitType req) &&
  bool_decide (0 ≤ srq_EnergyLimitWh req ∧ 0 ≤ srq_MaxDurationSeconds req) && sourcesValid &&
  bool_decide (GoTime.After (srq_CredentialExpiresAt req) (ae_now e 0) ∧
               GoTime.After (srq_CommandExpiresAt req) (srq_CredentialExpiresAt req)).
Definition start_command_input (req : v1StartRequest) (correlation idempotency : string) : V1StartCommandInput :=
  mkV1StartCommandInput (srq_CMSCommandID req) (digestJSON (marshal_start req) idempotency) (srq_CPOID req)
    (srq_CustomerID req) correlation (srq_CMSStartIntentID req) (srq_CMSChargerID req) (srq_CMSConnectorID req)
    (srq_ChargerOCPPIdentity req) (srq_OCPPConnectorNumber req) (srq_IDTag req) (srq_CredentialExpiresAt req)
    (srq_CommandExpiresAt req) (srq_LimitType req) (positive (srq_EnergyLimitWh req)) (srq_EnergyLimitSource req)
    (positive (srq_MaxDurationSeconds req)) (srq_DurationLimitSource req).
Definition start_root (req : v1StartRequest) : V1Trace :=
  mkV1Trace (srq_TraceID req) (srq_CPOID req) (srq_CMSStartIntentID req) (srq_CMSCommandID req) "" "" "" "" None
    (srq_ChargerOCPPIdentity req) (srq_OCPPConnectorNumber req) 0.
Definition trace_start (req : v1StartRequest) (correlation : string) : handler () :=
  if decide (srq_TraceID req ≠ "") then
    root ← on_traces (EnsureV1Trace (ae_root e) (start_root req));
    match root with
    | inr _ => mret ()
    | inl _ => appendV1Trace 0 (srq_TraceID req) (start_accepted_event (ae_now e 1) correlation)
    end
  else mret ().
(** The delivery of a claimed start: begin, RemoteStartTransaction, mark. *)
Definition mark_start (id status result_ detail : string) : handler V1RemoteCommand :=
  store_call (run_tx (MarkV1CommandDelivery (ae_stored e 3) (ae_gen e 3) id status result_ detail)).
Definition conclude_start (req : v1StartRequest) (correlation : string) (answer : result string) :
    handler V1RemoteCommand :=
  match answer with
  | inr _ => mark_start (srq_CMSCommandID req) "AMBIGUOUS" "" "remote start result unavailable"
  | inl status =>
    append_if 2 (srq_TraceID req) (start_answer_event (ae_now e 3) correlation status);;
    mark_start (srq_CMSCommandID req) status status ""
  end.
Definition deliver_start (req : v1StartRequest) (correlation : string) : handler V1RemoteCommand :=
  _ ← store_call (λ s, BeginV1CommandDelivery s (ae_stored e 2) (srq_CMSCommandID req));
  append_if 1 (srq_TraceID req) (start_call_event (ae_now e 2) correlation);;
  h ← get_hal;
  answer ← request_charger (Some (srq_CMSCommandID req))
             (RemoteStartTransaction h (ae_ks e) (srq_ChargerOCPPIdentity req) (srq_IDTag req)
                (srq_OCPPConnectorNumber req) (ae_remoteStart e));
  conclude_start req correlation answer.
Definition v1Start : handler response :=
  method_is q "POST";;
  ids ← v1MutationHeaders q;
  decoded ← decodeJSON decode_start q;
  let '(req, sourcesValid) := normalize_start decoded in
  require (valid_start req sourcesValid) 422 "invalid start command";;
  store_check (λ s, ValidateV1Mapping s (srq_CPOID req) (srq_CMSChargerID req) (srq_CMSConnectorID req)
                      (srq_ChargerOCPPIdentity req) (srq_OCPPConnectorNumber req));;
  created ← store_call (run_tx (CreateV1StartCommand (ae_stored e 0) (ae_gen e 0) (start_command_input req ids.1 ids.2)));
  trace_start req ids.1;;
  claim ← store_call (λ s, ClaimV1StartDelivery s (ae_stored e 1) (srq_CMSCommandID req));
  command ← (if claim.2 : bool then deliver_start req ids.1 else mret claim.1);
  mret (202, CommandBody (v1CommandView command) ids.1 created.2).

(** ** Stops *)
Definition valid_stop (req : v1StopRequest) : bool :=
  bool_decide (rq_Header q "Idempotency-Key" = prq_CMSCommandID req) &&
  (bool_decide (prq_TraceID req = "") || validUUID (prq_TraceID req)) && validUUID (prq_CMSCommandID req) &&
  validUUID (prq_CMSChargingSessionID req) && validUUID (prq_CPOID req) && validUUID (prq_CMSChargerID req) &&
  validUUID (prq_CMSConnectorID req) && validUUID (prq_HALTransactionID req) &&
  bool_decide (0 < prq_OCPPTransactionID req ∧ 0 < prq_OCPPConnectorNumber req) &&
  bool_decide (GoTime.After (prq_CommandExpiresAt req) (ae_now e 0)) &&
  validV1StopInitiator (prq_RequestedStopInitiator req) &&
  bool_decide (GoStrings.TrimSpace (prq_RequestedStopReason req) ≠ "").
Definition stop_command_input (req : v1StopRequest) (correlation idempotency : string) : V1StopCommandInput :=
  mkV1StopCommandInput (prq_CMSCommandID req) (digestJSON (marshal_stop req) idempotency) (prq_CPOID req)
    (prq_CustomerID req) correlation (prq_CMSChargingSessionID req) (prq_CMSChargerID req) (prq_CMSConnectorID req)
    (prq_ChargerOCPPIdentity req) (prq_OCPPConnectorNumber req) (prq_HALTransactionID req) (prq_OCPPTransactionID req)
    (prq_RequestedStopInitiator req) (prq_RequestedStopReason req) (prq_CommandExpiresAt req).
Definition trace_stop (req : v1StopRequest) (correlation : string) : handler () :=
  if decide (prq_TraceID req ≠ "") then
    _ ← on_traces (BindV1TraceTransaction (prq_TraceID req)
                     (transaction_key (prq_HALTransactionID req) (prq_OCPPTransactionID req)));
    appendV1Trace 0 (prq_TraceID req) (stop_accepted_event (ae_now e 1) correlation)
  else mret ().
(** [s.hal.DispatchV1Stop]: the workflow, [None] for nil; its error is only
    logged. *)
Definition dispatch_stop (halTransactionID : string) : handler (option V1StopWorkflow) := λ w,
  let '(h, eff, reply) := hal_step w.1 (InDispatchStop (ae_stop e) (ae_stopTicks e) halTransactionID) in
  ((h, w.2), FromHAL <$> eff, inr match reply with RWorkflow (inl workflow) => Some workflow | _ => None end).
Definition v1Stop : handler response :=
  method_is q "POST";;
  ids ← v1MutationHeaders q;
  req ← decodeJSON decode_stop q;
  require (valid_stop req) 422 "invalid stop command";;
  created ← store_call (run_tx (CreateV1StopCommand (ae_stored e 0) (ae_now e 2) (ae_gen e 0) (stop_command_input req ids.1 ids.2)));
  trace_stop req ids.1;;
  workflow ← dispatch_stop (prq_HALTransactionID req);
  mret (202, StopBody (v1CommandView created.1) (v1StopWorkflowView <$> workflow) ids.1 created.2).

(** ** Reads *)
Definition v1Command : handler response :=
  method_is q "GET";;
  let id := rq_Query q "cms_command_id" in
  require (validUUID id) 422 "cms_command_id UUID required";;
  c ← store_read (λ s, GetV1Command s id);
  mret (200, StoredCommandBody (v1CommandView c)).

(** The workflow of a transaction, when it has one. *)
Definition transaction_response (t : V1Transaction) : handler response :=
  workflow ← on_store (λ s, (s, GetV1StopWorkflow s (tx_HALTransactionID t)));
  mret (200, TransactionBody (v1TransactionView t)
               (match workflow with inl w => Some (v1StopWorkflowView w) | inr _ => None end)).
Definition v1Transactions : handler response :=
  method_is q "GET";;
  let id := rq_Query q "cms_start_intent_id" in
  require (validUUID id) 422 "cms_start_intent_id UUID required";;
  t ← store_read (λ s, GetV1TransactionByStartIntent s id);
  transaction_response t.
Definition v1Transaction : handler response :=
  method_is q "GET";;
  let id := TrimPrefix (rq_Path q) "/v1/transactions/" in
  require (validUUID id) 422 "hal_transaction_id UUID required";;
  t ← store_read (λ s, GetV1Transaction s id);
  transaction_response t.

Definition online (runtime : V1ChargerRuntime) : bool := bool_decide (crt_ConnectionState runtime = "ONLINE").
Definition v1ChargerRuntime : handler response :=
  method_is q "GET";;
  let identity := TrimPrefix (rq_Path q) "/v1/runtime/chargers/" in
  require (bool_decide (identity ≠ "")) 422 "charger identity required";;
  state ← store_read (λ s, GetV1ChargerRuntime s (ae_since e) identity);
  mret (200, ChargerRuntimeBody (v1ChargerRuntimeView state) (online state)).
Definition v1ConnectorRuntime : handler response :=
  method_is q "GET";;
  let id := TrimPrefix (rq_Path q) "/v1/runtime/connectors/" in
  require (validUUID id) 422 "cms_connector_id UUID required";;
  state ← store_read (λ s, GetV1ConnectorRuntime s (ae_since e) id);
  charger ← store_read (λ s, GetV1ChargerRuntime s (ae_since e) (cort_ChargerOCPPIdentity state));
  mret (200, ConnectorRuntimeBody (v1ConnectorRuntimeView state) (online charger)).

(** ** Facts *)
Definition v1FactRequeue : handler response :=
  method_is q "POST";;
  let factID := TrimSuffix (TrimPrefix (rq_Path q) "/v1/facts/") "/requeue" in
  require (HasSuffix (rq_Path q) "/requeue" && validUUID factID) 422 "fact_id UUID required";;
  let correlationID := GoStrings.TrimSpace (rq_Header q "X-Correlation-ID") in
  require (validUUID correlationID) 400 "X-Correlation-ID must be a canonical UUID";;
  _ ← store_call (run_tx (RequeueV1Fact (ae_stored e 0) (ae_gen e 0 0%nat) factID correlationID));
  mret (202, FactBody factID "PENDING").

(** ** Charger operations *)
Definition on_operations {A} (f : HAL → S → HAL * (S * list api_effect * result A)) : handler A :=
  or_error (λ w, let '(h, (s, l, r)) := f w.1 w.2 in ((h, s), l, inr r)).
Definition operation_input (req : v1ChargerOperationRequest) (correlation idempotency : string) :
    V1ChargerOperationInput :=
  mkV1ChargerOperationInput (cor_CMSOperationID req) (cor_TraceID req)
    (digestJSON (marshal_operation req) idempotency) (cor_CPOID req) (cor_CMSChargerID req) (cor_CMSConnectorID req)
    (cor_ChargerOCPPIdentity req) (cor_OCPPConnectorNumber req) (cor_Kind req) (cor_Parameters req)
    (cor_ConfigurationKeys req) correlation.
Definition create_operation (input : V1ChargerOperationInput) : handler (V1ChargerOperation * bool) :=
  on_operations (λ h s, let '(s', r) := os_create s (ae_stored e 0) (ae_gen e 0 0%nat) input in (h, (s', [], r))).
Definition shouldDispatchV1ChargerOperation (duplicate : bool) (operation : option V1ChargerOperation) : bool :=
  negb duplicate || match operation with Some op => bool_decide (op_State op = "PERSISTED") | None => false end.
(** [s.hal.DispatchV1ChargerOperation]: the operation (nil is [None]) and the
    configuration. *)
Definition dispatch_operation (id : string) :
    handler (option V1ChargerOperation * option GetConfigurationConfirmation) :=
  on_operations (λ h s,
    let '(h', (s', sent, (op, configuration, _, err))) :=
      DispatchV1ChargerOperation (ae_hal e) (ae_operation e) h s id in
    (h', (s', SentOperation <$> sent, match err with Some err => inr err | None => inl (op, configuration) end))).
(** The view of a nil operation panics. *)
Definition operation_view (op : option V1ChargerOperation) : handler v1ChargerOperationResponse :=
  match op with Some op => mret (v1ChargerOperationView op) | None => respond 500 Panicked end.

Definition v1ChargerOperation : handler response :=
  let id := rq_Query q "cms_operation_id" in
  require (validUUID id) 422 "cms_operation_id UUID required";;
  op ← on_operations (λ h s, (h, (s, [], match os_rows s !! id with
                                        | Some op => inl op
                                        | None => inr ErrV1OperationNotFound end)));
  mret (200, StoredOperationBody (v1ChargerOperationView op)).
Definition v1ChargerOperations : handler response :=
  if decide (rq_Method q = "GET") then v1ChargerOperation
  else
    method_is q "POST";;
    ids ← v1MutationHeaders q;
    req ← decodeJSON decode_operation q;
    require (bool_decide (ids.2 = cor_CMSOperationID req) && validV1ChargerOperation req) 422 "invalid charger operation";;
    store_check (λ s, ValidateV1ChargerOperationMapping s (cor_CPOID req) (cor_CMSChargerID req)
                        (cor_CMSConnectorID req) (cor_ChargerOCPPIdentity req) (cor_OCPPConnectorNumber req));;
    created ← create_operation (operation_input req ids.1 ids.2);
    dispatched ← (if shouldDispatchV1ChargerOperation created.2 (Some created.1)
                  then dispatch_operation (cor_CMSOperationID req) else mret (Some created.1, None));
    view ← operation_view dispatched.1;
    mret (202, OperationBody view ids.1 created.2 (v1SafeConfigurationView <$> dispatched.2)).

Definition valid_read (req : v1ConfigurationReadRequest) : bool :=
  let keys := default [] (rrq_Keys req) in
  validUUID (rrq_CPOID req) && validUUID (rrq_CMSChargerID req) &&
  bool_decide (GoStrings.TrimSpace (rrq_ChargerOCPPIdentity req) ≠ "" ∧ Z.of_nat (length keys) ≤ 64) &&
  forallb validV1ConfigurationKey keys.
(** The response is built like that of [v1SafeConfigurationView]; an item
    without a value shows it as null here and leaves it out there. *)
Definition v1ConfigurationRead : handler response :=
  method_is q "POST";;
  req ← decodeJSON decode_read q;
  require (valid_read req) 422 "invalid configuration read";;
  store_check (λ s, ValidateV1ChargerOperationMapping s (rrq_CPOID req) (rrq_CMSChargerID req) ""
                      (rrq_ChargerOCPPIdentity req) 0);;
  h ← get_hal;
  answer ← request_charger None (GetConfiguration h (ae_ks e) (rrq_ChargerOCPPIdentity req) (default [] (rrq_Keys req))
                              (ae_read e));
  match answer with
  | inr _ => refuse 503 "charger configuration unavailable"
  | inl confirmation => mret (200, ConfigurationBody (v1SafeConfigurationView confirmation))
  end.

(** ** Routing *)
Definition v1_routes : list (string * bool * handler response) :=   (* true: a pattern that ends in a slash *)
  [("/v1/mappings/chargers/", true, v1Mapping);
   ("/v1/remote-commands/start", false, v1Start);
   ("/v1/remote-commands/stop", false, v1Stop);
   ("/v1/remote-commands", false, v1Command);
   ("/v1/charger-operations", false, v1ChargerOperations);
   ("/v1/charger-configurations/read", false, v1ConfigurationRead);
   ("/v1/transactions", false, v1Transactions);
   ("/v1/transactions/", true, v1Transaction);
   ("/v1/facts/", true, v1FactRequeue);
   ("/v1/runtime/chargers/", true, v1ChargerRuntime);
   ("/v1/runtime/connectors/", true, v1ConnectorRuntime)].
Definition route_matches (path : string) (x : string * bool * handler response) : bool :=
  if x.1.2 then HasPrefix path x.1.1 else bool_decide (path = x.1.1).

(** [requireV1Service] around a handler; [token] is cfg.V1CMSBearerToken. *)
Definition authorized (token : string) : bool :=
  let header := rq_Header q "Authorization" in
  negb (negb (HasPrefix header "Bearer ") || bool_decide (token = "")) &&
  bool_decide (TrimPrefix header "Bearer " = token).
Definition requireV1Service (token : string) (next : handler response) : handler response :=
  require (authorized token) 401 "v1 service authentication required";; next.

(** The documentation pages are served without a token. *)
Definition docs_page (body : response_body) : handler response :=
  method_is q "GET";; mret (200, body).
Definition docs_routes : list (string * bool * handler response) :=
  [("/openapi.json", false, docs_page OpenAPIBody); ("/docs", false, docs_page DocsBody)].

(** The mux on a clean path, with the v1 routes, the documentation pages, both
    or neither registered: no two patterns match the same path; a path that lacks
    only the slash of a pattern is redirected. *)
Definition slash_missing (path : string) : bool :=
  existsb (λ x, x.1.2 && bool_decide (path +:+ "/" = x.1.1)) v1_routes.
Definition registered_route (on : bool) (routes : list (string * bool * handler response)) : option (string * bool * handler response) :=
  if on then List.find (route_matches (rq_Path q)) routes else None.
Definition mux (cfg : ServerConfig) (v1 : bool) : handler response :=
  match registered_route v1 v1_routes with
  | Some x => requireV1Service (sc_V1CMSBearerToken cfg) x.2
  | None =>
    match registered_route (sc_APIDocsEnabled cfg) docs_routes with
    | Some x => x.2
    | None => if v1 && slash_missing (rq_Path q) then respond 301 NoBody else respond 404 NoBody
    end
  end.
(** [Server.Routes] registers the v1 handlers only when there is a store. *)
Definition Routes (cfg : ServerConfig) : handler response := λ w,
  mux cfg (bool_decide (is_Some (h_v1Store w.1))) w.
Definition ServeHTTP (cfg : ServerConfig) (w : HAL * S) : HAL * S * list api_effect * response :=
  match Routes cfg w with (w', l, inl resp) | (w', l, inr resp) => (w', l, resp) end.
End handlers.
