(* ===== verification/HttpCommands.v ===== *)
(** * The start and operation commands of the HTTP API

    What the API accepts fits the schema; a repeated start or operation request
    is answered like the first and sends nothing more. *)
From Stdlib Require Import String Ascii.
From stdpp Require Import base numbers decidable option list strings gmap.
From S2P Require Import Prelude GoText GoClock V1Types V1Memory Operations PgSchema TraceData MemTraces Outbox PgTraces TraceHistory HalTraces PgMapping PgLifecycle Histories Connections HalStops Hal HttpValidation HalMeter HalRequests HalHandlers HalRuns HttpApi.
Open Scope Z_scope.

(** ** Accepted starts *)
Lemma normalize_source limitType source threshold energy source' :
  normalizeV1LimitSource limitType source threshold energy = (source', true) →
  threshold = 0 ∧ source' = "NONE" ∨
  threshold ≠ 0 ∧ source' ∈ (if energy then "CUSTOMER_ENERGY" else "CUSTOMER_TIME") :: ["CUSTOMER_MONEY"; "WALLET"].
Proof.
  unfold normalizeV1LimitSource. case_decide as Ht; [by intros [= <- _]; left|].
  set (x := implied_source limitType source energy). case_decide as Hv; [done|].
  case_decide as He; [done|]. case_decide as Hd; [done|]. intros [= <-]. right. split; [done|].
  apply Decidable.not_or in Hv as [Hv Hn]. apply not_false_is_true in Hv. unfold validV1LimitSource in Hv.
  apply bool_decide_eq_true in Hv. rewrite !elem_of_cons in *. destruct energy; naive_solver.
Qed.

Lemma normalize_start_spec decoded req :
  normalize_start decoded = (req, true) →
  (∃ source, normalizeV1LimitSource (srq_LimitType req) source (srq_EnergyLimitWh req) true = (srq_EnergyLimitSource req, true)) ∧
  (∃ source, normalizeV1LimitSource (srq_LimitType req) source (srq_MaxDurationSeconds req) false = (srq_DurationLimitSource req, true)).
Proof.
  unfold normalize_start. set (r0 := if decide _ then _ else decoded). cbv zeta.
  destruct (normalizeV1LimitSource _ (srq_EnergyLimitSource r0) _ true) as [es [|]] eqn:E1; [|done]. cbn [fst snd].
  match goal with |- context [normalizeV1LimitSource ?a ?b ?c false] =>
    destruct (normalizeV1LimitSource a b c false) as [ds ok] eqn:E2 end.
  intros [= <- ->]. split; eexists; [exact E1|exact E2].
Qed.

Lemma provenance_ok n source allowed :
  0 ≤ n → n = 0 ∧ source = "NONE" ∨ n ≠ 0 ∧ source ∈ allowed → limit_provenance (positive n) source allowed.
Proof. intros Hn [[-> ->]|[Hz Hs]]; unfold positive; [done|]. rewrite decide_True by lia. simpl. split; [lia|done]. Qed.

Section commands.
Context `{HC : FactCodec, HJ : JsonView, HU : UuidLib, HR : RequestJson} {S : Type} `{HO : OperationStore S}.

Lemma accepted_start_checked e q decoded req now id c i :
  normalize_start decoded = (req, true) → valid_start e q req true = true →
  command_check (cr_command (start_command_row id now (start_command_input req c i))).
Proof.
  intros Hn Hv. apply normalize_start_spec in Hn as [[es He] [ds Hd]].
  apply normalize_source in He, Hd. unfold valid_start in Hv. rewrite !andb_true_iff, !bool_decide_eq_true in Hv.
  destruct Hv as [[[[[[[_ Hc] _] _] Hl] [Hw Hs]] _] _]. unfold command_check. cbn. split_and!.
  - lia.
  - unfold validV1LimitType in Hl. by apply bool_decide_eq_true in Hl.
  - by apply provenance_ok.
  - by apply provenance_ok.
Qed.
End commands.

(** What the API accepts, the schema stores: a start request that passes the
    checks of the handler - with the limit sources an older CMS leaves out
    filled in - satisfies every CHECK constraint of the command table, so it is
    never answered with a persistence error for what it says. *)
Theorem accepted_start_fits_schema `{HC : FactCodec, HU : UuidLib, HR : RequestJson} (e : api_env) (q : http_request)
    (decoded : v1StartRequest) (now : Time) (id correlation idempotency : string) (s : pg) :
  let '(req, sourcesValid) := normalize_start decoded in
  valid_start e q req sourcesValid = true →
  let row := start_command_row id now (start_command_input req correlation idempotency) in
  command_check (cr_command row) ∧ insert_command row s ≠ inr check_violation.
Proof.
  destruct (normalize_start decoded) as [req ok] eqn:Hn. intros Hv. cbv zeta.
  assert (ok = true) as -> by (unfold valid_start in Hv; rewrite !andb_true_iff in Hv; tauto).
  pose proof (accepted_start_checked e q decoded req now id correlation idempotency Hn Hv) as Hc. split; [done|].
  unfold insert_command. rewrite decide_False by tauto. repeat case_match; try case_decide; done.
Qed.

(** ** Successful steps *)
Section steps.
Context {S : Type}.
Implicit Types (w : HAL * S).

Lemma step_ok {A B} (m : handler S A) (k : A → handler S B) w w' l b :
  (m ≫= k) w = (w', l, inr b) →
  ∃ w1 l1 a l2, m w = (w1, l1, inr a) ∧ k a w1 = (w', l2, inr b) ∧ l = l1 ++ l2.
Proof.
  unfold mbind, handler_bind. destruct (m w) as [[w1 l1] [resp|a]]; [done|]. destruct (k a w1) as [[w2 l2] r] eqn:E.
  intros [= -> <- ->]. eauto 8.
Qed.
Lemma bind_run {A B} (m : handler S A) (k : A → handler S B) w w1 a :
  m w = (w1, [], inr a) → (m ≫= k) w = k a w1.
Proof. unfold mbind, handler_bind. intros ->. by destruct (k a w1) as [[w2 l2] r]. Qed.
Lemma require_ok b status err w w' l u : require b status err w = (w', l, inr u) → b = true ∧ w' = w ∧ l = [].
Proof. destruct b; [|done]. by intros [= -> ->]. Qed.
Lemma method_ok q m w w' l u : method_is q m w = (w', l, inr u) → rq_Method q = m ∧ w' = w ∧ l = [].
Proof. unfold method_is. case_decide; [|done]. by intros [= -> ->]. Qed.
Lemma decode_ok {A} (decode : string → option A) q w w' l a :
  decodeJSON decode q w = (w', l, inr a) → decode (rq_Body q) = Some a ∧ w' = w ∧ l = [].
Proof. unfold decodeJSON. destruct (decode _); [|done]. by intros [= -> -> ->]. Qed.
Lemma store_call_ok {A} (f : pg → pg * result A) w w' l a :
  store_call f w = (w', l, inr a) →
  ∃ s s', h_v1Store w.1 = Some s ∧ f s = (s', inl a) ∧ w' = (w.1 <| h_v1Store := Some s' |>, w.2) ∧ l = [].
Proof.
  unfold store_call, or_error, on_store, mbind, handler_bind. destruct (h_v1Store w.1) as [s|]; [|done].
  destruct (f s) as [s' [b|err]] eqn:E; [|done]. intros [= <- -> ->]. eauto 6.
Qed.
Lemma store_call_run {A} (f : pg → pg * result A) w s s' a :
  h_v1Store w.1 = Some s → f s = (s', inl a) → store_call f w = ((w.1 <| h_v1Store := Some s' |>, w.2), [], inr a).
Proof. intros E Hf. unfold store_call, or_error, on_store, mbind, handler_bind. by rewrite E, Hf. Qed.
Lemma with_same_store (h : HAL) s : h_v1Store h = Some s → h <| h_v1Store := Some s |> = h.
Proof. destruct h. cbn. by intros ->. Qed.
Lemma request_run {C B} c (x : handed C) wireIdentity r (k : result C → handler S B) w :
  x.1 = Some (wireIdentity, r) →
  (request_charger c x ≫= k) w = let '(w', l, res) := k x.2 w in (w', Requested c wireIdentity r :: l, res).
Proof.
  intros Hx. unfold request_charger, emit, mbind, handler_bind. rewrite Hx. cbn. by destruct (k x.2 w) as [[w' l] res].
Qed.
Lemma store_check_ok f w w' l u :
  store_check f w = (w', l, inr u) → ∃ s, h_v1Store w.1 = Some s ∧ f s = None ∧ w' = w ∧ l = [].
Proof.
  intros (s & s' & E & Hf & -> & ->)%store_call_ok. exists s. destruct (f s); [done|].
  injection Hf as <- _. rewrite with_same_store by done. by destruct w.
Qed.
Lemma store_check_run f w s : h_v1Store w.1 = Some s → f s = None → store_check f w = (w, [], inr ()).
Proof.
  intros E Hf. unfold store_check, store_read. rewrite (store_call_run _ w s s ()) by (done || by rewrite Hf).
  rewrite with_same_store by done. by destruct w.
Qed.
End steps.

(** ** Start commands in the store *)
Definition untaken_start (r : command_row) : Prop :=
  cmd_Kind (cr_command r) = "START" ∧ cmd_State (cr_command r) = "PERSISTED".
Definition same_mappings (s s' : pg) : Prop := pg_mappings s' = pg_mappings s ∧ pg_connectors s' = pg_connectors s.
#[global] Instance same_mappings_preorder : PreOrder same_mappings.
Proof. split; [done|]. intros s1 s2 s3 [? ?] [? ?]. split; congruence. Qed.
Lemma validate_same s s' a b c d n : same_mappings s s' → ValidateV1Mapping s' a b c d n = ValidateV1Mapping s a b c d n.
Proof. intros [Hm Hc]. unfold ValidateV1Mapping. by rewrite Hm, Hc. Qed.

(** The row of a command, as far as a repeated request sees it. *)
Definition command_row_is (s : pg) (id digest : string) (command : V1RemoteCommand) : Prop :=
  ∃ r, pg_commands s !! id = Some r ∧ cmd_RequestDigest (cr_command r) = digest ∧ cr_command r = command.

Section store.
Context `{FactCodec}.

Lemma create_start_row now gen input s s' c dup :
  run_tx (CreateV1StartCommand now gen input) s = (s', inl (c, dup)) →
  same_mappings s s' ∧ command_row_is s' (si_CMSCommandID input) (si_RequestDigest input) c.
Proof.
  intros Hr%run_tx_inl. unfold CreateV1StartCommand in Hr.
  apply tx_bind_inv in Hr as (id & s1 & Hg & Hr). unfold tx_lift in Hg. destruct (NewSecureUUIDString _); simplify_eq.
  apply tx_bind_inv in Hr as (rows & s2 & Hi & Hr).
  assert (same_mappings s1 s2 ∧ (rows ≠ 0 → ∃ r, pg_commands s2 !! si_CMSCommandID input = Some r ∧
    cmd_RequestDigest (cr_command r) = si_RequestDigest input)) as [Hm Hrow].
  { destruct (insert_command (start_command_row id now input) s1) as [[n s3]|err] eqn:Ei; [|done]. injection Hi as -> ->.
    clear Hr. unfold insert_command in Ei. case_decide; [done|].
    case_match; [injection Ei as <- <-; split; [done|by intros []]|].
    case_decide; [done|]. injection Ei as <- <-. split; [done|]. intros _. exists (start_command_row id now input).
    cbn. by rewrite lookup_insert_eq. }
  case_decide as Hz.
  - apply tx_bind_inv in Hr as (c1 & s3 & Hc & Hr). unfold getV1CommandWith in Hc.
    destruct (pg_commands s2 !! _) as [r|] eqn:E; [|done]. injection Hc as <- <-.
    case_decide as Hd; [done|]. injection Hr as <- <- <-. split; [done|]. exists r. split; [done|]. split; [|done].
    by destruct (decide (cmd_RequestDigest (cr_command r) = si_RequestDigest input)).
  - destruct (Hrow Hz) as (r & E & Hd).
    apply tx_bind_inv in Hr as ([] & s3 & Hc & Hr). unfold insert_credential in Hc. case_decide; [done|]. injection Hc as <-.
    apply tx_bind_inv in Hr as (c1 & s4 & Hc & Hr). unfold getV1CommandWith in Hc. cbn in Hc. rewrite E in Hc.
    injection Hc as <- <-. injection Hr as <- <- <-. split; [done|]. exists r. done.
Qed.

(** Creating it again changes nothing. *)
Lemma create_start_again now gen input id s command :
  command_check (cr_command (start_command_row id now input)) → NewSecureUUIDString (gen 0%nat) = inl id →
  command_row_is s (si_CMSCommandID input) (si_RequestDigest input) command →
  run_tx (CreateV1StartCommand now gen input) s = (s, inl (command, true)).
Proof.
  intros Hk Hg (r & E & Hd & <-). apply run_tx_ok. unfold CreateV1StartCommand. rewrite Hg, tx_lift_inl.
  assert (insert_command (start_command_row id now input) s = inl (0, s)) as Hi.
  { unfold insert_command. rewrite decide_False by tauto. cbn. by rewrite E. }
  unfold mbind at 1, txm_bind at 1. rewrite Hi. rewrite decide_True by done.
  unfold mbind at 1, txm_bind at 1. unfold getV1CommandWith at 1. rewrite E. rewrite decide_False by tauto. done.
Qed.

Lemma claim_start_row now id digest command0 s s' c claimed :
  ClaimV1StartDelivery s now id = (s', inl (c, claimed)) → command_row_is s id digest command0 →
  same_mappings s s' ∧ command_row_is s' id digest c ∧
  (claimed = false → s' = s ∧ ¬ (cmd_Kind c = "START" ∧ cmd_State c = "PERSISTED")) ∧
  (claimed = true → cmd_Kind c = "START" ∧ cmd_State c = "PENDING_DELIVERY").
Proof.
  intros Hc (r & E & Hd & _). unfold ClaimV1StartDelivery, start_command_step in Hc. rewrite E in Hc.
  case_decide as Hs.
  - cbn in Hc. rewrite lookup_insert_eq in Hc. injection Hc as <- <- <-. split; [done|]. split; [|split; [done|]].
    + eexists. cbn. by rewrite lookup_insert_eq.
    + by destruct Hs.
  - rewrite E in Hc. injection Hc as <- <- <-. split; [done|]. split; [by exists r|]. done.
Qed.
Lemma claim_start_again now id digest command s :
  command_row_is s id digest command → ¬ (cmd_Kind command = "START" ∧ cmd_State command = "PERSISTED") →
  ClaimV1StartDelivery s now id = (s, inl (command, false)).
Proof.
  intros (r & E & _ & <-) Hn. unfold ClaimV1StartDelivery, start_command_step. rewrite E, decide_False by done. by rewrite E.
Qed.
Lemma begin_start_row now id digest command0 s s' c :
  BeginV1CommandDelivery s now id = (s', inl c) → command_row_is s id digest command0 →
  ¬ (cmd_Kind command0 = "START" ∧ cmd_State command0 = "PERSISTED") →
  same_mappings s s' ∧ command_row_is s' id digest c ∧ ¬ (cmd_Kind c = "START" ∧ cmd_State c = "PERSISTED").
Proof.
  intros Hc (r & E & Hd & <-) Hn. unfold BeginV1CommandDelivery, start_command_step in Hc. rewrite E in Hc.
  case_decide as Hs.
  - cbn in Hc. rewrite lookup_insert_eq in Hc. injection Hc as <- <-. split; [done|]. split; [|by intros []].
    eexists. cbn. by rewrite lookup_insert_eq.
  - rewrite E in Hc. injection Hc as <- <-. split; [done|]. split; [by exists r|]. done.
Qed.
Lemma mark_state_not_persisted status : (mark_state status).1 ≠ "PERSISTED".
Proof. unfold mark_state. by repeat case_decide. Qed.
Lemma mark_start_row now gen id digest command0 status result_ detail s s' c :
  run_tx (MarkV1CommandDelivery now gen id status result_ detail) s = (s', inl c) →
  command_row_is s id digest command0 → ¬ (cmd_Kind command0 = "START" ∧ cmd_State command0 = "PERSISTED") →
  same_mappings s s' ∧ command_row_is s' id digest c ∧ ¬ (cmd_Kind c = "START" ∧ cmd_State c = "PERSISTED").
Proof.
  intros Hr%run_tx_inl (r & E & Hd & <-) Hn. unfold MarkV1CommandDelivery in Hr.
  pose proof (mark_state_not_persisted status) as Hp. destruct (mark_state status) as [state category]. cbn [fst] in Hp.
  rewrite tx_get_bind, E in Hr. case_bool_decide as Hu.
  - rewrite tx_modify_bind in Hr. set (r1 := r <| cr_command ::= marked_command now state result_ category detail |>).
    match type of Hr with _ ?x = _ => set (s1 := x) in Hr end.
    assert (pg_commands s1 !! id = Some r1) as E1 by (cbn; by rewrite lookup_alter_eq, E).
    unfold mbind at 1, txm_bind at 1, getV1CommandWith at 1 in Hr. rewrite E1 in Hr.
    apply tx_bind_inv in Hr as ([] & s2 & Hi & Hr). injection Hr as <- <-.
    apply insertV1FactTx_inv in Hi; [|done].
    assert (pg_commands s2 = pg_commands s1 ∧ same_mappings s1 s2) as [Hc Hm] by (destruct Hi as [[-> _]|(row & _ & ->)]; done).
    split; [by transitivity s1|]. split; [|by intros []]. exists r1. by rewrite Hc.
  - rewrite tx_ret_bind in Hr. unfold mbind at 1, txm_bind at 1, getV1CommandWith at 1 in Hr. rewrite E in Hr.
    rewrite tx_ret_bind in Hr. injection Hr as <- <-. split; [done|]. split; [by exists r|done].
Qed.
End store.

(** ** A start request, twice *)
Section twice.
Context `{HC : FactCodec, HJ : JsonView, HU : UuidLib, HR : RequestJson} {S : Type} `{HO : OperationStore S}.
Context (q : http_request).
Implicit Types (w : HAL * S) (e : api_env).

(** Steps of a handler that only write traces. *)
Definition traces_only {A} (m : handler S A) (a : A) : Prop :=
  ∀ w, ∃ t, m w = ((w.1 <| h_traces := t |>, w.2), [], inr a).
Lemma traces_none (a : ()) : traces_only (mret a) a.
Proof. intros [h s]. exists (h_traces h). cbn. by destruct h. Qed.
Lemma traces_append e i id input : traces_only (appendV1Trace e i id input) ().
Proof.
  intros [h s]. unfold appendV1Trace, on_traces, mbind, handler_bind. cbn [fst snd].
  destruct (run_tx _ (h_traces h)) as [t r]. by exists t.
Qed.
Lemma traces_append_if e i id input : traces_only (append_if e i id input) ().
Proof. unfold append_if. case_decide; [apply traces_append|apply traces_none]. Qed.
Lemma traces_start e req c : traces_only (trace_start e req c) ().
Proof.
  unfold trace_start. case_decide; [|apply traces_none]. intros [h s]. unfold on_traces.
  unfold mbind, handler_bind. cbn [fst snd].
  destruct (EnsureV1Trace _ _ (h_traces h)) as [t [root|err]].
  - destruct (traces_append e 0 (srq_TraceID req) (start_accepted_event (ae_now e 1) c) (h <| h_traces := t |>, s)) as [t' ->].
    by exists t'.
  - by exists t.
Qed.

(** Delivery keeps the mappings and leaves the command as it answers it. *)
Definition claimed_command (s : pg) (id digest : string) (c : V1RemoteCommand) : Prop :=
  command_row_is s id digest c ∧ ¬ (cmd_Kind c = "START" ∧ cmd_State c = "PERSISTED").
Lemma mark_start_ok e id status r d w w' l c digest s c0 :
  mark_start e id status r d w = (w', l, inr c) → h_v1Store w.1 = Some s → claimed_command s id digest c0 →
  ∃ s', h_v1Store w'.1 = Some s' ∧ same_mappings s s' ∧ claimed_command s' id digest c.
Proof.
  intros (s1 & s' & E & Hm & -> & _)%store_call_ok E0 [Hr Hn]. rewrite E in E0. injection E0 as ->.
  destruct (mark_start_row _ _ _ _ _ _ _ _ _ _ _ Hm Hr Hn) as (Hs & Hr' & Hn'). by exists s'.
Qed.
Lemma deliver_start_ok e req corr w w' l c digest s c0 :
  deliver_start e req corr w = (w', l, inr c) → h_v1Store w.1 = Some s →
  claimed_command s (srq_CMSCommandID req) digest c0 →
  ∃ s', h_v1Store w'.1 = Some s' ∧ same_mappings s s' ∧ claimed_command s' (srq_CMSCommandID req) digest c.
Proof.
  unfold deliver_start. intros H E [Hr Hn].
  apply step_ok in H as (w1 & l1 & c1 & l1' & (s0 & s1 & E0 & Hb & -> & ->)%store_call_ok & H & ->).
  rewrite E in E0. injection E0 as <-. destruct (begin_start_row _ _ _ _ _ _ _ Hb Hr Hn) as (Hs1 & Hr1 & Hn1).
  apply step_ok in H as (w2 & l2 & [] & l2' & H2 & H & ->).
  destruct (traces_append_if e 1 (srq_TraceID req) (start_call_event (ae_now e 2) corr) (w.1 <| h_v1Store := Some s1 |>, w.2)) as [t Ht].
  rewrite H2 in Ht. injection Ht as -> ->.
  apply step_ok in H as (w3 & l3 & h & l3' & [= <- <- _] & H & ->).
  apply step_ok in H as (w4 & l4 & answer & l4' & H4 & H & ->).
  assert (w4 = (w.1 <| h_v1Store := Some s1 |> <| h_traces := t |>, w.2)) as ->.
  { unfold request_charger, emit, mbind, handler_bind in H4. by injection H4. }
  assert (∀ st r d w5 l5, mark_start e (srq_CMSCommandID req) st r d w5 = (w', l5, inr c) → h_v1Store w5.1 = Some s1 →
    ∃ s', h_v1Store w'.1 = Some s' ∧ same_mappings s s' ∧ claimed_command s' (srq_CMSCommandID req) digest c) as Hmark.
  { intros st r d w5 l5 Hm E5. destruct (mark_start_ok _ _ _ _ _ _ _ _ _ digest _ c1 Hm E5) as (s' & ? & ? & ?); [done|].
    exists s'. split; [done|]. split; [by transitivity s1|done]. }
  unfold conclude_start in H. destruct answer as [status|err]; [|by eapply Hmark].
  apply step_ok in H as (w5 & l5 & [] & l5' & H5 & H & ->).
  match type of H5 with append_if _ _ _ ?ev ?w0 = _ => destruct (traces_append_if e 2 (srq_TraceID req) ev w0) as [t' Ht'] end.
  rewrite H5 in Ht'. injection Ht' as -> ->. by eapply Hmark.
Qed.

Definition correlation_of : string := GoStrings.TrimSpace (rq_Header q "X-Correlation-ID").
Definition idempotency_of : string := GoStrings.TrimSpace (rq_Header q "Idempotency-Key").
Lemma headers_ok w w' l ids :
  v1MutationHeaders q w = (w', l, inr ids) →
  ids = (correlation_of, idempotency_of) ∧ w' = w ∧ l = [] ∧ ∀ w0, v1MutationHeaders q w0 = (w0, [], inr ids).
Proof. unfold v1MutationHeaders. cbv zeta. destruct (_ && _); [|done]. by intros [= <- <- <-]. Qed.

(** What an accepted start request leaves. *)
Definition start_accepted w w' (resp : response) : Prop :=
  ∃ decoded req c dup s', decode_start (rq_Body q) = Some decoded ∧ normalize_start decoded = (req, true) ∧
    (∀ e, GoTime.After (srq_CredentialExpiresAt req) (ae_now e 0) → valid_start e q req true = true) ∧
    (∀ w0, v1MutationHeaders q w0 = (w0, [], inr (correlation_of, idempotency_of))) ∧ rq_Method q = "POST" ∧
    resp = (202, CommandBody (v1CommandView c) correlation_of dup) ∧ h_v1Store w'.1 = Some s' ∧
    ValidateV1Mapping s' (srq_CPOID req) (srq_CMSChargerID req) (srq_CMSConnectorID req) (srq_ChargerOCPPIdentity req)
      (srq_OCPPConnectorNumber req) = None ∧
    claimed_command s' (srq_CMSCommandID req) (digestJSON (marshal_start req) idempotency_of) c.

Lemma valid_start_later e e' req :
  valid_start e q req true = true → GoTime.After (srq_CredentialExpiresAt req) (ae_now e' 0) → valid_start e' q req true = true.
Proof.
  unfold valid_start. rewrite !andb_true_iff, !bool_decide_eq_true. tauto.
Qed.
Lemma v1Start_ok e w w' l resp : v1Start e q w = (w', l, inr resp) → start_accepted w w' resp.
Proof.
  unfold v1Start. intros H.
  apply step_ok in H as (? & ? & [] & ? & (Hm & -> & ->)%method_ok & H & ->).
  apply step_ok in H as (? & ? & ids & ? & (-> & -> & -> & Hh)%headers_ok & H & ->).
  apply step_ok in H as (? & ? & decoded & ? & (Hd & -> & ->)%decode_ok & H & ->).
  destruct (normalize_start decoded) as [req ok] eqn:Hn.
  apply step_ok in H as (? & ? & [] & ? & (Hv & -> & ->)%require_ok & H & ->).
  assert (ok = true) as -> by (unfold valid_start in Hv; rewrite !andb_true_iff in Hv; tauto).
  apply step_ok in H as (? & ? & [] & ? & (s & E & Hc & -> & ->)%store_check_ok & H & ->).
  apply step_ok in H as (? & ? & [c0 dup] & ? & (s0 & s1 & E0 & Hcr & -> & ->)%store_call_ok & H & ->).
  rewrite E in E0. injection E0 as <-. apply create_start_row in Hcr as [Hm1 Hr1]. cbn [si_CMSCommandID si_RequestDigest start_command_input] in Hr1.
  apply step_ok in H as (w2 & ? & [] & ? & H2 & H & ->).
  match type of H2 with _ _ _ _ ?w0 = _ => destruct (traces_start e req correlation_of w0) as [t Ht] end.
  cbn [fst snd] in H2. rewrite H2 in Ht. injection Ht as -> ->.
  apply step_ok in H as (? & ? & [c1 claimed] & ? & (s0 & s2 & E0 & Hcl & -> & ->)%store_call_ok & H & ->).
  cbn in E0. injection E0 as <-.
  destruct (claim_start_row _ _ _ _ _ _ _ _ Hcl Hr1) as (Hm2 & Hr2 & Hf & Ht).
  apply step_ok in H as (w3 & l3 & c & l3' & H3 & [= <- <- <-] & ->).
  assert (∃ s', h_v1Store w3.1 = Some s' ∧ same_mappings s s' ∧
    claimed_command s' (srq_CMSCommandID req) (digestJSON (marshal_start req) idempotency_of) c) as (s' & E' & Hm' & Hc').
  { destruct claimed; cbn [snd fst] in H3.
    - eapply deliver_start_ok in H3; [|done|].
      + destruct H3 as (s' & ? & ? & ?). exists s'. split; [done|]. split; [|done]. transitivity s1; [done|]. by transitivity s2.
      + split; [done|]. destruct (Ht eq_refl) as [_ Hst]. rewrite Hst. by intros [].
    - injection H3 as <- _ <-. destruct (Hf eq_refl) as [-> Hn']. exists s1. done. }
  exists decoded, req, c, dup, s'. split_and!; try done.
  - intros e'. by apply (valid_start_later e).
  - by rewrite (validate_same s).
Qed.

Lemma accepted_stored w w' resp : start_accepted w w' resp → is_Some (h_v1Store w'.1).
Proof. intros (? & ? & ? & ? & ? & ? & ? & ? & ? & ? & ? & E & ?). by rewrite E. Qed.
Lemma v1Start_again e w w' resp id :
  start_accepted w w' resp → NewSecureUUIDString (ae_gen e 0 0%nat) = inl id →
  (∀ req, decode_start (rq_Body q) = Some req → GoTime.After (srq_CredentialExpiresAt req) (ae_now e 0)) →
  ∃ c corr dup t, resp = (202, CommandBody c corr dup) ∧
    v1Start e q w' = ((w'.1 <| h_traces := t |>, w'.2), [], inr (202, CommandBody c corr true)).
Proof.
  intros (decoded & req & c & dup & s' & Hd & Hn & Hv & Hh & Hm & -> & E & Hval & Hr & Hnp) Hg Hexp.
  assert (GoTime.After (srq_CredentialExpiresAt req) (ae_now e 0)) as Ha.
  { specialize (Hexp _ Hd). revert Hn. unfold normalize_start. cbv zeta. repeat case_match; intros [= <- _]; done. }
  specialize (Hv e Ha). eexists _, _, _.
  destruct (traces_start e req correlation_of w') as [t Ht]. exists t. split; [done|].
  unfold v1Start. erewrite bind_run by (unfold method_is; by rewrite decide_True by done).
  erewrite bind_run by apply Hh. erewrite bind_run by (unfold decodeJSON; by rewrite Hd). rewrite Hn.
  erewrite bind_run by (by rewrite Hv). erewrite bind_run by (by apply (store_check_run _ _ s')).
  erewrite bind_run.
  2:{ eapply store_call_run; [done|]. eapply create_start_again; [|done..]. eapply accepted_start_checked; done. }
  cbn [fst snd]. rewrite (with_same_store w'.1 s') by done. destruct w' as [h s]. cbn [fst snd] in *.
  erewrite bind_run by done.
  erewrite bind_run.
  2:{ eapply (store_call_run _ (h <| h_traces := t |>, s) s'); [done|]. by eapply claim_start_again. }
  cbn [fst snd]. rewrite with_same_store by done. done.
Qed.
End twice.

(** ** Early returns are refusals *)
Section refusals.
Context {S : Type}.
Definition refusing {A} (m : handler S A) : Prop := ∀ w, match (m w).2 with inl (status, _) => 300 < status | inr _ => True end.
Lemma refusing_ret {A} (a : A) : refusing (mret a).
Proof. done. Qed.
Lemma refusing_bind {A B} (m : handler S A) (k : A → handler S B) :
  refusing m → (∀ a, refusing (k a)) → refusing (m ≫= k).
Proof.
  intros Hm Hk w. specialize (Hm w). unfold mbind, handler_bind. destruct (m w) as [[w1 l] [resp|a]]; [done|].
  specialize (Hk a w1). by destruct (k a w1) as [[w2 l'] r].
Qed.
Lemma refusing_respond {A} status body : 300 < status → refusing (respond status body : handler S A).
Proof. by intros ? w. Qed.
Lemma refusing_require b status err : 300 < status → refusing (require b status err : handler S ()).
Proof. intros ?. by destruct b; intros w. Qed.
Lemma refusing_method q m : refusing (method_is q m : handler S ()).
Proof. unfold method_is. intros w. by case_decide. Qed.
Lemma refusing_decode {A} (decode : string → option A) q : refusing (decodeJSON decode q : handler S A).
Proof. unfold decodeJSON. intros w. by destruct (decode _). Qed.
Lemma refusing_headers `{UuidLib} q : refusing (v1MutationHeaders q : handler S _).
Proof. unfold v1MutationHeaders. intros w. cbv zeta. by destruct (_ && _). Qed.
Lemma store_error_refuses err : 300 < (writeV1StoreError err).1.
Proof. unfold writeV1StoreError. by repeat case_decide. Qed.
Lemma refusing_or_error {A} (m : handler S (result A)) : refusing m → refusing (or_error m).
Proof.
  intros Hm. apply refusing_bind; [done|]. intros [a|err] w; [done|]. cbn. pose proof (store_error_refuses err).
  by destruct (writeV1StoreError err).
Qed.
Lemma refusing_store {A} (f : pg → pg * result A) : refusing (store_call f : handler S A).
Proof.
  apply refusing_or_error. intros [h s]. unfold on_store. cbn. destruct (h_v1Store h); [|done]. by destruct (f _).
Qed.
Lemma refusing_check f : refusing (store_check f : handler S ()).
Proof. apply refusing_store. Qed.
Lemma refusing_traces {A} (m : handler S A) a : traces_only m a → refusing m.
Proof. intros Hm w. destruct (Hm w) as [t ->]. done. Qed.
Lemma refusing_emit {C} c (x : handed C) : refusing (request_charger c x : handler S _).
Proof. by apply refusing_bind. Qed.
Lemma refusing_get : refusing (get_hal : handler S HAL).
Proof. done. Qed.
End refusals.
#[export] Hint Resolve refusing_ret refusing_method refusing_decode refusing_headers refusing_store refusing_check
  refusing_emit refusing_get : refusing.
#[export] Hint Extern 1 (refusing (require _ _ _)) => apply refusing_require; lia : refusing.
#[export] Hint Extern 1 (refusing (respond _ _)) => apply refusing_respond; lia : refusing.
#[export] Hint Extern 1 (refusing (refuse _ _)) => apply refusing_respond; lia : refusing.
Ltac refuse_all := repeat
  first [match goal with |- refusing (mbind _ _) => apply refusing_bind; [|intros ?] end
        |match goal with |- refusing (match ?x with _ => _ end) => destruct x end
        |solve [eauto with refusing]].

Section routed.
Context `{HC : FactCodec, HJ : JsonView, HU : UuidLib, HR : RequestJson} {S : Type} `{HO : OperationStore S}.
Implicit Types (w : HAL * S) (e : api_env) (q : http_request).

Lemma refusing_deliver e req c : refusing (deliver_start e req c : handler S _).
Proof.
  unfold deliver_start, conclude_start, mark_start. refuse_all; eapply refusing_traces, traces_append_if.
Qed.
Lemma refusing_start e q : refusing (v1Start e q : handler S response).
Proof.
  unfold v1Start. refuse_all; [eapply refusing_traces, traces_start|apply refusing_deliver].
Qed.

(** A request that reaches a handler and gets a 2xx answer got it from the
    end of the handler. *)
Lemma served_ok e q cfg w w' l status body x :
  List.find (route_matches (rq_Path q)) (v1_routes e q) = Some x → is_Some (h_v1Store w.1) → refusing x.2 →
  ServeHTTP (S := S) e q cfg w = (w', l, (status, body)) → status < 300 →
  authorized q (sc_V1CMSBearerToken cfg) = true ∧ x.2 w = (w', l, inr (status, body)).
Proof.
  unfold ServeHTTP, Routes, mux, registered_route. intros -> Hs Hx. rewrite bool_decide_eq_true_2 by done.
  unfold requireV1Service, require.
  destruct (authorized q _); [|intros [= _ _ <- _]; lia].
  unfold mbind, handler_bind. cbn. specialize (Hx w). destruct (x.2 w) as [[w1 l1] [[st b]|[st b]]]; cbn in *.
  - intros [= _ _ <- _]. lia.
  - by intros [= <- <- <- <-].
Qed.
Lemma serve_run e q cfg w w' l resp x :
  is_Some (h_v1Store w.1) → List.find (route_matches (rq_Path q)) (v1_routes (S := S) e q) = Some x →
  authorized q (sc_V1CMSBearerToken cfg) = true →
  x.2 w = (w', l, inr resp) → ServeHTTP e q cfg w = (w', l, resp).
Proof.
  unfold ServeHTTP, Routes, mux, registered_route. intros Hs -> Ha Hx. rewrite bool_decide_eq_true_2 by done.
  unfold requireV1Service, require. rewrite Ha. unfold mbind, handler_bind. cbn. by rewrite Hx.
Qed.
(** Without a store no path of the API is served. *)
Lemma unserved e q cfg w : h_v1Store w.1 = None → rq_Path q = "/v1/remote-commands/start" →
  ServeHTTP (S := S) e q cfg w = (w, [], (404, NoBody)).
Proof.
  unfold ServeHTTP, Routes, mux, registered_route. intros -> Hp. rewrite bool_decide_eq_false_2 by (by intros [? ?]).
  unfold route_matches. rewrite Hp. by destruct (sc_APIDocsEnabled cfg).
Qed.
Lemma start_route e q : rq_Path q = "/v1/remote-commands/start" →
  List.find (route_matches (rq_Path q)) (v1_routes (S := S) e q) = Some ("/v1/remote-commands/start", false, v1Start e q).
Proof. intros ->. reflexivity. Qed.
End routed.

(** C5: A start request can be repeated: once it was answered 202, the same
    request - the CMS lost the answer, say - is answered 202 with the same
    command and marked a duplicate, nothing is sent to the charger, and nothing
    but the diagnostic trace changes, as long as the credential has not expired
    and the UUID generator does not fail. *)
Theorem start_request_repeatable `{HC : FactCodec, HJ : JsonView, HU : UuidLib, HR : RequestJson} {S : Type}
    `{HO : OperationStore S} (e e' : api_env) (q : http_request) (cfg : ServerConfig) (id : string) (w : HAL * S) :
  rq_Path q = "/v1/remote-commands/start" →
  let '(w1, _, (status, body)) := ServeHTTP e q cfg w in
  status = 202 →
  NewSecureUUIDString (ae_gen e' 0 0%nat) = inl id →
  (∀ req, decode_start (rq_Body q) = Some req → GoTime.After (srq_CredentialExpiresAt req) (ae_now e' 0)) →
  ∃ command correlation duplicate t, body = CommandBody command correlation duplicate ∧
    ServeHTTP e' q cfg w1 = ((w1.1 <| h_traces := t |>, w1.2), [], (202, CommandBody command correlation true)).
Proof.
  intros Hp. pose proof (start_route (S := S) e q Hp) as Hroute.
  destruct (ServeHTTP e q cfg w) as [[w1 l] [status body]] eqn:E. intros -> Hg Hexp.
  destruct (h_v1Store w.1) eqn:Es; [|by rewrite (unserved e q cfg w Es Hp) in E].
  apply (served_ok _ _ _ _ _ _ _ _ _ Hroute) in E as [Ha Hs]; [|by eexists|apply refusing_start|lia].
  apply v1Start_ok in Hs. destruct (v1Start_again q e' w w1 _ id Hs Hg Hexp) as (c & corr & dup & t & [= ->] & Hrun).
  exists c, corr, dup, t. split; [done|]. eapply serve_run; [by eapply accepted_stored|by apply start_route|done..].
Qed.

(** ** A fresh start request *)
Section fresh.
Context `{FactCodec}.

(** Every document the HAL builds has a canonical form. *)
Definition codec_total : Prop := ∀ v, ∃ text, canonicalV1JSON v = inl text.

Lemma insert_fact_runs now g ty ag q at_ p s id :
  codec_total → ty ≠ "transaction.completed" → NewSecureUUIDString g = inl id → pg_facts s !! id = None →
  ∃ s', insertV1FactTx now g ty ag q at_ p s = inl ((), s').
Proof.
  intros Hc Hty Hg Hid. unfold insertV1FactTx. destruct (Hc (JPayload p)) as [body ->]. rewrite tx_lift_inl, Hg, tx_lift_inl.
  destruct (Hc (JImmutableEnvelope (immutableEnvelope (new_fact id ty body (normalizeV1FactOccurredAt at_))))) as [en ->].
  rewrite tx_lift_inl, decide_False by done. unfold insert_fact_row. cbn.
  rewrite decide_False by (rewrite Hid; by intros []). destruct (find_row _ _); eauto.
Qed.
Lemma create_start_fresh now gen input id s :
  let row := start_command_row id now input in
  command_check (cr_command row) → NewSecureUUIDString (gen 0%nat) = inl id →
  (∀ k r, pg_commands s !! k = Some r → cmd_HALCommandID (cr_command r) ≠ id ∧
     (cmd_Kind (cr_command r) = "START" → cmd_CMSStartIntentID (cr_command r) ≠ si_CMSStartIntentID input)) →
  pg_commands s !! si_CMSCommandID input = None → pg_credentials s !! si_IDTag input = None →
  (∀ k c, pg_credentials s !! k = Some c → cred_CMSStartIntentID c ≠ si_CMSStartIntentID input) →
  run_tx (CreateV1StartCommand now gen input) s =
    (s <| pg_commands ::= <[si_CMSCommandID input := row]> |> <| pg_credentials ::= <[si_IDTag input := credential_row input]> |>,
     inl (cr_command row, false)).
Proof.
  intros row Hk Hg Hr Hc Ht Hi. apply run_tx_ok. unfold CreateV1StartCommand. rewrite Hg, tx_lift_inl. fold row.
  assert (insert_command row s = inl (1, s <| pg_commands ::= <[si_CMSCommandID input := row]> |>)) as Hins.
  { unfold insert_command. rewrite decide_False by tauto.
    change (cmd_CMSCommandID (cr_command row)) with (si_CMSCommandID input). rewrite Hc, decide_False; [done|].
    intros [[[k x] Ef]|[_ [[k x] Ef]]]; apply find_row_Some in Ef as [Ek Hx]; destruct (Hr _ _ Ek) as [Ha Hb]; [done|].
    destruct Hx as [Hx Hy]. by apply Hb. }
  unfold mbind at 1, txm_bind at 1. rewrite Hins, decide_False by done.
  unfold mbind at 1, txm_bind at 1, insert_credential at 1. cbn [pg_credentials set_field].
  rewrite decide_False.
  2:{ intros [[x Hx]|[[k x] Hx]]; [change (pg_credentials s !! si_IDTag input = Some x) in Hx; congruence|]. apply find_row_Some in Hx as [Ek Hx]. by destruct (Hi _ _ Ek). }
  unfold mbind, txm_bind, getV1CommandWith. cbn. by rewrite lookup_insert_eq.
Qed.
Lemma mark_runs now gen id status result_ detail s r fid :
  codec_total → pg_commands s !! id = Some r → cmd_State (cr_command r) ∉ ["MATERIALIZED"; "SUPERSEDED"] →
  NewSecureUUIDString (gen 0%nat) = inl fid → pg_facts s !! fid = None →
  ∃ s', let c := marked_command now (mark_state status).1 result_ (mark_state status).2 detail (cr_command r) in
    run_tx (MarkV1CommandDelivery now gen id status result_ detail) s = (s', inl c) ∧
    pg_commands s' !! id = Some (r <| cr_command := c |>) ∧ pg_credentials s' = pg_credentials s.
Proof.
  intros Hc E Hs Hg Hf. unfold MarkV1CommandDelivery. destruct (mark_state status) as [state category]. cbn [fst snd].
  set (r1 := r <| cr_command ::= marked_command now state result_ category detail |>).
  set (s1 := s <| pg_commands ::= alter (λ r, r <| cr_command ::= marked_command now state result_ category detail |>) id |>).
  assert (pg_commands s1 !! id = Some r1) as E1 by (cbn; by rewrite lookup_alter_eq, E).
  destruct (insert_fact_runs now (gen 0%nat) "command.updated" (cmd_HALCommandID (cr_command r1)) None
    (cmd_UpdatedAt (cr_command r1)) (v1CommandFact (cr_command r1)) s1 fid Hc ltac:(done) Hg Hf) as [s' Hi].
  exists s'. split.
  - apply run_tx_ok. rewrite tx_get_bind, E, bool_decide_eq_true_2 by done. rewrite tx_modify_bind.
    match goal with |- _ ?x = _ => change x with s1 end.
    assert (getV1CommandWith id s1 = inl (cr_command r1, s1)) as Hget by (unfold getV1CommandWith; by rewrite E1).
    unfold mbind at 1, txm_bind at 1. rewrite Hget. unfold mbind, txm_bind. by rewrite Hi.
  - apply insertV1FactTx_inv in Hi; [|done]. destruct Hi as [[-> _]|(row & _ & ->)]; split; exact E1 || done.
Qed.
End fresh.

Section first_start.
Context `{HC : FactCodec, HJ : JsonView, HU : UuidLib, HR : RequestJson} {S : Type} `{HO : OperationStore S}.
Context (e : api_env) (q : http_request).

(** A valid start request that the store [s] has not seen: its command, start
    intent and tag are new, and so are the generated identifiers. *)
Record fresh_start (token : string) (s : pg) (req : v1StartRequest) (hal fact : string) : Prop := {
  fs_path : rq_Path q = "/v1/remote-commands/start";
  fs_method : rq_Method q = "POST";
  fs_authorized : authorized q token = true;
  fs_headers : validUUID (idempotency_of q) && validUUID (correlation_of q) = true;
  fs_decoded : ∃ decoded, decode_start (rq_Body q) = Some decoded ∧ normalize_start decoded = (req, true);
  fs_valid : valid_start e q req true = true;
  fs_mapped : ValidateV1Mapping s (srq_CPOID req) (srq_CMSChargerID req) (srq_CMSConnectorID req)
                (srq_ChargerOCPPIdentity req) (srq_OCPPConnectorNumber req) = None;
  fs_hal : NewSecureUUIDString (ae_gen e 0 0%nat) = inl hal;
  fs_fact : NewSecureUUIDString (ae_gen e 3 0%nat) = inl fact ∧ pg_facts s !! fact = None;
  fs_rows k r : pg_commands s !! k = Some r → cmd_HALCommandID (cr_command r) ≠ hal ∧
    (cmd_Kind (cr_command r) = "START" → cmd_CMSStartIntentID (cr_command r) ≠ srq_CMSStartIntentID req);
  fs_command : pg_commands s !! srq_CMSCommandID req = None;
  fs_tag : pg_credentials s !! srq_IDTag req = None;
  fs_intent k c : pg_credentials s !! k = Some c → cred_CMSStartIntentID c ≠ srq_CMSStartIntentID req
}.

(** The state a command is left in by the charger's answer. *)
Definition answered_state (o : request_outcome string) : string :=
  match await "RemoteStartTransaction" o with inl status => (mark_state status).1 | inr _ => "AMBIGUOUS" end.

Lemma conclude_runs req c answer (w : HAL * S) s r fact :
  codec_total → h_v1Store w.1 = Some s → pg_commands s !! srq_CMSCommandID req = Some r →
  cmd_State (cr_command r) ∉ ["MATERIALIZED"; "SUPERSEDED"] →
  NewSecureUUIDString (ae_gen e 3 0%nat) = inl fact → pg_facts s !! fact = None →
  ∃ w' s' command, conclude_start e req c answer w = (w', [], inr command) ∧ h_v1Store w'.1 = Some s' ∧
    pg_commands s' !! srq_CMSCommandID req = Some (r <| cr_command := command |>) ∧ pg_credentials s' = pg_credentials s ∧
    cmd_State command = match answer with inl status => (mark_state status).1 | inr _ => "AMBIGUOUS" end ∧
    cmd_RequestDigest command = cmd_RequestDigest (cr_command r).
Proof.
  destruct w as [h o]. cbn [fst]. intros Hc E Er Hs Hg Hf. unfold conclude_start, mark_start. destruct answer as [status|err].
  - match goal with |- context [append_if e 2 ?a ?b] => destruct (traces_append_if e 2 a b (h, o)) as [t Ht] end.
    destruct (mark_runs (ae_stored e 3) (ae_gen e 3) (srq_CMSCommandID req) status status "" s r fact Hc Er Hs Hg Hf) as (s' & Hm & E' & Hcr).
    exists (h <| h_traces := t |> <| h_v1Store := Some s' |>, o), s'. eexists.
    split_and!; [|done|exact E'|done|done|done]. erewrite bind_run by exact Ht.
    etrans; [apply (store_call_run _ _ s s'); [exact E|exact Hm]|reflexivity].
  - destruct (mark_runs (ae_stored e 3) (ae_gen e 3) (srq_CMSCommandID req) "AMBIGUOUS" "" "remote start result unavailable"
      s r fact Hc Er Hs Hg Hf) as (s' & Hm & E' & Hcr).
    exists (h <| h_v1Store := Some s' |>, o), s'. eexists.
    split_and!; [|done|exact E'|done|done|done]. etrans; [apply (store_call_run _ _ s s'); [exact E|exact Hm]|reflexivity].
Qed.

Lemma fresh_start_runs token s req hal fact (w : HAL * S) :
  codec_total → h_v1Store w.1 = Some s → fresh_start token s req hal fact →
  ∃ w' s' command r, v1Start e q w = (w', [Requested (Some (srq_CMSCommandID req))
      (wire w.1 (ae_ks e) (srq_ChargerOCPPIdentity req)) (RRemoteStart (srq_IDTag req) (Some (srq_OCPPConnectorNumber req)))],
      inr (202, CommandBody (v1CommandView command) (correlation_of q) false)) ∧
    h_v1Store w'.1 = Some s' ∧ pg_commands s' !! srq_CMSCommandID req = Some r ∧ cr_command r = command ∧
    cmd_State command = answered_state (ae_remoteStart e) ∧
    pg_credentials s' !! srq_IDTag req = Some (credential_row (start_command_input req (correlation_of q) (idempotency_of q))).
Proof.
  intros Hcodec E [Hp Hm Ha Hh (decoded & Hd & Hn) Hv Hmap Hhal [Hfact Hff] Hrows Hcmd Htag Hint].
  set (input := start_command_input req (correlation_of q) (idempotency_of q)).
  set (row := start_command_row hal (ae_stored e 0) input).
  assert (command_check (cr_command row)) as Hcheck by (by eapply accepted_start_checked).
  set (s1 := s <| pg_commands ::= <[srq_CMSCommandID req := row]> |> <| pg_credentials ::= <[srq_IDTag req := credential_row input]> |>).
  pose proof (create_start_fresh (ae_stored e 0) (ae_gen e 0) input hal s Hcheck Hhal Hrows Hcmd Htag Hint) as Hcr.
  change (run_tx (CreateV1StartCommand (ae_stored e 0) (ae_gen e 0) input) s = (s1, inl (cr_command row, false))) in Hcr.
  set (row2 := row <| cr_command ::= λ c, (c <| cmd_State := "PENDING_DELIVERY" |>) <| cmd_UpdatedAt := timestamptz (ae_stored e 1) |> |>).
  set (s2 := s1 <| pg_commands ::= <[srq_CMSCommandID req := row2]> |>).
  assert (ClaimV1StartDelivery s1 (ae_stored e 1) (srq_CMSCommandID req) = (s2, inl (cr_command row2, true))) as Hcl.
  { unfold ClaimV1StartDelivery, start_command_step. cbn [s1 pg_commands set_field]. rewrite lookup_insert_eq, decide_True by done.
    cbn [pg_commands set_field]. by rewrite lookup_insert_eq. }
  set (row3 := row2 <| cr_command ::= λ c, (c <| cmd_State := "DELIVERY_ATTEMPTED" |> <| cmd_DeliveryAttempts ::= λ n, n + 1 |>)
    <| cmd_UpdatedAt := timestamptz (ae_stored e 2) |> |>).
  set (s3 := s2 <| pg_commands ::= <[srq_CMSCommandID req := row3]> |>).
  assert (BeginV1CommandDelivery s2 (ae_stored e 2) (srq_CMSCommandID req) = (s3, inl (cr_command row3))) as Hb.
  { unfold BeginV1CommandDelivery, start_command_step. cbn [s2 pg_commands set_field]. rewrite lookup_insert_eq, decide_True by done.
    cbn [pg_commands set_field]. by rewrite lookup_insert_eq. }
  assert (positive (srq_OCPPConnectorNumber req) = Some (srq_OCPPConnectorNumber req)) as Hpos.
  { unfold positive. rewrite decide_True; [done|]. unfold valid_start in Hv. rewrite !andb_true_iff, !bool_decide_eq_true in Hv. tauto. }
  unfold v1Start. erewrite bind_run by (unfold method_is; by rewrite decide_True by done).
  erewrite bind_run by (unfold v1MutationHeaders; cbv zeta; fold (idempotency_of q) (correlation_of q); by rewrite Hh).
  erewrite bind_run by (unfold decodeJSON; by rewrite Hd). rewrite Hn.
  erewrite bind_run by (by rewrite Hv). erewrite bind_run by (by apply (store_check_run _ _ s)).
  cbn [fst snd]. fold input. erewrite bind_run by (by apply (store_call_run _ w s s1)).
  destruct (traces_start e req (correlation_of q) (w.1 <| h_v1Store := Some s1 |>, w.2)) as [t0 Ht0].
  erewrite bind_run by exact Ht0. erewrite bind_run by (by apply (store_call_run _ _ s1 s2)). cbn [fst snd].
  set (w2 := (w.1 <| h_v1Store := Some s1 |> <| h_traces := t0 |> <| h_v1Store := Some s2 |>, w.2)).
  unfold deliver_start. unfold mbind at 1, handler_bind at 1.
  erewrite (bind_run _ _ w2) by (by apply (store_call_run _ w2 s2 s3)).
  match goal with |- context [append_if e 1 ?a ?b] => destruct (traces_append_if e 1 a b (w2.1 <| h_v1Store := Some s3 |>, w2.2)) as [t Ht] end.
  erewrite bind_run by exact Ht. erewrite bind_run by reflexivity. cbn [fst snd].
  set (h := w2.1 <| h_v1Store := Some s3 |> <| h_traces := t |>).
  destruct (conclude_runs req (correlation_of q) (await "RemoteStartTransaction" (ae_remoteStart e)) (h, w2.2) s3 row3 fact Hcodec)
    as (w' & s' & command & Hrun & E' & Ec & Hcred & Hst & _); [done|cbn; by rewrite lookup_insert_eq|cbn; set_solver|done|done|].
  exists w', s', command, (row3 <| cr_command := command |>). split_and!; try done.
  - erewrite request_run by reflexivity. rewrite <- Hpos.
    match goal with |- context [conclude_start e req ?c ?a ?w0] => change (conclude_start e req c a w0) with
      (conclude_start e req (correlation_of q) (await "RemoteStartTransaction" (ae_remoteStart e)) (h, w2.2)) end.
    by rewrite Hrun.
  - rewrite Hcred. cbn. by rewrite lookup_insert_eq.
Qed.
End first_start.

(** C4: A valid start request the store has not seen is delivered: its command
    and its single-use credential are stored, exactly one RemoteStart for its
    tag and connector is handed to the charger's wire identity, the answer 202
    carries the command as it then stands, and that is what the charger's answer
    made of it - accepted, rejected, or ambiguous when no answer came. *)
Theorem start_request_delivers `{HC : FactCodec, HJ : JsonView, HU : UuidLib, HR : RequestJson} {S : Type}
    `{HO : OperationStore S} (e : api_env) (q : http_request) (cfg : ServerConfig) (hal fact : string) (req : v1StartRequest)
    (w : HAL * S) (s : pg) :
  codec_total → h_v1Store w.1 = Some s → fresh_start e q (sc_V1CMSBearerToken cfg) s req hal fact →
  let '(w', sent, answer) := ServeHTTP e q cfg w in
  sent = [Requested (Some (srq_CMSCommandID req)) (wire w.1 (ae_ks e) (srq_ChargerOCPPIdentity req))
            (RRemoteStart (srq_IDTag req) (Some (srq_OCPPConnectorNumber req)))] ∧
  ∃ s' r, h_v1Store w'.1 = Some s' ∧ pg_commands s' !! srq_CMSCommandID req = Some r ∧
    cmd_State (cr_command r) = answered_state (ae_remoteStart e) ∧
    answer = (202, CommandBody (v1CommandView (cr_command r)) (correlation_of q) false) ∧
    pg_credentials s' !! srq_IDTag req =
      Some (credential_row (start_command_input req (correlation_of q) (idempotency_of q))).
Proof.
  intros Hc E Hf. destruct (fresh_start_runs e q _ s req hal fact w Hc E Hf) as (w' & s' & command & r & Hrun & E' & Er & <- & Hs & Hcred).
  destruct Hf as [Hp _ Ha _ _ _ _ _ _ _ _ _ _]. rewrite (serve_run e q cfg w _ _ _ _ (mk_is_Some _ _ E) (start_route e q Hp) Ha Hrun).
  split; [done|]. by exists s', r.
Qed.

(** ** A CMS *)
Module HttpExample.
#[local] Existing Instance LifecycleRuns.codec.
#[local] Existing Instance TraceHistoryRuns.view.
(** Texts of the length of a UUID stand for UUIDs. *)
Definition uuids : UuidLib := {|
  uuid := string; uuid_eq_dec := _; uuid_Nil := "00000000-0000-0000-0000-000000000000";
  uuid_Parse s := if decide (String.length s = 36%nat) then Some s else None; uuid_String s := s |}.
#[local] Existing Instance uuids.
Definition uid (d : string) : string := "00000000-0000-4000-8000-00000000000" +:+ d.

Definition mapping : v1MappingRequest :=
  mkv1MappingRequest (uid "1") (uid "2") "CP-1" "SN-9" true [mkv1ConnectorRequest (uid "3") 1].
Definition start : v1StartRequest :=
  mkv1StartRequest (uid "9") (uid "4") (uid "5") (uid "1") (uid "6") (uid "2") (uid "3") "CP-1" 1 "appv1_tag"
    (1000 * GoTime.Second) (2000 * GoTime.Second) "" 500 "" 3600 "".
Definition stop : v1StopRequest :=
  mkv1StopRequest "" (uid "7") (uid "8") (uid "1") (uid "6") (uid "2") (uid "3") "CP-1" 1 (uid "a") 77 "CUSTOMER" "done"
    (2000 * GoTime.Second).
Definition reset : v1ChargerOperationRequest :=
  mkv1ChargerOperationRequest (uid "b") (uid "c") (uid "1") (uid "2") "" "CP-1" 0 "RESET" {["type" := "SOFT"]} None.
(** A body names the request it stands for. *)
Definition json : RequestJson := {|
  decode_mapping b := if decide (b = "mapping") then Some mapping else None;
  decode_start b := if decide (b = "start") then Some start else None;
  decode_stop b := if decide (b = "stop") then Some stop else None;
  decode_operation b := if decide (b = "reset") then Some reset else None;
  decode_read _ := None;
  marshal_mapping _ := "mapping"; marshal_start _ := "start"; marshal_stop _ := "stop"; marshal_operation _ := "reset" |}.
#[local] Existing Instance json.

Definition header (idempotency : string) (name : string) : string :=
  if decide (name = "Authorization") then "Bearer secret"
  else if decide (name = "Idempotency-Key") then idempotency
  else if decide (name = "X-Correlation-ID") then uid "d" else "".
Definition request (method path idempotency body : string) : http_request :=
  mkhttp_request method path (header idempotency) (λ _, uid "b") body.
Definition start_request : http_request := request "POST" "/v1/remote-commands/start" (uid "4") "start".

Definition at_ : Time := 501 * GoTime.Second.
Definition hal_at (call : string) (identifier : Z) : hal_env :=
  mkhal_env (λ _, at_) at_ at_ (λ n, inl (call +:+ LifecycleRuns.digit n)) identifier []
    (at_, λ n, inl ("follow" +:+ LifecycleRuns.digit n)) (at_, inl "root")
    (λ n, (at_, inl (call +:+ "trace" +:+ LifecycleRuns.digit n)))
    (mkhandler_env at_ 3 3 (LifecycleRuns.gen call) (mkdispatch_env 10 11 12 (λ i, inl i) 13 14 (inl "Accepted")) 20
       (λ n, (20, inl (call +:+ "event" +:+ LifecycleRuns.digit n)))).
Definition env (call : string) : api_env :=
  mkapi_env (λ _, at_) (λ _, at_) (λ i n, inl (call +:+ LifecycleRuns.digit i +:+ LifecycleRuns.digit n)) at_ at_
    (λ n, (at_, inl (call +:+ "event" +:+ LifecycleRuns.digit n))) [] (Confirmed "Accepted")
    (mkdispatch_env 10 11 12 (λ i, inl i) 13 14 (inl "Accepted")) (λ n, (20, inl (call +:+ "stopped" +:+ LifecycleRuns.digit n)))
    (hal_at call 0) {| Operations.de_claimAt := at_; Operations.de_markAt := at_;
      Operations.de_answer := λ _, inl ("Accepted", None); Operations.de_markErr := None |} NilConfirmation.

Definition ledger : PgOperations.table := PgOperations.mktable ∅.
Definition store_mapping : V1MappingInput :=
  mkV1MappingInput (uid "1") (uid "2") "CP-1" "SN-9" true [mkV1ConnectorMappingInput (uid "3") 1] (uid "d") "digest".
Definition mapped : pg := (run_tx (SyncV1Mapping at_ (LifecycleRuns.gen "map") store_mapping) pg_empty).1.
Definition before : HAL * PgOperations.table := (New (Some mapped) trace_db_empty, ledger).
Definition settings : ServerConfig := mkServerConfig "secret" true.
Abbreviation serve call q w := (@ServeHTTP LifecycleRuns.codec TraceHistoryRuns.view uuids json _ _ (env call) q settings w).
Definition after : HAL * PgOperations.table := (serve "first" start_request before).1.1.

Lemma codec_total_ok : @codec_total LifecycleRuns.codec.
Proof. intros [p|env]; by eexists. Defined.
Definition normalized : v1StartRequest := (normalize_start start).1.
Lemma fresh : fresh_start (env "first") start_request "secret" mapped normalized "first00" "first20".
Proof.
  assert (pg_commands mapped = ∅) as Ec by (vm_compute; reflexivity).
  assert (pg_credentials mapped = ∅) as Ed by (vm_compute; reflexivity).
  split.
  1-4, 6-8, 11-12: vm_compute; reflexivity.
  - exists start. split; vm_compute; reflexivity.
  - split; vm_compute; reflexivity.
  - intros k r Hk. rewrite Ec in Hk. discriminate (eq_trans (eq_sym (lookup_empty k)) Hk).
  - intros k c Hk. rewrite Ed in Hk. discriminate (eq_trans (eq_sym (lookup_empty k)) Hk).
Defined.
End HttpExample.

Lemma accepted_start_fits_schema_witness :
  valid_start (HU := HttpExample.uuids) (HttpExample.env "first") HttpExample.start_request HttpExample.normalized true = true ∧
  command_check (cr_command (start_command_row "hal" 0 (start_command_input (HC := LifecycleRuns.codec)
    (HR := HttpExample.json) HttpExample.normalized "corr" "key"))).
Proof.
  split; [vm_compute; reflexivity|].
  exact (proj1 (accepted_start_fits_schema (HC := LifecycleRuns.codec) (HU := HttpExample.uuids) (HR := HttpExample.json)
    (HttpExample.env "first") HttpExample.start_request HttpExample.start 0 "hal" "corr" "key" pg_empty eq_refl)).
Defined.

Lemma start_request_delivers_witness :
  (HttpExample.serve "first" HttpExample.start_request HttpExample.before).1.2 =
    [Requested (Some (HttpExample.uid "4")) "CP-1" (RRemoteStart "appv1_tag" (Some 1))] ∧
  ∃ s' r, h_v1Store HttpExample.after.1 = Some s' ∧ pg_commands s' !! HttpExample.uid "4" = Some r ∧
    cmd_State (cr_command r) = "OCPP_ACCEPTED".
Proof.
  pose proof (start_request_delivers (HC := LifecycleRuns.codec) (HJ := TraceHistoryRuns.view) (HU := HttpExample.uuids)
    (HR := HttpExample.json) (HttpExample.env "first") HttpExample.start_request HttpExample.settings "first00" "first20"
    HttpExample.normalized HttpExample.before HttpExample.mapped HttpExample.codec_total_ok eq_refl HttpExample.fresh) as Hd.
  unfold HttpExample.after. destruct (ServeHTTP _ _ _ _) as [[w' sent] answer]. cbn [fst snd].
  destruct Hd as (Hsent & s' & r & E & Er & Hs & _). split; [exact Hsent|]. exists s', r. split; [exact E|]. split; [exact Er|exact Hs].
Defined.

Lemma start_request_repeatable_witness :
  (HttpExample.serve "second" HttpExample.start_request HttpExample.after).1.2 = [] ∧
  ∃ command, (HttpExample.serve "second" HttpExample.start_request HttpExample.after).2 =
    (202, CommandBody command (HttpExample.uid "d") true).
Proof.
  pose proof (start_request_repeatable (HC := LifecycleRuns.codec) (HJ := TraceHistoryRuns.view) (HU := HttpExample.uuids)
    (HR := HttpExample.json) (HttpExample.env "first") (HttpExample.env "second") HttpExample.start_request HttpExample.settings "second00"
    HttpExample.before eq_refl) as Hd.
  assert ((HttpExample.serve "first" HttpExample.start_request HttpExample.before).2.1 = 202) as Hst by (vm_compute; reflexivity).
  assert (match (HttpExample.serve "first" HttpExample.start_request HttpExample.before).2.2 with
    | CommandBody _ c _ => c | _ => "" end = HttpExample.uid "d") as Hcorr by (vm_compute; reflexivity).
  unfold HttpExample.after in *.
  destruct (HttpExample.serve "first" HttpExample.start_request HttpExample.before) as [[w1 l] [status body]].
  cbn [fst snd] in *. destruct (Hd Hst eq_refl) as (command & corr & dup & t & Hbody & Hrun).
  - intros req Hreq. change (decode_start (rq_Body HttpExample.start_request)) with (Some HttpExample.start) in Hreq.
    injection Hreq as <-. vm_compute. reflexivity.
  - rewrite Hrun. cbn [fst snd]. split; [reflexivity|]. exists command. rewrite Hbody in Hcorr. cbn in Hcorr. rewrite Hcorr. reflexivity.
Defined.
