(* ===== verification/HttpRuns.v ===== *)
(** * The HTTP API and the HAL as one system

    The requests of [HttpApi] among everything else that happens to the HAL:
    what a request does to the store and the traces is what the HAL's own model
    allows ([HalRuns]), so the guarantees of the HAL hold of the whole system,
    for any requests; and without the bearer token nothing happens at all beyond
    the documentation pages being shown. *)
From Stdlib Require Import String Ascii.
From stdpp Require Import base numbers decidable option list strings gmap.
From S2P Require Import Prelude GoText GoClock V1Types V1Memory Operations PgSchema TraceData MemTraces Outbox PgTraces TraceHistory HalTraces PgMapping PgLifecycle StopLifecycle Histories Connections Registry HalStops Hal HttpValidation Reconcile HalMeter HalRequests HalHandlers HalRuns HalOperations HttpStarts HttpApi HttpCommands.
Open Scope Z_scope.

(** ** Requests as inputs of the HAL *)
Definition from_hal (x : api_effect) : option hal_effect := match x with FromHAL y => Some y | _ => None end.
Definition stops_of (l : list api_effect) : list string := sent_of (omap from_hal l).
Lemma stops_of_app l l' : stops_of (l ++ l') = stops_of l ++ stops_of l'.
Proof. unfold stops_of. by rewrite omap_app, sent_of_app. Qed.
Lemma stops_of_hal l : stops_of (FromHAL <$> l) = sent_of l.
Proof. unfold stops_of. f_equal. induction l as [|x l IH]; [done|]. simpl. by f_equal. Qed.

(** ** The ledger of operations *)
Definition sent_operation (x : api_effect) : option V1ChargerOperation :=
  match x with SentOperation op => Some op | _ => None end.
Definition operations_of (l : list api_effect) : list V1ChargerOperation := omap sent_operation l.
Lemma operations_of_app l l' : operations_of (l ++ l') = operations_of l ++ operations_of l'.
Proof. apply omap_app. Qed.
Lemma operations_of_hal l : operations_of (FromHAL <$> l) = [].
Proof. by induction l. Qed.
Lemma operations_of_sent l : operations_of (SentOperation <$> l) = l.
Proof. unfold operations_of. induction l as [|x l IH]; [done|]. simpl. by f_equal. Qed.
Lemma stops_of_sent l : stops_of (SentOperation <$> l) = [].
Proof. unfold stops_of. by induction l. Qed.

Section ledger.
Context {S : Type} `{OperationStoreLaws S}.
Implicit Types s : S.

(** What is sent was waiting, is taken afterwards, and stays so. *)
Record ledger_step (s : S) (out : list V1ChargerOperation) (s' : S) : Prop := {
  ls_ok : ledger_ok (os_rows s');
  ls_kept id : taken s id → taken s' id;
  ls_waiting op : op ∈ out → ¬ taken s (op_CMSOperationID op);
  ls_taken op : op ∈ out → taken s' (op_CMSOperationID op);
  ls_once : NoDup (op_CMSOperationID <$> out)
}.
Definition ledgered (s : S) (out : list V1ChargerOperation) (s' : S) : Prop :=
  ledger_ok (os_rows s) → ledger_step s out s'.

Lemma ledgered_refl s : ledgered s [] s.
Proof. intros Hl. split; [done|done|by intros op Hop%elem_of_nil..|constructor]. Qed.
Lemma ledgered_trans s1 o1 s2 o2 s3 : ledgered s1 o1 s2 → ledgered s2 o2 s3 → ledgered s1 (o1 ++ o2) s3.
Proof.
  intros H1 H2 Hl. destruct (H1 Hl) as [L1 K1 W1 T1 N1]. destruct (H2 L1) as [L2 K2 W2 T2 N2]. split; [done|auto|..].
  - intros op [?|?]%elem_of_app; [by apply W1|]. intros Ht. by eapply W2, K1.
  - intros op [?|?]%elem_of_app; auto.
  - rewrite fmap_app. apply NoDup_app. split_and!; [done| |done].
    intros id (a & -> & Ha)%list_elem_of_fmap (b & Hab & Hb)%list_elem_of_fmap. apply (W2 b Hb). rewrite <- Hab. auto.
Qed.
Lemma ledgered_create s now g input : ledgered s [] (os_create s now g input).1.
Proof.
  intros Hl. destruct (law_create s now g input) as [E|(Hn & op & E & Hid & Hst & Hat)].
  - split; try (by intros op Hop%elem_of_nil); [by rewrite E| |constructor]. intros id. unfold taken. by rewrite E.
  - split; try (by intros op' Hop%elem_of_nil); [| |constructor].
    + rewrite E. apply ledger_ok_insert; [done..|lia|]. rewrite Hst, Hat. done.
    + intros id (op' & Eo & Hp). exists op'. split; [|done]. rewrite E, lookup_insert_ne; [done|]. congruence.
Qed.
Lemma ledgered_claimed {Conf} (env : Operations.dispatch_env Conf) s id :
  ledgered s (dispatchClaimedV1ChargerOperation env s id).1.2 (dispatchClaimedV1ChargerOperation env s id).1.1.
Proof.
  intros Hl. pose proof (dispatch_ledger_ok env s id Hl) as Hl'.
  destruct (os_rows s !! id) as [op|] eqn:E; [destruct (decide (op_State op = "PERSISTED")) as [Hst|Hst]|].
  2,3: by rewrite (dispatch_closed env s id); [apply ledgered_refl|intros ??; congruence].
  destruct (dispatch_open env s id op Hl E Hst) as (s' & op1 & op' & Hd & Hi & Hr & _ & _ & Hs' & _).
  rewrite Hd in Hl' |- *. cbn [fst snd] in *.
  assert (op_CMSOperationID op1 = id) as Hid by (destruct (Hl _ _ E) as [<- _]; by apply identity_id).
  assert (taken s' id) as Ht.
  { exists op'. rewrite Hr, lookup_insert_eq. split; [done|]. rewrite Hs'. repeat case_match; done. }
  split; [done|..].
  - intros k (o & Ho & Hp). destruct (decide (k = id)) as [->|]; [done|]. exists o. by rewrite Hr, lookup_insert_ne.
  - intros o ->%list_elem_of_singleton (x & Ex & Hx). congruence.
  - intros o ->%list_elem_of_singleton. by rewrite Hid.
  - apply NoDup_singleton.
Qed.
Lemma ledgered_loop {Conf} ctxErr (env : string → Operations.dispatch_env Conf) connected pending : ∀ s,
  ∃ out, (recover_loop ctxErr env connected pending s []).1.2 = out ∧
    (∀ sent, (recover_loop ctxErr env connected pending s sent).1 = ((recover_loop ctxErr env connected pending s []).1.1, sent ++ out)) ∧
    ledgered s out (recover_loop ctxErr env connected pending s []).1.1.
Proof.
  induction pending as [|op rest IH]; intros s; cbn [recover_loop].
  { exists []. split; [done|]. split; [intros; by rewrite app_nil_r|apply ledgered_refl]. }
  destruct (ctxErr _); [exists []; split; [done|]; split; [intros; by rewrite app_nil_r|apply ledgered_refl]|].
  destruct (connected op); [|apply IH].
  pose proof (ledgered_claimed (env (op_CMSOperationID op)) s (op_CMSOperationID op)) as Hd.
  destruct (dispatchClaimedV1ChargerOperation _ _ _) as [[s1 out1] r]. destruct (IH s1) as (out & _ & Hr & Hs).
  exists (out1 ++ out). pose proof (Hr ([] ++ out1)) as Hr1. rewrite Hr1. split; [done|]. split.
  - intros sent. by rewrite Hr, app_assoc.
  - by eapply ledgered_trans.
Qed.
Lemma ledgered_recover {Conf} ctxErr (env : string → Operations.dispatch_env Conf) connected s c :
  ledgered s (recoverDispatchableV1ChargerOperations ctxErr env connected s c).1.2
    (recoverDispatchableV1ChargerOperations ctxErr env connected s c).1.1.
Proof.
  unfold recoverDispatchableV1ChargerOperations.
  destruct (ledgered_loop ctxErr env connected (os_list s c v1ChargerOperationRecoveryBatch) s) as (out & <- & _ & Hs). exact Hs.
Qed.
Lemma ledgered_restart s now : ledgered s [] (os_recover s now).
Proof.
  intros Hl. split; try (by intros op Hop%elem_of_nil); [|intros id (op & E & Hp)|constructor].
  - rewrite law_recover. intros id op. rewrite lookup_fmap. intros (o & Ho & ->)%fmap_Some.
    destruct (Hl _ _ Ho) as (Hid & Ha & Hp). unfold recover_operation. case_decide as Hs; [|done].
    rewrite Hs in Hp. split; [done|]. split; [done|]. split; [done|by intros Hz%Hp].
  - exists (recover_operation now op). rewrite law_recover, lookup_fmap, E. split; [done|].
    unfold recover_operation. by case_decide.
Qed.
End ledger.

(** ** Simulated handlers *)
Section simulation.
Context `{HC : FactCodec, HJ : JsonView, HU : UuidLib, HR : RequestJson} {S : Type} `{OperationStoreLaws S}.

(** What the HAL's models and the ledger allow from [w] to [w'] with the
    effects [l]. *)
Definition allowed (w : HAL * S) (l : list api_effect) (w' : HAL * S) : Prop :=
  hsim w.1 (stops_of l) w'.1 ∧ ledgered w.2 (operations_of l) w'.2.
Lemma allowed_refl w : allowed w [] w.
Proof. split; [by apply hsim_same|apply ledgered_refl]. Qed.
Lemma allowed_trans w1 l1 w2 l2 w3 : allowed w1 l1 w2 → allowed w2 l2 w3 → allowed w1 (l1 ++ l2) w3.
Proof.
  intros [? ?] [? ?]. split; [rewrite stops_of_app; by eapply hsim_trans|].
  rewrite operations_of_app. by eapply ledgered_trans.
Qed.
Lemma allowed_hal h l h' s : hsim h (stops_of l) h' → operations_of l = [] → allowed (h, s) l (h', s).
Proof. intros Hh Hl. split; [done|]. cbn. rewrite Hl. apply ledgered_refl. Qed.

Definition simulated {A} (m : handler S A) : Prop := ∀ w, allowed w (m w).1.2 (m w).1.1.

Lemma simulated_ret {A} (a : A) : simulated (mret a).
Proof. intros w. apply allowed_refl. Qed.
Lemma simulated_bind {A B} (m : handler S A) (k : A → handler S B) :
  simulated m → (∀ a, simulated (k a)) → simulated (m ≫= k).
Proof.
  intros Hm Hk w. specialize (Hm w). unfold mbind, handler_bind.
  destruct (m w) as [[w1 l] [resp|a]]; [done|]. specialize (Hk a w1).
  destruct (k a w1) as [[w2 l'] r]. by eapply allowed_trans.
Qed.
Lemma simulated_respond {A} status body : simulated (respond status body : handler S A).
Proof. intros w. apply allowed_refl. Qed.
Lemma simulated_refuse {A} status err : simulated (refuse status err : handler S A).
Proof. apply simulated_respond. Qed.
Lemma simulated_require b status err : simulated (require b status err).
Proof. destruct b; [apply simulated_ret|apply simulated_respond]. Qed.
Lemma simulated_method r m : simulated (method_is r m).
Proof. unfold method_is. case_decide; [apply simulated_ret|apply simulated_respond]. Qed.
Lemma simulated_decode {A} (decode : string → option A) r : simulated (decodeJSON decode r).
Proof. unfold decodeJSON. destruct (decode _); [apply simulated_ret|apply simulated_respond]. Qed.
Lemma simulated_headers r : simulated (v1MutationHeaders r).
Proof. unfold v1MutationHeaders. destruct (_ && _); [apply simulated_ret|apply simulated_respond]. Qed.
Lemma simulated_or_error {A} (m : handler S (result A)) : simulated m → simulated (or_error m).
Proof. intros Hm. apply simulated_bind; [done|]. intros [a|err] w; apply allowed_refl. Qed.
Lemma simulated_get : simulated get_hal.
Proof. intros w. apply allowed_refl. Qed.
Lemma simulated_request {C} c (x : handed C) : simulated (request_charger c x).
Proof.
  apply simulated_bind; [|intros; apply simulated_ret]. intros [h s]. unfold emit. cbn [fst snd].
  by destruct x.1 as [[]|]; apply allowed_hal; try apply hsim_same.
Qed.
Lemma simulated_store {A} (f : pg → pg * result A) : (∀ s t, sim s t [] (f s).1 t) → simulated (on_store f).
Proof.
  intros Hf [h o]. unfold on_store. cbn [fst snd]. destruct (h_v1Store h) as [s|] eqn:E; [|apply allowed_refl].
  specialize (Hf s (h_traces h)). destruct (f s) as [s' r]. apply allowed_hal; [|done].
  intros s0 E0. rewrite E in E0. injection E0 as <-. by exists s'.
Qed.
Lemma simulated_call {A} (f : pg → pg * result A) c :
  (∀ s, (f s).1 = store_exec c s) → (∀ s, call_ok c s) → requests c = true → simulated (store_call f).
Proof.
  intros Hf Hc Hr. apply simulated_or_error, simulated_store. intros s t. rewrite Hf. by apply sim_call.
Qed.
Lemma simulated_read {A} (f : pg → result A) : simulated (store_read f).
Proof. apply simulated_or_error, simulated_store. intros s t. apply sim_refl. Qed.
Lemma simulated_check f : simulated (store_check f).
Proof. apply simulated_read. Qed.
Lemma simulated_traces {A} (f : trace_db → trace_db * result A) c :
  (∀ t, (f t).1 = trace_exec c t) → (∀ t, trace_call_ok c t) → simulated (on_traces f).
Proof.
  intros Hf Hc [h o]. unfold on_traces. cbn [fst snd]. specialize (Hf (h_traces h)).
  destruct (f (h_traces h)) as [t r]. cbn [fst] in Hf. subst t. apply allowed_hal; [|done]. apply hsim_traced; [done|].
  intros s. by apply sim_trace.
Qed.
Lemma simulated_operations {A} (f : HAL → S → HAL * (S * list api_effect * result A)) :
  (∀ h s, allowed (h, s) (f h s).2.1.2 ((f h s).1, (f h s).2.1.1)) → simulated (on_operations f).
Proof.
  intros Hf. apply simulated_or_error. intros w. specialize (Hf w.1 w.2). destruct w as [h s]. cbn [fst snd] in *.
  by destruct (f h s) as [h' [[s' l] r]].
Qed.
End simulation.

#[export] Hint Resolve simulated_ret simulated_respond simulated_refuse simulated_require simulated_method simulated_decode
  simulated_headers simulated_get simulated_request simulated_read simulated_check : simulated.
Ltac simulate := repeat
  first [match goal with |- simulated (mbind _ _) => apply simulated_bind; [|intros ?] end
        |match goal with |- simulated (match ?x with _ => _ end) => destruct x end
        |solve [eauto with simulated]].

Section requests.
Context `{HC : FactCodec, HJ : JsonView, HU : UuidLib, HR : RequestJson} {S : Type} `{OperationStoreLaws S}.
Context (e : api_env) (q : http_request).
Implicit Types (w : HAL * S).

Lemma api_event_plain source target category protocol phase summary at_ correlation data :
  category ∈ "COMMAND" :: plain_categories →
  plain_event (api_event source target category protocol phase summary at_ correlation data).
Proof.
  intros Hc. unfold plain_event, api_event, follow_on_categories. cbn. unfold plain_categories in Hc.
  rewrite !elem_of_cons, elem_of_nil in *. naive_solver congruence.
Qed.
Lemma simulated_append i id input : plain_event input → simulated (S := S) (appendV1Trace e i id input).
Proof.
  intros Hp. unfold appendV1Trace. simulate.
  by apply (simulated_traces _ (TAppend (ae_tick e i).1 (ae_tick e i).2 id input)).
Qed.
Lemma simulated_append_if i id input : plain_event input → simulated (S := S) (append_if e i id input).
Proof. intros Hp. unfold append_if. case_decide; [by apply simulated_append|simulate]. Qed.
Ltac api_plain := apply api_event_plain; cbv [plain_categories]; rewrite !elem_of_cons; tauto.

Lemma simulated_mapping : simulated (v1Mapping e q : handler S response).
Proof.
  unfold v1Mapping. simulate.
  set (input := mapping_input _ _ _ _). apply (simulated_call _ (SMapping (CallSync (ae_stored e 0) (ae_gen e 0) input))); [|done..].
  intros s. unfold sync_and_load. cbn. by destruct (run_tx _ s) as [s' []].
Qed.

Lemma simulated_trace_start req c : simulated (trace_start e req c : handler S ()).
Proof.
  unfold trace_start. simulate; [|apply simulated_append; api_plain].
  by apply (simulated_traces _ (TEnsure (ae_root e) (start_root req))).
Qed.
Lemma simulated_mark_start id st r d : simulated (mark_start e id st r d : handler S _).
Proof. by apply (simulated_call _ (SMarkCommand (ae_stored e 3) (ae_gen e 3) id st r d)). Qed.
Lemma simulated_conclude req c answer : simulated (conclude_start e req c answer : handler S _).
Proof. unfold conclude_start. simulate; try apply simulated_mark_start. apply simulated_append_if. api_plain. Qed.
Lemma simulated_deliver_start req c : simulated (deliver_start e req c : handler S _).
Proof.
  unfold deliver_start. simulate; try apply simulated_conclude; try (apply simulated_append_if; api_plain).
  by apply (simulated_call _ (SBeginStart (ae_stored e 2) (srq_CMSCommandID req))).
Qed.
Lemma simulated_start : simulated (v1Start e q : handler S response).
Proof.
  unfold v1Start. simulate; try apply simulated_trace_start; try apply simulated_deliver_start.
  - match goal with |- simulated (store_call (run_tx (CreateV1StartCommand _ _ ?input))) =>
      by apply (simulated_call _ (SStart (ae_stored e 0) (ae_gen e 0) input)) end.
  - match goal with |- simulated (store_call (λ s, ClaimV1StartDelivery s _ ?id)) =>
      by apply (simulated_call _ (SClaimStart (ae_stored e 1) id)) end.
Qed.

Lemma simulated_dispatch_stop id : simulated (dispatch_stop e id : handler S _).
Proof.
  intros [h o]. unfold dispatch_stop. cbn [fst snd]. pose proof (hal_step_sim h (InDispatchStop (ae_stop e) (ae_stopTicks e) id) I) as Hs.
  destruct (hal_step h _) as [[h' eff] reply]. cbn [fst snd] in *.
  apply allowed_hal; [by rewrite stops_of_hal|apply operations_of_hal].
Qed.
Lemma simulated_trace_stop req c : simulated (trace_stop e req c : handler S ()).
Proof.
  unfold trace_stop. simulate; [|apply simulated_append; api_plain].
  by apply (simulated_traces _ (TBind (prq_TraceID req) (transaction_key (prq_HALTransactionID req) (prq_OCPPTransactionID req)))).
Qed.
Lemma simulated_stop : simulated (v1Stop e q : handler S response).
Proof.
  unfold v1Stop. simulate; try apply simulated_dispatch_stop; try apply simulated_trace_stop.
  match goal with |- simulated (store_call (run_tx (CreateV1StopCommand _ _ _ ?input))) =>
    by apply (simulated_call _ (SStopCommand (ae_stored e 0) (ae_now e 2) (ae_gen e 0) input)) end.
Qed.

Lemma simulated_transaction t : simulated (transaction_response t : handler S response).
Proof. unfold transaction_response. simulate. apply simulated_store. intros s t'. apply sim_refl. Qed.
Lemma simulated_requeue : simulated (v1FactRequeue e q : handler S response).
Proof.
  unfold v1FactRequeue. simulate.
  by apply (simulated_call _ (SRequeue (ae_stored e 0) (ae_gen e 0 0%nat)
    (TrimSuffix (TrimPrefix (rq_Path q) "/v1/facts/") "/requeue") (GoStrings.TrimSpace (rq_Header q "X-Correlation-ID")))).
Qed.

Lemma hsim_operation h s id :
  let r := DispatchV1ChargerOperation (ae_hal e) (ae_operation e) h s id in hsim h [] r.1.
Proof.
  unfold DispatchV1ChargerOperation. destruct (h_v1Store h) as [db|] eqn:E; [|by apply hsim_same].
  destruct (os_rows s !! id) as [op|]; [|by apply hsim_same]. destruct (operation_connected h op); [|by apply hsim_same].
  case_decide; [|by apply hsim_same]. apply hsim_traced; [done|]. intros s0.
  by apply (sim_trace (TEnsure (ev_root (ae_hal e)).1 (operation_root op))).
Qed.
Lemma operation_ledgered h s id :
  let r := DispatchV1ChargerOperation (ae_hal e) (ae_operation e) h s id in ledgered s r.2.1.2 r.2.1.1.
Proof.
  unfold DispatchV1ChargerOperation. destruct (h_v1Store h); [|apply ledgered_refl].
  destruct (os_rows s !! id) as [op|]; [|apply ledgered_refl].
  destruct (operation_connected h op); [apply ledgered_claimed|apply ledgered_refl].
Qed.
Lemma simulated_dispatch_operation id : simulated (dispatch_operation e id : handler S _).
Proof.
  apply simulated_operations. intros h s. pose proof (hsim_operation h s id) as Hs. pose proof (operation_ledgered h s id) as Hl.
  cbv zeta in *. destruct (DispatchV1ChargerOperation _ _ h s id) as [h' [[s' sent] [[[op c] b] err]]]. cbn [fst snd] in *.
  split; cbn [fst snd]; [by rewrite stops_of_sent|by rewrite operations_of_sent].
Qed.
Lemma simulated_operation : simulated (v1ChargerOperation q : handler S response).
Proof. unfold v1ChargerOperation. simulate. apply simulated_operations. intros h s. apply allowed_refl. Qed.
Lemma simulated_operations_handler : simulated (v1ChargerOperations e q : handler S response).
Proof.
  unfold v1ChargerOperations, operation_view. simulate; try apply simulated_operation; try apply simulated_dispatch_operation.
  apply simulated_operations. intros h s. pose proof (ledgered_create s (ae_stored e 0) (ae_gen e 0 0%nat)) as Hc.
  match goal with |- context [os_create _ _ _ ?i] => specialize (Hc i) end.
  destruct (os_create _ _ _ _). split; [by apply hsim_same|done].
Qed.
Lemma simulated_configuration : simulated (v1ConfigurationRead e q : handler S response).
Proof. unfold v1ConfigurationRead. simulate. Qed.

Lemma routes_simulated x : x ∈ v1_routes e q → simulated (x.2 : handler S response).
Proof.
  unfold v1_routes. intros Hx. repeat (apply elem_of_cons in Hx as [->|Hx]); [..|by apply elem_of_nil in Hx]; cbn [snd].
  - apply simulated_mapping.
  - apply simulated_start.
  - apply simulated_stop.
  - unfold v1Command. simulate.
  - apply simulated_operations_handler.
  - apply simulated_configuration.
  - unfold v1Transactions. simulate. apply simulated_transaction.
  - unfold v1Transaction. simulate. apply simulated_transaction.
  - apply simulated_requeue.
  - unfold v1ChargerRuntime. simulate.
  - unfold v1ConnectorRuntime. simulate.
Qed.
Lemma registered_route_in on (routes : list (string * bool * handler S response)) x : registered_route q on routes = Some x → x ∈ routes.
Proof. unfold registered_route. destruct on; [|done]. intros [Hx _]%List.find_some. by apply list_elem_of_In. Qed.
Lemma docs_page_of x : x ∈ docs_routes (S := S) q → ∃ body, x.2 = docs_page q body.
Proof.
  unfold docs_routes. intros Hx.
  repeat (apply elem_of_cons in Hx as [->|Hx]; [by eexists|]). by apply elem_of_nil in Hx.
Qed.
(** What holds of every handler and of the pages holds of the mux. *)
Lemma mux_ind (P : handler S response → Prop) cfg v1 :
  (∀ x, x ∈ v1_routes e q → P (requireV1Service q (sc_V1CMSBearerToken cfg) x.2)) →
  (∀ body, P (docs_page q body)) → (∀ status, P (respond status NoBody)) → P (mux e q cfg v1).
Proof.
  intros Hv Hd Hr. unfold mux. destruct (registered_route q v1 _) as [x|] eqn:Hx; [by eapply Hv, registered_route_in|].
  destruct (registered_route q _ (docs_routes q)) as [y|] eqn:Hy; [|by destruct (_ && _)].
  apply registered_route_in, docs_page_of in Hy as [body ->]. apply Hd.
Qed.
Lemma ServeHTTP_mux cfg w : let v1 := bool_decide (is_Some (h_v1Store w.1)) in
  (ServeHTTP e q cfg w).1 = (mux e q cfg v1 w).1.
Proof. unfold ServeHTTP, Routes. by destruct (mux _ _ _ _ w) as [[w' l] [|]]. Qed.
Lemma serve_allowed cfg w :
  allowed w (ServeHTTP e q cfg w).1.2 (ServeHTTP e q cfg w).1.1.
Proof.
  rewrite ServeHTTP_mux. generalize (bool_decide (is_Some (h_v1Store w.1))) as v1. intros v1.
  assert (simulated (mux e q cfg v1 : handler S response)) as Hr; [|apply Hr].
  apply mux_ind; [intros x Hx|intros body; unfold docs_page; simulate|intros status; simulate].
  unfold requireV1Service. simulate. by apply routes_simulated.
Qed.
End requests.

(** ** The starts a request sends *)
Definition started_command (x : api_effect) : option string := match x with Requested c _ _ => c | _ => None end.
Definition starts_of (l : list api_effect) : list string := omap started_command l.
Lemma starts_of_app l l' : starts_of (l ++ l') = starts_of l ++ starts_of l'.
Proof. apply omap_app. Qed.
Lemma starts_of_hal l : starts_of (FromHAL <$> l) = [].
Proof. by induction l. Qed.
Lemma starts_of_operations l : starts_of (SentOperation <$> l) = [].
Proof. by induction l. Qed.

Section starts.
Context `{HC : FactCodec, HJ : JsonView, HU : UuidLib, HR : RequestJson} {S : Type} `{OperationStoreLaws S}.
Implicit Types (w : HAL * S).

(** What a simulation leaves attempted. *)
Lemma history_attempted s s' id : is_history s s' → attempted s id → attempted s' id.
Proof.
  intros (cs & _ & <-). revert s. induction cs as [|c cs IH]; intros s Ha; [done|]. cbn.
  pose proof (IH _ (store_exec_attempted c s id Ha)) as IH'. by destruct (history (store_exec c s) cs).
Qed.
Lemma sim_attempted s t new s' t' id : sim s t new s' t' → attempted s id → attempted s' id.
Proof.
  intros (es & tcs & _ & Hr & _) Ha. destruct (Hr []) as [He Hf]. apply world_history in He.
  rewrite Hf in He. by eapply history_attempted.
Qed.

(** The sent starts were not attempted before, and are afterwards. *)
Definition starts_once w (l : list api_effect) w' : Prop :=
  ∀ s s', h_v1Store w.1 = Some s → h_v1Store w'.1 = Some s' →
    NoDup (starts_of l) ∧ ∀ id, id ∈ starts_of l → ¬ attempted s id ∧ attempted s' id.
Lemma starts_none w l w' : starts_of l = [] → starts_once w l w'.
Proof. intros E s s' _ _. rewrite E. split; [constructor|]. intros id Hid. by apply elem_of_nil in Hid. Qed.
Lemma starts_trans w1 l1 w2 l2 w3 :
  allowed w1 l1 w2 → allowed w2 l2 w3 → starts_once w1 l1 w2 → starts_once w2 l2 w3 → starts_once w1 (l1 ++ l2) w3.
Proof.
  intros [Ha1 _] [Ha2 _] H1 H2 s s' E E'. destruct (Ha1 s E) as (s1 & E1 & Hs1). destruct (Ha2 s1 E1) as (s2 & E2 & Hs2).
  rewrite E' in E2. injection E2 as <-. destruct (H1 s s1 E E1) as [N1 P1]. destruct (H2 s1 s' E1 E') as [N2 P2].
  rewrite starts_of_app. split.
  - apply NoDup_app. split_and!; [done| |done]. intros id Hi1 Hi2. destruct (P1 id Hi1) as [_ Hatt]. by destruct (P2 id Hi2).
  - intros id [Hi|Hi]%elem_of_app.
    + destruct (P1 id Hi) as [Hn Hatt]. split; [done|]. by eapply sim_attempted.
    + destruct (P2 id Hi) as [Hn Hatt]. split; [|done]. intros Hatt0. apply Hn. by eapply sim_attempted.
Qed.

Definition starting {A} (m : handler S A) : Prop := ∀ w, starts_once w (m w).1.2 (m w).1.1.
Definition unstarted {A} (m : handler S A) : Prop := ∀ w, starts_of (m w).1.2 = [].
Lemma unstarted_starting {A} (m : handler S A) : unstarted m → starting m.
Proof. intros Hm w. apply starts_none, Hm. Qed.
Lemma starting_prefix {A B} (m : handler S A) (k : A → handler S B) :
  simulated m → unstarted m → (∀ a, starting (k a)) → starting (m ≫= k).
Proof.
  intros Sm Um Hk w. specialize (Sm w). specialize (Um w). unfold mbind, handler_bind.
  destruct (m w) as [[w1 l] [resp|a]]; [by apply starts_none|]. specialize (Hk a w1).
  destruct (k a w1) as [[w2 l'] r]. cbn [fst snd] in *. destruct Sm as [Sm _].
  intros s s' E E'. destruct (Sm s E) as (s1 & E1 & Hs1). destruct (Hk s1 s' E1 E') as [N P].
  rewrite starts_of_app, Um. split; [done|]. intros id Hi. destruct (P id Hi) as [Hn Ha]. split; [|done].
  intros Hs. by eapply Hn, sim_attempted.
Qed.
Lemma unstarted_ret {A} (a : A) : unstarted (mret a).
Proof. done. Qed.
Lemma unstarted_bind {A B} (m : handler S A) (k : A → handler S B) :
  unstarted m → (∀ a, unstarted (k a)) → unstarted (m ≫= k).
Proof.
  intros Hm Hk w. specialize (Hm w). unfold mbind, handler_bind. destruct (m w) as [[w1 l] [resp|a]]; [done|].
  specialize (Hk a w1). destruct (k a w1) as [[w2 l'] r]. cbn [fst snd] in *. by rewrite starts_of_app, Hm, Hk.
Qed.
Lemma unstarted_respond {A} status body : unstarted (respond status body : handler S A).
Proof. done. Qed.
Lemma unstarted_refuse {A} status err : unstarted (refuse status err : handler S A).
Proof. done. Qed.
Lemma unstarted_require b status err : unstarted (require b status err : handler S ()).
Proof. by destruct b. Qed.
Lemma unstarted_method q m : unstarted (method_is q m : handler S ()).
Proof. intros w. unfold method_is. by case_decide. Qed.
Lemma unstarted_decode {A} (decode : string → option A) q : unstarted (decodeJSON decode q : handler S A).
Proof. intros w. unfold decodeJSON. by destruct (decode _). Qed.
Lemma unstarted_headers q : unstarted (v1MutationHeaders q : handler S _).
Proof. intros w. unfold v1MutationHeaders. cbv zeta. by destruct (_ && _). Qed.
Lemma unstarted_or_error {A} (m : handler S (result A)) : unstarted m → unstarted (or_error m).
Proof. intros Hm. apply unstarted_bind; [done|]. by intros [a|err] w. Qed.
Lemma unstarted_on_store {A} (f : pg → pg * result A) : unstarted (on_store f : handler S _).
Proof. intros w. unfold on_store. destruct (h_v1Store w.1) as [s|]; [|done]. by destruct (f s). Qed.
Lemma unstarted_store {A} (f : pg → pg * result A) : unstarted (store_call f : handler S A).
Proof. apply unstarted_or_error, unstarted_on_store. Qed.
Lemma unstarted_read {A} (f : pg → result A) : unstarted (store_read f : handler S A).
Proof. apply unstarted_store. Qed.
Lemma unstarted_get : unstarted (get_hal : handler S HAL).
Proof. done. Qed.
Lemma unstarted_check f : unstarted (store_check f : handler S ()).
Proof. apply unstarted_store. Qed.
Lemma unstarted_traces {A} (f : trace_db → trace_db * result A) : unstarted (on_traces f : handler S _).
Proof. intros w. unfold on_traces. by destruct (f _). Qed.
Lemma unstarted_request {C} (x : handed C) : unstarted (request_charger None x : handler S _).
Proof. intros w. unfold request_charger, emit, mbind, handler_bind. by destruct x.1 as [[]|]. Qed.
Lemma unstarted_append e i id input : unstarted (appendV1Trace e i id input : handler S ()).
Proof. unfold appendV1Trace. apply unstarted_bind; [apply unstarted_traces|done]. Qed.
End starts.
#[export] Hint Resolve unstarted_ret unstarted_respond unstarted_refuse unstarted_require unstarted_method
  unstarted_decode unstarted_headers unstarted_on_store unstarted_store unstarted_read unstarted_get
  unstarted_check unstarted_traces
  unstarted_request unstarted_append : unstarted.
Ltac unstart := repeat
  first [match goal with |- unstarted (mbind _ _) => apply unstarted_bind; [|intros ?] end
        |match goal with |- unstarted (match ?x with _ => _ end) => destruct x end
        |solve [eauto with unstarted]].

Section start_requests.
Context `{HC : FactCodec, HJ : JsonView, HU : UuidLib, HR : RequestJson} {S : Type} `{OperationStoreLaws S}.
Context (e : api_env) (q : http_request).
Implicit Types (w : HAL * S).

Lemma unstarted_start_trace req c : unstarted (trace_start e req c : handler S ()).
Proof. unfold trace_start. unstart. Qed.
Lemma unstarted_mark id st r d : unstarted (mark_start e id st r d : handler S _).
Proof. unfold mark_start. unstart. Qed.

Lemma unstarted_conclude req c answer : unstarted (conclude_start e req c answer : handler S _).
Proof. unfold conclude_start, append_if. unstart; apply unstarted_mark. Qed.

Lemma deliver_run req c w s s1 c1 :
  h_v1Store w.1 = Some s → BeginV1CommandDelivery s (ae_stored e 2) (srq_CMSCommandID req) = (s1, inl c1) →
  ∃ w1 x answer, h_v1Store w1.1 = Some s1 ∧ starts_of [x] = [srq_CMSCommandID req] ∧
    (deliver_start e req c w).1.2 = x :: (conclude_start e req c answer w1).1.2 ∧
    (deliver_start e req c w).1.1 = (conclude_start e req c answer w1).1.1.
Proof.
  intros E Hb. unfold deliver_start. erewrite bind_run by (by apply (store_call_run _ _ s)).
  match goal with |- context [append_if e 1 ?a ?b] =>
    destruct (traces_append_if e 1 a b (w.1 <| h_v1Store := Some s1 |>, w.2)) as [t Ht] end.
  erewrite bind_run by exact Ht. erewrite bind_run by reflexivity. cbn [fst snd].
  set (h := w.1 <| h_v1Store := Some s1 |> <| h_traces := t |>). set (sent := RemoteStartTransaction h _ _ _ _ _).
  exists (h, w.2), (Requested (Some (srq_CMSCommandID req)) (wire h (ae_ks e) (srq_ChargerOCPPIdentity req))
    (RRemoteStart (srq_IDTag req) (positive (srq_OCPPConnectorNumber req)))), sent.2.
  split; [done|]. split; [done|]. unfold request_charger, emit, mbind, handler_bind. cbn.
  by destruct (conclude_start e req c _ (h, w.2)) as [[w2 l2] r2].
Qed.

(** A delivery sends its own command's start, after it was attempted. *)
Lemma deliver_sends req c w s :
  h_v1Store w.1 = Some s → at_level 1 s (srq_CMSCommandID req) → ¬ attempted s (srq_CMSCommandID req) →
  starts_once w (deliver_start e req c w).1.2 (deliver_start e req c w).1.1.
Proof.
  set (id := srq_CMSCommandID req). intros E Hl Hn.
  destruct (BeginV1CommandDelivery s (ae_stored e 2) id) as [s1 [c1|err]] eqn:Hb.
  2:{ apply starts_none. unfold deliver_start, store_call, or_error, on_store, mbind, handler_bind. rewrite E. fold id. by rewrite Hb. }
  pose proof (begin_attempts _ _ _ _ _ Hb Hl) as Ha.
  destruct (deliver_run req c w s s1 c1 E Hb) as (w1 & x & answer & E1 & Hx & Hlist & Hw).
  intros s0 s' E0 E'. rewrite E in E0. injection E0 as <-. rewrite Hlist.
  assert (starts_of (x :: (conclude_start e req c answer w1).1.2) = [id]) as ->.
  { etrans; [apply (starts_of_app [x])|]. by rewrite Hx, unstarted_conclude. }
  split; [apply NoDup_singleton|]. intros k ->%list_elem_of_singleton. split; [done|].
  destruct (simulated_conclude e req c answer w1) as [Hh _]. destruct (Hh s1 E1) as (s2 & E2 & Hs2). rewrite Hw in E'. rewrite E' in E2. injection E2 as <-.
  by eapply sim_attempted.
Qed.
Lemma starting_delivery req c dup :
  starting (S := S) (claim ← store_call (λ s, ClaimV1StartDelivery s (ae_stored e 1) (srq_CMSCommandID req));
    command ← (if claim.2 : bool then deliver_start e req c else mret claim.1);
    mret (202, CommandBody (v1CommandView command) c dup)).
Proof.
  set (id := srq_CMSCommandID req). intros w. destruct (h_v1Store w.1) as [s|] eqn:E.
  2:{ apply starts_none. unfold store_call, or_error, on_store, mbind, handler_bind. by rewrite E. }
  pose proof (rises_claim s (ae_stored e 1) id) as Hr.
  destruct (ClaimV1StartDelivery s (ae_stored e 1) id) as [s1 [[c1 [|]]|err]] eqn:Hc.
  2:{ apply starts_none. erewrite bind_run by (by apply (store_call_run _ _ s)). done. }
  2:{ apply starts_none. unfold store_call, or_error, on_store, mbind, handler_bind. rewrite E. fold id. by rewrite Hc. }
  erewrite bind_run by (by apply (store_call_run _ _ s)).
  destruct (claim_fresh _ _ _ _ _ Hc) as [Hl Hf]. cbn [fst snd] in *.
  set (w1 := (w.1 <| h_v1Store := Some s1 |>, w.2)).
  assert (¬ attempted s1 id) as Hn.
  { intros (r & Er & _ & H2). destruct Hl as (r' & Er' & Hk & H1). rewrite Er in Er'. injection Er' as <-.
    unfold ClaimV1StartDelivery, start_command_step in Hc. destruct (pg_commands s !! id) as [r0|] eqn:E0; [|by rewrite E0 in Hc].
    case_decide as Hs; [|by rewrite E0 in Hc]. cbn in Hc. rewrite lookup_insert_eq in Hc. injection Hc as <- _.
    cbn in Er. rewrite lookup_insert_eq in Er. injection Er as <-. revert H2. unfold start_level. cbn.
    rewrite decide_False, decide_True by done. lia. }
  pose proof (deliver_sends req c w1 s1 eq_refl Hl Hn) as Hd.
  assert (∀ l w', starts_once w1 l w' → starts_once w l w') as Hback.
  { intros l w' Ho s0 s' E0 E'. rewrite E in E0. injection E0 as <-. destruct (Ho s1 s' eq_refl E') as [N P]. split; [done|].
    intros k Hk. destruct (P k Hk) as [Hnk Hak]. split; [|done]. intros Ha. by apply Hnk, Hr. }
  apply Hback. unfold mbind, handler_bind. destruct (deliver_start e req c w1) as [[w2 l2] [resp|cmd]]; [exact Hd|].
  change (starts_once w1 (l2 ++ []) w2). by rewrite app_nil_r.
Qed.
Lemma starting_start : starting (v1Start e q : handler S response).
Proof.
  unfold v1Start. do 3 (apply starting_prefix; [simulate|unstart|intros ?]). destruct (normalize_start _) as [req ok].
  do 2 (apply starting_prefix; [simulate|unstart|intros ?]).
  apply starting_prefix; [|unstart|intros ?].
  { match goal with |- simulated (store_call (run_tx (CreateV1StartCommand _ _ ?input))) =>
      by apply (simulated_call _ (SStart (ae_stored e 0) (ae_gen e 0) input)) end. }
  apply starting_prefix; [apply simulated_trace_start|apply unstarted_start_trace|intros ?]. apply starting_delivery.
Qed.
Lemma unstarted_operations {A} (f : HAL → S → HAL * (S * list api_effect * result A)) :
  (∀ h s, starts_of (f h s).2.1.2 = []) → unstarted (on_operations f).
Proof.
  intros Hf. apply unstarted_or_error. intros [h s]. specialize (Hf h s). cbn. by destruct (f h s) as [h' [[s' l] r]].
Qed.
Lemma unstarted_routes x : x ∈ v1_routes (S := S) e q → x.1.1 = "/v1/remote-commands/start" ∨ unstarted x.2.
Proof.
  unfold v1_routes. intros Hx.
  repeat (apply elem_of_cons in Hx as [->|Hx]); [..|by apply elem_of_nil in Hx]; [right|by left|right..]; cbn [snd].
  - unfold v1Mapping. unstart.
  - unfold v1Stop, trace_stop. unstart. intros w. unfold dispatch_stop. destruct (hal_step w.1 _) as [[h eff] reply]. apply starts_of_hal.
  - unfold v1Command. unstart.
  - unfold v1ChargerOperations, v1ChargerOperation, operation_view. unstart; apply unstarted_operations; intros h s; try done.
    + unfold create_operation. by destruct (os_create _ _ _ _).
    + destruct (DispatchV1ChargerOperation _ _ h s _) as [h' [[s' sent] [[[op c] b] err]]]. apply starts_of_operations.
  - unfold v1ConfigurationRead. unstart.
  - unfold v1Transactions, transaction_response. unstart.
  - unfold v1Transaction, transaction_response. unstart.
  - unfold v1FactRequeue. unstart.
  - unfold v1ChargerRuntime. unstart.
  - unfold v1ConnectorRuntime. unstart.
Qed.
Lemma serve_starts cfg w : starts_once w (ServeHTTP e q cfg w).1.2 (ServeHTTP e q cfg w).1.1.
Proof.
  rewrite ServeHTTP_mux. generalize (bool_decide (is_Some (h_v1Store w.1))) as v1. intros v1.
  assert (starting (mux e q cfg v1 : handler S response)) as Hr; [|apply Hr].
  apply mux_ind; [intros x Hx|intros body; apply unstarted_starting; unfold docs_page; unstart
                  |intros status; apply unstarted_starting; unstart].
  unfold requireV1Service. apply starting_prefix; [simulate|unstart|intros _].
  destruct (unstarted_routes x Hx) as [Hs|Hu]; [|by apply unstarted_starting].
  assert (x = ("/v1/remote-commands/start", false, v1Start e q)) as ->; [|apply starting_start].
  unfold v1_routes in Hx. repeat (apply elem_of_cons in Hx as [->|Hx]; [done|]). by apply elem_of_nil in Hx.
Qed.
End start_requests.

(** ** The system *)
Inductive system_input : Type :=
  | FromWorld (i : hal_input)                            (* chargers, workers, restarts *)
  | FromCMS (e : api_env) (q : http_request)
  | OperationPass (ctxErr : string → option go_error)    (* the recovery worker *)
      (env : string → Operations.dispatch_env GetConfigurationConfirmation)
  | OperationsOf (ctxErr : string → option go_error)     (* a charger has connected *)
      (env : string → Operations.dispatch_env GetConfigurationConfirmation) (identity : string)
  | RecoverOperations (now : Time).                      (* part of RecoverV1Lifecycle *)

Section system.
Context `{HC : FactCodec, HJ : JsonView, HU : UuidLib, HR : RequestJson} {S : Type} `{HO : OperationStore S}.
Context (cfg : ServerConfig).

Definition system_step (w : HAL * S) (i : system_input) : HAL * S * list api_effect :=
  match i with
  | FromWorld i => let '(h, eff, _) := hal_step w.1 i in ((h, w.2), FromHAL <$> eff)
  | FromCMS e q => (ServeHTTP e q cfg w).1
  | OperationPass ctxErr env =>
    let '(h, (s, sent, _)) := DispatchPendingV1ChargerOperations ctxErr env w.1 w.2 in ((h, s), SentOperation <$> sent)
  | OperationsOf ctxErr env identity =>
    let '(s, sent, _) := dispatchPendingV1ChargerOperationsForCharger ctxErr env w.1 w.2 identity in
    ((w.1, s), SentOperation <$> sent)
  | RecoverOperations now => ((w.1, os_recover w.2 now), [])
  end.
Fixpoint system_run (w : HAL * S) (ins : list system_input) : HAL * S * list api_effect :=
  match ins with
  | [] => (w, [])
  | i :: rest =>
    let '(w1, l1) := system_step w i in
    let '(w2, l2) := system_run w1 rest in (w2, l1 ++ l2)
  end.
(** The requests of the CMS are arbitrary. *)
Fixpoint system_ok (w : HAL * S) (ins : list system_input) : Prop :=
  match ins with
  | [] => True
  | i :: rest => match i with FromWorld i => input_ok w.1 i | _ => True end ∧ system_ok (system_step w i).1 rest
  end.
End system.

Section system_proofs.
Context `{HC : FactCodec, HJ : JsonView, HU : UuidLib, HR : RequestJson} {S : Type} `{OperationStoreLaws S}.
Context (cfg : ServerConfig).
Implicit Types (w : HAL * S).

Lemma allowed_sent h s s' sent : ledgered s sent s' → allowed (h, s) (SentOperation <$> sent) (h, s').
Proof. intros Hl. split; [rewrite stops_of_sent; by apply hsim_same|by rewrite operations_of_sent]. Qed.
Lemma for_charger_ledgered ctxErr (env : string → Operations.dispatch_env GetConfigurationConfirmation) h (s : S) c :
  let r := dispatchPendingV1ChargerOperationsForCharger ctxErr env h s c in ledgered s r.1.2 r.1.1.
Proof.
  unfold dispatchPendingV1ChargerOperationsForCharger. destruct (h_v1Store h); [apply ledgered_recover|apply ledgered_refl].
Qed.
Lemma system_step_allowed w i :
  match i with FromWorld i => input_ok w.1 i | _ => True end →
  allowed w (system_step cfg w i).2 (system_step cfg w i).1.
Proof.
  destruct w as [h s], i as [i|e q|ctxErr env|ctxErr env identity|now]; cbn [system_step fst snd]; intros Hi.
  - pose proof (hal_step_sim h i Hi) as Hs. destruct (hal_step h i) as [[h' eff] r]. cbn [fst snd] in *.
    apply allowed_hal; [by rewrite stops_of_hal|apply operations_of_hal].
  - apply serve_allowed.
  - unfold DispatchPendingV1ChargerOperations. destruct (h_v1Store h) as [db|] eqn:E; [|apply allowed_refl].
    destruct (nextV1ChargerOperationRecoveryIdentity _ _) as [next [c|]].
    + set (h' := h <| h_operationRecoveryNext := next |>).
      pose proof (for_charger_ledgered ctxErr env h' s c) as Hl. cbv zeta in Hl.
      destruct (dispatchPendingV1ChargerOperationsForCharger ctxErr env h' s c) as [[s' sent] err]. cbn [fst snd] in *.
      destruct (allowed_sent h s s' sent Hl) as [Ha Hb]. split; [|done]. cbn in *.
      rewrite stops_of_sent in *. by apply hsim_same.
    + cbn [fst snd]. by apply allowed_hal; [apply hsim_same|].
  - pose proof (for_charger_ledgered ctxErr env h s identity) as Hl. cbv zeta in Hl.
    destruct (dispatchPendingV1ChargerOperationsForCharger _ _ h s identity) as [[s' sent] err]. by apply allowed_sent.
  - apply (allowed_sent h s _ []), ledgered_restart.
Qed.
Lemma system_step_starts w i : starts_once w (system_step cfg w i).2 (system_step cfg w i).1.
Proof.
  destruct w as [h s], i as [i|e q|ctxErr env|ctxErr env identity|now]; cbn [system_step fst snd]; [|apply serve_starts|..];
    apply starts_none; try done.
  - destruct (hal_step h i) as [[h' eff] r]. apply starts_of_hal.
  - destruct (DispatchPendingV1ChargerOperations _ _ h s) as [h' [[s' sent] err]]. apply starts_of_operations.
  - destruct (dispatchPendingV1ChargerOperationsForCharger _ _ h s identity) as [[s' sent] err]. apply starts_of_operations.
Qed.
Lemma system_run_allowed ins : ∀ w,
  system_ok cfg w ins →
  allowed w (system_run cfg w ins).2 (system_run cfg w ins).1 ∧
  starts_once w (system_run cfg w ins).2 (system_run cfg w ins).1.
Proof.
  induction ins as [|i ins IH]; intros w; cbn [system_ok system_run].
  { intros _. split; [apply allowed_refl|by apply starts_none]. }
  intros [Hi Hins]. pose proof (system_step_allowed w i Hi) as Hs. pose proof (system_step_starts w i) as Ht.
  destruct (system_step cfg w i) as [w1 l1]. destruct (IH w1 Hins) as [IHs IHt].
  destruct (system_run cfg w1 ins) as [w2 l2]. split; [by eapply allowed_trans|by eapply starts_trans].
Qed.
End system_proofs.

(** End to end, over any run of the system - chargers that connect, send
    messages and disconnect, requests of the CMS of any content, passes of the
    workers, deliveries and restarts: the RemoteStart of a command, the
    RemoteStop of a transaction and a charger operation are each sent at most
    once, and only after it was durably recorded; each completed transaction has
    exactly one completion fact and no other has any; and every TriggerMessage
    window has exactly the follow-on evidence its state says. *)
Theorem system_end_to_end `{HC : FactCodec, HJ : JsonView, HU : UuidLib, HR : RequestJson} {S : Type}
    `{OperationStoreLaws S} (cfg : ServerConfig) (ledger : S) (ins : list system_input) :
  ledger_ok (os_rows ledger) → system_ok cfg (boot_hal, ledger) ins →
  let '((h, ledger'), out) := system_run cfg (boot_hal, ledger) ins in
  ∃ s, h_v1Store h = Some s ∧
    (NoDup (starts_of out) ∧ ∀ id, id ∈ starts_of out → attempted s id) ∧
    (NoDup (stops_of out) ∧ ∀ id, id ∈ stops_of out → life_at settled_life s id) ∧
    (NoDup (op_CMSOperationID <$> operations_of out) ∧
     ∀ op, op ∈ operations_of out → taken ledger' (op_CMSOperationID op)) ∧
    (∀ id q, has_fact s completed_fact id q ↔ q = None ∧ completed s id) ∧ facts_distinct s completed_fact ∧
    trace_ok (h_traces h).
Proof.
  intros Hl Hok. destruct (system_run_allowed cfg ins (boot_hal, ledger) Hok) as [[Hs Ho] Ht].
  destruct (system_run cfg (boot_hal, ledger) ins) as [[h ledger'] out]. cbn [fst snd] in *.
  destruct (Hs pg_empty eq_refl) as (s & E & Hsim). destruct (Ho Hl) as [_ _ _ Htk Hn].
  destruct (sim_guarantees _ _ _ Hsim) as (? & ? & ? & ?). destruct (Ht pg_empty s eq_refl E) as [Hns Hatt].
  exists s. split_and!; try done; [intros id Hid; by apply Hatt|naive_solver..].
Qed.

(** ** What a request can do *)
Section inert.
Context `{HC : FactCodec, HJ : JsonView, HU : UuidLib, HR : RequestJson} {S : Type} `{HO : OperationStore S}.
Context (e : api_env) (q : http_request).

Definition inert {A} (m : handler S A) : Prop := ∀ w, (m w).1 = (w, []).
Lemma inert_ret {A} (a : A) : inert (mret a).
Proof. done. Qed.
Lemma inert_respond {A} status body : inert (respond status body : handler S A).
Proof. done. Qed.
Lemma inert_bind {A B} (m : handler S A) (k : A → handler S B) : inert m → (∀ a, inert (k a)) → inert (m ≫= k).
Proof.
  intros Hm Hk w. specialize (Hm w). unfold mbind, handler_bind. destruct (m w) as [[w1 l] [resp|a]]; [done|].
  injection Hm as -> ->. specialize (Hk a w). by destruct (k a w) as [[w2 l'] r].
Qed.
Lemma inert_require b status err : inert (require b status err).
Proof. by destruct b. Qed.
Lemma inert_method m : inert (method_is q m).
Proof. unfold method_is. by case_decide. Qed.
Lemma inert_store {A} (f : pg → result A) : inert (on_store (λ s, (s, f s))).
Proof. intros [h o]. unfold on_store. cbn [fst snd]. destruct (h_v1Store h) eqn:E; [|done]. destruct h; cbn in *. by rewrite E. Qed.
Lemma inert_read {A} (f : pg → result A) : inert (store_read f).
Proof. apply inert_bind; [apply inert_store|by intros []]. Qed.
Lemma inert_refused m (k : () → handler S response) : rq_Method q ≠ m → inert (method_is q m ≫= k).
Proof. intros Hm w. unfold mbind, handler_bind, method_is. by rewrite decide_False. Qed.
End inert.
#[export] Hint Resolve inert_ret inert_respond inert_require inert_method inert_store inert_read : inert.
Ltac idle := repeat
  first [match goal with |- inert (mbind _ _) => apply inert_bind; [|intros ?] end
        |match goal with |- inert (match ?x with _ => _ end) => destruct x end
        |solve [eauto with inert]].

(** Reading never writes: whatever the path, token, body and headers of a
    GET request, it leaves the store, the traces, the ledger and the HAL as they
    are and nothing is sent to a charger. *)
Theorem reads_change_nothing `{HC : FactCodec, HJ : JsonView, HU : UuidLib, HR : RequestJson} {S : Type}
    `{HO : OperationStore S} (e : api_env) (q : http_request) (cfg : ServerConfig) (w : HAL * S) :
  rq_Method q = "GET" → (ServeHTTP e q cfg w).1 = (w, []).
Proof.
  intros Hq. rewrite ServeHTTP_mux. generalize (bool_decide (is_Some (h_v1Store w.1))) as v1. intros v1.
  assert (inert (mux e q cfg v1 : handler S response)) as Hr; [|apply Hr].
  apply mux_ind; [intros x Hx|intros body; unfold docs_page; idle|intros status; idle].
  unfold requireV1Service. idle. unfold v1_routes in Hx.
  repeat (apply elem_of_cons in Hx as [->|Hx]); [..|by apply elem_of_nil in Hx]; cbn [snd];
    try (apply inert_refused; by rewrite Hq).
  - unfold v1Command. idle.
  - unfold v1ChargerOperations. rewrite decide_True by done. unfold v1ChargerOperation. idle.
    intros [h s]. unfold on_operations, or_error, mbind, handler_bind. cbn. by destruct (os_rows s !! _).
  - unfold v1Transactions, transaction_response. idle.
  - unfold v1Transaction, transaction_response. idle.
  - unfold v1ChargerRuntime. idle.
  - unfold v1ConnectorRuntime. idle.
Qed.

(** The pages that need no token. *)
Definition public_pages : list (string * response_body) := [("/openapi.json", OpenAPIBody); ("/docs", DocsBody)].
Lemma authorized_header q token : authorized q token = true →
  token ≠ "" ∧ rq_Header q "Authorization" = "Bearer " +:+ token.
Proof.
  unfold authorized. intros [Hp Ht%bool_decide_eq_true]%andb_true_iff.
  rewrite negb_orb, negb_involutive in Hp. apply andb_true_iff in Hp as [Hp Hn].
  apply negb_true_iff, bool_decide_eq_false in Hn. split; [done|].
  apply HasPrefix_spec in Hp as [r Hr]. rewrite Hr in Ht |- *. by rewrite TrimPrefix_app in Ht; subst.
Qed.
Lemma docs_served {S} q on x : registered_route q on (docs_routes (S := S) q) = Some x →
  ∃ body, x.2 = docs_page q body ∧ on = true ∧ (rq_Path q, body) ∈ public_pages.
Proof.
  unfold registered_route. destruct on; [|done]. intros [Hx Hm]%List.find_some. revert Hx Hm. unfold route_matches. cbn.
  intros [<-|[<-|[]]]; cbn; intros ->%bool_decide_eq_true; eexists; (split; [done|]); (split; [done|]);
    unfold public_pages; set_solver.
Qed.

(** C6: The bearer token guards the whole API: a request that changes anything,
    sends anything or gets a successful answer carries exactly the configured
    token, and the token is not empty; the only exceptions are GET requests of
    the two static documentation pages, where the configuration enables them,
    and they change and send nothing. *)
Theorem bearer_token_required `{HC : FactCodec, HJ : JsonView, HU : UuidLib, HR : RequestJson} {S : Type}
    `{HO : OperationStore S} (e : api_env) (q : http_request) (cfg : ServerConfig) (w : HAL * S) :
  let '(w', l, (status, body)) := ServeHTTP e q cfg w in
  (w', l) ≠ (w, []) ∨ 200 ≤ status < 300 →
  sc_V1CMSBearerToken cfg ≠ "" ∧ rq_Header q "Authorization" = "Bearer " +:+ sc_V1CMSBearerToken cfg ∨
  (w', l) = (w, []) ∧ sc_APIDocsEnabled cfg = true ∧ rq_Method q = "GET" ∧ (rq_Path q, body) ∈ public_pages.
Proof.
  unfold ServeHTTP, Routes, mux. destruct (registered_route q _ (v1_routes e q)) as [x|].
  - unfold requireV1Service, require. destruct (authorized q _) eqn:Ha; [|cbn; naive_solver lia].
    apply authorized_header in Ha. match goal with |- context [match ?m with (_, _) => _ end] =>
      match m with mbind _ _ w => destruct m as [[w' l] [[status body]|[status body]]] end end; intros _; by left.
  - destruct (registered_route q _ (docs_routes q)) as [x|] eqn:Hx; [|destruct (_ && _); cbn; naive_solver lia].
    apply docs_served in Hx as (body & -> & Hon & Hp). unfold docs_page, method_is.
    case_decide; cbn; [|naive_solver lia]. intros _. by right.
Qed.

(** ** A session *)
Module SystemRuns.
#[local] Existing Instance LifecycleRuns.codec.
#[local] Existing Instance TraceHistoryRuns.view.
#[local] Existing Instance HttpExample.uuids.
#[local] Existing Instance HttpExample.json.
Import HttpExample.
(** The identifier the transaction gets is a UUID. *)
Definition start_env : hal_env :=
  let e := hal_at "start" 77 in
  mkhal_env (ev_at e) (ev_registry e) (ev_stored e)
    (λ n, if decide (n = 0%nat) then inl (uid "a") else inl ("fact" +:+ LifecycleRuns.digit n)) (ev_identifier e)
    (ev_ks e) (ev_follow e) (ev_root e) (ev_tick e) (ev_handler e).
Definition post (path key body : string) : system_input := FromCMS (env body) (request "POST" path (uid key) body).
Definition session : list system_input :=
  [FromCMS (env "map") (request "PUT" ("/v1/mappings/chargers/" +:+ uid "2") (uid "e") "mapping");
   FromWorld (InValidate "SN-9" (Some "/CP-1/SN-9")); FromWorld (InConnect (hal_at "connect" 0) "SN-9" "socket" "10.0.0.9");
   post "/v1/remote-commands/start" "4" "start"; FromCMS (env "retry") start_request;
   FromWorld (InStart start_env "SN-9" (mkStartTransactionRequest 1 "appv1_tag" 100 (Some (500 * GoTime.Second))));
   post "/v1/remote-commands/stop" "7" "stop"; FromCMS (env "retried") (request "POST" "/v1/remote-commands/stop" (uid "7") "stop");
   post "/v1/charger-operations" "b" "reset"; FromCMS (env "again") (request "POST" "/v1/charger-operations" (uid "b") "reset");
   FromWorld (InStop (hal_at "stopped" 0) "SN-9" (mkStopTransactionRequest 77 600 (Some (601 * GoTime.Second)) "Remote"))].
Abbreviation run := (system_run (S := PgOperations.table) settings (boot_hal, ledger) session).
Lemma api_session_ok : system_ok (S := PgOperations.table) settings (boot_hal, ledger) session.
Proof. repeat split. Defined.
Lemma ledger_is_ok : ledger_ok (os_rows ledger).
Proof. intros id op Hop. discriminate (eq_trans (eq_sym (lookup_empty id)) Hop). Defined.
Example session_sent : (starts_of run.2, stops_of run.2, op_Kind <$> operations_of run.2) = ([uid "4"], [uid "a"], ["RESET"]).
Proof. vm_compute. reflexivity. Qed.
End SystemRuns.

Lemma system_end_to_end_witness :
  let r := @system_run LifecycleRuns.codec TraceHistoryRuns.view HttpExample.uuids HttpExample.json _ _ HttpExample.settings
             (boot_hal, HttpExample.ledger) SystemRuns.session in
  starts_of r.2 = [HttpExample.uid "4"] ∧ stops_of r.2 = [HttpExample.uid "a"] ∧
  ∃ s, h_v1Store r.1.1 = Some s ∧ attempted s (HttpExample.uid "4") ∧ life_at settled_life s (HttpExample.uid "a").
Proof.
  pose proof (system_end_to_end (HC := LifecycleRuns.codec) (HJ := TraceHistoryRuns.view) (HU := HttpExample.uuids)
    (HR := HttpExample.json) HttpExample.settings HttpExample.ledger SystemRuns.session SystemRuns.ledger_is_ok SystemRuns.api_session_ok) as Hr.
  pose proof SystemRuns.session_sent as Hs. cbv zeta. destruct (system_run _ _ _) as [[h l] out]. cbn [fst snd] in *.
  injection Hs as Hst Hsp _. split; [exact Hst|]. split; [exact Hsp|].
  destruct Hr as (s & E & [_ Ha] & [_ Hl] & _). exists s. split; [exact E|].
  split; [apply Ha; rewrite Hst; left|apply Hl; rewrite Hsp; left].
Defined.

Lemma reads_change_nothing_witness :
  (@ServeHTTP LifecycleRuns.codec TraceHistoryRuns.view HttpExample.uuids HttpExample.json _ _ (HttpExample.env "read")
     (HttpExample.request "GET" "/v1/remote-commands" "" "") HttpExample.settings HttpExample.before).1 = (HttpExample.before, []).
Proof.
  exact (reads_change_nothing (HC := LifecycleRuns.codec) (HJ := TraceHistoryRuns.view) (HU := HttpExample.uuids)
    (HR := HttpExample.json) (HttpExample.env "read") (HttpExample.request "GET" "/v1/remote-commands" "" "") HttpExample.settings
    HttpExample.before eq_refl).
Defined.

(** The pages: shown to anyone where enabled, unknown where not, without a store
    as well. *)
Example docs_pages :
  let get path cfg w := (@ServeHTTP LifecycleRuns.codec TraceHistoryRuns.view HttpExample.uuids HttpExample.json _ _
    (HttpExample.env "docs") (mkhttp_request "GET" path (λ _, "") (λ _, "") "") cfg w).2 in
  let off := mkServerConfig "secret" false in let bare := (New None trace_db_empty, HttpExample.ledger) in
  (get "/docs" HttpExample.settings bare, get "/openapi.json" HttpExample.settings HttpExample.before,
   get "/docs" off HttpExample.before, get "/v1/transactions" HttpExample.settings bare,
   (get "/v1/transactions" HttpExample.settings HttpExample.before).1) =
  ((200, DocsBody), (200, OpenAPIBody), (404, NoBody), (404, NoBody), 401).
Proof. vm_compute. reflexivity. Qed.
Lemma bearer_token_required_witness :
  (HttpExample.serve "first" HttpExample.start_request HttpExample.before).2.1 = 202 ∧
  rq_Header HttpExample.start_request "Authorization" = "Bearer secret".
Proof.
  pose proof (bearer_token_required (HC := LifecycleRuns.codec) (HJ := TraceHistoryRuns.view) (HU := HttpExample.uuids)
    (HR := HttpExample.json) (HttpExample.env "first") HttpExample.start_request HttpExample.settings HttpExample.before) as Hb.
  assert ((HttpExample.serve "first" HttpExample.start_request HttpExample.before).2.1 = 202) as Hst by (vm_compute; reflexivity).
  destruct (HttpExample.serve "first" HttpExample.start_request HttpExample.before) as [[w l] [status body]].
  cbn [fst snd] in *. split; [exact Hst|].
  destruct Hb as [[_ Hb]|(_ & _ & Hm & _)]; [right; rewrite Hst; split; [discriminate|reflexivity]|exact Hb|discriminate Hm].
Defined.
