(* ===== verification/Frames.v ===== *)
(** * What dispatching and recovering leaves alone

    The stop dispatch, the deadlines and the recovery of [HalStops] never touch
    the connection rows or the mappings. *)
From Stdlib Require Import String Ascii.
From stdpp Require Import base numbers decidable option list strings gmap.
From S2P Require Import Prelude V1Types V1Memory PgSchema Outbox PgMapping PgLifecycle StopLifecycle Connections Registry HalTraces HalStops.
Open Scope Z_scope.

Definition still (s s' : pg) : Prop := pg_runtime s' = pg_runtime s ∧ pg_mappings s' = pg_mappings s.
#[global] Instance still_preorder : PreOrder still.
Proof. split; [done|]. intros s1 s2 s3 [E1 E2] [E3 E4]. split; congruence. Qed.

(** Transactions that leave them alone. *)
Definition framed {A} (c : txm pg A) : Prop := ∀ s a s', c s = inl (a, s') → still s s'.
Section framed.
Context `{FactCodec}.
Lemma framed_ret {A} (a : A) : framed (mret a).
Proof. by intros s b s' [= _ <-]. Qed.
Lemma framed_get : framed tx_get.
Proof. by intros s b s' [= _ <-]. Qed.
Lemma framed_fail {A} e : framed (tx_fail (A := A) e).
Proof. by intros s b s'. Qed.
Lemma framed_lift {A} (r : result A) : framed (tx_lift r).
Proof. intros s b s'. unfold tx_lift. destruct r; [|done]. by intros [= _ <-]. Qed.
Lemma framed_bind {A B} (c : txm pg A) (k : A → txm pg B) : framed c → (∀ a, framed (k a)) → framed (c ≫= k).
Proof. intros Hc Hk s b s' (a & s1 & H1 & H2)%tx_bind_inv. trans s1; [by eapply Hc|by eapply Hk]. Qed.
Lemma framed_modify f : (∀ s, still s (f s)) → framed (tx_modify f).
Proof. intros Hf s b s'. rewrite tx_modify_eq. by intros [= _ <-]. Qed.
Lemma framed_insert_fact row : framed (insert_fact_row row).
Proof. intros s a s'. unfold insert_fact_row. repeat case_match; try done; by intros [= _ <-]. Qed.
Lemma framed_transaction id : framed (getV1TransactionByID id).
Proof. intros s a s'. unfold getV1TransactionByID. destruct (_ !! id); [|done]. by intros [= _ <-]. Qed.
Lemma framed_command id : framed (getV1CommandWith id).
Proof. intros s a s'. unfold getV1CommandWith. destruct (_ !! id); [|done]. by intros [= _ <-]. Qed.
Lemma framed_run {A} (c : txm pg A) s : framed c → still s (run_tx c s).1.
Proof. intros Hc. unfold run_tx. destruct (c s) as [[a s']|e] eqn:E; [by eapply Hc|done]. Qed.
End framed.
Create HintDb framed.
#[export] Hint Resolve framed_ret framed_get framed_fail framed_lift framed_insert_fact framed_transaction framed_command : framed.
Ltac frame := repeat
  match goal with
  | |- framed (_ ≫= _) => apply framed_bind; [|intros ?]
  | |- framed (tx_modify _) => apply framed_modify; intros ?; by split
  | |- framed (if decide _ then _ else _) => case_decide
  | |- framed (match ?x with _ => _ end) => destruct x
  | |- framed _ => progress cbv zeta
  | |- framed _ => solve [eauto with framed]
  end.

Section calls.
Context `{FactCodec}.
Lemma framed_fact now g ty ag q at_ p : framed (insertV1FactTx now g ty ag q at_ p).
Proof. unfold insertV1FactTx. frame. Qed.
Lemma framed_lock id : framed (lockV1StopLifecycleRows id).
Proof. unfold lockV1StopLifecycleRows. frame. Qed.
Lemma framed_update id f : framed (update_transaction id f).
Proof. unfold update_transaction, put_transaction. frame. Qed.
#[local] Hint Resolve framed_fact framed_lock framed_update : framed.
Lemma framed_command_facts now gen ids : framed (insert_command_facts now gen ids).
Proof. induction ids; simpl; frame. Qed.
Lemma framed_ensure now t i r : framed (ensureV1StopWorkflowTx now t i r).
Proof. unfold ensureV1StopWorkflowTx. frame. Qed.
#[local] Hint Resolve framed_command_facts framed_ensure : framed.
Lemma framed_claim now id : framed (ClaimV1StopDelivery now id).
Proof. unfold ClaimV1StopDelivery. frame. Qed.
Lemma framed_begin now id : framed (BeginV1StopDelivery now id).
Proof. unfold BeginV1StopDelivery. frame. Qed.
Lemma framed_mark now gen id st r d : framed (MarkV1StopDelivery now gen id st r d).
Proof. unfold MarkV1StopDelivery. frame. Qed.
Lemma framed_ensure_call now id i r : framed (EnsureV1StopWorkflow now id i r).
Proof. unfold EnsureV1StopWorkflow. frame. Qed.

(** ** The HAL's loops *)
Lemma still_with {A} (r : pg * result A) id s : still s r.1 → still s (with_workflow r id).1.
Proof. unfold with_workflow. destruct r as [s' [a|e]]; [|done]. by destruct (GetV1StopWorkflow s' id). Qed.
Lemma still_marked e s id st r d : still s (mark_stop e s id st r d).1.
Proof.
  unfold mark_stop. pose proof (still_with (run_tx (MarkV1StopDelivery (de_mark e) (de_gen e) id st r d) s) id s
    (framed_run _ s (framed_mark _ _ _ _ _ _))) as Hs. by destruct (with_workflow _ id) as [s' [[]|]].
Qed.
Lemma still_dispatch e s id : still s (DispatchV1Stop e s id).1.1.
Proof.
  unfold DispatchV1Stop. pose proof (still_with _ id s (framed_run _ s (framed_claim (de_claim e) id))) as Hc.
  destruct (with_workflow (run_tx (ClaimV1StopDelivery _ _) s) id) as [s1 [[[] w]|]]; cbn [fst] in Hc; [|done..].
  pose proof (still_with _ id s1 (framed_run _ s1 (framed_begin (de_begin e) id))) as Hb.
  destruct (with_workflow (run_tx (BeginV1StopDelivery _ _) s1) id) as [s2 [w'|]]; cbn [fst] in Hb; [|by trans s1].
  assert (still s s2) as H2 by (by trans s1).
  assert (∀ st r d s3 x, mark_stop e s2 id st r d = (s3, x) → still s s3) as Hm.
  { intros st r d s3 x E. trans s2; [done|]. pose proof (still_marked e s2 id st r d) as Hs. by rewrite E in Hs. }
  destruct (GetV1Transaction s2 id); [|done]. destruct (tx_CompletedAt _); [|destruct (de_answer e)];
    match goal with |- context [mark_stop e s2 id ?a ?b ?c] => destruct (mark_stop e s2 id a b c) eqn:E end; by eapply Hm.
Qed.
Lemma still_each env ids : ∀ s, still s (dispatch_each env s ids).1.
Proof.
  induction ids as [|id ids IH]; intros s; [done|]. cbn [dispatch_each]. pose proof (still_dispatch (env id) s id) as Hd.
  destruct (DispatchV1Stop (env id) s id) as [[s1 l] r]. pose proof (IH s1) as Hi.
  destruct (dispatch_each env s1 ids) as [s2 l2]. by trans s1.
Qed.
Lemma still_pending env s : still s (DispatchPendingV1Stops env s).1.
Proof. apply still_each. Qed.
Lemma still_enforce now traced env ts : ∀ s, still s (enforce_each now traced env s ts).1.1.
Proof.
  induction ts as [|t ts IH]; intros s; [done|]. cbn [enforce_each]. destruct (v1DeadlineStopCause _ _) as [i r].
  pose proof (framed_run _ s (framed_ensure_call now (tx_HALTransactionID t) i r)) as He.
  destruct (run_tx (EnsureV1StopWorkflow _ _ _ _) s) as [s1 [[w created]|e]]; [|done]. cbn [fst] in He.
  pose proof (still_dispatch (env (tx_HALTransactionID t)) s1 (tx_HALTransactionID t)) as Hd.
  destruct (DispatchV1Stop _ s1 _) as [[s2 l] x]. pose proof (IH s2) as Hi.
  destruct (enforce_each now traced env s2 ts) as [[s3 l3] err]. trans s1; [done|]. by trans s2.
Qed.
(** Recovering without pending projections. *)
Lemma retry_empty {S} (record : pendingRuntimeProjection → S → S * option go_error) ks s :
  (retryRuntimeProjections record ks s ∅).1 = s.
Proof.
  unfold retryRuntimeProjections. assert (omap (λ k, (∅ : pending) !! k) ks = []) as ->; [|done].
  induction ks as [|k ks IH]; [done|]. cbn. by rewrite lookup_empty.
Qed.
Lemma still_recover now traced g ks env0 env1 env2 s :
  still s (RecoverV1Lifecycle now traced g ks env0 env1 env2 s ∅).1.1.1.
Proof.
  unfold RecoverV1Lifecycle. set (s1 := RecoverV1StopDelivery now (RecoverV1CommandDelivery now s)).
  assert (still s s1) as H1 by done. pose proof (still_pending env0 s1) as H2.
  destruct (DispatchPendingV1Stops env0 s1) as [s2 l2]. unfold EnforceV1Deadlines.
  pose proof (retry_empty (record_projection now g) ks s2) as H3.
  destruct (retryRuntimeProjections _ ks s2 ∅) as [s0 p']. cbn [fst] in *. subst s0.
  pose proof (still_enforce now traced env1 (ListV1OverdueTransactions s2 now 100) s2) as H4.
  destruct (enforce_each _ _ _ _ _) as [[s3 l3] [err|]]; [by trans s1; [|trans s2]|]. cbn [fst] in H4.
  pose proof (still_pending env2 s3) as H5. destruct (DispatchPendingV1Stops env2 s3) as [s4 l4].
  trans s1; [done|]. trans s2; [done|]. by trans s3.
Qed.
End calls.
