(* ===== verification/Startup.v ===== *)
(** * Process start-up and deployments

    cmd/ocpphal/main.go: from the process environment to a serving process,
    with the privilege check of internal/store/postgres.go, the constructors of
    the delivery workers (internal/v1facts, internal/v1trace) and the retention
    loop; and any number of such processes, one after the other, over the same
    database.  Signals, listening sockets and the tickers that pace the loops
    are not modelled: a serving process is a run of the system of [HttpRuns]. *)
From Stdlib Require Import String Ascii.
From stdpp Require Import base numbers decidable option list strings gmap pretty.
From S2P Require Import Prelude GoText GoClock GoUrl Config ConfigText V1Types V1Memory Operations PgSchema TraceData MemTraces Outbox PgTraces TraceHistory HalTraces PgMapping PgLifecycle StopLifecycle Histories Connections Registry HalStops Hal HttpValidation Reconcile HalMeter HalRequests HalHandlers HalRuns HalOperations HttpStarts HttpApi HttpCommands HttpRuns Frames.
Open Scope Z_scope.

(** ** The database connection *)
Record privileges : Type := mkprivileges { pv_SELECT : bool; pv_INSERT : bool; pv_UPDATE : bool; pv_DELETE : bool }.
Definition required_relations : list string :=
  ["v1_transactions"; "v1_remote_commands"; "v1_fact_outbox"; "v1_transaction_completion_fact_keys"].
Definition permitted (p : privileges) : bool := pv_SELECT p && pv_INSERT p && pv_UPDATE p && pv_DELETE p.
(** [verifyV1RuntimePrivileges]: what the catalogue says of each relation. *)
Definition verifyV1RuntimePrivileges (catalogue : result (string → option privileges)) : option go_error :=
  match catalogue with
  | inr err => Some err
  | inl acl =>
    match filter (λ name, match acl name with Some p => permitted p = false | None => True end) required_relations with
    | [] => None
    | failures =>
      Some (ErrOther ("HAL runtime role lacks required relation privilege or relation is missing: " +:+
                      String.concat ", " failures))
    end
  end.
(** The data source name, and [NewPostgresStore]: [connect] opens and pings. *)
Definition data_source (c : Config) : string :=
  let dsn := GoStrings.TrimSpace (cfg_DatabaseURL c) in if decide (dsn = "") then postgresURL c else dsn.
Definition NewPostgresStore (connect : string → option go_error) (catalogue : result (string → option privileges))
    (c : Config) : option go_error :=
  match connect (data_source c) with Some err => Some err | None => verifyV1RuntimePrivileges catalogue end.

(** ** A process *)
Record process : Type := mkprocess {
  pc_environ : list string;
  pc_file : file_read;                                     (* ./.env *)
  pc_connect : string → option go_error;
  pc_catalogue : result (string → option privileges);
  pc_reset : Time * (string → result string);              (* ResetV1ConnectionRuntime *)
  pc_now : Time;                                           (* RecoverV1Lifecycle *)
  pc_traced : Time;
  pc_generated : result string;
  pc_keys : list string;
  pc_dispatch : nat → string → HalStops.dispatch_env;      (* its three loops *)
  pc_ticks : nat → trace_tick
}.
(** What outlives a process. *)
Record disk (S : Type) : Type := mkdisk { dk_store : pg; dk_traces : trace_db; dk_ledger : S }.
Arguments mkdisk {S}. Arguments dk_store {S}. Arguments dk_traces {S}. Arguments dk_ledger {S}.

Record worker : Type := mkworker { wk_url : string; wk_token : string }.
(** [v1facts.New] and [v1trace.New]; [None] is the nil worker. *)
Definition fact_worker (c : Config) : fallible (option worker) :=
  if cfg_V1FactDeliveryEnabled c then
    check (negb (blank (cfg_V1CMSFactsURL c) || blank (cfg_V1CMSFactsBearerToken c)))
      "HAL_V1_CMS_FACTS_URL and HAL_V1_CMS_FACT_BEARER_TOKEN are required when HAL_V1_FACT_DELIVERY_ENABLED=true";;
    mret (Some (mkworker (cfg_V1CMSFactsURL c) (cfg_V1CMSFactsBearerToken c)))
  else mret None.
Definition trace_worker (c : Config) : fallible (option worker) :=
  if cfg_V1TraceDeliveryEnabled c then
    check (negb (blank (cfg_V1CMSTraceURL c) || blank (cfg_V1CMSTraceBearerToken c)))
      "HAL_V1_CMS_TRACE_URL and HAL_V1_CMS_TRACE_BEARER_TOKEN are required when HAL_V1_TRACE_DELIVERY_ENABLED=true";;
    mret (Some (mkworker (cfg_V1CMSTraceURL c) (cfg_V1CMSTraceBearerToken c)))
  else mret None.

(** One round of [runTraceRetention]. *)
Definition day : GoTime.Duration := 24 * 60 * GoTime.Minute.
Definition retention_round (now : Time) (retentionDays : Z) : trace_call :=
  let retentionDays := if decide (retentionDays < 1) then 30 else retentionDays in
  TDelete (now - retentionDays * day) 500.

Record serving (S : Type) : Type := mkserving {
  sv_config : Config;
  sv_hal : HAL;
  sv_ledger : S;
  sv_facts : option worker;
  sv_traces : option worker
}.
Arguments mkserving {S}. Arguments sv_config {S}. Arguments sv_hal {S}. Arguments sv_ledger {S}.
Arguments sv_facts {S}. Arguments sv_traces {S}.

Section startup.
Context `{HC : FactCodec, HJ : JsonView, HL : UrlLib} {S : Type} `{HO : OperationStore S}.

Definition chooseV1Store (p : process) (c : Config) (s : pg) : pg * option go_error :=
  if decide (cfg_V1CMSBearerToken c = "") then (s, Some (ErrOther "HAL_V1_CMS_BEARER_TOKEN is required"))
  else
    match NewPostgresStore (pc_connect p) (pc_catalogue p) c with
    | Some err => (s, Some err)
    | None =>
      match run_tx (ResetV1ConnectionRuntime (pc_reset p).1 (pc_reset p).2) s with
      | (s', inl _) => (s', None)
      | (s', inr err) => (s', Some err)
      end
    end.
Definition configured (c : Config) (h : HAL) : HAL :=
  SetConfigurationReconciliation
    (mkConfigurationReconciliationConfig (cfg_OCPPMeterSampleIntervalSeconds c)
       (cfg_OCPPConfigurationReconcileTimeoutSeconds c * GoTime.Second) (cfg_OCPPVendorConfigurationProfile c)
       (cfg_OCPPVendorConfigurationVendor c))
    (SetHeartbeatIntervalSeconds h (cfg_OCPPHeartbeatIntervalSeconds c)).
(** [RecoverV1Lifecycle] of a HAL without connections; the ledger is recovered
    between its stores and its dispatch, which do not read it. *)
Definition recover (p : process) (h : HAL) (s : pg) : HAL * list hal_effect * option go_error :=
  let '(s', pending, eff, err) :=
    RecoverV1Lifecycle (pc_now p) (pc_traced p) (pc_generated p) (pc_keys p) (pc_dispatch p 0) (pc_dispatch p 1)
      (pc_dispatch p 2) s ∅ in
  (with_pass (pc_ticks p) h s' pending eff, eff, err).

Definition halt (h : HAL) (o : S) (s : pg) : disk S := mkdisk (default s (h_v1Store h)) (h_traces h) o.
(** [main] up to serving; [None]: the process has exited. *)
Definition start_process (p : process) (d : disk S) : disk S * list api_effect * option (serving S) :=
  match Load (pc_environ p) (pc_file p) with
  | inr _ => (d, [], None)
  | inl c =>
    match chooseV1Store p c (dk_store d) with
    | (s, Some _) => (mkdisk s (dk_traces d) (dk_ledger d), [], None)
    | (s, None) =>
      let '(h, eff, err) := recover p (configured c (New (Some s) (dk_traces d))) s in
      let o := os_recover (dk_ledger d) (pc_now p) in
      let d' := halt h o s in
      match err, fact_worker c, trace_worker c with
      | None, inl facts, inl traces => (d', FromHAL <$> eff, Some (mkserving c h o facts traces))
      | _, _, _ => (d', FromHAL <$> eff, None)
      end
    end
  end.

(** ** Deployments *)
Context `{HU : UuidLib, HR : RequestJson}.
(** [httpapi.NewServer] gets the configuration. *)
Definition server_config (c : Config) : ServerConfig := mkServerConfig (cfg_V1CMSBearerToken c) (cfg_APIDocsEnabled c).
(** One process after the other: each starts, serves its inputs and ends; what
    remains is the disk. *)
Definition run_process (x : process * list system_input) (d : disk S) : disk S * list api_effect :=
  match start_process x.1 d with
  | (d', out, None) => (d', out)
  | (d', out, Some v) =>
    let '((h, o), out') := system_run (server_config (sv_config v)) (sv_hal v, sv_ledger v) x.2 in
    (halt h o (dk_store d'), out ++ out')
  end.
Fixpoint deployment (ps : list (process * list system_input)) (d : disk S) : disk S * list api_effect :=
  match ps with
  | [] => (d, [])
  | x :: rest =>
    let '(d1, out) := run_process x d in
    let '(d2, out') := deployment rest d1 in (d2, out ++ out')
  end.
Definition process_ok (x : process * list system_input) (d : disk S) : Prop :=
  match start_process x.1 d with
  | (_, _, None) => True
  | (_, _, Some v) => system_ok (server_config (sv_config v)) (sv_hal v, sv_ledger v) x.2
  end.
Fixpoint deployment_ok (ps : list (process * list system_input)) (d : disk S) : Prop :=
  match ps with [] => True | x :: rest => process_ok x d ∧ deployment_ok rest (run_process x d).1 end.
End startup.

(** ** What a process does to the disk *)
Section disks.
Context `{HC : FactCodec, HJ : JsonView, HL : UrlLib, HU : UuidLib, HR : RequestJson} {S : Type} `{OperationStoreLaws S}.
Implicit Types (d : disk S).

(** A disk seen as a process that has just opened it. *)
Definition opened d : HAL * S := (New (Some (dk_store d)) (dk_traces d), dk_ledger d).
Definition lawful (w : HAL * S) (out : list api_effect) (w' : HAL * S) : Prop :=
  allowed w out w' ∧ starts_once w out w'.
Lemma lawful_refl w : lawful w [] w.
Proof. split; [apply allowed_refl|by apply starts_none]. Qed.
Lemma lawful_trans w1 l1 w2 l2 w3 : lawful w1 l1 w2 → lawful w2 l2 w3 → lawful w1 (l1 ++ l2) w3.
Proof. intros [? ?] [? ?]. split; [by eapply allowed_trans|by eapply starts_trans]. Qed.
Lemma lawful_hal h eff h' (o : S) : hsim h (sent_of eff) h' → lawful (h, o) (FromHAL <$> eff) (h', o).
Proof.
  intros Hs. split; [|apply starts_none, starts_of_hal].
  apply allowed_hal; [by rewrite stops_of_hal|apply operations_of_hal].
Qed.
(** Only the store, the traces and the ledger matter. *)
Lemma lawful_same (h h' : HAL) (o : S) : h_v1Store h' = h_v1Store h → h_traces h' = h_traces h → lawful (h, o) [] (h', o).
Proof. intros. by apply (lawful_hal h [] h'), hsim_same. Qed.
Lemma lawful_halt h o s s' : h_v1Store h = Some s' → lawful (h, o) [] (opened (halt h o s)).
Proof. intros E. apply lawful_same; [|done]. cbn. by rewrite E. Qed.
Lemma lawful_stored w l h (o : S) s : h_v1Store w.1 = Some s → lawful w l (h, o) → is_Some (h_v1Store h).
Proof. intros E [[Hs _] _]. destruct (Hs s E) as (s' & E' & _). by exists s'. Qed.

Lemma choose_lawful p c d s err : chooseV1Store p c (dk_store d) = (s, err) →
  lawful (opened d) [] (opened (mkdisk s (dk_traces d) (dk_ledger d))).
Proof.
  intros Hc. assert (s = dk_store d ∨ s = store_exec (SMapping (CallReset (pc_reset p).1 (pc_reset p).2)) (dk_store d)) as Hs.
  { revert Hc. unfold chooseV1Store. case_decide; [intros [= <- _]; by left|].
    destruct (NewPostgresStore _ _ _); [intros [= <- _]; by left|]. cbn.
    destruct (run_tx (ResetV1ConnectionRuntime _ _) _) as [s' [[]|e]]; intros [= <- _]; by right. }
  apply (lawful_hal _ []). destruct Hs as [->| ->]; [by apply hsim_same|].
  by apply (hsim_call (SMapping (CallReset (pc_reset p).1 (pc_reset p).2)) _ (dk_store d)).
Qed.
Lemma recover_lawful p h s (o : S) h' eff err : h_v1Store h = Some s → recover p h s = (h', eff, err) →
  lawful (h, o) (FromHAL <$> eff) (h', os_recover o (pc_now p)) ∧ is_Some (h_v1Store h').
Proof.
  unfold recover. intros E. pose proof (pass_recover (pc_now p) (pc_traced p) (pc_generated p) (pc_keys p)
    (pc_dispatch p 0) (pc_dispatch p 1) (pc_dispatch p 2) s (h_traces h) ∅) as Hp.
  destruct (RecoverV1Lifecycle _ _ _ _ _ _ _ s ∅) as [[[s' pending] l] err']. intros [= <- <- <-]. split; [|by exists s'].
  rewrite <- (app_nil_r (FromHAL <$> l)). eapply (lawful_trans _ _ (with_pass (pc_ticks p) h s' pending l, o)).
  { by apply lawful_hal, (hsim_pass (pc_ticks p) h s s'). }
  split; [|by apply starts_none]. split; [by apply hsim_same|apply ledgered_restart].
Qed.

Lemma start_lawful p d d' out v : start_process p d = (d', out, v) →
  lawful (opened d) out (opened d') ∧
  ∀ sv, v = Some sv → lawful (opened d') [] (sv_hal sv, sv_ledger sv) ∧ h_v1Store (sv_hal sv) = Some (dk_store d').
Proof.
  unfold start_process. destruct (Load _ _) as [c|e]; [|intros [= <- <- <-]; split; [apply lawful_refl|done]].
  destruct (chooseV1Store p c (dk_store d)) as [s err] eqn:Hc. apply choose_lawful in Hc.
  destruct err; [intros [= <- <- <-]; by split|].
  destruct (recover p (configured c (New (Some s) (dk_traces d))) s) as [[h eff] err] eqn:Hr.
  assert (lawful (opened (mkdisk s (dk_traces d) (dk_ledger d))) [] (configured c (New (Some s) (dk_traces d)), dk_ledger d)) as Hn.
  { apply lawful_same; unfold configured, SetConfigurationReconciliation, SetHeartbeatIntervalSeconds;
      repeat case_decide; done. }
  eapply (recover_lawful _ _ _ (dk_ledger d)) in Hr as [Hr [s' Es]];
    [|unfold configured, SetConfigurationReconciliation, SetHeartbeatIntervalSeconds; repeat case_decide; done].
  assert (lawful (opened d) (FromHAL <$> eff) (opened (halt h (os_recover (dk_ledger d) (pc_now p)) s))) as Hall.
  { rewrite <- (app_nil_r (FromHAL <$> eff)). eapply lawful_trans; [|by eapply lawful_halt].
    eapply (lawful_trans _ []); [exact Hc|]. by eapply (lawful_trans _ []). }
  destruct err; [intros [= <- <- <-]; by split|]. destruct (fact_worker c) as [facts|]; [|intros [= <- <- <-]; by split].
  destruct (trace_worker c) as [traces|]; [|intros [= <- <- <-]; by split].
  intros [= <- <- <-]. split; [done|]. intros sv [= <-]. cbn. rewrite Es. split; [|done].
  apply lawful_same; [cbn; by rewrite Es|done].
Qed.

Lemma run_process_lawful x d : process_ok x d → lawful (opened d) (run_process x d).2 (opened (run_process x d).1).
Proof.
  unfold process_ok, run_process. destruct (start_process x.1 d) as [[d' out] v] eqn:E.
  destruct (start_lawful _ _ _ _ _ E) as [Hs Hv]. destruct v as [v|]; [|done]. destruct (Hv v eq_refl) as [Hv' Ev]. intros Hok.
  pose proof (system_run_allowed _ x.2 (sv_hal v, sv_ledger v) Hok) as Hr. change (lawful (sv_hal v, sv_ledger v)
    (system_run (server_config (sv_config v)) (sv_hal v, sv_ledger v) x.2).2
    (system_run (server_config (sv_config v)) (sv_hal v, sv_ledger v) x.2).1) in Hr.
  destruct (system_run _ _ _) as [[h o] out']. cbn [fst snd] in *.
  destruct (lawful_stored (sv_hal v, sv_ledger v) _ _ _ _ Ev Hr) as [s' Es]. rewrite <- (app_nil_r (out ++ out')).
  eapply lawful_trans; [|by eapply lawful_halt]. eapply lawful_trans; [exact Hs|]. by eapply (lawful_trans _ []).
Qed.
Lemma deployment_lawful ps : ∀ d, deployment_ok ps d → lawful (opened d) (deployment ps d).2 (opened (deployment ps d).1).
Proof.
  induction ps as [|x ps IH]; intros d; cbn [deployment deployment_ok]; [intros _; apply lawful_refl|].
  intros [Hx Hps]. pose proof (run_process_lawful x d Hx) as Hl. destruct (run_process x d) as [d1 out].
  specialize (IH d1 Hps). destruct (deployment ps d1) as [d2 out']. by eapply lawful_trans.
Qed.
End disks.

(** C1: End to end, over the whole life of a deployment - any number of
    processes one after the other, each with its own environment, some of which
    do not get past start-up, and anything chargers, CMS and workers do to each of
    them: the RemoteStart of a command, the RemoteStop of a transaction and a
    charger operation are each sent at most once, and only after it was durably
    recorded; each completed transaction has exactly one completion fact and no
    other has any; and the follow-on evidence is exact. *)
Theorem deployment_end_to_end `{HC : FactCodec, HJ : JsonView, HL : UrlLib, HU : UuidLib, HR : RequestJson} {S : Type}
    `{OperationStoreLaws S} (ledger : S) (ps : list (process * list system_input)) :
  ledger_ok (os_rows ledger) → deployment_ok ps (mkdisk pg_empty trace_db_empty ledger) →
  let '(d, out) := deployment ps (mkdisk pg_empty trace_db_empty ledger) in
  let s := dk_store d in
  (NoDup (starts_of out) ∧ ∀ id, id ∈ starts_of out → attempted s id) ∧
  (NoDup (stops_of out) ∧ ∀ id, id ∈ stops_of out → life_at settled_life s id) ∧
  (NoDup (op_CMSOperationID <$> operations_of out) ∧
   ∀ op, op ∈ operations_of out → taken (dk_ledger d) (op_CMSOperationID op)) ∧
  (∀ id q, has_fact s completed_fact id q ↔ q = None ∧ completed s id) ∧ facts_distinct s completed_fact ∧
  trace_ok (dk_traces d).
Proof.
  intros Hl Hok. destruct (deployment_lawful ps _ Hok) as [[Hs Ho] Ht].
  destruct (deployment ps _) as [d out]. cbn [fst snd] in *.
  destruct (Hs pg_empty eq_refl) as (s & E & Hsim). injection E as <-. destruct (Ho Hl) as [_ _ _ Htk Hn].
  destruct (sim_guarantees _ _ _ Hsim) as (? & ? & ? & ?). destruct (Ht pg_empty (dk_store d) eq_refl eq_refl) as [Hns Hatt].
  split_and!; try done; [intros id Hid; by apply Hatt|naive_solver..].
Qed.

(** ** A process that serves *)
Section ready.
Context `{HC : FactCodec, HJ : JsonView, HL : UrlLib} {S : Type} `{OperationStoreLaws S}.

Definition disconnected (s : pg) : Prop := ∀ identity since r,
  GetV1ChargerRuntime s since identity = inl r → crt_ConnectionState r = "UNKNOWN" ∧ crt_ConnectionGeneration r = 0.
Lemma disconnected_still s s' : still s s' → disconnected s → disconnected s'.
Proof.
  intros [Er Em] Hd identity since r. specialize (Hd identity since). unfold GetV1ChargerRuntime, mapping_of in *.
  rewrite Er, Em. destruct (pg_runtime s !! identity); [|done]. destruct (find_row _ _) as [[chargerID m]|]; [|done].
  intros [= <-]. by apply (Hd _ eq_refl).
Qed.
Lemma framed_reset_facts now gen changed : framed (insert_reset_facts now gen changed).
Proof. induction changed as [|[]]; simpl; frame. all: apply framed_fact. Qed.
Lemma reset_disconnected now gen s s' : run_tx (ResetV1ConnectionRuntime now gen) s = (s', inl ()) → disconnected s'.
Proof.
  intros Hs%run_tx_inl. unfold ResetV1ConnectionRuntime in Hs. rewrite tx_get_bind, tx_modify_bind in Hs.
  apply framed_reset_facts in Hs. eapply disconnected_still; [exact Hs|]. intros identity since r.
  unfold GetV1ChargerRuntime, mapping_of. cbn [pg_runtime pg_mappings set_field]. rewrite map_lookup_imap.
  destruct (pg_runtime s !! identity) as [row|]; [|done]. cbn [mbind option_bind].
  destruct (find_row _ (pg_mappings s)) as [[chargerID m]|] eqn:Em; [|done].
  rewrite decide_True by (by eexists). intros [= <-]. cbn.
  pose proof (reset_row_sequence now row) as (_ & -> & ->). done.
Qed.
Lemma choose_ready p c s s' : chooseV1Store p c s = (s', None) → cfg_V1CMSBearerToken c ≠ "" ∧ disconnected s'.
Proof.
  unfold chooseV1Store. case_decide; [done|]. destruct (NewPostgresStore _ _ _); [done|].
  destruct (run_tx _ s) as [s1 [[]|e]] eqn:E; [|done]. intros [= <-]. split; [done|]. by eapply reset_disconnected.
Qed.
Lemma recover_ready p h s h' eff err : recover p h s = (h', eff, err) → disconnected s →
  ∃ s', h_v1Store h' = Some s' ∧ disconnected s' ∧ h_connections h' = h_connections h ∧
    h_heartbeatIntervalSeconds h' = h_heartbeatIntervalSeconds h ∧
    h_configurationMeterSampleIntervalSeconds h' = h_configurationMeterSampleIntervalSeconds h ∧
    h_configurationReconcileTimeout h' = h_configurationReconcileTimeout h ∧
    h_vendorConfigurationProfile h' = h_vendorConfigurationProfile h.
Proof.
  unfold recover. pose proof (still_recover (pc_now p) (pc_traced p) (pc_generated p) (pc_keys p) (pc_dispatch p 0)
    (pc_dispatch p 1) (pc_dispatch p 2) s) as Hs.
  destruct (RecoverV1Lifecycle _ _ _ _ _ _ _ s ∅) as [[[s' pending] l] e]. cbn [fst] in Hs. intros [= <- <- <-] Hd.
  exists s'. split_and!; try done. by eapply disconnected_still.
Qed.

(** The HAL asks for what the configuration says. *)
Definition applied (c : Config) (h : HAL) : Prop :=
  h_heartbeatIntervalSeconds h = cfg_OCPPHeartbeatIntervalSeconds c ∧
  h_configurationMeterSampleIntervalSeconds h = cfg_OCPPMeterSampleIntervalSeconds c ∧
  h_configurationReconcileTimeout h = cfg_OCPPConfigurationReconcileTimeoutSeconds c * GoTime.Second ∧
  h_vendorConfigurationProfile h = cfg_OCPPVendorConfigurationProfile c.
Lemma configured_applied c h : config_ok c → applied c (configured c h) ∧ h_connections (configured c h) = h_connections h.
Proof.
  intros [_ _ _ (? & ? & ? & _) _ Hp _ _ _ _]. unfold applied, configured, SetConfigurationReconciliation,
    SetHeartbeatIntervalSeconds, GoTime.Second, GoTime.Millisecond, GoTime.Microsecond, GoTime.Nanosecond. cbn.
  rewrite !decide_True by lia. cbn. split; [|done]. split_and!; try done.
  destruct Hp as [->|[-> _]]; vm_compute; reflexivity.
Qed.

(** C37: A process that serves is ready: its configuration is valid and its bearer
    token not empty, its HAL asks chargers for the configured intervals and
    profile, its delivery workers are exactly the enabled ones with their
    receivers, no charger is reported connected before it connects, and no
    operation is left in the middle of a delivery. *)
Theorem startup_ready (p : process) (d d' : disk S) out v :
  start_process p d = (d', out, Some v) →
  let c := sv_config v in
  config_ok c ∧ cfg_V1CMSBearerToken c ≠ "" ∧ applied c (sv_hal v) ∧
  sv_facts v = (if cfg_V1FactDeliveryEnabled c then Some (mkworker (cfg_V1CMSFactsURL c) (cfg_V1CMSFactsBearerToken c)) else None) ∧
  sv_traces v = (if cfg_V1TraceDeliveryEnabled c then Some (mkworker (cfg_V1CMSTraceURL c) (cfg_V1CMSTraceBearerToken c)) else None) ∧
  h_v1Store (sv_hal v) = Some (dk_store d') ∧ disconnected (dk_store d') ∧ h_connections (sv_hal v) = newConnectionTracker ∧
  ∀ id op, os_rows (sv_ledger v) !! id = Some op → op_State op ≠ "DELIVERY_ATTEMPTED".
Proof.
  unfold start_process. destruct (Load _ _) as [c|e] eqn:El; [|done].
  assert (config_ok c) as Hok.
  { unfold Load in El. apply fallible_bind_inl in El as (values & _ & El%parse_inl). by eapply parsed_ok. }
  destruct (chooseV1Store p c (dk_store d)) as [s [err|]] eqn:Ec; [done|]. apply choose_ready in Ec as [Ht Hd].
  destruct (recover p (configured c (New (Some s) (dk_traces d))) s) as [[h eff] err] eqn:Er.
  destruct (recover_ready _ _ _ _ _ _ Er Hd) as (s' & Es & Hd' & Hc & A1 & A2 & A3 & A4).
  destruct (configured_applied c (New (Some s) (dk_traces d)) Hok) as [(B1 & B2 & B3 & B4) B5].
  destruct err; [done|]. unfold fact_worker, trace_worker.
  destruct (match cfg_V1FactDeliveryEnabled c with true => _ | false => _ end) as [facts|] eqn:Ef; [|done].
  destruct (match cfg_V1TraceDeliveryEnabled c with true => _ | false => _ end) as [traces|] eqn:Et; [|done].
  intros [= <- <- <-]. cbn. rewrite Es. unfold applied. rewrite A1, A2, A3, A4, Hc. split_and!; try done.
  - destruct (cfg_V1FactDeliveryEnabled c); [|by injection Ef as <-]. apply fallible_bind_inl in Ef as (_ & _ & [= <-]). done.
  - destruct (cfg_V1TraceDeliveryEnabled c); [|by injection Et as <-]. apply fallible_bind_inl in Et as (_ & _ & [= <-]). done.
  - intros id op. rewrite law_recover, lookup_fmap. intros (o & _ & ->)%fmap_Some. unfold recover_operation.
    by case_decide.
Qed.
End ready.

(** ** A deployment *)
Module DeploymentRuns.
#[local] Existing Instance LifecycleRuns.codec.
#[local] Existing Instance TraceHistoryRuns.view.
#[local] Existing Instance HttpExample.uuids.
#[local] Existing Instance HttpExample.json.
#[local] Existing Instance ConfigRuns.urls.
Definition full : privileges := mkprivileges true true true true.
Definition process_with (environ : list string) (acl : string → option privileges) : process :=
  mkprocess environ ConfigRuns.local (λ _, None) (inl acl) (500 * GoTime.Second, λ id, inl ("reset" +:+ id))
    (500 * GoTime.Second) (500 * GoTime.Second) (inl "recovered") [] (λ _ _, ae_stop (HttpExample.env "recover"))
    (λ _, (500 * GoTime.Second, inl "tick")).
(** Refused settings; a role without DELETE; the session; a second process with
    another token that gets the first one's request again, with the old token
    and with the new one. *)
Definition new_token (environ : list string) : list string := environ ++ ["HAL_V1_CMS_BEARER_TOKEN=other"].
Definition with_token (token : string) (q : http_request) : http_request :=
  mkhttp_request (rq_Method q) (rq_Path q)
    (λ name, if decide (name = "Authorization") then "Bearer " +:+ token else rq_Header q name) (rq_Query q) (rq_Body q).
Definition processes : list (process * list system_input) :=
  [(process_with ("OCPP_LISTEN_PORT=0" :: ConfigRuns.environ) (λ _, Some full), SystemRuns.session);
   (process_with ConfigRuns.environ (λ _, Some (mkprivileges true true true false)), SystemRuns.session);
   (process_with ConfigRuns.environ (λ _, Some full), SystemRuns.session);
   (process_with (new_token ConfigRuns.environ) (λ _, Some full),
    [FromCMS (HttpExample.env "late") HttpExample.start_request;
     FromCMS (HttpExample.env "later") (with_token "other" HttpExample.start_request)])].
Definition blank_disk : disk PgOperations.table := mkdisk pg_empty trace_db_empty HttpExample.ledger.
Abbreviation run := (deployment processes blank_disk).
Lemma deployment_ok_any ps : Forall (λ x, ∀ cfg w, system_ok (S := PgOperations.table) cfg w x.2) ps →
  ∀ d, deployment_ok ps d.
Proof.
  induction 1 as [|x ps Hx _ IH]; intros d; [done|]. split; [|apply IH]. unfold process_ok.
  by destruct (start_process x.1 d) as [[d' out] [v|]].
Qed.
Lemma processes_ok : deployment_ok processes blank_disk.
Proof. apply deployment_ok_any. repeat (apply Forall_cons; split); try apply Forall_nil_2; by repeat split. Qed.
Example deployed_sent : (starts_of run.2, stops_of run.2, op_Kind <$> operations_of run.2) =
  ([HttpExample.uid "4"], [HttpExample.uid "a"], ["RESET"]).
Proof. vm_compute. reflexivity. Qed.
End DeploymentRuns.
#[local] Existing Instance ConfigRuns.urls.

Lemma deployment_end_to_end_witness :
  let r := @deployment LifecycleRuns.codec TraceHistoryRuns.view ConfigRuns.urls _ _ HttpExample.uuids HttpExample.json
             DeploymentRuns.processes DeploymentRuns.blank_disk in
  starts_of r.2 = [HttpExample.uid "4"] ∧ stops_of r.2 = [HttpExample.uid "a"] ∧
  attempted (dk_store r.1) (HttpExample.uid "4") ∧ life_at settled_life (dk_store r.1) (HttpExample.uid "a").
Proof.
  pose proof (deployment_end_to_end (HC := LifecycleRuns.codec) (HJ := TraceHistoryRuns.view) (HL := ConfigRuns.urls)
    (HU := HttpExample.uuids) (HR := HttpExample.json) HttpExample.ledger DeploymentRuns.processes
    SystemRuns.ledger_is_ok DeploymentRuns.processes_ok) as Hr.
  pose proof DeploymentRuns.deployed_sent as Hs. cbv zeta. unfold DeploymentRuns.blank_disk in *.
  destruct (deployment _ _) as [d out]. cbn [fst snd] in *.
  injection Hs as Hst Hsp _. split; [exact Hst|]. split; [exact Hsp|].
  destruct Hr as ([_ Ha] & [_ Hl] & _). split; [apply Ha; rewrite Hst; left|apply Hl; rewrite Hsp; left].
Defined.

Lemma startup_ready_witness :
  match @start_process LifecycleRuns.codec TraceHistoryRuns.view ConfigRuns.urls _ _
          (DeploymentRuns.process_with ConfigRuns.environ (λ _, Some DeploymentRuns.full)) DeploymentRuns.blank_disk with
  | (d', _, Some v) => config_ok (sv_config v) ∧ disconnected (dk_store d') ∧ h_heartbeatIntervalSeconds (sv_hal v) = 60
  | _ => False
  end.
Proof.
  match goal with |- match ?st with _ => _ end =>
    assert ((λ v, cfg_OCPPHeartbeatIntervalSeconds (sv_config v)) <$> st.2 = Some 60) as Hb by (vm_compute; reflexivity) end.
  destruct (start_process _ _) as [[d' out] [v|]] eqn:E; [|discriminate Hb].
  pose proof (startup_ready (HC := LifecycleRuns.codec) (HJ := TraceHistoryRuns.view) (HL := ConfigRuns.urls) _ _ _ _ _ E)
    as (Hc & _ & (Hh & _) & _ & _ & _ & Hd & _).
  split; [exact Hc|]. split; [exact Hd|]. rewrite Hh. by injection Hb.
Defined.
