(* ===== verification/LegacyStore.v ===== *)
(** * The legacy transaction store

    The transactions of the interface TransactionStore (internal/store/store.go)
    and its two implementations: memory.go and limit_stop_memory.go, and
    postgres.go and limit_stop_postgres.go over the table of migrations 001 to
    004.  A method of the memory store runs under its mutex; a method of the
    PostgreSQL store is its statements, one after the other, [others] being what
    happens between two of them.  The methods hand out copies of a transaction,
    so a transaction is a value.  What both stores promise is a machine on rows
    without row numbers and with times to the microsecond. *)
From Stdlib Require Import String Ascii SpecFloat.
From stdpp Require Import base numbers decidable option list sorting strings gmap pretty.
From S2P Require Import Prelude GoText GoClock V1Types V1Memory PgSchema.
Open Scope Z_scope.

(** ** Data *)
Record Transaction : Type := mkTransaction {
  lt_ID : Z;
  lt_UUIDDB : string;
  lt_ChargerID : string;
  lt_ConnectorID : Z;
  lt_MeterStart : float64;
  lt_MeterStop : option float64;
  lt_TotalConsumption : option float64;
  lt_StartTime : Time;
  lt_StopTime : option Time;
  lt_IDTag : string;
  lt_TransactionID : Z;
  lt_IsSingleSession : bool;
  lt_MaxKWh : option float64;
  lt_LimitStopRequested : bool
}.
#[global] Instance eta_Transaction : Eta Transaction := λ t,
  mkTransaction (lt_ID t) (lt_UUIDDB t) (lt_ChargerID t) (lt_ConnectorID t) (lt_MeterStart t) (lt_MeterStop t)
    (lt_TotalConsumption t) (lt_StartTime t) (lt_StopTime t) (lt_IDTag t) (lt_TransactionID t) (lt_IsSingleSession t)
    (lt_MaxKWh t) (lt_LimitStopRequested t).
Record CreateTransactionInput : Type := mkCreateTransactionInput {
  ct_ChargerID : string;
  ct_ConnectorID : Z;
  ct_MeterStart : float64;
  ct_IDTag : string;
  ct_IsSingleSession : bool
}.
(** UpdateLiveMeterInput and StopTransactionInput; ForceCloseTransactionInput
    adds a reason nothing reads. *)
Record meter_input : Type := mkmeter_input { mt_ChargerID : string; mt_TransactionID : Z; mt_MeterStop : float64 }.

Definition maxTransactionID : Z := 2147483647.
(** [RandomTransactionID] of a draw of [Int63n]. *)
Definition RandomTransactionID (draw : Z) : Z := draw mod maxTransactionID + 1.
Definition DeltaWh (previous current : float64) : float64 :=
  let delta := Float64.sub current previous in
  if Float64.geb delta Float64.zero then delta
  else Float64.add (Float64.add current (Float64.sub (Float64.of_int 4294967295) previous)) (Float64.of_int 1).
(** What a meter value makes of a transaction. *)
Definition metered (meter : float64) (t : Transaction) : Transaction :=
  t <| lt_MeterStop := Some meter |>
    <| lt_TotalConsumption := Some (Float64.div (DeltaWh (lt_MeterStart t) meter) (Float64.of_int 1000)) |>.
Definition new_legacy (id tid : Z) (uuiddb : string) (start : Time) (input : CreateTransactionInput) : Transaction :=
  mkTransaction id uuiddb (ct_ChargerID input) (ct_ConnectorID input) (ct_MeterStart input) None None start None
    (ct_IDTag input) tid (ct_IsSingleSession input) None false.
(** INTEGER columns; the driver refuses to encode anything wider. *)
Definition int4 (z : Z) : Prop := - 2 ^ 31 ≤ z < 2 ^ 31.
#[global] Instance int4_dec z : Decision (int4 z).
Proof. unfold int4. apply _. Defined.
Definition not_int4 : go_error := ErrOther "unable to encode into int4".
Definition exhausted : go_error := ErrOther "could not allocate unique transaction id after 100 attempts".
(** What one attempt draws: a transaction number and a UUID. *)
Definition draws : Type := nat → Z * result string.

(** The transaction a call names, if it is the charger's. *)
Definition owned (rows : gmap Z Transaction) (chargerID : string) (tid : Z) : option Transaction :=
  tx ← rows !! tid; if decide (lt_ChargerID tx = chargerID) then Some tx else None.
Definition still_open (chargerID : string) (tx : Transaction) : Prop :=
  lt_ChargerID tx = chargerID ∧ lt_StopTime tx = None.
#[global] Instance still_open_dec chargerID tx : Decision (still_open chargerID tx).
Proof. unfold still_open. apply _. Defined.
(** The columns a SELECT without the limit reads. *)
Definition without_limit (tx : Transaction) : Transaction :=
  tx <| lt_MaxKWh := None |> <| lt_LimitStopRequested := false |>.

(** ** In memory *)
Module LegacyMem.
Record store : Type := mkstore { nextRowID : Z; transactions : gmap Z Transaction }.
#[global] Instance eta_store : Eta store := λ s, mkstore (nextRowID s) (transactions s).
Definition NewMemoryStore : store := mkstore 1 ∅.

Fixpoint create_attempts (fuel n : nat) (now : nat → Time) (draw : draws) (input : CreateTransactionInput) (s : store) :
    store * result Transaction :=
  match fuel with
  | O => (s, inr exhausted)
  | S fuel' =>
    let tid := RandomTransactionID (draw n).1 in
    match transactions s !! tid with
    | Some _ => create_attempts fuel' (n + 1) now draw input s
    | None =>
      match NewSecureUUIDString (draw n).2 with
      | inr err => (s, inr err)
      | inl uuiddb =>
        let tx := new_legacy (nextRowID s) tid uuiddb (now n) input in
        (s <| nextRowID ::= λ n, n + 1 |> <| transactions ::= <[tid := tx]> |>, inl tx)
      end
    end
  end.
Definition CreateTransaction : (nat → Time) → draws → CreateTransactionInput → store → store * result Transaction :=
  create_attempts 100 0.
Definition GetByTransactionID (chargerID : string) (tid : Z) (s : store) : result Transaction :=
  match owned (transactions s) chargerID tid with Some tx => inl tx | None => inr ErrTransactionNotFound end.
Definition GetByTransactionIDAndIDTag (tid : Z) (idTag : string) (s : store) : result Transaction :=
  match transactions s !! tid with
  | Some tx => if decide (lt_IDTag tx = idTag) then inl tx else inr ErrTransactionNotFound
  | None => inr ErrTransactionNotFound
  end.
(** The transaction behind the pointer of [tid], changed in place. *)
Definition put (tid : Z) (tx : Transaction) (s : store) : store := s <| transactions ::= <[tid := tx]> |>.
Definition UpdateLiveMeter (input : meter_input) (s : store) : store * result Transaction :=
  match owned (transactions s) (mt_ChargerID input) (mt_TransactionID input) with
  | None => (s, inr ErrTransactionNotFound)
  | Some tx => let tx := metered (mt_MeterStop input) tx in (put (mt_TransactionID input) tx s, inl tx)
  end.
Definition StopTransaction (now : Time) (input : meter_input) (s : store) : store * result Transaction :=
  match owned (transactions s) (mt_ChargerID input) (mt_TransactionID input) with
  | None => (s, inr ErrTransactionNotFound)
  | Some tx =>
    match lt_StopTime tx with
    | Some _ => (s, inl tx)
    | None => let tx := metered (mt_MeterStop input) tx <| lt_StopTime := Some now |> in (put (mt_TransactionID input) tx s, inl tx)
    end
  end.
Definition ForceCloseTransaction := StopTransaction.
(** [keys] is the order in which the map is ranged over. *)
Definition ListOpenTransactionsByCharger (keys : list Z) (chargerID : string) (s : store) : list Transaction :=
  filter (still_open chargerID) (omap (λ k, transactions s !! k) keys).
Definition UpdateTransactionMaxKWh (tid : Z) (maxKWh : float64) (s : store) : store :=
  match transactions s !! tid with
  | Some tx => put tid (tx <| lt_MaxKWh := Some maxKWh |>) s
  | None => s
  end.
Definition CheckAndMarkLimitStop (chargerID : string) (tid : Z) (s : store) : store * bool :=
  match owned (transactions s) chargerID tid with
  | None => (s, false)
  | Some tx =>
    if decide (is_Some (lt_StopTime tx)) then (s, false)
    else if lt_LimitStopRequested tx then (s, false)
    else
      match lt_MaxKWh tx, lt_TotalConsumption tx with
      | Some limit, Some total =>
        if SFltb total limit then (s, false) else (put tid (tx <| lt_LimitStopRequested := true |>) s, true)
      | _, _ => (s, false)
      end
  end.
Definition ReleaseLimitStopRequest (chargerID : string) (tid : Z) (s : store) : store :=
  match owned (transactions s) chargerID tid with
  | Some tx => if decide (lt_StopTime tx = None) then put tid (tx <| lt_LimitStopRequested := false |>) s else s
  | None => s
  end.
End LegacyMem.

(** ** In PostgreSQL *)
Module LegacyPg.
(** The table, by its unique transaction_id, and the sequence of its id. *)
Record store : Type := mkstore { sequence : Z; table : gmap Z Transaction }.
#[global] Instance eta_store : Eta store := λ s, mkstore (sequence s) (table s).
Definition empty : store := mkstore 1 ∅.

(** The INSERT: the driver refuses to encode a connector that is no int4; an id
    of the sequence is spent even when the row is refused. *)
Definition insert (tx : Transaction) (s : store) : store * result Z :=
  if decide (¬ int4 (lt_ConnectorID tx)) then (s, inr not_int4)
  else
    let id := sequence s in
    let s := s <| sequence ::= λ n, n + 1 |> in
    match table s !! lt_TransactionID tx with
    | Some _ => (s, inr unique_violation)
    | None =>
      (s <| table ::= <[lt_TransactionID tx := tx <| lt_ID := id |> <| lt_StartTime ::= timestamptz |>]> |>, inl id)
    end.
Fixpoint create_attempts (fuel n : nat) (now : nat → Time) (draw : draws) (input : CreateTransactionInput) (s : store) :
    store * result Transaction :=
  match fuel with
  | O => (s, inr exhausted)
  | S fuel' =>
    let tid := RandomTransactionID (draw n).1 in
    match NewSecureUUIDString (draw n).2 with
    | inr err => (s, inr err)
    | inl uuiddb =>
      let tx := new_legacy 0 tid uuiddb (now n) input in
      match insert tx s with
      | (s', inl id) => (s', inl (tx <| lt_ID := id |>))
      | (s', inr err) => if isDuplicate err then create_attempts fuel' (n + 1) now draw input s' else (s', inr err)
      end
    end
  end.
Definition CreateTransaction : (nat → Time) → draws → CreateTransactionInput → store → store * result Transaction :=
  create_attempts 100 0.
Definition GetByTransactionID (chargerID : string) (tid : Z) (s : store) : result Transaction :=
  match owned (table s) chargerID tid with Some tx => inl (without_limit tx) | None => inr ErrTransactionNotFound end.
Definition GetByTransactionIDAndIDTag (tid : Z) (idTag : string) (s : store) : result Transaction :=
  match table s !! tid with
  | Some tx => if decide (lt_IDTag tx = idTag) then inl tx else inr ErrTransactionNotFound
  | None => inr ErrTransactionNotFound
  end.
(** UPDATE transactions SET ... WHERE charger_id=.. AND transaction_id=.. AND P:
    the row changed, if any. *)
Definition update (chargerID : string) (tid : Z) (P : Transaction → bool) (f : Transaction → Transaction) (s : store) :
    store * bool :=
  match owned (table s) chargerID tid with
  | Some tx => if P tx then (s <| table ::= <[tid := f tx]> |>, true) else (s, false)
  | None => (s, false)
  end.
Definition open (tx : Transaction) : bool := bool_decide (lt_StopTime tx = None).
Definition set_meter (meter : float64) (total : option float64) (tx : Transaction) : Transaction :=
  tx <| lt_MeterStop := Some meter |> <| lt_TotalConsumption := total |>.
Definition UpdateLiveMeter (input : meter_input) (s : store) : store * result Transaction :=
  match GetByTransactionID (mt_ChargerID input) (mt_TransactionID input) s with
  | inr err => (s, inr err)
  | inl tx =>
    let tx := metered (mt_MeterStop input) tx in
    let '(s', _) := update (mt_ChargerID input) (mt_TransactionID input) (λ _, true)
                      (set_meter (mt_MeterStop input) (lt_TotalConsumption tx)) s in
    (s', inl tx)
  end.
(** [others] is what other calls do between the SELECT and the UPDATE. *)
Definition close_row (now : Time) (meter : float64) (total : option float64) (tx : Transaction) : Transaction :=
  set_meter meter total tx <| lt_StopTime := Some (timestamptz now) |>.
Definition StopTransaction (others : store → store) (now : Time) (input : meter_input) (s : store) :
    store * result Transaction :=
  let chargerID := mt_ChargerID input in
  let tid := mt_TransactionID input in
  match GetByTransactionID chargerID tid s with
  | inr err => (s, inr err)
  | inl tx =>
    match lt_StopTime tx with
    | Some _ => (s, inl tx)
    | None =>
      let tx := metered (mt_MeterStop input) tx in
      match update chargerID tid open (close_row now (mt_MeterStop input) (lt_TotalConsumption tx)) (others s) with
      | (s', true) => (s', inl (tx <| lt_StopTime := Some now |>))
      | (s', false) => (s', GetByTransactionID chargerID tid s')
      end
    end
  end.
Definition ForceCloseTransaction (others : store → store) (now : Time) (input : meter_input) (s : store) :
    store * result Transaction :=
  match GetByTransactionID (mt_ChargerID input) (mt_TransactionID input) s with
  | inr err => (s, inr err)
  | inl tx =>
    let tx := metered (mt_MeterStop input) tx in
    let '(s', _) := update (mt_ChargerID input) (mt_TransactionID input) open
                      (close_row now (mt_MeterStop input) (lt_TotalConsumption tx)) (others s) in
    (s', inl (tx <| lt_StopTime := Some now |>))
  end.
Definition later_start (a b : Transaction) : Prop := lt_StartTime b ≤ lt_StartTime a.
#[global] Instance later_start_dec a b : Decision (later_start a b).
Proof. unfold later_start. apply _. Defined.
Definition ListOpenTransactionsByCharger (chargerID : string) (s : store) : list Transaction :=
  without_limit <$> merge_sort later_start
    (filter (still_open chargerID) (map_to_list (table s)).*2).
Definition UpdateTransactionMaxKWh (tid : Z) (maxKWh : float64) (s : store) : store :=
  match table s !! tid with
  | Some tx => s <| table ::= <[tid := tx <| lt_MaxKWh := Some maxKWh |>]> |>
  | None => s
  end.
(** PostgreSQL's double precision: a NaN is above every number. *)
Definition pg_ge (a b : float64) : bool :=
  match a, b with
  | S754_nan, _ => true
  | _, S754_nan => false
  | _, _ => Float64.geb a b
  end.
Definition at_limit (tx : Transaction) : bool :=
  match lt_MaxKWh tx, lt_TotalConsumption tx with Some limit, Some total => pg_ge total limit | _, _ => false end.
Definition CheckAndMarkLimitStop (chargerID : string) (tid : Z) (s : store) : store * bool :=
  update chargerID tid (λ tx, open tx && negb (lt_LimitStopRequested tx) && at_limit tx)
    (λ tx, tx <| lt_LimitStopRequested := true |>) s.
Definition ReleaseLimitStopRequest (chargerID : string) (tid : Z) (s : store) : store :=
  (update chargerID tid open (λ tx, tx <| lt_LimitStopRequested := false |>) s).1.
End LegacyPg.

