(* ===== verification/LegacySpec.v ===== *)
(** * What the two legacy stores promise

    The contract of TransactionStore (internal/store/store.go) as a machine on
    rows, the interface both stores implement, the proofs that they do, and what
    follows for any history of calls: the stores answer alike, a stop time never
    changes, a limit stop is claimed once between two releases. *)
From Stdlib Require Import String Ascii SpecFloat.
From stdpp Require Import base numbers decidable option list sorting strings gmap.
From S2P Require Import Prelude GoText GoClock V1Types V1Memory PgSchema LegacyStore.
Open Scope Z_scope.

(** ** The machine on rows *)
(** A row without its number, with times as timestamptz keeps them. *)
Definition canonical (tx : Transaction) : Transaction :=
  tx <| lt_ID := 0 |> <| lt_StartTime ::= timestamptz |> <| lt_StopTime ::= fmap timestamptz |>.
Abbreviation legacy_rows := (gmap Z Transaction).

Inductive legacy_call : Type :=
  | LCreate (now : nat → Time) (draw : draws) (input : CreateTransactionInput)
  | LMeter (input : meter_input)
  | LStop (now : Time) (input : meter_input)
  | LForce (now : Time) (input : meter_input)
  | LGet (chargerID : string) (tid : Z)
  | LGetByTag (tid : Z) (idTag : string)
  | LListOpen (chargerID : string)
  | LMaxKWh (tid : Z) (maxKWh : float64)
  | LCheckLimit (chargerID : string) (tid : Z)
  | LRelease (chargerID : string) (tid : Z).
Inductive legacy_answer : Type :=
  | ATx (r : result Transaction)
  | AList (l : list Transaction)
  | AClaim (claimed : bool)
  | ADone.

Fixpoint spec_create (fuel n : nat) (now : nat → Time) (draw : draws) (input : CreateTransactionInput) (m : legacy_rows) :
    legacy_rows * result Transaction :=
  match fuel with
  | O => (m, inr exhausted)
  | S fuel' =>
    let tid := RandomTransactionID (draw n).1 in
    match m !! tid, NewSecureUUIDString (draw n).2 with
    | Some _, _ => spec_create fuel' (n + 1) now draw input m
    | None, inr err => (m, inr err)
    | None, inl uuiddb =>
      let tx := canonical (new_legacy 0 tid uuiddb (now n) input) in (<[tid := tx]> m, inl tx)
    end
  end.
(** A call that rewrites the charger's transaction. *)
Definition on_owned {A} (m : legacy_rows) (chargerID : string) (tid : Z) (absent : A) (k : Transaction → A) : A :=
  match owned m chargerID tid with Some tx => k tx | None => absent end.
Definition ended (now : Time) (meter : float64) (tx : Transaction) : Transaction :=
  metered meter tx <| lt_StopTime := Some (timestamptz now) |>.
Definition spec_stop (now : Time) (input : meter_input) (m : legacy_rows) : legacy_rows * result Transaction :=
  on_owned m (mt_ChargerID input) (mt_TransactionID input) (m, inr ErrTransactionNotFound) (λ tx,
    if decide (lt_StopTime tx = None) then
      let tx := ended now (mt_MeterStop input) tx in (<[mt_TransactionID input := tx]> m, inl tx)
    else (m, inl tx)).
(** Not [total < limit]. *)
Definition reached (tx : Transaction) : bool :=
  match lt_MaxKWh tx, lt_TotalConsumption tx with Some limit, Some total => negb (SFltb total limit) | _, _ => false end.
Definition claimable (tx : Transaction) : bool :=
  bool_decide (lt_StopTime tx = None) && negb (lt_LimitStopRequested tx) && reached tx.
Definition spec_step (c : legacy_call) (m : legacy_rows) : legacy_rows * legacy_answer :=
  match c with
  | LCreate now draw input => let '(m', r) := spec_create 100 0 now draw input m in (m', ATx r)
  | LMeter input =>
    on_owned m (mt_ChargerID input) (mt_TransactionID input) (m, ATx (inr ErrTransactionNotFound)) (λ tx,
      let tx := metered (mt_MeterStop input) tx in
      (<[mt_TransactionID input := tx]> m, ATx (inl (without_limit tx))))
  | LStop now input | LForce now input =>
    let '(m', r) := spec_stop now input m in (m', ATx (sum_map without_limit id r))
  | LGet chargerID tid =>
    (m, ATx (on_owned m chargerID tid (inr ErrTransactionNotFound) (λ tx, inl (without_limit tx))))
  | LGetByTag tid idTag =>
    (m, ATx match m !! tid with
            | Some tx => if decide (lt_IDTag tx = idTag) then inl tx else inr ErrTransactionNotFound
            | None => inr ErrTransactionNotFound
            end)
  | LListOpen chargerID => (m, AList (without_limit <$> filter (still_open chargerID) (map_to_list m).*2))
  | LMaxKWh tid maxKWh =>
    (match m !! tid with Some tx => <[tid := tx <| lt_MaxKWh := Some maxKWh |>]> m | None => m end, ADone)
  | LCheckLimit chargerID tid =>
    on_owned m chargerID tid (m, AClaim false) (λ tx,
      if claimable tx then (<[tid := tx <| lt_LimitStopRequested := true |>]> m, AClaim true) else (m, AClaim false))
  | LRelease chargerID tid =>
    (on_owned m chargerID tid m (λ tx,
       if decide (lt_StopTime tx = None) then <[tid := tx <| lt_LimitStopRequested := false |>]> m else m), ADone)
  end.

(** Answers up to the order of a list. *)
Definition same_answer (a b : legacy_answer) : Prop :=
  match a, b with
  | AList l, AList k => l ≡ₚ k
  | _, _ => a = b
  end.
#[global] Instance same_answer_equiv : Equiv legacy_answer := same_answer.
#[global] Instance same_answer_equivalence : Equivalence (≡@{legacy_answer}).
Proof.
  split.
  - intros []; by unfold equiv, same_answer_equiv, same_answer.
  - intros [] []; unfold equiv, same_answer_equiv, same_answer; done.
  - intros [] [] []; unfold equiv, same_answer_equiv, same_answer; try congruence. by intros ->.
Qed.

(** A forced close of a transaction that has ended changes no row.  The memory
    store answers the transaction as it is; PostgreSQL answers what it would have
    written: this call's meter value, consumption and instant. *)
Definition forced_answer (c : legacy_call) (m : legacy_rows) : option legacy_answer :=
  match c with
  | LForce now input => on_owned m (mt_ChargerID input) (mt_TransactionID input) None (λ tx,
      if decide (lt_StopTime tx = None) then None
      else Some (ATx (inl (without_limit (ended now (mt_MeterStop input) tx)))))
  | _ => None
  end.
Definition answer_of (forced : bool) (c : legacy_call) (m : legacy_rows) : legacy_answer :=
  if forced then default (spec_step c m).2 (forced_answer c m) else (spec_step c m).2.

(** Where the two stores are asked the same thing: the connector fits an int4,
    the generator does not fail and a limit is a number. *)
Definition is_number (x : float64) : Prop := x ≠ S754_nan.
#[global] Instance is_number_dec x : Decision (is_number x).
Proof. destruct x; (left; discriminate) || (right; intros H; by apply H). Defined.
Definition well_asked (c : legacy_call) (m : legacy_rows) : Prop :=
  match c with
  | LCreate _ draw input => int4 (ct_ConnectorID input) ∧
      ∀ n, ∃ uuiddb, NewSecureUUIDString (draw n).2 = inl uuiddb
  | LMaxKWh _ maxKWh => is_number maxKWh
  | _ => True
  end.
Definition limits_are_numbers (m : legacy_rows) : Prop :=
  map_Forall (λ _ tx, from_option is_number True (lt_MaxKWh tx)) m.

(** ** The interface *)
Class LegacyStore (S : Type) := {
  ls_rows : S → legacy_rows;
  ls_forced : bool;         (* whether a forced close of an ended transaction answers [forced_answer] *)
  ls_step : legacy_call → S → S * legacy_answer
}.
(** The answer a caller can compare: rows canonical, the limit columns only
    where every store reads them. *)
Definition answer_view (c : legacy_call) (a : legacy_answer) : legacy_answer :=
  match c, a with
  | (LMeter _ | LStop _ _ | LForce _ _ | LGet _ _), ATx r => ATx (sum_map (without_limit ∘ canonical) id r)
  | _, ATx r => ATx (sum_map canonical id r)
  | _, AList l => AList ((without_limit ∘ canonical) <$> l)
  | _, _ => a
  end.
Class LegacyStoreLaws (S : Type) `{LegacyStore S} : Prop := {
  ls_refines c (s : S) : well_asked c (ls_rows s) → limits_are_numbers (ls_rows s) →
    ls_rows (ls_step c s).1 = (spec_step c (ls_rows s)).1 ∧
    answer_view c (ls_step c s).2 ≡ answer_of ls_forced c (ls_rows s)
}.

(** ** Shared facts *)
Lemma owned_canonical m chargerID tid : owned (canonical <$> m) chargerID tid = canonical <$> owned m chargerID tid.
Proof. unfold owned. rewrite lookup_fmap. destruct (m !! tid) as [tx|]; [|done]. cbn. by case_decide. Qed.
Lemma owned_lookup m chargerID tid tx : owned m chargerID tid = Some tx → m !! tid = Some tx ∧ lt_ChargerID tx = chargerID.
Proof. unfold owned. destruct (m !! tid); cbn; [|done]. case_decide; [|done]. by intros [= <-]. Qed.
Lemma canonical_stop tx : lt_StopTime (canonical tx) = None ↔ lt_StopTime tx = None.
Proof. cbn. by destruct (lt_StopTime tx). Qed.
Lemma if_open {A} tx (x y : A) :
  (if decide (lt_StopTime (canonical tx) = None) then x else y) = if decide (lt_StopTime tx = None) then x else y.
Proof. apply decide_ext, canonical_stop. Qed.
(** What the database does to the times of a row leaves its canonical row. *)
Lemma canonical_stored tx : canonical (tx <| lt_StartTime ::= timestamptz |>) = canonical tx.
Proof.
  destruct tx. unfold canonical.
  refine (f_equal (λ t, mkTransaction _ _ _ _ _ _ _ t _ _ _ _ _ _) (timestamptz_idem _)).
Qed.
Lemma canonical_metered meter tx : canonical (metered meter tx) = metered meter (canonical tx).
Proof. done. Qed.
Lemma canonical_ended now meter tx :
  canonical (metered meter tx <| lt_StopTime := Some now |>) = ended now meter (canonical tx).
Proof. done. Qed.
Lemma open_rows chargerID (l : list Transaction) :
  (without_limit ∘ canonical) <$> filter (still_open chargerID) l =
  without_limit <$> filter (still_open chargerID) (canonical <$> l).
Proof.
  induction l as [|tx l IH]; [done|]. rewrite fmap_cons, !filter_cons.
  destruct (decide (still_open chargerID tx)) as [H|H], (decide (still_open chargerID (canonical tx))) as [H'|H'];
    rewrite ?fmap_cons, ?IH; try done; exfalso; unfold still_open in *; rewrite canonical_stop in H'; tauto.
Qed.
Lemma canonical_values (m : legacy_rows) : (map_to_list (canonical <$> m)).*2 ≡ₚ canonical <$> (map_to_list m).*2.
Proof. rewrite map_to_list_fmap, <- !list_fmap_compose. by apply Permutation_refl'. Qed.


(** ** The memory store *)
Section Memory.
(** The order in which Go ranges over the map. *)
Context (range : gmap Z Transaction → list Z).
Context (range_all : ∀ m, range m ≡ₚ (map_to_list m).*1).

Definition mem_step (c : legacy_call) (s : LegacyMem.store) : LegacyMem.store * legacy_answer :=
  match c with
  | LCreate now draw input => let '(s', r) := LegacyMem.CreateTransaction now draw input s in (s', ATx r)
  | LMeter input => let '(s', r) := LegacyMem.UpdateLiveMeter input s in (s', ATx r)
  | LStop now input => let '(s', r) := LegacyMem.StopTransaction now input s in (s', ATx r)
  | LForce now input => let '(s', r) := LegacyMem.ForceCloseTransaction now input s in (s', ATx r)
  | LGet chargerID tid => (s, ATx (LegacyMem.GetByTransactionID chargerID tid s))
  | LGetByTag tid idTag => (s, ATx (LegacyMem.GetByTransactionIDAndIDTag tid idTag s))
  | LListOpen chargerID =>
    (s, AList (LegacyMem.ListOpenTransactionsByCharger (range (LegacyMem.transactions s)) chargerID s))
  | LMaxKWh tid maxKWh => (LegacyMem.UpdateTransactionMaxKWh tid maxKWh s, ADone)
  | LCheckLimit chargerID tid =>
    let '(s', claimed) := LegacyMem.CheckAndMarkLimitStop chargerID tid s in (s', AClaim claimed)
  | LRelease chargerID tid => (LegacyMem.ReleaseLimitStopRequest chargerID tid s, ADone)
  end.
#[local] Instance mem_store : LegacyStore LegacyMem.store :=
  {| ls_rows s := canonical <$> LegacyMem.transactions s; ls_forced := false; ls_step := mem_step |}.


End Memory.

(** ** The PostgreSQL store *)
(** Where the limit is a number, double precision's [>=] is the negation of
    Go's [<]. *)
Lemma SFcompare_flip x y : is_number x → is_number y → SFcompare x y = CompOpp <$> SFcompare y x.
Proof.
  unfold is_number. intros Hx Hy.
  destruct x as [[]|[]| |[] p e], y as [[]|[]| |[] q f]; try done; unfold SFcompare; cbn [fmap option_fmap option_map CompOpp];
    rewrite (Z.compare_antisym f e); destruct (Z.compare f e); cbn [CompOpp]; try done;
    rewrite (Pcompare_antisym q p); by destruct (Pos.compare_cont Eq q p).
Qed.
Lemma pg_ge_total total limit : is_number limit → LegacyPg.pg_ge total limit = negb (SFltb total limit).
Proof.
  intros Hl. destruct (decide (is_number total)) as [Ht|Ht].
  - assert (H : LegacyPg.pg_ge total limit = Float64.geb total limit) by (unfold is_number in *; by destruct total, limit).
    rewrite H. unfold Float64.geb, SFltb, SFleb. rewrite (SFcompare_flip limit total) by done.
    assert (Hs : SFcompare total limit ≠ None) by (unfold is_number in *; destruct total as [[]|[]| |[] ? ?], limit as [[]|[]| |[] ? ?]; cbn; try done; repeat case_match; done).
    by destruct (SFcompare total limit) as [[]|].
  - unfold is_number in Ht. destruct total; try (exfalso; apply Ht; discriminate). by destruct limit as [| | |].
Qed.
Section Postgres.
#[local] Notation alone := (λ s : LegacyPg.store, s).

(** One call after the other: nothing happens between two statements. *)
Definition pg_step (c : legacy_call) (s : LegacyPg.store) : LegacyPg.store * legacy_answer :=
  match c with
  | LCreate now draw input => let '(s', r) := LegacyPg.CreateTransaction now draw input s in (s', ATx r)
  | LMeter input => let '(s', r) := LegacyPg.UpdateLiveMeter input s in (s', ATx r)
  | LStop now input => let '(s', r) := LegacyPg.StopTransaction alone now input s in (s', ATx r)
  | LForce now input => let '(s', r) := LegacyPg.ForceCloseTransaction alone now input s in (s', ATx r)
  | LGet chargerID tid => (s, ATx (LegacyPg.GetByTransactionID chargerID tid s))
  | LGetByTag tid idTag => (s, ATx (LegacyPg.GetByTransactionIDAndIDTag tid idTag s))
  | LListOpen chargerID => (s, AList (LegacyPg.ListOpenTransactionsByCharger chargerID s))
  | LMaxKWh tid maxKWh => (LegacyPg.UpdateTransactionMaxKWh tid maxKWh s, ADone)
  | LCheckLimit chargerID tid =>
    let '(s', claimed) := LegacyPg.CheckAndMarkLimitStop chargerID tid s in (s', AClaim claimed)
  | LRelease chargerID tid => (LegacyPg.ReleaseLimitStopRequest chargerID tid s, ADone)
  end.
#[local] Instance pg_store : LegacyStore LegacyPg.store :=
  {| ls_rows s := canonical <$> LegacyPg.table s; ls_forced := true; ls_step := pg_step |}.

Lemma pg_update chargerID tid P f s tx :
  owned (LegacyPg.table s) chargerID tid = Some tx →
  LegacyPg.update chargerID tid P f s =
    (if P tx then s <| LegacyPg.table ::= <[tid := f tx]> |> else s, P tx).
Proof. intros H. unfold LegacyPg.update. rewrite H. by destruct (P tx). Qed.
Lemma pg_put tid tx s :
  canonical <$> LegacyPg.table (s <| LegacyPg.table ::= <[tid := tx]> |>) =
  <[tid := canonical tx]> (canonical <$> LegacyPg.table s).
Proof. apply fmap_insert. Qed.

Lemma pg_create fuel n now draw input s :
  well_asked (LCreate now draw input) (canonical <$> LegacyPg.table s) →
  let '(s', r) := LegacyPg.create_attempts fuel n now draw input s in
  (canonical <$> LegacyPg.table s', sum_map canonical id r) =
  spec_create fuel n now draw input (canonical <$> LegacyPg.table s).
Proof.
  intros [Hc Hgen]. revert n s. induction fuel as [|fuel IH]; intros n s; [done|].
  cbn [LegacyPg.create_attempts spec_create]. cbv zeta. rewrite lookup_fmap.
  destruct (Hgen n) as [u ->]. unfold LegacyPg.insert. cbv zeta.
  rewrite decide_False by (cbn; tauto).
  change (lt_TransactionID (new_legacy 0 (RandomTransactionID (draw n).1) u (now n) input))
    with (RandomTransactionID (draw n).1).
  set (s1 := s <| LegacyPg.sequence ::= λ n, n + 1 |>). assert (Hs : LegacyPg.table s1 = LegacyPg.table s) by done.
  rewrite <- Hs. destruct (LegacyPg.table s1 !! _) eqn:E; cbn [fmap option_fmap option_map]; [apply IH|].
  rewrite pg_put. by rewrite (canonical_stored ((new_legacy 0 _ u (now n) input) <| lt_ID := LegacyPg.sequence s |>)).
Qed.
Lemma pg_numbered chargerID tid tx s :
  limits_are_numbers (canonical <$> LegacyPg.table s) → owned (LegacyPg.table s) chargerID tid = Some tx →
  LegacyPg.at_limit tx = reached tx.
Proof.
  intros Hl [Htx _]%owned_lookup. unfold LegacyPg.at_limit, reached.
  assert (Hn : from_option is_number True (lt_MaxKWh tx)).
  { apply (Hl tid (canonical tx)). by rewrite lookup_fmap, Htx. }
  destruct (lt_MaxKWh tx) as [limit|]; [|done]. destruct (lt_TotalConsumption tx) as [total|]; [|done].
  cbn in Hn. by apply pg_ge_total.
Qed.
Lemma pg_stop now input s :
  let '(s', r) := LegacyPg.StopTransaction alone now input s in
  (canonical <$> LegacyPg.table s', sum_map (without_limit ∘ canonical) id r) =
  prod_map id (sum_map without_limit id) (spec_stop now input (canonical <$> LegacyPg.table s)).
Proof.
  unfold LegacyPg.StopTransaction, LegacyPg.GetByTransactionID, spec_stop, on_owned. rewrite owned_canonical.
  destruct (owned _ _ _) as [tx|] eqn:E; cbn [fmap option_fmap option_map]; [|done]. rewrite if_open.
  change (lt_StopTime (without_limit tx)) with (lt_StopTime tx).
  destruct (lt_StopTime tx) as [t|] eqn:Et; [by destruct tx; cbn in *; subst|].
  rewrite decide_True by done. rewrite (pg_update _ _ _ _ _ _ E).
  unfold LegacyPg.open. rewrite bool_decide_true by done. rewrite pg_put.
  cbn. unfold ended, canonical, LegacyPg.close_row. cbv [set_field]. cbn. by rewrite timestamptz_idem.
Qed.
Lemma pg_force now input s :
  let '(s', r) := LegacyPg.ForceCloseTransaction alone now input s in
  let m := canonical <$> LegacyPg.table s in
  canonical <$> LegacyPg.table s' = (spec_stop now input m).1 ∧
  ATx (sum_map (without_limit ∘ canonical) id r) = answer_of true (LForce now input) m.
Proof.
  unfold LegacyPg.ForceCloseTransaction, LegacyPg.GetByTransactionID, answer_of. cbn [spec_step forced_answer].
  unfold spec_stop, on_owned. rewrite owned_canonical. destruct (owned _ _ _) as [tx|] eqn:E; cbn [fmap option_fmap option_map]; [|done].
  rewrite !if_open, (pg_update _ _ _ _ _ _ E). unfold LegacyPg.open.
  case_decide as Ho; [rewrite bool_decide_true by done; rewrite pg_put|rewrite bool_decide_false by done];
    (split; [|done]); [|done].
  cbn. unfold ended, canonical, LegacyPg.close_row. cbv [set_field]. cbn. by rewrite timestamptz_idem.
Qed.

#[local] Instance pg_laws : LegacyStoreLaws LegacyPg.store.
Proof.
  split. intros c s Hc Hl. destruct c as [now draw input|input|now input|now input|chargerID tid|tid idTag|chargerID|tid kwh|chargerID tid|chargerID tid];
    cbn [ls_step ls_rows ls_forced pg_store pg_step answer_of forced_answer from_option spec_step] in *.
  - pose proof (pg_create 100 0 now draw input s Hc) as H. unfold LegacyPg.CreateTransaction.
    destruct (LegacyPg.create_attempts _ _ _ _ _ _) as [s' r]. rewrite <- H. done.
  - unfold LegacyPg.UpdateLiveMeter, LegacyPg.GetByTransactionID, on_owned. rewrite owned_canonical.
    destruct (owned _ _ _) as [tx|] eqn:E; cbn [fmap option_fmap option_map]; [|done].
    rewrite (pg_update _ _ _ _ _ _ E). cbn [fst snd]. by rewrite pg_put.
  - pose proof (pg_stop now input s) as H. destruct (LegacyPg.StopTransaction _ _ _ _) as [s' r].
    destruct (spec_stop _ _ _) as [m r']. injection H as H1 H2. cbn [fst snd answer_view]. by rewrite <- H1, H2.
  - pose proof (pg_force now input s) as H. destruct (LegacyPg.ForceCloseTransaction _ _ _ _) as [s' r].
    destruct H as [H1 H2]. split; [cbn [fst]; rewrite H1; by destruct (spec_stop _ _ _)|].
    change (ATx (sum_map (without_limit ∘ canonical) id r) ≡ answer_of true (LForce now input) (canonical <$> LegacyPg.table s)).
    by rewrite H2.
  - unfold LegacyPg.GetByTransactionID, on_owned. rewrite owned_canonical.
    by destruct (owned _ _ _).
  - unfold LegacyPg.GetByTransactionIDAndIDTag. rewrite lookup_fmap.
    destruct (_ !! _) as [tx|]; cbn [fmap option_fmap option_map]; [|done].
    change (lt_IDTag (canonical tx)) with (lt_IDTag tx). by case_decide.
  - split; [done|]. unfold LegacyPg.ListOpenTransactionsByCharger. cbn [answer_view].
    cbn [snd]. unfold equiv, same_answer_equiv, same_answer.
    rewrite <- list_fmap_compose. rewrite merge_sort_Permutation, canonical_values, <- open_rows. done.
  - unfold LegacyPg.UpdateTransactionMaxKWh. rewrite lookup_fmap.
    destruct (_ !! _) as [tx|]; cbn [fmap option_fmap option_map]; [|done].
    cbn [fst snd]. by rewrite pg_put.
  - unfold LegacyPg.CheckAndMarkLimitStop, on_owned. rewrite owned_canonical.
    destruct (owned _ _ _) as [tx|] eqn:E; cbn [fmap option_fmap option_map];
      [|by unfold LegacyPg.update; rewrite E].
    rewrite (pg_update _ _ _ _ _ _ E), (pg_numbered _ _ _ _ Hl E). unfold claimable, LegacyPg.open.
    rewrite (bool_decide_ext _ _ (canonical_stop tx)).
    change (lt_LimitStopRequested (canonical tx)) with (lt_LimitStopRequested tx).
    change (reached (canonical tx)) with (reached tx).
    destruct (_ && _ && _); cbn [fst snd]; [|done]. by rewrite pg_put.
  - unfold LegacyPg.ReleaseLimitStopRequest, on_owned. rewrite owned_canonical.
    destruct (owned _ _ _) as [tx|] eqn:E; cbn [fmap option_fmap option_map];
      [|by unfold LegacyPg.update; rewrite E].
    rewrite (pg_update _ _ _ _ _ _ E), if_open. unfold LegacyPg.open.
    case_decide; [rewrite bool_decide_true by done|rewrite bool_decide_false by done]; cbn [fst snd]; [|done].
    by rewrite pg_put.
Qed.
End Postgres.

(** ** Histories *)
Section Histories.
Context {S : Type} `{HS : LegacyStoreLaws S}.

(** A history and what it answered. *)
Fixpoint ls_run (cs : list legacy_call) (s : S) : S * list legacy_answer :=
  match cs with
  | [] => (s, [])
  | c :: cs =>
    let '(s, a) := ls_step c s in
    let '(s, l) := ls_run cs s in (s, answer_view c a :: l)
  end.
End Histories.
Fixpoint spec_run (cs : list legacy_call) (m : legacy_rows) : legacy_rows * list legacy_answer :=
  match cs with
  | [] => (m, [])
  | c :: cs =>
    let '(m, a) := spec_step c m in
    let '(m, l) := spec_run cs m in (m, a :: l)
  end.
(** The calls of a history with the rows they find. *)
Fixpoint states (cs : list legacy_call) (m : legacy_rows) : list (legacy_call * legacy_rows) :=
  match cs with [] => [] | c :: cs => (c, m) :: states cs (spec_step c m).1 end.
Definition answers_of (forced : bool) (cs : list legacy_call) (m : legacy_rows) : list legacy_answer :=
  (λ cm, answer_of forced cm.1 cm.2) <$> states cs m.
Lemma answers_of_spec cs m : answers_of false cs m = (spec_run cs m).2.
Proof.
  unfold answers_of. revert m. induction cs as [|c cs IH]; intros m; [done|]. cbn [states spec_run]. rewrite fmap_cons, IH.
  cbn [fst snd answer_of]. destruct (spec_step c m) as [m' a]. cbn [fst snd]. by destruct (spec_run cs m').
Qed.
Fixpoint all_well_asked (cs : list legacy_call) (m : legacy_rows) : Prop :=
  match cs with [] => True | c :: cs => well_asked c m ∧ all_well_asked cs (spec_step c m).1 end.

(** What no call changes of a row: who charges where and since when, and the
    stop time once there is one. *)
Record kept (tx tx' : Transaction) : Prop := {
  kept_charger : lt_ChargerID tx' = lt_ChargerID tx;
  kept_connector : lt_ConnectorID tx' = lt_ConnectorID tx;
  kept_uuid : lt_UUIDDB tx' = lt_UUIDDB tx;
  kept_tag : lt_IDTag tx' = lt_IDTag tx;
  kept_tid : lt_TransactionID tx' = lt_TransactionID tx;
  kept_meter : lt_MeterStart tx' = lt_MeterStart tx;
  kept_start : lt_StartTime tx' = lt_StartTime tx;
  kept_stop t : lt_StopTime tx = Some t → lt_StopTime tx' = Some t
}.
#[global] Instance kept_preorder : PreOrder kept.
Proof.
  split; [done|]. intros x y z [] []. split; try congruence. auto.
Qed.
Definition rows_kept (m m' : legacy_rows) : Prop :=
  ∀ tid tx, m !! tid = Some tx → ∃ tx', m' !! tid = Some tx' ∧ kept tx tx'.
#[global] Instance rows_kept_preorder : PreOrder rows_kept.
Proof.
  split; [intros m tid tx H; by exists tx|]. intros m1 m2 m3 H1 H2 tid tx H.
  destruct (H1 _ _ H) as (tx1 & E1 & K1). destruct (H2 _ _ E1) as (tx2 & E2 & K2). exists tx2. split; [done|]. by etrans.
Qed.
Lemma rows_kept_insert m tid tx tx' : m !! tid = Some tx → kept tx tx' → rows_kept m (<[tid := tx']> m).
Proof.
  intros E K k y Hk. destruct (decide (k = tid)) as [->|Hne].
  - rewrite lookup_insert_eq. exists tx'. split; [done|]. by simplify_eq.
  - rewrite lookup_insert_ne by done. by exists y.
Qed.
Lemma spec_create_insert fuel n now draw input m :
  let '(m', r) := spec_create fuel n now draw input m in
  m' = m ∨ ∃ tid tx, m !! tid = None ∧ m' = <[tid := tx]> m ∧ r = inl tx ∧ lt_TransactionID tx = tid ∧ lt_MaxKWh tx = None.
Proof.
  revert n. induction fuel as [|fuel IH]; intros n; [by left|]. cbn [spec_create]. cbv zeta.
  destruct (m !! _) eqn:E; [apply IH|]. destruct (NewSecureUUIDString _) as [u|]; [|by left].
  right. eexists _, _. split_and!; done.
Qed.
(** What a call does to the rows: nothing, a new row, or a change of one. *)
Variant rows_changed (c : legacy_call) (m : legacy_rows) : legacy_rows → Prop :=
  | rows_same : rows_changed c m m
  | rows_new tid tx : m !! tid = None → lt_MaxKWh tx = None → rows_changed c m (<[tid := tx]> m)
  | rows_changed_one tid tx tx' : m !! tid = Some tx → kept tx tx' →
      lt_MaxKWh tx' = lt_MaxKWh tx ∨ (∃ maxKWh, c = LMaxKWh tid maxKWh ∧ lt_MaxKWh tx' = Some maxKWh) →
      rows_changed c m (<[tid := tx']> m).
Lemma spec_stop_changed c now input m : rows_changed c m (spec_stop now input m).1.
Proof.
  unfold spec_stop, on_owned. destruct (owned _ _ _) as [tx|] eqn:E; [|constructor].
  apply owned_lookup in E as [E _]. case_decide as Ht; [|constructor].
  apply (rows_changed_one _ _ _ tx); [done|split; cbn; congruence|by left].
Qed.
Lemma spec_step_changed c m : rows_changed c m (spec_step c m).1.
Proof.
  destruct c as [now draw input|input|now input|now input| | | |tid kwh|chargerID tid|chargerID tid]; try constructor; cbn [spec_step].
  - pose proof (spec_create_insert 100 0 now draw input m) as H.
    destruct (spec_create _ _ _ _ _ _) as [m' r]. destruct H as [->|(tid & tx & H1 & -> & _ & _ & H2)]; by constructor.
  - unfold on_owned. destruct (owned _ _ _) as [tx|] eqn:E; [|constructor].
    apply owned_lookup in E as [E _]. apply (rows_changed_one _ _ _ tx); [done|by split|by left].
  - pose proof (spec_stop_changed (LStop now input) now input m). by destruct (spec_stop _ _ _).
  - pose proof (spec_stop_changed (LForce now input) now input m). by destruct (spec_stop _ _ _).
  - destruct (m !! tid) as [tx|] eqn:E; [|constructor].
    apply (rows_changed_one _ _ _ tx); [done|by split|right; by exists kwh].
  - unfold on_owned. destruct (owned _ _ _) as [tx|] eqn:E; [|constructor].
    apply owned_lookup in E as [E _]. destruct (claimable tx); [|constructor].
    apply (rows_changed_one _ _ _ tx); [done|by split|by left].
  - unfold on_owned. destruct (owned _ _ _) as [tx|] eqn:E; [|constructor].
    apply owned_lookup in E as [E _]. cbn [fst]. case_decide; [|constructor].
    apply (rows_changed_one _ _ _ tx); [done|by split|by left].
Qed.
Lemma spec_step_kept c m : rows_kept m (spec_step c m).1.
Proof.
  destruct (spec_step_changed c m) as [|tid tx E _|tid tx tx' E K _]; [done| |by eapply rows_kept_insert].
  intros k y Hk. exists y. split; [|done]. rewrite lookup_insert_ne by congruence. done.
Qed.
Lemma spec_step_numbers c m : well_asked c m → limits_are_numbers m → limits_are_numbers (spec_step c m).1.
Proof.
  intros Hc Hl. destruct (spec_step_changed c m) as [|tid tx E Hn|tid tx tx' E _ Hm]; [done| |];
    apply map_Forall_insert_2; try done.
  - by rewrite Hn.
  - destruct Hm as [->|(k & -> & ->)]; [apply (Hl _ _ E)|done].
Qed.
Lemma numbers_empty : limits_are_numbers ∅.
Proof. apply map_Forall_empty. Qed.

(** A store run on a well-asked history is the machine. *)
Lemma ls_run_refines {S} `{HS : LegacyStoreLaws S} cs (s : S) :
  all_well_asked cs (ls_rows s) → limits_are_numbers (ls_rows s) →
  ls_rows (ls_run cs s).1 = (spec_run cs (ls_rows s)).1 ∧
  Forall2 (≡) (ls_run cs s).2 (answers_of (ls_forced (S := S)) cs (ls_rows s)).
Proof.
  unfold answers_of. revert s. induction cs as [|c cs IH]; intros s Hw Hl; [by repeat constructor|].
  destruct Hw as [Hc Hw]. destruct (ls_refines c s Hc Hl) as [Hr Ha].
  pose proof (spec_step_numbers c _ Hc Hl) as Hl'. cbn [ls_run spec_run states]. rewrite fmap_cons. cbn [fst snd].
  destruct (ls_step c s) as [s' a]. destruct (spec_step c (ls_rows s)) as [m a']. cbn [fst snd] in *. subst m.
  specialize (IH s' Hw Hl') as [IH1 IH2].
  destruct (ls_run cs s') as [s'' l]. destruct (spec_run cs (ls_rows s')) as [m l']. cbn [fst snd] in *.
  split; [done|by constructor].
Qed.
Lemma spec_run_kept cs m : rows_kept m (spec_run cs m).1.
Proof.
  revert m. induction cs as [|c cs IH]; intros m; [done|]. cbn [spec_run].
  pose proof (spec_step_kept c m) as H. destruct (spec_step c m) as [m' a].
  specialize (IH m'). destruct (spec_run cs m'). etrans; eassumption.
Qed.

(** *** Limit stops *)
Definition is_claim (tid : Z) (ca : legacy_call * legacy_answer) : bool :=
  match ca with (LCheckLimit _ tid', AClaim true) => bool_decide (tid' = tid) | _ => false end.
Definition is_release (tid : Z) (c : legacy_call) : bool :=
  match c with LRelease _ tid' => bool_decide (tid' = tid) | _ => false end.
Definition claims (tid : Z) (cs : list legacy_call) (l : list legacy_answer) : nat :=
  length (filter (λ ca, is_claim tid ca) (zip cs l)).
Definition releases (tid : Z) (cs : list legacy_call) : nat := length (filter (λ c, is_release tid c) cs).
Definition unclaimed (m : legacy_rows) (tid : Z) : nat :=
  if from_option lt_LimitStopRequested false (m !! tid) then 0 else 1.

Lemma unclaimed_bound m tid : (unclaimed m tid ≤ 1)%nat.
Proof. unfold unclaimed. case_match; lia. Qed.
(** A claim uses up the flag; only a release of the same transaction, or its
    creation, gives it back. *)
Lemma unclaimed_step c m tid :
  let '(m', a) := spec_step c m in
  (unclaimed m' tid + Nat.b2n (is_claim tid (c, a)) ≤ unclaimed m tid + Nat.b2n (is_release tid c))%nat.
Proof.
  assert (Hput : ∀ k tx tx', m !! k = Some tx → lt_LimitStopRequested tx' = lt_LimitStopRequested tx →
    unclaimed (<[k := tx']> m) tid = unclaimed m tid).
  { intros k tx tx' E H. unfold unclaimed. destruct (decide (k = tid)) as [->|].
    - rewrite lookup_insert_eq, E. cbn. by rewrite H.
    - by rewrite lookup_insert_ne. }
  assert (Hstop : ∀ now input, unclaimed (spec_stop now input m).1 tid = unclaimed m tid).
  { intros now input. unfold spec_stop, on_owned. destruct (owned _ _ _) as [tx|] eqn:E; [|done].
    apply owned_lookup in E as [E _]. case_decide; [|done]. by eapply Hput. }
  destruct c as [now draw input|input|now input|now input| | | |k kwh|chargerID k|chargerID k];
    cbn [spec_step is_claim is_release Nat.b2n]; try lia.
  - pose proof (spec_create_insert 100 0 now draw input m) as H.
    destruct (spec_create _ _ _ _ _ _) as [m' r]. destruct H as [->|(k & tx & H1 & -> & _)]; [lia|].
    unfold unclaimed. destruct (decide (k = tid)) as [->|]; [rewrite lookup_insert_eq, H1|by rewrite lookup_insert_ne].
    cbn. case_match; lia.
  - unfold on_owned. destruct (owned _ _ _) as [tx|] eqn:E; [|lia].
    apply owned_lookup in E as [E _]. rewrite (Hput _ tx); [lia|done|done].
  - pose proof (Hstop now input). destruct (spec_stop _ _ _). cbn in *. lia.
  - pose proof (Hstop now input). destruct (spec_stop _ _ _). cbn in *. lia.
  - destruct (m !! k) as [tx|] eqn:E; [|lia]. rewrite (Hput _ tx); [lia|done|done].
  - unfold on_owned. destruct (owned _ _ _) as [tx|] eqn:E; [|cbn; lia].
    apply owned_lookup in E as [E _]. destruct (claimable tx) eqn:Ec; [|cbn; lia].
    case_bool_decide as Hk; [subst k|].
    + unfold claimable in Ec. apply andb_prop in Ec as [Ec _]. apply andb_prop in Ec as [_ Ec].
      unfold unclaimed. rewrite lookup_insert_eq, E. cbn. destruct (lt_LimitStopRequested tx); [done|]. cbn. lia.
    + cbn. unfold unclaimed. rewrite lookup_insert_ne by done. lia.
  - unfold on_owned. destruct (owned _ _ _) as [tx|] eqn:E; [|lia]. case_decide; [|lia].
    case_bool_decide as Hk; [pose proof (unclaimed_bound (<[k:=tx <| lt_LimitStopRequested := false |>]> m) tid); cbn; lia|].
    unfold unclaimed. rewrite lookup_insert_ne by done. lia.
Qed.
Lemma spec_claims tid cs m :
  (claims tid cs (spec_run cs m).2 ≤ unclaimed m tid + releases tid cs)%nat.
Proof.
  revert m. induction cs as [|c cs IH]; intros m; [unfold claims; cbn; lia|].
  cbn [spec_run]. pose proof (unclaimed_step c m tid) as H. destruct (spec_step c m) as [m' a].
  specialize (IH m'). destruct (spec_run cs m') as [m'' l]. cbn [snd] in *.
  unfold claims, releases in *. cbn [zip zip_with]. rewrite !filter_cons.
  destruct (is_claim tid (c, a)), (is_release tid c);
    repeat (case_decide; [|done] || (case_decide; [done|])); rewrite ?length_cons; cbn [Nat.b2n] in *; lia.
Qed.

(** *** What follows for both stores *)
Definition some_order (m : gmap Z Transaction) : list Z := (map_to_list m).*1.


Lemma owned_later (m m' : legacy_rows) chargerID tid tx :
  rows_kept (canonical <$> m) (canonical <$> m') → owned m chargerID tid = Some tx →
  ∃ row, owned m' chargerID tid = Some row ∧ kept (canonical tx) (canonical row).
Proof.
  intros Hk [E Hc]%owned_lookup.
  destruct (Hk tid (canonical tx)) as (y & Hy & K); [by rewrite lookup_fmap, E|].
  rewrite lookup_fmap in Hy. destruct (m' !! tid) as [row|] eqn:Er; [|done]. injection Hy as <-.
  exists row. split; [|done]. unfold owned. rewrite Er. cbn. rewrite decide_True; [done|].
  pose proof (kept_charger _ _ K) as Hch. cbn in Hch. congruence.
Qed.
(** The two ways a StopTransaction answers a transaction. *)
Lemma stop_answers others now input s s' tx :
  all_well_asked others (canonical <$> LegacyPg.table s) → limits_are_numbers (canonical <$> LegacyPg.table s) →
  LegacyPg.StopTransaction (λ s, (ls_run (H := pg_store) others s).1) now input s = (s', inl tx) →
  (∃ row stop, LegacyPg.table s' !! mt_TransactionID input = Some row ∧ lt_StopTime row = Some stop ∧
     tx = without_limit row) ∨
  (∃ row, LegacyPg.table s' !! mt_TransactionID input =
       Some (LegacyPg.close_row now (mt_MeterStop input) (lt_TotalConsumption tx) row) ∧
     lt_StopTime row = None ∧ lt_MeterStop tx = Some (mt_MeterStop input) ∧ lt_StopTime tx = Some now).
Proof.
  intros Hw Hl. unfold LegacyPg.StopTransaction, LegacyPg.GetByTransactionID.
  destruct (owned (LegacyPg.table s) _ _) as [tx0|] eqn:E; [|done].
  change (lt_StopTime (without_limit tx0)) with (lt_StopTime tx0).
  destruct (lt_StopTime tx0) as [t|] eqn:Et.
  { intros [= -> <-]. apply owned_lookup in E as [E _]. left. by exists tx0, t. }
  pose proof (ls_run_refines (HS := pg_laws) others s Hw Hl) as [Hr _].
  pose proof (spec_run_kept others (canonical <$> LegacyPg.table s)) as Hk. 
  change (ls_rows ?s) with (canonical <$> LegacyPg.table s) in Hr. cbn [ls_rows pg_store] in Hr. rewrite <- Hr in Hk.
  set (mid := (ls_run others s).1) in *.
  destruct (owned_later _ (LegacyPg.table mid) _ _ _ Hk E) as (row & Erow & K).
  rewrite (pg_update _ _ _ _ _ _ Erow). unfold LegacyPg.open.
  case_bool_decide as Ho.
  - intros [= <- <-]. right. exists row. split_and!; try done.
    cbv [set_field]. cbn [LegacyPg.table]. by rewrite lookup_insert_eq.
  - rewrite Erow. intros [= <- <-]. apply owned_lookup in Erow as [Erow _]. left.
    destruct (lt_StopTime row) as [t|] eqn:Er; [|done]. by exists row, t.
Qed.

(** Whatever else runs between the SELECT and the UPDATE of a PostgreSQL
    StopTransaction - any history of other calls, stops of the same transaction
    among them - one stop decides: if the transaction is still open at the
    UPDATE, this call closes it with its meter value and its instant and answers
    that; if another call closed it first, this call writes nothing and answers
    the stored end.  No later call changes the stop time. *)
Theorem first_stop_decides (others later : list legacy_call) (now : Time) (input : meter_input)
    (s s' : LegacyPg.store) (tx : Transaction)
    (Hothers : all_well_asked others (canonical <$> LegacyPg.table s))
    (Hnumbers : limits_are_numbers (canonical <$> LegacyPg.table s))
    (Hstop : LegacyPg.StopTransaction (λ s, (ls_run (H := pg_store) others s).1) now input s = (s', inl tx)) :
  ∃ row stop,
    LegacyPg.table s' !! mt_TransactionID input = Some row ∧ lt_StopTime row = Some stop ∧
    (lt_StopTime (canonical tx) = Some (timestamptz stop) ∧ lt_TotalConsumption tx = lt_TotalConsumption row ∧
     lt_MeterStop tx = lt_MeterStop row) ∧
    ∃ row', (spec_run later (canonical <$> LegacyPg.table s')).1 !! mt_TransactionID input = Some row' ∧
      lt_StopTime row' = Some (timestamptz stop).
Proof.
  assert (Hlast : ∃ row stop, LegacyPg.table s' !! mt_TransactionID input = Some row ∧ lt_StopTime row = Some stop ∧
    lt_StopTime (canonical tx) = Some (timestamptz stop) ∧ lt_TotalConsumption tx = lt_TotalConsumption row ∧
    lt_MeterStop tx = lt_MeterStop row).
  { destruct (stop_answers _ _ _ _ _ _ Hothers Hnumbers Hstop) as [(row & stop & H1 & H2 & ->)|(row & H1 & H2 & H3 & H4)].
    - exists row, stop. split_and!; try done. cbn. by rewrite H2.
    - eexists _, _. split_and!; [exact H1|done|cbn; by rewrite H4, timestamptz_idem|done|done]. }
  destruct Hlast as (row & stop & H1 & H2 & H3). exists row, stop. split_and!; [done..|tauto|tauto|tauto|].
  destruct (spec_run_kept later (canonical <$> LegacyPg.table s') (mt_TransactionID input) (canonical row)) as (row' & H4 & K);
    [by rewrite lookup_fmap, H1|]. exists row'. split; [done|]. apply (kept_stop _ _ K). cbn. by rewrite H2.
Qed.

Lemma claims_equiv tid cs l l' : Forall2 (≡) l l' → claims tid cs l = claims tid cs l'.
Proof.
  intros H. unfold claims. revert cs. induction H as [|a a' l l' Ha _ IH]; intros [|c cs]; [done..|].
  cbn [zip zip_with]. rewrite !filter_cons. specialize (IH cs).
  assert (Hc : is_claim tid (c, a) = is_claim tid (c, a')) by (destruct a, a'; done || by injection Ha as ->).
  rewrite Hc. case_decide; cbn [length]; by rewrite IH.
Qed.

(** The answer to a forced close is never a claim. *)
Lemma claims_of tid forced cs m : claims tid cs (answers_of forced cs m) = claims tid cs (spec_run cs m).2.
Proof.
  rewrite <- answers_of_spec. unfold claims, answers_of. revert m. induction cs as [|c cs IH]; intros m; [done|].
  cbn [states]. rewrite !fmap_cons. cbn [zip zip_with fst snd]. rewrite !filter_cons.
  assert (is_claim tid (c, answer_of forced c m) = is_claim tid (c, answer_of false c m)) as Hc.
  { unfold answer_of. destruct forced; [|done]. by destruct c. }
  rewrite Hc. specialize (IH (spec_step c m).1). case_decide; cbn [length]; by rewrite IH.
Qed.

(** Between two releases a limit stop is claimed once: in any history of a
    store that implements the interface, the successful CheckAndMarkLimitStop
    calls on a transaction are at most one more than the releases of it - and
    none if the flag is already set when the history begins. *)
Theorem limit_stop_claimed_once {S} `{HS : LegacyStoreLaws S} (tid : Z) (cs : list legacy_call) (s : S)
    (Hasked : all_well_asked cs (ls_rows s)) (Hnumbers : limits_are_numbers (ls_rows s)) :
  (claims tid cs (ls_run cs s).2 ≤ unclaimed (ls_rows s) tid + releases tid cs)%nat ∧
  (unclaimed (ls_rows s) tid ≤ 1)%nat.
Proof.
  split; [|apply unclaimed_bound].
  destruct (ls_run_refines cs s Hasked Hnumbers) as [_ Ha]. etrans; [|apply spec_claims].
  apply Nat.eq_le_incl. rewrite (claims_equiv _ _ _ _ Ha). apply claims_of.
Qed.

(** *** Runs *)
Module LegacyRuns.
Definition kwh (n : Z) : float64 := Float64.of_int n.
Definition at_second (n : Z) : Time := n * GoTime.Second + 1234.
Definition car (charger tag : string) : CreateTransactionInput := mkCreateTransactionInput charger 1 (kwh 1000) tag false.
(** The second transaction draws the first one's number before its own. *)
Definition history : list legacy_call := [
  LCreate (λ _, at_second 1) (λ _, (41, inl "a1")) (car "CP-1" "TAG-1");
  LCreate (λ _, at_second 2) (λ n, (41 + Z.of_nat n, inl "b1")) (car "CP-2" "TAG-2");
  LMaxKWh 42 (kwh 2); LCheckLimit "CP-1" 42;
  LMeter (mkmeter_input "CP-1" 42 (kwh 4000)); LCheckLimit "CP-1" 42; LCheckLimit "CP-1" 42;
  LRelease "CP-1" 42; LCheckLimit "CP-1" 42;
  LListOpen "CP-1"; LStop (at_second 5) (mkmeter_input "CP-1" 42 (kwh 5000));
  LStop (at_second 6) (mkmeter_input "CP-1" 42 (kwh 9000)); LCheckLimit "CP-1" 42;
  LForce (at_second 7) (mkmeter_input "CP-2" 43 (kwh 500)); LForce (at_second 9) (mkmeter_input "CP-2" 43 (kwh 700)); LForce (at_second 8) (mkmeter_input "CP-1" 43 (kwh 500));
  LGetByTag 43 "TAG-2"; LGet "CP-2" 42; LListOpen "CP-1"].
Lemma draws_ok (draw : draws) : (∀ n, ∃ tid u, draw n = (tid, inl u) ∧ u ≠ uuid_Nil) →
  ∀ n, ∃ u, NewSecureUUIDString (draw n).2 = inl u.
Proof. intros H n. destruct (H n) as (tid & u & -> & Hu). exists u. cbn. by rewrite decide_False. Qed.
Lemma history_asked : all_well_asked history ∅.
Proof.
  cbn [all_well_asked history well_asked].
  assert (Ha : ∀ n : nat, ∃ u, NewSecureUUIDString ((λ _ : nat, (41, inl "a1") : Z * result string) n).2 = inl u)
    by (intros n; by exists "a1").
  assert (Hb : ∀ n : nat, ∃ u, NewSecureUUIDString ((λ n : nat, (41 + Z.of_nat n, inl "b1") : Z * result string) n).2 = inl u)
    by (intros n; by exists "b1").
  assert (Hc : int4 1) by (unfold int4; lia).
  assert (Hk : is_number (kwh 2)) by (vm_compute; discriminate).
  repeat (apply conj; [lazymatch goal with
    | |- True => exact I
    | |- is_number _ => exact Hk
    | |- _ => first [exact (conj Hc Ha) | exact (conj Hc Hb)]
    end|]). exact I.
Qed.

Lemma history_run :
  let '(pg, answers) := ls_run (H := pg_store) history LegacyPg.empty in
  claims 42 history answers = 2%nat ∧ releases 42 history = 1%nat ∧
  (lt_StopTime <$> LegacyPg.table pg !! 42) = Some (Some (timestamptz (at_second 5))) ∧
  (lt_TotalConsumption <$> LegacyPg.table pg !! 42) = Some (Some (Float64.div (kwh 4000) (kwh 1000))).
Proof. vm_compute. split_and!; reflexivity. Qed.
End LegacyRuns.

(** The second forced close: what the two stores answer. *)
Example forced_close_answers :
  let stop_of a := match a with Some (ATx (inl tx)) => lt_StopTime tx | _ => None end in
  (stop_of ((ls_run (H := mem_store some_order) LegacyRuns.history LegacyMem.NewMemoryStore).2 !! 14%nat),
   stop_of ((ls_run (H := pg_store) LegacyRuns.history LegacyPg.empty).2 !! 14%nat)) =
  (Some (timestamptz (LegacyRuns.at_second 7)), Some (timestamptz (LegacyRuns.at_second 9))).
Proof. vm_compute. reflexivity. Qed.

(** A charging transaction; another StopTransaction runs in between. *)
Definition first_stop_store : LegacyPg.store :=
  (ls_run (H := pg_store) [LCreate (λ _, LegacyRuns.at_second 1) (λ _, (41, inl "a1")) (LegacyRuns.car "CP-1" "TAG-1")]
     LegacyPg.empty).1.
Definition first_stop_others : list legacy_call :=
  [LStop (LegacyRuns.at_second 3) (mkmeter_input "CP-1" 42 (LegacyRuns.kwh 5000))].
Lemma first_stop_store_numbers : limits_are_numbers (canonical <$> LegacyPg.table first_stop_store).
Proof.
  replace (canonical <$> LegacyPg.table first_stop_store)
    with (spec_step (LCreate (λ _, LegacyRuns.at_second 1) (λ _, (41, inl "a1")) (LegacyRuns.car "CP-1" "TAG-1")) ∅).1
    by (vm_compute; reflexivity).
  apply (spec_step_numbers (LCreate (λ _, LegacyRuns.at_second 1) (λ _, (41, inl "a1")) (LegacyRuns.car "CP-1" "TAG-1")) ∅).
  - split; [vm_compute; split; congruence|]. intros n. by exists "a1".
  - apply numbers_empty.
Qed.
Lemma first_stop_decides_witness :
  ∃ s' tx, LegacyPg.StopTransaction (λ s, (ls_run (H := pg_store) first_stop_others s).1) (LegacyRuns.at_second 2)
    (mkmeter_input "CP-1" 42 (LegacyRuns.kwh 4000)) first_stop_store = (s', inl tx) ∧
  ∃ row stop,
    LegacyPg.table s' !! 42 = Some row ∧ lt_StopTime row = Some stop ∧
    (lt_StopTime (canonical tx) = Some (timestamptz stop) ∧ lt_TotalConsumption tx = lt_TotalConsumption row ∧
     lt_MeterStop tx = lt_MeterStop row) ∧
    ∃ row', (spec_run [] (canonical <$> LegacyPg.table s')).1 !! 42 = Some row' ∧
      lt_StopTime row' = Some (timestamptz stop).
Proof.
  eexists _, _. split; [vm_compute; reflexivity|].
  apply (first_stop_decides first_stop_others [] (LegacyRuns.at_second 2) (mkmeter_input "CP-1" 42 (LegacyRuns.kwh 4000)) first_stop_store).
  - by repeat split.
  - exact first_stop_store_numbers.
  - vm_compute. reflexivity.
Defined.

Lemma limit_stop_claimed_once_witness :
  all_well_asked LegacyRuns.history (ls_rows (LegacyStore := pg_store) LegacyPg.empty) ∧
  limits_are_numbers (ls_rows (LegacyStore := pg_store) LegacyPg.empty) ∧
  (claims 42 LegacyRuns.history (ls_run (H := pg_store) LegacyRuns.history LegacyPg.empty).2 ≤
   unclaimed (ls_rows (LegacyStore := pg_store) LegacyPg.empty) 42 + releases 42 LegacyRuns.history)%nat.
Proof.
  assert (H1 : all_well_asked LegacyRuns.history (ls_rows (LegacyStore := pg_store) LegacyPg.empty))
    by exact LegacyRuns.history_asked.
  assert (H2 : limits_are_numbers (ls_rows (LegacyStore := pg_store) LegacyPg.empty)) by exact numbers_empty.
  split; [exact H1|]. split; [exact H2|].
  exact (proj1 (limit_stop_claimed_once (HS := pg_laws) 42 LegacyRuns.history LegacyPg.empty H1 H2)).
Defined.
