(* ===== verification/LegacyOutbox.v ===== *)
(** * The legacy callback outbox

    The callbacks of TransactionStore (internal/store/store.go): EnqueueCallback,
    ClaimDueCallbacks, the Mark methods and the lists of transactions whose
    callback is missing, in memory (outbox_memory.go,
    callback_reconcile_memory.go) and in PostgreSQL (outbox_postgres.go,
    callback_reconcile_postgres.go over the table of migration 002).  The two
    differ in one thing, the lease of a claim: a claim in memory lasts until it
    is marked, one in PostgreSQL two minutes.  The interface both implement has
    the lease as a value. *)
From Stdlib Require Import String Ascii.
From stdpp Require Import base numbers decidable option list sorting strings gmap pretty.
From S2P Require Import Prelude GoText GoClock V1Types V1Memory PgSchema LegacyStore.
Open Scope Z_scope.

(** ** Data *)
Record EnqueueCallbackInput : Type := mkEnqueueCallbackInput {
  eq_Kind : string;
  eq_DedupeKey : string;
  eq_TransactionID : option Z;
  eq_UUIDDB : string;
  eq_TargetURL : string;
  eq_Payload : data_map;
  eq_MaxRetries : Z
}.
Record CallbackTask : Type := mkCallbackTask {
  ck_ID : Z;
  ck_Kind : string;
  ck_DedupeKey : string;
  ck_TransactionID : option Z;
  ck_UUIDDB : string;
  ck_TargetURL : string;
  ck_Payload : string;
  ck_Retries : Z;
  ck_MaxRetries : Z
}.
#[global] Instance eta_CallbackTask : Eta CallbackTask := λ t,
  mkCallbackTask (ck_ID t) (ck_Kind t) (ck_DedupeKey t) (ck_TransactionID t) (ck_UUIDDB t) (ck_TargetURL t) (ck_Payload t)
    (ck_Retries t) (ck_MaxRetries t).
(** memoryCallback: the task and its delivery state; a row of callback_outbox
    has updated_at and sent_at besides. *)
Record callback : Type := mkcallback {
  cb_task : CallbackTask;
  cb_Status : string;
  cb_NextRetryAt : Time;
  cb_LastError : option string;
  cb_updatedAt : Time;
  cb_sentAt : option Time
}.
#[global] Instance eta_callback : Eta callback := λ c,
  mkcallback (cb_task c) (cb_Status c) (cb_NextRetryAt c) (cb_LastError c) (cb_updatedAt c) (cb_sentAt c).
Definition new_task (id : Z) (payload : string) (input : EnqueueCallbackInput) : CallbackTask :=
  mkCallbackTask id (eq_Kind input) (eq_DedupeKey input) (eq_TransactionID input) (eq_UUIDDB input) (eq_TargetURL input)
    payload 0 (eq_MaxRetries input).
Abbreviation outbox := (gmap Z callback).
Definition has_key (key : string) (o : outbox) : Prop := map_Exists (λ _ c, ck_DedupeKey (cb_task c) = key) o.
#[global] Instance has_key_dec key o : Decision (has_key key o).
Proof. unfold has_key. apply _. Defined.
(** [fmt.Sprintf("%s:%d", kind, tx.TransactionID)] and its twin in SQL. *)
Definition dedupe_key (kind : string) (tx : Transaction) : string := kind +:+ ":" +:+ Itoa (lt_TransactionID tx).
Definition KindStartTransactionStore : string := "start_transaction".
Definition KindCompletedTransactionStore : string := "completed_transaction".

(** A transaction whose callback of this kind was never enqueued. *)
Definition is_missing (kind : string) (completedOnly : bool) (o : outbox) (tx : Transaction) : Prop :=
  ¬ has_key (dedupe_key kind tx) o ∧ (completedOnly → lt_StopTime tx ≠ None).
#[global] Instance is_missing_dec kind completedOnly o tx : Decision (is_missing kind completedOnly o tx).
Proof. unfold is_missing. apply _. Defined.
(** [json.Marshal] of a payload, and what a jsonb column gives back. *)
Class PayloadJson : Type := {
  json_Marshal : data_map → result string;
  read_jsonb : string → string
}.

(** ** In memory *)
Module MemOutbox.
Record store : Type := mkstore { memoryOutboxID : Z; callbacks : outbox }.
#[global] Instance eta_store : Eta store := λ s, mkstore (memoryOutboxID s) (callbacks s).
Definition empty : store := mkstore 0 ∅.

Definition EnqueueCallback {HJ : PayloadJson} (now : Time) (input : EnqueueCallbackInput) (s : store) :
    store * option go_error :=
  if decide (has_key (eq_DedupeKey input) (callbacks s)) then (s, None)
  else
    match json_Marshal (eq_Payload input) with
    | inr err => (s, Some err)
    | inl payload =>
      let id := memoryOutboxID s + 1 in
      (mkstore id (<[id := mkcallback (new_task id payload input) "pending" now None now None]> (callbacks s)), None)
    end.
(** The loop over the map, [keys] being the order of the range. *)
Fixpoint claim_range (now : Time) (limit : Z) (keys : list Z) (tasks : list CallbackTask) (o : outbox) :
    outbox * list CallbackTask :=
  match keys with
  | [] => (o, tasks)
  | k :: keys =>
    if decide (limit ≤ Z.of_nat (length tasks)) then (o, tasks)
    else
      match o !! k with
      | Some item =>
        if decide (cb_Status item ≠ "pending" ∨ now < cb_NextRetryAt item) then claim_range now limit keys tasks o
        else claim_range now limit keys (tasks ++ [cb_task item]) (<[k := item <| cb_Status := "processing" |>]> o)
      | None => claim_range now limit keys tasks o
      end
  end.
Definition ClaimDueCallbacks (now : Time) (limit : Z) (keys : list Z) (s : store) : store * list CallbackTask :=
  let '(o, tasks) := claim_range now limit keys [] (callbacks s) in (s <| callbacks := o |>, tasks).
Definition alter_callback (id : Z) (f : callback → callback) (s : store) : store := s <| callbacks ::= alter f id |>.
Definition MarkCallbackSent (id : Z) : store → store := alter_callback id (λ c, c <| cb_Status := "sent" |>).
Definition MarkCallbackRetry (id retries : Z) (next : Time) (lastError : string) : store → store :=
  alter_callback id (λ c, c <| cb_Status := "pending" |> <| cb_task ::= (λ t, t <| ck_Retries := retries |>) |>
                  <| cb_NextRetryAt := next |> <| cb_LastError := Some lastError |>).
Definition MarkCallbackFatal (id : Z) (lastError : string) : store → store :=
  alter_callback id (λ c, c <| cb_Status := "fatal" |> <| cb_LastError := Some lastError |>).
(** The loop of listTransactionsMissingCallback. *)
Fixpoint missing (kind : string) (completedOnly : bool) (limit : Z) (o : outbox) (txs out : list Transaction) :
    list Transaction :=
  match txs with
  | [] => out
  | tx :: txs =>
    if decide (limit ≤ Z.of_nat (length out)) then out
    else if decide (completedOnly ∧ lt_StopTime tx = None) then missing kind completedOnly limit o txs out
    else if decide (has_key (dedupe_key kind tx) o) then missing kind completedOnly limit o txs out
    else missing kind completedOnly limit o txs (out ++ [tx])
  end.
Definition listTransactionsMissingCallback (keys : list Z) (kind : string) (completedOnly : bool) (limit : Z)
    (transactions : gmap Z Transaction) (s : store) : list Transaction :=
  missing kind completedOnly limit (callbacks s) (omap (λ k, transactions !! k) keys) [].
Definition ListTransactionsMissingStartCallbacks (keys : list Z) (limit : Z) :=
  listTransactionsMissingCallback keys KindStartTransactionStore false limit.
Definition ListTransactionsMissingCompletedCallbacks (keys : list Z) (limit : Z) :=
  listTransactionsMissingCallback keys KindCompletedTransactionStore true limit.
End MemOutbox.

(** ** In PostgreSQL *)
Module PgOutbox.
Record store : Type := mkstore { sequence : Z; callbacks : outbox }.
#[global] Instance eta_store : Eta store := λ s, mkstore (sequence s) (callbacks s).
Definition empty : store := mkstore 1 ∅.

(** INSERT ... ON CONFLICT (dedupe_key) DO NOTHING: the id is spent anyway. *)
Definition EnqueueCallback {HJ : PayloadJson} (now : Time) (input : EnqueueCallbackInput) (s : store) :
    store * option go_error :=
  match json_Marshal (eq_Payload input) with
  | inr err => (s, Some err)
  | inl payload =>
    if decide (¬ int4 (eq_MaxRetries input)) then (s, Some not_int4)
    else
      let id := sequence s in
      let s := s <| sequence ::= λ n, n + 1 |> in
      if decide (has_key (eq_DedupeKey input) (callbacks s)) then (s, None)
      else
        (s <| callbacks ::= <[id := mkcallback (new_task id (read_jsonb payload) input) "pending" now None now None]> |>,
         None)
  end.
Definition callback_lease : GoTime.Duration := 2 * GoTime.Minute.
Definition callback_due (now : Time) (c : callback) : Prop :=
  (cb_Status c = "pending" ∧ cb_NextRetryAt c ≤ now) ∨ (cb_Status c = "processing" ∧ cb_updatedAt c ≤ now - callback_lease).
#[global] Instance callback_due_dec now c : Decision (callback_due now c).
Proof. unfold callback_due. apply _. Defined.
Definition by_id (a b : Z * callback) : Prop := a.1 ≤ b.1.
#[global] Instance by_id_dec : RelDecision by_id.
Proof. intros a b. unfold by_id. apply _. Defined.
(** ORDER BY id LIMIT $1 FOR UPDATE SKIP LOCKED; a negative limit is an error. *)
Definition selected (now : Time) (limit : Z) (locked : list Z) (o : outbox) : list (Z * callback) :=
  take (Z.to_nat limit) (merge_sort by_id (filter (λ kc, kc.1 ∉ locked ∧ callback_due now kc.2) (map_to_list o))).
Definition alter_callback (id : Z) (f : callback → callback) (s : store) : store := s <| callbacks ::= alter f id |>.
Definition processing (now : Time) (c : callback) : callback :=
  c <| cb_Status := "processing" |> <| cb_updatedAt := now |>.
Definition ClaimDueCallbacks (now : Time) (limit : Z) (locked : list Z) (s : store) : store * result (list CallbackTask) :=
  if decide (limit < 0) then (s, inr (ErrPg "2201W"))
  else
    let rows := selected now limit locked (callbacks s) in
    (foldl (λ s kc, alter_callback kc.1 (processing now) s) s rows, inl ((λ kc, cb_task kc.2) <$> rows)).
Definition MarkCallbackSent (now : Time) (id : Z) : store → store :=
  alter_callback id (λ c, c <| cb_Status := "sent" |> <| cb_sentAt := Some now |> <| cb_updatedAt := now |>
                  <| cb_LastError := None |>).
Definition MarkCallbackRetry (now : Time) (id retries : Z) (next : Time) (lastError : string) (s : store) :
    store * option go_error :=
  if decide (¬ int4 retries) then (s, Some not_int4)
  else
    (alter_callback id (λ c, c <| cb_Status := "pending" |> <| cb_task ::= (λ t, t <| ck_Retries := retries |>) |>
       <| cb_NextRetryAt := timestamptz next |> <| cb_LastError := Some lastError |> <| cb_updatedAt := now |>) s, None).
Definition MarkCallbackFatal (now : Time) (id : Z) (lastError : string) : store → store :=
  alter_callback id (λ c, c <| cb_Status := "fatal" |> <| cb_LastError := Some lastError |> <| cb_updatedAt := now |>).
Definition by_row (a b : Transaction) : Prop := lt_ID a ≤ lt_ID b.
#[global] Instance by_row_dec : RelDecision by_row.
Proof. intros a b. unfold by_row. apply _. Defined.
Definition listTransactionsMissingCallback (kind : string) (completedOnly : bool) (limit : Z)
    (transactions : gmap Z Transaction) (s : store) : result (list Transaction) :=
  if decide (limit < 0) then inr (ErrPg "2201W")
  else inl (take (Z.to_nat limit)
    (merge_sort by_row (filter (is_missing kind completedOnly (callbacks s)) (map_to_list transactions).*2))).
Definition ListTransactionsMissingStartCallbacks := listTransactionsMissingCallback "start_transaction" false.
Definition ListTransactionsMissingCompletedCallbacks := listTransactionsMissingCallback "completed_transaction" true.
End PgOutbox.

(** ** The interface *)
Inductive cb_call : Type :=
  | CEnqueue (now : Time) (input : EnqueueCallbackInput)
  | CClaim (now : Time) (limit : Z) (order : list Z)   (* the range over the map, or the locked rows *)
  | CSent (now : Time) (id : Z)
  | CRetry (now : Time) (id retries : Z) (next : Time) (lastError : string)
  | CFatal (now : Time) (id : Z) (lastError : string).

(** One callback per id and per key; ids below the next one. *)
Definition outbox_ok (next : Z) (o : outbox) : Prop :=
  map_Forall (λ k c, ck_ID (cb_task c) = k ∧ k < next) o ∧
  ∀ k k' c c', o !! k = Some c → o !! k' = Some c' → ck_DedupeKey (cb_task c) = ck_DedupeKey (cb_task c') → k = k'.
(** A claim may be taken: the callback is due, or the lease of an earlier claim
    is over. *)
Definition claimable (lease : option GoTime.Duration) (now : Time) (c : callback) : Prop :=
  (cb_Status c = "pending" ∧ cb_NextRetryAt c ≤ now) ∨
  (cb_Status c = "processing" ∧ ∃ d, lease = Some d ∧ cb_updatedAt c ≤ now - d).
Definition same_task (c c' : callback) : Prop :=
  ck_ID (cb_task c') = ck_ID (cb_task c) ∧ ck_DedupeKey (cb_task c') = ck_DedupeKey (cb_task c).
(** What a call makes of the callback [id]. *)
Variant cb_moved (lease : option GoTime.Duration) (call : cb_call) (tasks : list CallbackTask) (id : Z) (c c' : callback) : Prop :=
  | moved_claim now limit order : call = CClaim now limit order → id ∈ ck_ID <$> tasks → cb_task c ∈ tasks →
      claimable lease now c → cb_task c' = cb_task c → cb_Status c' = "processing" →
      (lease ≠ None → cb_updatedAt c' = now) → cb_moved lease call tasks id c c'
  | moved_done now err : call = CSent now id ∨ call = CFatal now id err → tasks = [] →
      cb_task c' = cb_task c → cb_Status c' ∈ ["sent"; "fatal"] → cb_moved lease call tasks id c c'
  | moved_retry now retries next err : call = CRetry now id retries next err → tasks = [] →
      same_task c c' → cb_Status c' = "pending" → timestamptz next ≤ cb_NextRetryAt c' → cb_moved lease call tasks id c c'
  | moved_not : id ∉ ck_ID <$> tasks → (∀ now, call ≠ CSent now id) → (∀ now err, call ≠ CFatal now id err) →
      (∀ now retries next err, call ≠ CRetry now id retries next err) → c' = c → cb_moved lease call tasks id c c'
  | refused_retry now retries next err : call = CRetry now id retries next err → ¬ int4 retries → tasks = [] → c' = c →
      cb_moved lease call tasks id c c'.
Class CallbackStore (S : Type) := {
  cs_next : S → Z;
  cs_outbox : S → outbox;
  cs_lease : option GoTime.Duration;
  cs_step : cb_call → S → S * (list CallbackTask * option go_error);
  cs_missing (order : list Z) (kind : string) (completedOnly : bool) (limit : Z) :
    gmap Z Transaction → S → list Transaction
}.
Definition cs_ok {S} `{CallbackStore S} (s : S) : Prop := outbox_ok (cs_next s) (cs_outbox s).
(** Calls a Go range can make: a map is ranged over once. *)
Definition cb_asked (call : cb_call) : Prop := match call with CClaim _ _ order => NoDup order | _ => True end.
Class CallbackStoreLaws (S : Type) `{CallbackStore S} : Prop := {
  cs_step_ok call (s : S) : cb_asked call → cs_ok s → cs_ok (cs_step call s).1;
  cs_step_moved call (s : S) id c : cb_asked call → cs_ok s → cs_outbox s !! id = Some c →
    ∃ c', cs_outbox (cs_step call s).1 !! id = Some c' ∧ cb_moved cs_lease call (cs_step call s).2.1 id c c';
  cs_step_new call (s : S) id c' : cb_asked call → cs_ok s → cs_outbox s !! id = None →
    cs_outbox (cs_step call s).1 !! id = Some c' →
    ∃ now input, call = CEnqueue now input ∧ ¬ has_key (eq_DedupeKey input) (cs_outbox s) ∧
      ck_DedupeKey (cb_task c') = eq_DedupeKey input ∧ cb_Status c' = "pending";
  cs_step_enqueued now input (s : S) : (cs_step (CEnqueue now input) s).2.2 = None →
    has_key (eq_DedupeKey input) (cs_outbox (cs_step (CEnqueue now input) s).1);
  cs_step_tasks call (s : S) : cb_asked call → cs_ok s → let tasks := (cs_step call s).2.1 in
    NoDup (ck_ID <$> tasks) ∧ (∀ task, task ∈ tasks → is_Some (cs_outbox s !! ck_ID task)) ∧
    (∀ now limit order, call = CClaim now limit order → Z.of_nat (length tasks) ≤ Z.max 0 limit);
  cs_missing_spec order kind completedOnly limit txs (s : S) :
    order ≡ₚ (map_to_list txs).*1 → 0 ≤ limit →
    let l := cs_missing order kind completedOnly limit txs s in
    let wanted tx := ∃ tid, txs !! tid = Some tx ∧ is_missing kind completedOnly (cs_outbox s) tx in
    (∀ tx, tx ∈ l → wanted tx) ∧ Z.of_nat (length l) ≤ limit ∧
    (Z.of_nat (length l) < limit → ∀ tx, wanted tx → tx ∈ l)
}.

(** ** Lemmas on outboxes *)
Lemma has_key_insert key k c o : o !! k = None →
  has_key key (<[k := c]> o) ↔ ck_DedupeKey (cb_task c) = key ∨ has_key key o.
Proof. intros H. unfold has_key. rewrite map_Exists_insert by done. done. Qed.
Lemma has_key_lookup key o : has_key key o ↔ ∃ k c, o !! k = Some c ∧ ck_DedupeKey (cb_task c) = key.
Proof. done. Qed.
Lemma outbox_ok_insert next o c :
  outbox_ok next o → ck_ID (cb_task c) = next → ¬ has_key (ck_DedupeKey (cb_task c)) o →
  outbox_ok (next + 1) (<[next := c]> o).
Proof.
  intros [H1 H2] Hid Hk. split.
  - apply map_Forall_insert_2; [split; [done|lia]|]. eapply map_Forall_impl; [done|]. cbn. intros k c' [? ?]. split; [done|lia].
  - intros k k' c1 c2. rewrite !lookup_insert_Some. intros [[<- <-]|[Hn E1]] [[<- <-]|[Hn' E2]] Heq; try done; try by eauto.
    all: exfalso; apply Hk, has_key_lookup; eauto.
Qed.
Lemma outbox_ok_next next next' o : outbox_ok next o → next ≤ next' → outbox_ok next' o.
Proof.
  intros [H1 H2] Hle. split; [|done]. eapply map_Forall_impl; [done|]. cbn. intros k c' [? ?]. split; [done|lia].
Qed.
(** Rows change in place: same ids, same keys. *)
Lemma outbox_ok_moved next o o' : outbox_ok next o →
  (∀ k c', o' !! k = Some c' → ∃ c, o !! k = Some c ∧ same_task c c') → outbox_ok next o'.
Proof.
  intros [H1 H2] Hm. split.
  - intros k c' E. destruct (Hm _ _ E) as (c & Ec & -> & _). apply (H1 _ _ Ec).
  - intros k k' c1 c2 E1 E2 Heq. destruct (Hm _ _ E1) as (d1 & F1 & _ & G1). destruct (Hm _ _ E2) as (d2 & F2 & _ & G2).
    apply (H2 _ _ _ _ F1 F2). congruence.
Qed.
Lemma outbox_ok_alter next o id f : (∀ c, same_task c (f c)) → outbox_ok next o → outbox_ok next (alter f id o).
Proof.
  intros Hf Ho. apply (outbox_ok_moved _ o); [done|]. intros k c'. rewrite lookup_alter.
  destruct (decide (id = k)) as [->|]; destruct (o !! k) as [c|]; cbn; intros [= <-]; eexists; split; try done; by split.
Qed.
Lemma outbox_ok_empty next : outbox_ok next ∅.
Proof. split; [apply map_Forall_empty|]. done. Qed.

(** The rows a claim returns and what it leaves. *)
Record claims_rows (ok : callback → Prop) (f : callback → callback) (o o' : outbox) (tasks : list CallbackTask) : Prop := {
  claims_once : NoDup (ck_ID <$> tasks);
  claims_row k : k ∈ ck_ID <$> tasks → ∃ c, o !! k = Some c ∧ ok c ∧ cb_task c ∈ tasks ∧ o' !! k = Some (f c);
  claims_else k : k ∉ ck_ID <$> tasks → o' !! k = o !! k
}.
Lemma claims_rows_moved lease now limit order f o o' tasks id c :
  claims_rows (claimable lease now) f o o' tasks →
  (∀ c, cb_task (f c) = cb_task c ∧ cb_Status (f c) = "processing" ∧ (lease ≠ None → cb_updatedAt (f c) = now)) →
  o !! id = Some c → ∃ c', o' !! id = Some c' ∧ cb_moved lease (CClaim now limit order) tasks id c c'.
Proof.
  intros Hcl Hf E. destruct (decide (id ∈ ck_ID <$> tasks)) as [Hin|Hnot].
  - destruct (claims_row _ _ _ _ _ Hcl id Hin) as (c0 & E0 & Hok & Ht & E'). assert (c0 = c) as -> by congruence.
    exists (f c). destruct (Hf c) as (F1 & F2 & F3). split; [done|]. by eapply moved_claim.
  - exists c. split; [by rewrite (claims_else _ _ _ _ _ Hcl)|]. by apply moved_not.
Qed.
Lemma claims_rows_ok next ok f o o' tasks :
  claims_rows ok f o o' tasks → (∀ c, same_task c (f c)) → outbox_ok next o → outbox_ok next o'.
Proof.
  intros Hcl Hf Ho. apply (outbox_ok_moved _ o); [done|]. intros k c' E.
  destruct (decide (k ∈ ck_ID <$> tasks)) as [Hin|Hnot].
  - destruct (claims_row _ _ _ _ _ Hcl k Hin) as (c & Ec & _ & _ & E'). exists c. split; [done|]. by simplify_eq.
  - rewrite (claims_else _ _ _ _ _ Hcl k Hnot) in E. exists c'. split; [done|by split].
Qed.
Lemma claims_rows_new ok f o o' tasks id : claims_rows ok f o o' tasks → o !! id = None → o' !! id = None.
Proof.
  intros Hcl E. rewrite (claims_else _ _ _ _ _ Hcl); [done|]. intros Hin.
  destruct (claims_row _ _ _ _ _ Hcl id Hin) as (c & Ec & _). congruence.
Qed.

(** ** The memory outbox implements the interface *)
Section Memory.
Context {HJ : PayloadJson}.

Definition mem_step (call : cb_call) (s : MemOutbox.store) : MemOutbox.store * (list CallbackTask * option go_error) :=
  match call with
  | CEnqueue now input => let '(s', err) := MemOutbox.EnqueueCallback now input s in (s', ([], err))
  | CClaim now limit keys => let '(s', tasks) := MemOutbox.ClaimDueCallbacks now limit keys s in (s', (tasks, None))
  | CSent now id => (MemOutbox.MarkCallbackSent id s, ([], None))
  | CRetry now id retries next err => (MemOutbox.MarkCallbackRetry id retries next err s, ([], None))
  | CFatal now id err => (MemOutbox.MarkCallbackFatal id err s, ([], None))
  end.
#[local] Instance mem_callbacks : CallbackStore MemOutbox.store := {|
  cs_next s := MemOutbox.memoryOutboxID s + 1;
  cs_outbox := MemOutbox.callbacks;
  cs_lease := None;
  cs_step := mem_step;
  cs_missing := MemOutbox.listTransactionsMissingCallback
|}.

Definition processing (c : callback) : callback := c <| cb_Status := "processing" |>.
Lemma claims_rows_nil ok f o : claims_rows ok f o o [].
Proof. split; [constructor|by intros k ?%elem_of_nil|done]. Qed.
(** The loop: the tasks it adds, and a bound on all of them. *)
Lemma claim_loop now limit keys tasks o : NoDup keys → map_Forall (λ k c, ck_ID (cb_task c) = k) o →
  let '(o', tasks') := MemOutbox.claim_range now limit keys tasks o in
  ∃ new, tasks' = tasks ++ new ∧ claims_rows (claimable None now) processing o o' new ∧
    (∀ k, k ∈ ck_ID <$> new → k ∈ keys) ∧ Z.of_nat (length tasks') ≤ Z.max limit (Z.of_nat (length tasks)).
Proof.
  intros Hnd. revert tasks o. induction Hnd as [|k keys Hk Hnd IH]; intros tasks o Ho; cbn [MemOutbox.claim_range].
  { exists []. rewrite app_nil_r. split_and!; [done|apply claims_rows_nil|done|lia]. }
  assert (Hskip : ∀ o' tasks', (∃ new, tasks' = tasks ++ new ∧ claims_rows (claimable None now) processing o o' new ∧
      (∀ k', k' ∈ ck_ID <$> new → k' ∈ keys) ∧ Z.of_nat (length tasks') ≤ Z.max limit (Z.of_nat (length tasks))) →
    ∃ new, tasks' = tasks ++ new ∧ claims_rows (claimable None now) processing o o' new ∧
      (∀ k', k' ∈ ck_ID <$> new → k' ∈ k :: keys) ∧ Z.of_nat (length tasks') ≤ Z.max limit (Z.of_nat (length tasks))).
  { intros o' tasks' (new & H1 & H2 & H3 & H4). exists new. split_and!; try done. intros k' Hk'. right. by apply H3. }
  case_decide as Hlim.
  { exists []. rewrite app_nil_r. split_and!; [done|apply claims_rows_nil|by intros ? ?%elem_of_nil|lia]. }
  destruct (o !! k) as [c|] eqn:E;
    [|specialize (IH tasks o Ho); destruct (MemOutbox.claim_range _ _ _ _ _); by apply Hskip].
  case_decide as Hdue; [specialize (IH tasks o Ho); destruct (MemOutbox.claim_range _ _ _ _ _); by apply Hskip|].
  assert (Hid : ck_ID (cb_task c) = k) by apply (Ho _ _ E).
  specialize (IH (tasks ++ [cb_task c]) (<[k := processing c]> o)).
  fold (processing c). destruct (MemOutbox.claim_range _ _ _ _ _) as [o' tasks'].
  destruct IH as (new & -> & [Hn Hrow Helse] & Hin & Hlen); [by apply map_Forall_insert_2|].
  exists (cb_task c :: new). rewrite <- app_assoc. split_and!; [done| | |].
  - assert (Hnk : k ∉ ck_ID <$> new) by (intros H; by apply Hk, Hin). split.
    + cbn. rewrite Hid. by constructor.
    + intros k'. cbn. rewrite Hid, elem_of_cons. intros [->|Hk'].
      * exists c. split_and!; [done| |by left|by rewrite (Helse k Hnk), lookup_insert_eq].
        left. destruct (decide (cb_Status c = "pending")); [split; [done|lia]|tauto].
      * destruct (Hrow k' Hk') as (c' & E' & Hok & Ht & Eo). rewrite lookup_insert_ne in E' by congruence.
        exists c'. split_and!; try done. by right.
    + intros k'. cbn. rewrite Hid, not_elem_of_cons. intros [Hne Hk']. by rewrite (Helse _ Hk'), lookup_insert_ne.
  - intros k'. cbn. rewrite Hid, !elem_of_cons. intros [->|Hk']; [by left|right; by apply Hin].
  - rewrite !length_app in *. cbn in *. lia.
Qed.
Lemma mem_claim now limit keys s : NoDup keys → cs_ok s →
  let '(s', tasks) := MemOutbox.ClaimDueCallbacks now limit keys s in
  MemOutbox.memoryOutboxID s' = MemOutbox.memoryOutboxID s ∧
  claims_rows (claimable None now) processing (MemOutbox.callbacks s) (MemOutbox.callbacks s') tasks ∧
  Z.of_nat (length tasks) ≤ Z.max 0 limit.
Proof.
  intros Hk [Ho _]. unfold MemOutbox.ClaimDueCallbacks.
  pose proof (claim_loop now limit keys [] (MemOutbox.callbacks s) Hk) as H.
  destruct (MemOutbox.claim_range _ _ _ _ _) as [o tasks]. destruct H as (new & -> & H1 & _ & H2).
  - eapply map_Forall_impl; [exact Ho|]. by intros k c [? _].
  - split_and!; [done|exact H1|]. cbn in *. lia.
Qed.
Lemma lookup_mark id f (o : outbox) k c : o !! k = Some c →
  alter f id o !! k = Some (if decide (id = k) then f c else c).
Proof. intros E. rewrite lookup_alter, E. destruct (decide (id = k)) as [->|]; [by rewrite E|done]. Qed.

Lemma missing_loop kind completedOnly limit o txs out :
  let l := MemOutbox.missing kind completedOnly limit o txs out in
  (∀ tx, tx ∈ l → tx ∈ out ∨ (tx ∈ txs ∧ is_missing kind completedOnly o tx)) ∧
  Z.of_nat (length l) ≤ Z.max limit (Z.of_nat (length out)) ∧
  (∀ tx, tx ∈ out → tx ∈ l) ∧
  (Z.of_nat (length l) < limit → ∀ tx, tx ∈ txs → is_missing kind completedOnly o tx → tx ∈ l).
Proof.
  cbv zeta. revert out. induction txs as [|tx txs IH]; intros out; cbn [MemOutbox.missing].
  { split_and!; [by left|lia|done|by intros _ tx ?%elem_of_nil]. }
  case_decide as Hl; [split_and!; [by left|lia|done|intros; lia]|].
  assert (Hskip : ¬ is_missing kind completedOnly o tx → let l := MemOutbox.missing kind completedOnly limit o txs out in
    (∀ tx', tx' ∈ l → tx' ∈ out ∨ (tx' ∈ tx :: txs ∧ is_missing kind completedOnly o tx')) ∧
    Z.of_nat (length l) ≤ Z.max limit (Z.of_nat (length out)) ∧ (∀ tx', tx' ∈ out → tx' ∈ l) ∧
    (Z.of_nat (length l) < limit → ∀ tx', tx' ∈ tx :: txs → is_missing kind completedOnly o tx' → tx' ∈ l)).
  { intros Hno. destruct (IH out) as (H1 & H2 & H3 & H4). split_and!; [|done|done|].
    - intros tx' [?|[? ?]]%H1; [by left|right; split; [by right|done]].
    - intros Hlen tx' [->|Hin]%elem_of_cons Hm; [done|by apply H4]. }
  case_decide as Hc; [apply Hskip; intros [_ ?]; naive_solver|].
  case_decide as Hk; [apply Hskip; by intros [? _]|].
  destruct (IH (out ++ [tx])) as (H1 & H2 & H3 & H4). rewrite length_app in H2. cbn in H2. split_and!.
  - intros tx' [Hin|[? ?]]%H1; [|right; split; [by right|done]].
    apply elem_of_app in Hin as [?|Hin%list_elem_of_singleton]; [by left|right]. subst tx'. split; [by left|].
    split; [done|]. intros Hco Hs. by apply Hc.
  - lia.
  - intros tx' Hin. apply H3, elem_of_app. by left.
  - intros Hlen tx' [->|Hin]%elem_of_cons Hm; [apply H3, elem_of_app; right; by left|by apply H4].
Qed.
Lemma in_range (txs : gmap Z Transaction) order tx : order ≡ₚ (map_to_list txs).*1 →
  tx ∈ omap (λ k, txs !! k) order ↔ ∃ tid, txs !! tid = Some tx.
Proof.
  intros Ho. rewrite list_elem_of_omap. split; [intros (k & _ & E); by exists k|].
  intros [tid E]. exists tid. split; [|done]. rewrite Ho. apply list_elem_of_fmap. exists (tid, tx).
  split; [done|by apply elem_of_map_to_list].
Qed.
#[local] Instance mem_callback_laws : CallbackStoreLaws MemOutbox.store.
Proof.
  split.
  - intros call s Ha Hok. destruct call as [now input|now limit keys|now id|now id n next err|now id err]; cbn.
    + unfold MemOutbox.EnqueueCallback. case_decide as Hk; [done|].
      destruct (json_Marshal _) as [payload|err]; [|done]. unfold cs_ok. cbn.
      by apply (outbox_ok_insert (MemOutbox.memoryOutboxID s + 1)).
    + pose proof (mem_claim now limit keys s Ha Hok) as H. destruct (MemOutbox.ClaimDueCallbacks _ _ _ _) as [s' tasks].
      destruct H as (Hid & H & _). unfold cs_ok. cbn. rewrite Hid. eapply claims_rows_ok; [done|by split|done].
    + by apply outbox_ok_alter.
    + by apply outbox_ok_alter.
    + by apply outbox_ok_alter.
  - intros call s id c Ha Hok E. destruct call as [now input|now limit keys|now k|now k n next err|now k err]; cbn.
    + assert (Hsame : cb_moved cs_lease (CEnqueue now input) [] id c c) by (apply moved_not; [apply not_elem_of_nil|done..]).
      unfold MemOutbox.EnqueueCallback. case_decide; [by exists c|]. destruct (json_Marshal _); [|by exists c].
      exists c. split; [|done]. cbn. rewrite lookup_insert_ne; [done|]. intros <-.
      destruct Hok as [Hok _]. destruct (Hok _ _ E) as [_ Hlt]. unfold cs_next in Hlt. cbn in Hlt. lia.
    + pose proof (mem_claim now limit keys s Ha Hok) as H. destruct (MemOutbox.ClaimDueCallbacks _ _ _ _) as [s' tasks].
      destruct H as (_ & H & _). eapply claims_rows_moved; [done|by split|done].
    + eexists. split; [by apply lookup_mark|]. case_decide as Hk; [subst; apply (moved_done _ _ _ _ _ _ now EmptyString); [by left|done..|left]|].
      apply moved_not; [apply not_elem_of_nil|intros; congruence..|done].
    + eexists. split; [by apply lookup_mark|]. case_decide as Hk.
      * subst. eapply moved_retry; [done|done|done|done|apply timestamptz_bound].
      * apply moved_not; [apply not_elem_of_nil|intros; congruence..|done].
    + eexists. split; [by apply lookup_mark|]. case_decide as Hk; [subst; eapply moved_done; [by right|done..|right; left]|].
      apply moved_not; [apply not_elem_of_nil|intros; congruence..|done].
  - intros call s id c' Ha Hok E. change (MemOutbox.callbacks s !! id = None) in E.
    destruct call as [now input|now limit keys|now k|now k n next err|now k err]; cbn.
    + unfold MemOutbox.EnqueueCallback. case_decide as Hk; [cbn; congruence|].
      destruct (json_Marshal _) as [payload|]; [|cbn; congruence]. cbn. rewrite lookup_insert_Some.
      intros [[_ <-]|[_ ?]]; [|congruence]. by exists now, input.
    + pose proof (mem_claim now limit keys s Ha Hok) as H. destruct (MemOutbox.ClaimDueCallbacks _ _ _ _) as [s' tasks].
      destruct H as (_ & H & _). cbn. rewrite (claims_rows_new _ _ _ _ _ _ H E). done.
    + intros H. by rewrite (proj2 (lookup_alter_None _ _ _ _) E) in H.
    + intros H. by rewrite (proj2 (lookup_alter_None _ _ _ _) E) in H.
    + intros H. by rewrite (proj2 (lookup_alter_None _ _ _ _) E) in H.
  - intros now input s. cbn. unfold MemOutbox.EnqueueCallback. case_decide as Hk; [done|].
    destruct (json_Marshal _) as [payload|]; [|done]. intros _. cbn. apply has_key_lookup. eexists _, _. split; [by rewrite lookup_insert_eq|done].
  - intros call s Ha Hok. destruct call as [now input|now limit keys|now k|now k n next err|now k err]; cbn;
      try (split_and!; [constructor|by intros ? ?%elem_of_nil|done]).
    + unfold MemOutbox.EnqueueCallback. repeat case_match; cbn; (split_and!; [constructor|by intros ? ?%elem_of_nil|done]).
    + pose proof (mem_claim now limit keys s Ha Hok) as H. destruct (MemOutbox.ClaimDueCallbacks _ _ _ _) as [s' tasks].
      destruct H as (_ & [Hn Hr _] & Hlen). cbn. split_and!; [done| |by intros ? ? ? [= <- <- <-]].
      intros task Ht. destruct (Hr (ck_ID task)) as (c & E & _); [by apply list_elem_of_fmap_2|by exists c].
  - intros order kind completedOnly limit txs s Ho Hl.
    destruct (missing_loop kind completedOnly limit (MemOutbox.callbacks s) (omap (λ k, txs !! k) order) []) as (H1 & H2 & _ & H4).
    cbv zeta. split_and!.
    + intros tx [?%elem_of_nil|[[tid E]%(in_range _ _ _ Ho) Hm]]%H1; [done|by exists tid].
    + cbn in H2. cbn [cs_missing mem_callbacks]. unfold MemOutbox.listTransactionsMissingCallback. lia.
    + intros Hlen tx (tid & E & Hm). apply H4; [done| |done]. apply (in_range _ _ _ Ho). by exists tid.
Qed.
End Memory.

(** ** The PostgreSQL outbox implements the interface *)
Section Postgres.
Context {HJ : PayloadJson}.

Definition pg_step (call : cb_call) (s : PgOutbox.store) : PgOutbox.store * (list CallbackTask * option go_error) :=
  match call with
  | CEnqueue now input => let '(s', err) := PgOutbox.EnqueueCallback now input s in (s', ([], err))
  | CClaim now limit locked =>
    match PgOutbox.ClaimDueCallbacks now limit locked s with
    | (s', inl tasks) => (s', (tasks, None))
    | (s', inr err) => (s', ([], Some err))
    end
  | CSent now id => (PgOutbox.MarkCallbackSent now id s, ([], None))
  | CRetry now id retries next err => let '(s', e) := PgOutbox.MarkCallbackRetry now id retries next err s in (s', ([], e))
  | CFatal now id err => (PgOutbox.MarkCallbackFatal now id err s, ([], None))
  end.
#[local] Instance pg_callbacks : CallbackStore PgOutbox.store := {|
  cs_next := PgOutbox.sequence;
  cs_outbox := PgOutbox.callbacks;
  cs_lease := Some PgOutbox.callback_lease;
  cs_step := pg_step;
  cs_missing _ kind completedOnly limit txs s :=
    match PgOutbox.listTransactionsMissingCallback kind completedOnly limit txs s with inl l => l | inr _ => [] end
|}.

Lemma selected_elem now limit locked (o : outbox) k c :
  (k, c) ∈ PgOutbox.selected now limit locked o → k ∉ locked ∧ PgOutbox.callback_due now c ∧ o !! k = Some c.
Proof.
  intros H. assert (Hs : (k, c) ∈ merge_sort PgOutbox.by_id
    (filter (λ kc, kc.1 ∉ locked ∧ PgOutbox.callback_due now kc.2) (map_to_list o))) by (eapply elem_of_submseteq; [done|apply submseteq_take]).
  rewrite merge_sort_Permutation, list_elem_of_filter, elem_of_map_to_list in Hs. tauto.
Qed.
Lemma selected_once now limit locked (o : outbox) : NoDup (PgOutbox.selected now limit locked o).*1.
Proof.
  unfold PgOutbox.selected. rewrite fmap_take. eapply sublist_NoDup; [|apply sublist_take].
  rewrite merge_sort_Permutation. eapply sublist_NoDup; [apply (NoDup_fst_map_to_list o)|].
  apply fmap_sublist, sublist_filter.
Qed.
Lemma marked_all now (rows : list (Z * callback)) s : NoDup rows.*1 →
  let s' := foldl (λ s kc, PgOutbox.alter_callback kc.1 (PgOutbox.processing now) s) s rows in
  PgOutbox.sequence s' = PgOutbox.sequence s ∧
  ∀ k, PgOutbox.callbacks s' !! k =
    if decide (k ∈ rows.*1) then PgOutbox.processing now <$> PgOutbox.callbacks s !! k else PgOutbox.callbacks s !! k.
Proof.
  cbv zeta. revert s. induction rows as [|[k0 c0] rows IH]; intros s Hnd; [done|].
  inversion Hnd as [|? ? Hk0 Hnd']; subst. cbn [foldl fst].
  destruct (IH (PgOutbox.alter_callback k0 (PgOutbox.processing now) s) Hnd') as [IH1 IH2]. split; [by rewrite IH1|].
  intros k. rewrite IH2. unfold PgOutbox.alter_callback. cbv [set_field]. cbn [PgOutbox.callbacks fmap list_fmap fst].
  destruct (decide (k = k0)) as [->|Hne].
  - rewrite decide_False, decide_True, lookup_alter_eq by (done || by left). done.
  - rewrite lookup_alter_ne by done.
    destruct (decide (k ∈ rows.*1)) as [Hin|Hin]; [rewrite decide_True by (by right)|rewrite decide_False by (rewrite elem_of_cons; tauto)]; done.
Qed.
Lemma pg_claim now limit locked s : cs_ok s → 0 ≤ limit →
  let rows := PgOutbox.selected now limit locked (PgOutbox.callbacks s) in
  let s' := foldl (λ s kc, PgOutbox.alter_callback kc.1 (PgOutbox.processing now) s) s rows in
  let tasks := (λ kc, cb_task kc.2) <$> rows in
  PgOutbox.ClaimDueCallbacks now limit locked s = (s', inl tasks) ∧
  PgOutbox.sequence s' = PgOutbox.sequence s ∧
  claims_rows (claimable (Some PgOutbox.callback_lease) now) (PgOutbox.processing now) (PgOutbox.callbacks s) (PgOutbox.callbacks s') tasks ∧
  Z.of_nat (length tasks) ≤ limit.
Proof.
  intros [Hok _] Hlim. cbv zeta.
  pose proof (selected_once now limit locked (PgOutbox.callbacks s)) as Hnd.
  pose proof (selected_elem now limit locked (PgOutbox.callbacks s)) as Hel.
  assert (Hlen : (length (PgOutbox.selected now limit locked (PgOutbox.callbacks s)) ≤ Z.to_nat limit)%nat)
    by (unfold PgOutbox.selected; rewrite length_take; lia).
  split; [unfold PgOutbox.ClaimDueCallbacks; by rewrite decide_False by lia|].
  destruct (marked_all now _ s Hnd) as [Hseq Hlook]. split; [exact Hseq|].
  set (rows := PgOutbox.selected _ _ _ _) in *.
  assert (Hids : ck_ID <$> ((λ kc : Z * callback, cb_task kc.2) <$> rows) = rows.*1).
  { rewrite <- list_fmap_compose. apply list_fmap_ext. intros i [k c] Hi. cbn.
    apply list_elem_of_lookup_2, Hel in Hi as (_ & _ & Hi). by destruct (Hok _ _ Hi). }
  split; [|rewrite length_fmap; lia]. split.
  - by rewrite Hids.
  - intros k. rewrite Hids. intros Hk. pose proof Hk as Hin. apply list_elem_of_fmap in Hk as ([k' c] & -> & Hk). cbn in *.
    destruct (Hel _ _ Hk) as (_ & Hdue & E). exists c. split_and!; [done| | |].
    + destruct Hdue as [?|[? ?]]; [by left|right; split; [done|]; by exists PgOutbox.callback_lease].
    + change (cb_task c) with ((λ kc : Z * callback, cb_task kc.2) (k', c)). by apply list_elem_of_fmap_2.
    + rewrite Hlook, decide_True by done. by rewrite E.
  - intros k. rewrite Hids. intros Hk. by rewrite Hlook, decide_False.
Qed.
Lemma unclaimed_same lease now limit order id c :
  cb_moved lease (CClaim now limit order) [] id c c.
Proof. apply moved_not; [apply not_elem_of_nil|done..]. Qed.
(** A claim, whatever its limit. *)
Lemma pg_claim_rows now limit locked s : cs_ok s →
  let '(s', (tasks, _)) := pg_step (CClaim now limit locked) s in
  PgOutbox.sequence s' = PgOutbox.sequence s ∧
  claims_rows (claimable (Some PgOutbox.callback_lease) now) (PgOutbox.processing now) (PgOutbox.callbacks s) (PgOutbox.callbacks s') tasks ∧
  Z.of_nat (length tasks) ≤ Z.max 0 limit.
Proof.
  intros Hok. cbn [pg_step]. destruct (decide (limit < 0)) as [Hneg|Hlim].
  - unfold PgOutbox.ClaimDueCallbacks. rewrite decide_True by done.
    split_and!; [done| |cbn; lia]. split; [constructor|by intros k ?%elem_of_nil|done].
  - destruct (pg_claim now limit locked s Hok) as (-> & H1 & H2 & H3); [lia|]. split_and!; [done|done|lia].
Qed.

#[local] Instance pg_callback_laws : CallbackStoreLaws PgOutbox.store.
Proof.
  split.
  - intros call s Ha Hok. destruct call as [now input|now limit locked|now id|now id n next err|now id err]; cbn.
    + unfold PgOutbox.EnqueueCallback. destruct (json_Marshal _) as [payload|err]; [|done].
      case_decide; [done|]. case_decide as Hk; unfold cs_ok; cbn.
      * eapply outbox_ok_next; [exact Hok|]. change (PgOutbox.sequence s ≤ PgOutbox.sequence s + 1). lia.
      * by apply outbox_ok_insert.
    + pose proof (pg_claim_rows now limit locked s Hok) as H. cbn [pg_step] in H.
      destruct (PgOutbox.ClaimDueCallbacks _ _ _ _) as [s' [tasks|err]]; destruct H as (Hid & H & _);
        unfold cs_ok; cbn; rewrite Hid; (eapply claims_rows_ok; [done|by split|done]).
    + by apply outbox_ok_alter.
    + unfold PgOutbox.MarkCallbackRetry. case_decide; [done|]. by apply outbox_ok_alter.
    + by apply outbox_ok_alter.
  - intros call s id c Ha Hok E. change (PgOutbox.callbacks s !! id = Some c) in E.
    destruct call as [now input|now limit locked|now k|now k n next err|now k err]; cbn.
    + assert (Hsame : cb_moved cs_lease (CEnqueue now input) [] id c c) by (apply moved_not; [apply not_elem_of_nil|done..]).
      unfold PgOutbox.EnqueueCallback. destruct (json_Marshal _); [|by exists c].
      case_decide; [by exists c|]. case_decide; [by exists c|].
      exists c. split; [|done]. cbn. rewrite lookup_insert_ne; [done|]. intros <-.
      destruct Hok as [Hok _]. destruct (Hok _ _ E) as [_ Hlt]. unfold cs_next in Hlt. cbn in Hlt. lia.
    + pose proof (pg_claim_rows now limit locked s Hok) as H. cbn [pg_step] in H.
      destruct (PgOutbox.ClaimDueCallbacks _ _ _ _) as [s' [tasks|err]]; destruct H as (_ & H & _);
        (eapply claims_rows_moved; [done|by split|done]).
    + eexists. split; [by apply lookup_mark|]. case_decide as Hk; [subst; apply (moved_done _ _ _ _ _ _ now EmptyString); [by left|done..|left]|].
      apply moved_not; [apply not_elem_of_nil|intros; congruence..|done].
    + unfold PgOutbox.MarkCallbackRetry. case_decide as Hn; cbn.
      { exists c. split; [done|]. destruct (decide (k = id)) as [->|]; [by eapply refused_retry|].
        apply moved_not; [apply not_elem_of_nil|intros; congruence..|done]. }
      eexists. split; [by apply lookup_mark|]. case_decide as Hk.
      * subst. by eapply moved_retry.
      * apply moved_not; [apply not_elem_of_nil|intros; congruence..|done].
    + eexists. split; [by apply lookup_mark|]. case_decide as Hk; [subst; apply (moved_done _ _ _ _ _ _ now err); [by right|done..|right; left]|].
      apply moved_not; [apply not_elem_of_nil|intros; congruence..|done].
  - intros call s id c' Ha Hok E. change (PgOutbox.callbacks s !! id = None) in E.
    destruct call as [now input|now limit locked|now k|now k n next err|now k err]; cbn.
    + unfold PgOutbox.EnqueueCallback. destruct (json_Marshal _) as [payload|]; [|cbn; congruence].
      case_decide; [cbn; congruence|]. case_decide as Hk; [cbn; congruence|]. cbn. rewrite lookup_insert_Some.
      intros [[_ <-]|[_ ?]]; [|congruence]. by exists now, input.
    + pose proof (pg_claim_rows now limit locked s Hok) as H. cbn [pg_step] in H.
      destruct (PgOutbox.ClaimDueCallbacks _ _ _ _) as [s' [tasks|err]]; destruct H as (_ & H & _);
        cbn; by rewrite (claims_rows_new _ _ _ _ _ _ H E).
    + intros H. by rewrite (proj2 (lookup_alter_None _ _ _ _) E) in H.
    + unfold PgOutbox.MarkCallbackRetry. case_decide; cbn; [congruence|].
      intros Hnew. by rewrite (proj2 (lookup_alter_None _ _ _ _) E) in Hnew.
    + intros H. by rewrite (proj2 (lookup_alter_None _ _ _ _) E) in H.
  - intros now input s. cbn. unfold PgOutbox.EnqueueCallback. destruct (json_Marshal _) as [payload|]; [|done].
    case_decide; [done|]. case_decide; [done|]. intros _. cbn. apply has_key_lookup. eexists _, _. split; [by rewrite lookup_insert_eq|done].
  - intros call s Ha Hok. destruct call as [now input|now limit locked|now k|now k n next err|now k err].
    2: { pose proof (pg_claim_rows now limit locked s Hok) as H. cbn [pg_step] in H. cbn.
      destruct (PgOutbox.ClaimDueCallbacks _ _ _ _) as [s' [tasks|err]]; destruct H as (_ & [Hn Hr _] & Hlen); cbn;
        (split_and!; [done| |by intros ? ? ? [= <- <- <-]]);
        intros task Ht; destruct (Hr (ck_ID task)) as (c & E & _); (by apply list_elem_of_fmap_2) || by exists c. }
    all: cbn; unfold PgOutbox.EnqueueCallback, PgOutbox.MarkCallbackRetry; repeat case_match; cbn;
      (split_and!; [constructor|by intros ? ?%elem_of_nil|done]).
  - intros order kind completedOnly limit txs s Ho Hl. cbn [cs_missing pg_callbacks].
    unfold PgOutbox.listTransactionsMissingCallback. rewrite decide_False by lia. cbv zeta.
    set (all := merge_sort _ _).
    assert (Hall : ∀ tx, tx ∈ all ↔ ∃ tid, txs !! tid = Some tx ∧ is_missing kind completedOnly (PgOutbox.callbacks s) tx).
    { intros tx. unfold all. rewrite merge_sort_Permutation, list_elem_of_filter, list_elem_of_fmap. split.
      - intros [Hm ([tid tx'] & -> & E%elem_of_map_to_list)]. by exists tid.
      - intros (tid & E & Hm). split; [done|]. exists (tid, tx). split; [done|by apply elem_of_map_to_list]. }
    split_and!.
    + intros tx Hin. apply Hall. eapply elem_of_submseteq; [exact Hin|apply submseteq_take].
    + rewrite length_take. lia.
    + intros Hlen tx Hm. rewrite take_ge; [by apply Hall|]. rewrite length_take in Hlen. lia.
Qed.
End Postgres.

(** ** Histories *)
Section Histories.
Context {S : Type} {HS : CallbackStore S} {HL : CallbackStoreLaws S}.
Implicit Types (s : S) (cs : list cb_call).

(** A history and the tasks of each of its calls. *)
Fixpoint cs_run cs s : S * list (list CallbackTask) :=
  match cs with
  | [] => (s, [])
  | call :: cs =>
    let '(s, (tasks, _)) := cs_step call s in
    let '(s, l) := cs_run cs s in (s, tasks :: l)
  end.
Lemma cs_run_ok cs s : Forall cb_asked cs → cs_ok s → cs_ok (cs_run cs s).1.
Proof.
  intros Hcs. revert s. induction Hcs as [|call cs Ha _ IH]; intros s Hok; [done|].
  pose proof (cs_step_ok call s Ha Hok) as H. cbn [cs_run]. destruct (cs_step call s) as [s' [tasks err]].
  specialize (IH s' H). by destruct (cs_run cs s').
Qed.
Lemma moved_same_task lease call tasks id c c' : cb_moved lease call tasks id c c' → same_task c c'.
Proof. intros []; subst; try done; split; congruence. Qed.
(** A key stays. *)
Lemma cs_run_key cs s key : Forall cb_asked cs → cs_ok s → has_key key (cs_outbox s) → has_key key (cs_outbox (cs_run cs s).1).
Proof.
  intros Hcs. revert s. induction Hcs as [|call cs Ha _ IH]; intros s Hok Hk; [done|].
  pose proof (cs_step_ok call s Ha Hok) as Hok'. apply has_key_lookup in Hk as (id & c & E & Hkey).
  destruct (cs_step_moved call s id c Ha Hok E) as (c' & E' & [_ Hm]%moved_same_task).
  cbn [cs_run]. destruct (cs_step call s) as [s' [tasks err]].
  assert (H : has_key key (cs_outbox s')) by (apply has_key_lookup; exists id, c'; split; [done|congruence]).
  specialize (IH s' Hok' H). by destruct (cs_run cs s').
Qed.

(** What holds of a claimed callback until it is marked for a retry or claimed
    again. *)
Definition in_delivery (t1 : Time) (c : callback) : Prop :=
  (cb_Status c = "processing" ∧ (cs_lease (S := S) ≠ None → cb_updatedAt c = t1)) ∨ cb_Status c ∈ ["sent"; "fatal"].
Definition done_with (id : Z) (call : cb_call) : bool :=
  match call with CSent _ k | CFatal _ k _ => bool_decide (k = id) | _ => false end.
Definition retries_it (id : Z) (call : cb_call) : bool :=
  match call with CRetry _ k _ _ _ => bool_decide (k = id) | _ => false end.

Lemma in_delivery_claimable t1 t2 c : in_delivery t1 c → claimable (cs_lease (S := S)) t2 c →
  cb_Status c = "processing" ∧ ∃ d, cs_lease (S := S) = Some d ∧ t1 + d ≤ t2.
Proof.
  intros Hd [[Hp _]|[Hp (d & Hl & Hle)]]; destruct Hd as [[Hs Hu]|Hs]; rewrite Hp in Hs; try done;
    try by rewrite !elem_of_cons, elem_of_nil in Hs; naive_solver.
  split; [done|]. exists d. split; [done|]. rewrite Hu in Hle by congruence. lia.
Qed.
Lemma in_delivery_run t1 id cs s c : Forall cb_asked cs → cs_ok s → cs_outbox s !! id = Some c → in_delivery t1 c →
  Forall (λ call, ¬ retries_it id call) cs → Forall (λ tasks, id ∉ ck_ID <$> tasks) (cs_run cs s).2 →
  ∃ c', cs_outbox (cs_run cs s).1 !! id = Some c' ∧ in_delivery t1 c' ∧
    (cb_Status c' = "processing" → cb_Status c = "processing" ∧ Forall (λ call, ¬ done_with id call) cs).
Proof.
  intros Hcs. revert s c. induction Hcs as [|call cs Ha Hcs IH]; intros s c Hok E Hd Hr Hn; [by exists c|].
  inversion Hr as [|? ? Hr1 Hr2]; subst. pose proof (cs_step_ok call s Ha Hok) as Hok'.
  destruct (cs_step_moved call s id c Ha Hok E) as (c1 & E1 & Hm). cbn [cs_run] in *.
  destruct (cs_step call s) as [s' [tasks err]]. specialize (IH s' c1 Hok'). destruct (cs_run cs s') as [s'' l].
  cbn [fst snd] in *. inversion Hn as [|? ? Hn1 Hn2]; subst.
  assert (Hc1 : in_delivery t1 c1 ∧ (cb_Status c1 = "processing" → cb_Status c = "processing" ∧ ¬ done_with id call)).
  { destruct Hm as [| now err' Hcall _ _ Hst|now n next err' -> _ _ _ _|_ Hns Hnf _ ->|now n next err' -> _ _ ->]; [done| | | |].
    - split; [by right|]. intros Hp. rewrite Hp, !elem_of_cons, elem_of_nil in Hst. naive_solver.
    - exfalso. apply Hr1. cbn. by rewrite bool_decide_true.
    - split; [done|]. intros Hp. split; [done|]. intros Hdone.
      destruct call as [| |now k| |now k err']; try done; cbn in Hdone; apply bool_decide_unpack in Hdone; subst;
        [by apply (Hns now)|by apply (Hnf now err')].
    - exfalso. apply Hr1. cbn. by rewrite bool_decide_true. }
  destruct Hc1 as [Hd1 Hs1]. destruct (IH E1 Hd1 Hr2 Hn2) as (c' & E' & Hd' & Hs').
  exists c'. split_and!; [done|done|]. intros Hp. destruct (Hs' Hp) as [Hp1 Hf]. destruct (Hs1 Hp1) as [Hp0 Hnd].
  split; [done|by constructor].
Qed.
Lemma claim_moved call s id c : cb_asked call → cs_ok s → cs_outbox s !! id = Some c →
  id ∈ ck_ID <$> (cs_step call s).2.1 →
  ∃ now limit order c', call = CClaim now limit order ∧ claimable (cs_lease (S := S)) now c ∧
    cs_outbox (cs_step call s).1 !! id = Some c' ∧ in_delivery now c' ∧ cb_Status c' = "processing".
Proof.
  intros Ha Hok E Hin. destruct (cs_step_moved call s id c Ha Hok E) as (c' & E' & Hm).
  destruct Hm as [now limit order -> _ _ Hcl _ Hs Hu|? ? _ Ht|? ? ? ? _ Ht|Hnot|? ? ? ? _ _ Ht]; try (rewrite Ht in Hin; by apply elem_of_nil in Hin).
  - exists now, limit, order, c'. split_and!; try done. left. by split.
  - done.
Qed.
End Histories.

(** A callback is delivered by one worker at a time.  Take two claims that
    both return a callback, in any store that implements the interface, with any
    history between them in which it is neither claimed nor put back for a retry:
    then the store's claims have a lease, the lease of the first was over at the
    second, and the callback was not reported sent or failed for good in
    between.  In memory, where a claim has no lease, there are no two such
    claims. *)
Theorem callback_claimed_apart {S} `{CallbackStoreLaws S} (s : S) (id : Z) (t1 limit1 t2 limit2 : Z) (order1 order2 : list Z)
    (between : list cb_call)
    (Hok : cs_ok s) (Hasked : Forall cb_asked between) (H1 : NoDup order1) (H2 : NoDup order2)
    (Hfirst : id ∈ ck_ID <$> (cs_step (CClaim t1 limit1 order1) s).2.1)
    (Hretry : Forall (λ call, ¬ retries_it id call) between)
    (Hclaims : Forall (λ tasks, id ∉ ck_ID <$> tasks) (cs_run between (cs_step (CClaim t1 limit1 order1) s).1).2)
    (Hsecond : id ∈ ck_ID <$> (cs_step (CClaim t2 limit2 order2) (cs_run between (cs_step (CClaim t1 limit1 order1) s).1).1).2.1) :
  (∃ lease, cs_lease (S := S) = Some lease ∧ t1 + lease ≤ t2) ∧ Forall (λ call, ¬ done_with id call) between.
Proof.
  destruct (cs_step_tasks (CClaim t1 limit1 order1) s H1 Hok) as (_ & Hsome & _).
  pose proof Hfirst as Hf. apply list_elem_of_fmap in Hf as (task & Hid & Htask).
  destruct (Hsome task Htask) as [c E]. rewrite <- Hid in E.
  destruct (claim_moved (CClaim t1 limit1 order1) s id c H1 Hok E Hfirst) as (now & limit & order & c1 & [= <- <- <-] & _ & E1 & Hd1 & Hs1).
  pose proof (cs_step_ok (CClaim t1 limit1 order1) s H1 Hok) as Hok1.
  destruct (in_delivery_run t1 id between _ c1 Hasked Hok1 E1 Hd1 Hretry Hclaims) as (c2 & E2 & Hd2 & Hs2).
  pose proof (cs_run_ok between _ Hasked Hok1) as Hok2.
  destruct (claim_moved (CClaim t2 limit2 order2) _ id c2 H2 Hok2 E2 Hsecond) as (now & limit & order & c3 & [= <- <- <-] & Hcl & _).
  destruct (in_delivery_claimable _ _ _ Hd2 Hcl) as (Hp & lease & Hl & Hle).
  split; [by exists lease|]. by apply Hs2.
Qed.

(** Reconciliation settles.  In any store that implements the interface, the
    transactions listed as missing a callback are stored ones without it, at most
    [limit]; all of them when fewer are listed.  Once the callback of a listed
    transaction is enqueued without an error, whatever happens after - claims,
    retries, failures, enqueuing it again - the outbox holds exactly one callback
    with its key and no later list has the transaction again. *)
Theorem missing_callbacks_settle {S} `{CallbackStoreLaws S} (s : S) (order order' : list Z) (kind : string)
    (completedOnly completedOnly' : bool) (limit limit' : Z) (txs txs' : gmap Z Transaction) (tx : Transaction)
    (now : Time) (input : EnqueueCallbackInput) (later : list cb_call)
    (Hok : cs_ok s) (Horder : order ≡ₚ (map_to_list txs).*1) (Horder' : order' ≡ₚ (map_to_list txs').*1)
    (Hlimit : 0 ≤ limit) (Hlimit' : 0 ≤ limit')
    (Hlisted : tx ∈ cs_missing order kind completedOnly limit txs s)
    (Hkey : eq_DedupeKey input = dedupe_key kind tx)
    (Henqueued : (cs_step (CEnqueue now input) s).2.2 = None) (Hlater : Forall cb_asked later) :
  let s' := (cs_run later (cs_step (CEnqueue now input) s).1).1 in
  ((∃ tid, txs !! tid = Some tx) ∧ ¬ has_key (dedupe_key kind tx) (cs_outbox s)) ∧
  Z.of_nat (length (cs_missing order kind completedOnly limit txs s)) ≤ limit ∧
  (Z.of_nat (length (cs_missing order kind completedOnly limit txs s)) < limit →
   ∀ tid tx, txs !! tid = Some tx → is_missing kind completedOnly (cs_outbox s) tx →
     tx ∈ cs_missing order kind completedOnly limit txs s) ∧
  (exists! id, ∃ c, cs_outbox s' !! id = Some c ∧ ck_DedupeKey (cb_task c) = dedupe_key kind tx) ∧
  ∀ tx', lt_TransactionID tx' = lt_TransactionID tx → tx' ∉ cs_missing order' kind completedOnly' limit' txs' s'.
Proof.
  cbv zeta. destruct (cs_missing_spec order kind completedOnly limit txs s Horder Hlimit) as (M1 & M2 & M3).
  destruct (M1 tx Hlisted) as (tid & E & Hm & _).
  pose proof (cs_step_ok (CEnqueue now input) s I Hok) as Hok1.
  pose proof (cs_step_enqueued now input s Henqueued) as Hk. rewrite Hkey in Hk.
  pose proof (cs_run_key later _ _ Hlater Hok1 Hk) as Hk'. pose proof (cs_run_ok later _ Hlater Hok1) as [_ Huniq].
  set (s' := (cs_run later _).1) in *. split_and!; [by exists tid|done|done| | |].
  - intros Hlen tid' tx' E' Hm'. apply M3; [done|]. by exists tid'.
  - apply has_key_lookup in Hk' as (id & c & Ec & Hc). exists id. split; [by exists c|].
    intros id' (c' & Ec' & Hc'). apply (Huniq id id' c c'); [done|done|congruence].
  - intros tx' Htx' Hin. destruct (cs_missing_spec order' kind completedOnly' limit' txs' s' Horder' Hlimit') as (N1 & _).
    destruct (N1 tx' Hin) as (_ & _ & Hno & _). apply Hno. unfold dedupe_key. by rewrite Htx'.
Qed.

(** ** Runs *)
Module OutboxRuns.
#[local] Instance json : PayloadJson := {| json_Marshal _ := inl "{}"; read_jsonb := id |}.
Definition input : EnqueueCallbackInput :=
  mkEnqueueCallbackInput "start_transaction" "start_transaction:42" (Some 42) "a1" "http://cms/callback" ∅ 10.
Definition enqueued : PgOutbox.store := (cs_run (HS := pg_callbacks) [CEnqueue 0 input] PgOutbox.empty).1.
(** A worker is killed, another waits, a third takes over after two minutes and
    delivers. *)
Definition takeover : list cb_call :=
  [CClaim 1 10 []; CClaim (GoTime.Minute) 10 []; CClaim (1 + 2 * GoTime.Minute) 10 []; CSent (3 * GoTime.Minute) 1;
   CClaim (9 * GoTime.Minute) 10 []].
Example takeover_run : map (map ck_ID) (cs_run (HS := pg_callbacks) takeover enqueued).2 = [[1]; []; [1]; []; []].
Proof. vm_compute. reflexivity. Qed.
(** In memory the callback is lost with its worker. *)
Example no_takeover :
  map (map ck_ID) (cs_run (HS := mem_callbacks) [CEnqueue 0 input; CClaim 1 10 [1]; CClaim (9 * GoTime.Minute) 10 [1]] MemOutbox.empty).2 =
  [[]; [1]; []].
Proof. vm_compute. reflexivity. Qed.
Definition charging : Transaction := new_legacy 1 42 "a1" 0 (mkCreateTransactionInput "CP-1" 1 Float64.zero "TAG-1" false).
End OutboxRuns.
#[local] Existing Instance OutboxRuns.json.

Lemma callback_claimed_apart_witness :
  let s := OutboxRuns.enqueued in
  let between := [CClaim GoTime.Minute 10 []] in
  1 ∈ ck_ID <$> (cs_step (CallbackStore := pg_callbacks) (CClaim 1 10 []) s).2.1 ∧
  (∃ lease, Some PgOutbox.callback_lease = Some lease ∧ 1 + lease ≤ 1 + 2 * GoTime.Minute) ∧
  Forall (λ call, ¬ done_with 1 call) between.
Proof.
  cbv zeta.
  assert (Hf : 1 ∈ ck_ID <$> (cs_step (CallbackStore := pg_callbacks) (CClaim 1 10 []) OutboxRuns.enqueued).2.1)
    by (vm_compute; left).
  split; [exact Hf|].
  apply (callback_claimed_apart (H := pg_callbacks) (H0 := pg_callback_laws (HJ := OutboxRuns.json))
    OutboxRuns.enqueued 1 1 10 (1 + 2 * GoTime.Minute) 10 [] [] [CClaim GoTime.Minute 10 []]).
  - apply (cs_step_ok (CallbackStoreLaws := pg_callback_laws (HJ := OutboxRuns.json)) (CEnqueue 0 OutboxRuns.input) PgOutbox.empty I).
    apply outbox_ok_empty.
  - repeat constructor.
  - constructor.
  - constructor.
  - exact Hf.
  - repeat constructor. by intros [].
  - constructor; [|constructor]. vm_compute. intros H. inversion H.
  - vm_compute. left.
Defined.

Lemma missing_callbacks_settle_witness :
  let s := MemOutbox.empty in
  let txs : gmap Z Transaction := {[42 := OutboxRuns.charging]} in
  let later := [CEnqueue 5 OutboxRuns.input; CClaim 6 10 [1]; CRetry 7 1 1 8 "timeout"; CClaim 9 10 [1]] in
  let s' := (cs_run (HS := mem_callbacks) later
    (cs_step (CallbackStore := mem_callbacks) (CEnqueue 3 OutboxRuns.input) s).1).1 in
  OutboxRuns.charging ∈ cs_missing (CallbackStore := mem_callbacks) [42] "start_transaction" false 10 txs s ∧
  (exists! id, ∃ c, cs_outbox (CallbackStore := mem_callbacks) s' !! id = Some c ∧
     ck_DedupeKey (cb_task c) = dedupe_key "start_transaction" OutboxRuns.charging) ∧
  OutboxRuns.charging ∉ cs_missing (CallbackStore := mem_callbacks) [42] "start_transaction" false 10 txs s'.
Proof.
  cbv zeta.
  assert (Hin : OutboxRuns.charging ∈ cs_missing (CallbackStore := mem_callbacks) [42]
    "start_transaction" false 10 {[42 := OutboxRuns.charging]} MemOutbox.empty) by (vm_compute; left).
  split; [exact Hin|].
  destruct (missing_callbacks_settle (H := mem_callbacks) (H0 := mem_callback_laws (HJ := OutboxRuns.json)) MemOutbox.empty
    [42] [42] "start_transaction" false false 10 10 {[42 := OutboxRuns.charging]} {[42 := OutboxRuns.charging]}
    OutboxRuns.charging 3 OutboxRuns.input
    [CEnqueue 5 OutboxRuns.input; CClaim 6 10 [1]; CRetry 7 1 1 8 "timeout"; CClaim 9 10 [1]]) as (_ & _ & _ & H1 & H2).
  - apply outbox_ok_empty.
  - vm_compute. reflexivity.
  - vm_compute. reflexivity.
  - lia.
  - lia.
  - exact Hin.
  - vm_compute. reflexivity.
  - vm_compute. reflexivity.
  - repeat constructor; by intros ?%elem_of_nil.
  - split; [exact H1|]. by apply H2.
Defined.
