(* ===== verification/LegacyUpdates.v ===== *)
(** * Transaction updates

    internal/store/transaction_updates.go: the fan-out of persisted transaction
    changes to subscribers, and the store that publishes after each call of the
    store it wraps.  A channel of capacity one is whether it holds a signal.  The
    comment in Publish - a pending signal already tells the subscriber to fetch
    the latest snapshot, so signals may be coalesced - is a theorem about the
    interleavings of calls, publications and readers. *)
From Stdlib Require Import String Ascii SpecFloat.
From stdpp Require Import base numbers decidable option list sorting strings gmap.
From S2P Require Import Prelude GoText GoClock V1Types V1Memory PgSchema LegacyStore LegacySpec.
Open Scope Z_scope.

(** ** The fan-out *)
Record TransactionUpdates : Type := mkTransactionUpdates {
  nextID : Z;
  subscribers : gmap Z (gmap Z bool)
}.
#[global] Instance eta_TransactionUpdates : Eta TransactionUpdates := λ u, mkTransactionUpdates (nextID u) (subscribers u).
Definition NewTransactionUpdates : TransactionUpdates := mkTransactionUpdates 0 ∅.
(** The channels of a transaction; ranging over a nil map is ranging over none. *)
Definition channels (u : TransactionUpdates) (tid : Z) : gmap Z bool := default ∅ (subscribers u !! tid).
(** The subscription's number; the counter is a uint64. *)
Definition Subscribe (tid : Z) (u : TransactionUpdates) : TransactionUpdates * Z :=
  let subscriptionID := (nextID u + 1) mod 2 ^ 64 in
  (mkTransactionUpdates subscriptionID (<[tid := <[subscriptionID := false]> (channels u tid)]> (subscribers u)),
   subscriptionID).
(** The body of the sync.Once of [cancel]. *)
Definition cancel (tid subscriptionID : Z) (u : TransactionUpdates) : TransactionUpdates :=
  match subscribers u !! tid with
  | None => u
  | Some chs =>
    let chs := delete subscriptionID chs in
    u <| subscribers := if decide (chs = ∅) then delete tid (subscribers u) else <[tid := chs]> (subscribers u) |>
  end.
(** A send that never blocks: a full channel stays full. *)
Definition Publish (tid : Z) (u : TransactionUpdates) : TransactionUpdates :=
  match subscribers u !! tid with
  | None => u
  | Some chs => u <| subscribers := <[tid := (λ _, true) <$> chs]> (subscribers u) |>
  end.
(** The receive of a subscriber. *)
Definition receive (tid subscriptionID : Z) (u : TransactionUpdates) : TransactionUpdates :=
  u <| subscribers := <[tid := <[subscriptionID := false]> (channels u tid)]> (subscribers u) |>.

(** ** The observable store *)
(** What observableTransactionStore publishes after a call of the inner store. *)
Definition published (c : legacy_call) (a : legacy_answer) : option Z :=
  match c, a with
  | LCreate _ _ _, ATx (inl tx) => Some (lt_TransactionID tx)
  | (LMeter input | LStop _ input | LForce _ input), ATx (inl _) => Some (mt_TransactionID input)
  | LMaxKWh tid _, ADone => Some tid
  | LCheckLimit _ tid, AClaim true => Some tid
  | LRelease _ tid, ADone => Some tid
  | _, _ => None
  end.
Definition observed_step {S} {HS : LegacyStore S} (c : legacy_call) (su : S * TransactionUpdates) :
    (S * TransactionUpdates) * legacy_answer :=
  let '(s, a) := ls_step c su.1 in
  (s, match published c a with Some tid => Publish tid su.2 | None => su.2 end, a).

Lemma published_view c a : published c (answer_view c a) = published c a.
Proof. by destruct c, a as [[]| | |]. Qed.
Lemma published_same c a a' : a ≡ a' → published c a = published c a'.
Proof.
  unfold equiv, same_answer_equiv, same_answer. destruct a, a'; try (by intros ->); try congruence.
  intros _. by destruct c.
Qed.

Lemma published_answer forced c m : published c (answer_of forced c m) = published c (spec_step c m).2.
Proof.
  unfold answer_of. destruct forced, c; try done. cbn [forced_answer spec_step]. unfold spec_stop, on_owned.
  destruct (owned _ _ _) as [tx|]; [|done]. by case_decide.
Qed.
(** A row that changes is published. *)
Lemma spec_change_published c m tid :
  published c (spec_step c m).2 ≠ Some tid → (spec_step c m).1 !! tid = m !! tid.
Proof.
  destruct c as [now draw input|input|now input|now input| | | |k kwh|chargerID k|chargerID k]; cbn [spec_step]; try done.
  - pose proof (spec_create_insert 100 0 now draw input m) as H.
    destruct (spec_create _ _ _ _ _ _) as [m' r]. destruct H as [->|(k & tx & _ & -> & -> & Hk & _)]; [done|].
    cbn. intros Hne. rewrite lookup_insert_ne; [done|congruence].
  - unfold on_owned. destruct (owned _ _ _) as [tx|]; [|done]. cbn. intros Hne. rewrite lookup_insert_ne; [done|congruence].
  - unfold spec_stop, on_owned. destruct (owned _ _ _) as [tx|]; [|done]. case_decide; [|done].
    cbn. intros Hne. rewrite lookup_insert_ne; [done|congruence].
  - unfold spec_stop, on_owned. destruct (owned _ _ _) as [tx|]; [|done]. case_decide; [|done].
    cbn. intros Hne. rewrite lookup_insert_ne; [done|congruence].
  - destruct (m !! k) as [tx|]; [|done]. cbn. intros Hne. rewrite lookup_insert_ne; [done|congruence].
  - unfold on_owned. destruct (owned _ _ _) as [tx|]; [|done]. destruct (claimable tx); [|done].
    cbn. intros Hne. rewrite lookup_insert_ne; [done|congruence].
  - unfold on_owned. destruct (owned _ _ _) as [tx|]; [|done]. cbn [fst snd published]. case_decide; [|done].
    intros Hne. rewrite lookup_insert_ne; [done|congruence].
Qed.

(** ** Readers *)
(** A subscriber waits on its channel, having read a snapshot, or is about to
    read one. *)
Inductive reader : Type := Waiting (snapshot : option Transaction) | Reading.
Section System.
Context {S : Type} {HS : LegacyStore S} {HL : LegacyStoreLaws S}.

(** The store, the fan-out, the publications calls have yet to make, and the
    subscribers with their transactions. *)
Record system : Type := mksystem {
  sy_store : S;
  sy_updates : TransactionUpdates;
  sy_unpublished : list Z;
  sy_readers : gmap Z (Z * reader)
}.
Definition fresh_system (s : S) : system := mksystem s NewTransactionUpdates [] ∅.

(** A call is the inner store's step and, later, its publication; anything may
    happen in between.  Calls are well asked: connectors fit the column, the UUID
    generator does not fail, limits are numbers.  The counter of subscriptions has
    not wrapped. *)
Inductive sys_step : system → system → Prop :=
  | sys_call c s u l r : well_asked c (ls_rows s) →
      sys_step (mksystem s u l r)
        (mksystem (ls_step c s).1 u (option_list (published c (ls_step c s).2) ++ l) r)
  | sys_publish s u l1 tid l2 r :
      sys_step (mksystem s u (l1 ++ tid :: l2) r) (mksystem s (Publish tid u) (l1 ++ l2) r)
  | sys_subscribe s u l r tid : nextID u < 2 ^ 64 - 1 →
      sys_step (mksystem s u l r) (mksystem s (Subscribe tid u).1 l (<[(Subscribe tid u).2 := (tid, Reading)]> r))
  | sys_receive s u l r id tid snapshot : r !! id = Some (tid, Waiting snapshot) → channels u tid !! id = Some true →
      sys_step (mksystem s u l r) (mksystem s (receive tid id u) l (<[id := (tid, Reading)]> r))
  | sys_read s u l r id tid : r !! id = Some (tid, Reading) →
      sys_step (mksystem s u l r) (mksystem s u l (<[id := (tid, Waiting (ls_rows s !! tid))]> r))
  | sys_cancel s u l r id tid rd : r !! id = Some (tid, rd) →
      sys_step (mksystem s u l r) (mksystem s (cancel tid id u) l (delete id r)).

(** A waiting subscriber has the current row, or a signal, or one is coming. *)
Definition up_to_date (y : system) (id tid : Z) (snapshot : option Transaction) : Prop :=
  snapshot = ls_rows (sy_store y) !! tid ∨ channels (sy_updates y) tid !! id = Some true ∨ tid ∈ sy_unpublished y.
Record sys_inv (y : system) : Prop := {
  inv_numbers : limits_are_numbers (ls_rows (sy_store y));
  inv_count : 0 ≤ nextID (sy_updates y) < 2 ^ 64;
  inv_ids id : is_Some (sy_readers y !! id) → 0 < id ≤ nextID (sy_updates y);
  inv_channel id tid rd : sy_readers y !! id = Some (tid, rd) → is_Some (channels (sy_updates y) tid !! id);
  inv_waiting id tid snapshot : sy_readers y !! id = Some (tid, Waiting snapshot) → up_to_date y id tid snapshot
}.

Lemma channels_publish u tid k id : channels (Publish tid u) k !! id =
  if decide (k = tid) then (λ _, true) <$> channels u k !! id else channels u k !! id.
Proof.
  unfold Publish, channels. destruct (subscribers u !! tid) as [chs|] eqn:E; cbv [set_field]; cbn [subscribers].
  - destruct (decide (k = tid)) as [->|]; [by rewrite lookup_insert_eq, E; cbn; rewrite lookup_fmap|by rewrite lookup_insert_ne].
  - destruct (decide (k = tid)) as [->|]; [|done]. rewrite E. cbn. by rewrite lookup_empty.
Qed.
Lemma channels_set u tid id v k j :
  channels (mkTransactionUpdates v (<[tid := <[id := false]> (channels u tid)]> (subscribers u))) k !! j =
  if decide (k = tid ∧ j = id) then Some false else channels u k !! j.
Proof.
  unfold channels. cbn [subscribers]. destruct (decide (k = tid)) as [->|].
  - rewrite lookup_insert_eq. cbn. destruct (decide (j = id)) as [->|].
    + by rewrite lookup_insert_eq, decide_True.
    + rewrite lookup_insert_ne by done. rewrite decide_False by tauto. done.
  - rewrite lookup_insert_ne by done. rewrite decide_False by tauto. done.
Qed.
Lemma channels_cancel u tid id k j : j ≠ id → channels (cancel tid id u) k !! j = channels u k !! j.
Proof.
  intros Hj. unfold cancel, channels. destruct (subscribers u !! tid) as [chs|] eqn:E; [|done].
  cbv [set_field]. cbn [subscribers]. destruct (decide (k = tid)) as [->|].
  - rewrite E. cbn. case_decide as Hd.
    + rewrite lookup_delete_eq. cbn. rewrite lookup_empty. rewrite <- (lookup_delete_ne chs id j) by done.
      by rewrite Hd, lookup_empty.
    + rewrite lookup_insert_eq. cbn. by rewrite lookup_delete_ne.
  - case_decide; [by rewrite lookup_delete_ne|by rewrite lookup_insert_ne].
Qed.
Lemma nextID_publish tid u : nextID (Publish tid u) = nextID u.
Proof. unfold Publish. by destruct (subscribers u !! tid). Qed.
Lemma nextID_cancel tid id u : nextID (cancel tid id u) = nextID u.
Proof. unfold cancel. by destruct (subscribers u !! tid). Qed.

Lemma inv_fresh s : limits_are_numbers (ls_rows s) → sys_inv (fresh_system s).
Proof.
  intros Hn. split; cbn; [done|lia| | |].
  - intros id [? H]. by rewrite lookup_empty in H.
  - intros id tid rd H. by rewrite lookup_empty in H.
  - intros id tid snapshot H. by rewrite lookup_empty in H.
Qed.
Lemma step_call c s u l r : well_asked c (ls_rows s) → sys_inv (mksystem s u l r) →
  sys_inv (mksystem (ls_step c s).1 u (option_list (published c (ls_step c s).2) ++ l) r).
Proof.
  intros Hc [H1 H2 H3 H4 H5]. destruct (ls_refines c s Hc H1) as [Hr Ha]. split; cbn in *; try done.
  - rewrite Hr. by apply spec_step_numbers.
  - intros id tid snapshot E. destruct (H5 id tid snapshot E) as [->|[?|?]]; cbn in *.
    + assert (Hp : published c (ls_step c s).2 = published c (spec_step c (ls_rows s)).2)
        by (rewrite <- published_view, (published_same _ _ _ Ha); apply published_answer).
      destruct (decide (published c (ls_step c s).2 = Some tid)) as [Hpub|Hpub].
      * right; right. cbn. rewrite Hpub. by left.
      * left. cbn. rewrite Hr. symmetry. apply spec_change_published. congruence.
    + by right; left.
    + right; right. cbn. apply elem_of_app. by right.
Qed.
Lemma step_publish s u l1 tid l2 r : sys_inv (mksystem s u (l1 ++ tid :: l2) r) →
  sys_inv (mksystem s (Publish tid u) (l1 ++ l2) r).
Proof.
  intros [H1 H2 H3 H4 H5]. split; cbn in *; rewrite ?nextID_publish; try done.
  - intros id k rd E. rewrite channels_publish. destruct (H4 id k rd E) as [b ->]. case_decide; by eexists.
  - intros id k snapshot E. unfold up_to_date. cbn. rewrite channels_publish.
    destruct (H4 id k _ E) as [b Hb]. destruct (decide (k = tid)) as [->|Hne].
    + right; left. by rewrite Hb.
    + destruct (H5 id k snapshot E) as [?|[?|Hin]]; cbn in *; [by left|by right; left|right; right].
      rewrite elem_of_app, elem_of_cons in Hin. rewrite elem_of_app. naive_solver.
Qed.
Lemma step_subscribe s u l r tid : nextID u < 2 ^ 64 - 1 → sys_inv (mksystem s u l r) →
  sys_inv (mksystem s (Subscribe tid u).1 l (<[(Subscribe tid u).2 := (tid, Reading)]> r)).
Proof.
  intros Hu [H1 H2 H3 H4 H5]. cbn in *. unfold Subscribe. rewrite Z.mod_small by lia. cbn [fst snd].
  assert (Hfree : r !! (nextID u + 1) = None).
  { destruct (r !! (nextID u + 1)) eqn:E; [|done]. destruct (H3 (nextID u + 1)); [by eexists|lia]. }
  split; cbn in *; try done; [lia| | |].
  - intros id Hid. destruct (decide (id = nextID u + 1)) as [->|Hne]; [lia|].
    rewrite lookup_insert_ne in Hid by done. destruct (H3 id Hid). lia.
  - intros id k rd. rewrite lookup_insert_Some, channels_set. intros [[<- [= <- <-]]|[Hne E]].
    + by rewrite decide_True.
    + case_decide; [by eexists|]. by eapply H4.
  - intros id k snapshot. rewrite lookup_insert_Some. unfold up_to_date. cbn. rewrite channels_set.
    intros [[<- [=]]|[Hne E]]. rewrite decide_False by naive_solver. by apply (H5 id k).
Qed.
Lemma step_receive s u l r id tid snapshot : r !! id = Some (tid, Waiting snapshot) → sys_inv (mksystem s u l r) →
  sys_inv (mksystem s (receive tid id u) l (<[id := (tid, Reading)]> r)).
Proof.
  intros E [H1 H2 H3 H4 H5]. unfold receive. cbv [set_field].
  change (eta_TransactionUpdates u) with u. split; cbn in *; try done.
  - intros j Hj. apply H3. destruct (decide (j = id)) as [->|]; [by eexists|]. by rewrite lookup_insert_ne in Hj.
  - intros j k rd. rewrite lookup_insert_Some, channels_set. intros [[<- [= <- <-]]|[Hne Ej]].
    + by rewrite decide_True.
    + case_decide; [by eexists|]. by eapply H4.
  - intros j k snap. rewrite lookup_insert_Some. unfold up_to_date. cbn. rewrite channels_set.
    intros [[<- [=]]|[Hne Ej]]. rewrite decide_False by naive_solver. by apply (H5 j k).
Qed.
Lemma step_read s u l r id tid : r !! id = Some (tid, Reading) → sys_inv (mksystem s u l r) →
  sys_inv (mksystem s u l (<[id := (tid, Waiting (ls_rows s !! tid))]> r)).
Proof.
  intros E [H1 H2 H3 H4 H5]. split; cbn in *; try done.
  - intros j Hj. apply H3. destruct (decide (j = id)) as [->|]; [by eexists|]. by rewrite lookup_insert_ne in Hj.
  - intros j k rd. rewrite lookup_insert_Some. intros [[<- [= <- <-]]|[Hne Ej]]; by eapply H4.
  - intros j k snap. rewrite lookup_insert_Some. intros [[<- [= <- <-]]|[Hne Ej]]; [by left|by apply (H5 j k)].
Qed.
Lemma step_cancel s u l r id tid rd : r !! id = Some (tid, rd) → sys_inv (mksystem s u l r) →
  sys_inv (mksystem s (cancel tid id u) l (delete id r)).
Proof.
  intros E [H1 H2 H3 H4 H5]. split; cbn in *; rewrite ?nextID_cancel; try done.
  - intros j [x Hj]. apply lookup_delete_Some in Hj as [_ Hj]. apply H3. by eexists.
  - intros j k rd' [Hne Hj]%lookup_delete_Some. rewrite channels_cancel by done. by eapply H4.
  - intros j k snap [Hne Hj]%lookup_delete_Some. unfold up_to_date. cbn. rewrite channels_cancel by done.
    by apply (H5 j k).
Qed.
Lemma sys_step_inv y y' : sys_step y y' → sys_inv y → sys_inv y'.
Proof.
  intros [] Hi; eauto using step_publish, step_subscribe, step_receive, step_read, step_cancel.
  by apply step_call.
Qed.
Lemma sys_reachable_inv y y' : rtc sys_step y y' → sys_inv y → sys_inv y'.
Proof. induction 1; eauto using sys_step_inv. Qed.

(** A call of the observable store, nothing in between, is a call and its
    publication. *)
Lemma observed_step_runs c s u l r : well_asked c (ls_rows s) →
  rtc sys_step (mksystem s u l r) (mksystem (observed_step c (s, u)).1.1 (observed_step c (s, u)).1.2 l r).
Proof.
  intros Hc. pose proof (sys_call c s u l r Hc) as H. unfold observed_step. cbn [fst snd].
  destruct (ls_step c s) as [s' a]. cbn [fst snd] in *. eapply rtc_l; [exact H|].
  destruct (published c a) as [tid|]; [|done]. apply rtc_once. apply (sys_publish s' u [] tid l r).
Qed.
(** A signalled subscriber reads the current row. *)
Lemma signalled_reads s u l r id tid snapshot : r !! id = Some (tid, Waiting snapshot) → channels u tid !! id = Some true →
  ∃ y', rtc sys_step (mksystem s u l r) y' ∧ sy_store y' = s ∧
    sy_readers y' !! id = Some (tid, Waiting (ls_rows s !! tid)).
Proof.
  intros Hr Hc. eexists. split; [|split].
  - eapply rtc_l; [by eapply sys_receive|]. eapply rtc_once, sys_read. by rewrite lookup_insert_eq.
  - done.
  - cbn. by rewrite lookup_insert_eq.
Qed.
End System.
Arguments system : clear implicits.

(** C40: A subscriber never misses a change.  In any interleaving of calls of the
    observable store, their publications, subscriptions, receives, reads and
    cancellations, over any store that implements the interface (calls whose
    connector fits the column and whose limit is a number, no failing UUID
    generator, fewer than 2^64 subscriptions): a subscriber that waits has read the current
    row of its transaction, or a signal is in its channel, or a call has still to
    publish - so with no publication outstanding an empty channel means an
    up-to-date snapshot, although a channel holds one signal and further ones are
    dropped - and in each case the subscriber can reach the current row without
    another call. *)
Theorem subscribers_never_stale {S} `{HL : LegacyStoreLaws S} (s0 : S) (y : system S) (id tid : Z)
    (snapshot : option Transaction)
    (Hnumbers : limits_are_numbers (ls_rows s0)) (Hreach : rtc sys_step (fresh_system s0) y)
    (Hwaits : sy_readers y !! id = Some (tid, Waiting snapshot)) :
  (snapshot = ls_rows (sy_store y) !! tid ∨ channels (sy_updates y) tid !! id = Some true ∨ tid ∈ sy_unpublished y) ∧
  (sy_unpublished y = [] → channels (sy_updates y) tid !! id = Some false → snapshot = ls_rows (sy_store y) !! tid) ∧
  ∃ y', rtc sys_step y y' ∧ sy_store y' = sy_store y ∧
    sy_readers y' !! id = Some (tid, Waiting (ls_rows (sy_store y) !! tid)).
Proof.
  pose proof (sys_reachable_inv _ _ Hreach (inv_fresh s0 Hnumbers)) as Hi.
  pose proof (inv_waiting _ Hi _ _ _ Hwaits) as Hup. split; [exact Hup|].
  split; [intros Hl Hc; destruct Hup as [?|[Ht|Hin]]; [done|congruence|by rewrite Hl, elem_of_nil in Hin]|].
  destruct Hup as [->|[Hc|Hin]]; [by exists y| |]; destruct y as [s u l r]; cbn in *.
  - by eapply signalled_reads.
  - apply list_elem_of_split in Hin as (l1 & l2 & ->). destruct (inv_channel _ Hi _ _ _ Hwaits) as [b Hb]. cbn in Hb.
    destruct (signalled_reads s (Publish tid u) (l1 ++ l2) r id tid snapshot Hwaits) as (y' & Hy & Hs & Hr).
    { by rewrite channels_publish, decide_True, Hb. }
    exists y'. split; [|done]. eapply rtc_l; [apply sys_publish|exact Hy].
Qed.

(** ** A run *)
Module UpdateRuns.
#[local] Existing Instance pg_store.
#[local] Existing Instance pg_laws.
Definition charging : LegacyPg.store := first_stop_store.
Definition meter : legacy_call := LMeter (mkmeter_input "CP-1" 42 (LegacyRuns.kwh 2000)).
Definition metered_once : LegacyPg.store := (ls_step meter charging).1.
Definition metered_twice : LegacyPg.store := (ls_step meter metered_once).1.
Definition before : option Transaction := ls_rows charging !! 42.
(** Two calls publish once each; the second signal is coalesced. *)
Definition signalled : system LegacyPg.store :=
  mksystem metered_twice (Publish 42 (Publish 42 (Subscribe 42 NewTransactionUpdates).1)) [] {[1 := (42, Waiting before)]}.
Lemma signalled_reached : rtc sys_step (fresh_system charging) signalled.
Proof.
  eapply rtc_l; [apply (sys_subscribe charging NewTransactionUpdates [] ∅ 42); vm_compute; reflexivity|].
  eapply rtc_l; [apply (sys_read charging _ _ _ 1 42); vm_compute; reflexivity|].
  eapply rtc_l; [apply (sys_call meter); exact I|].
  eapply rtc_l; [apply (sys_call meter); exact I|].
  eapply rtc_l; [apply (sys_publish _ _ [] 42 [42])|].
  apply rtc_once. apply (sys_publish _ _ [] 42 []).
Qed.
End UpdateRuns.

Lemma subscribers_never_stale_witness :
  let y := UpdateRuns.signalled in
  let rows := ls_rows (LegacyStore := pg_store) (sy_store y) in
  UpdateRuns.before ≠ rows !! 42 ∧ channels (sy_updates y) 42 !! 1 = Some true ∧
  ∃ y', rtc (sys_step (HS := pg_store)) y y' ∧ sy_store y' = sy_store y ∧ sy_readers y' !! 1 = Some (42, Waiting (rows !! 42)).
Proof.
  cbv zeta. split; [vm_compute; discriminate|]. split; [vm_compute; reflexivity|].
  apply (subscribers_never_stale (HL := pg_laws) UpdateRuns.charging UpdateRuns.signalled 1 42 UpdateRuns.before).
  - exact first_stop_store_numbers.
  - exact UpdateRuns.signalled_reached.
  - vm_compute. reflexivity.
Defined.
