(* ===== verification/LegacyAnalytics.v ===== *)
(** * Charger analytics

    internal/store/analytics_memory.go, analytics_postgres.go and
    analytics_types.go: usage of chargers over a window, computed from the
    transactions of the legacy store, and the texts for durations and peak hours.
    A range over the map is a list of the transactions in the order Go meets
    them; an aggregate of PostgreSQL adds in the order of its scan. *)
From Stdlib Require Import String Ascii SpecFloat.
From stdpp Require Import base numbers decidable option list sorting strings gmap pretty.
From S2P Require Import Prelude GoText GoClock V1Types V1Memory PgSchema LegacyStore.
Open Scope Z_scope.

(** ** Floating point the reports use *)
(** The nearest integer, half away from zero; no value for infinities and NaN. *)
Definition round_Z (x : float64) : option Z :=
  match x with
  | S754_zero _ => Some 0
  | S754_finite s m e =>
    let n := if decide (0 ≤ e) then Zpos m * 2 ^ e else (2 * Zpos m + 2 ^ (- e)) / (2 * 2 ^ (- e)) in
    Some (if s then - n else n)
  | _ => None
  end.
(** [math.Round]. *)
Definition Round (x : float64) : float64 :=
  match x with
  | S754_finite s m e => match round_Z x with Some 0 => S754_zero s | Some n => Float64.of_int n | None => x end
  | _ => x
  end.
Definition fmul : float64 → float64 → float64 := SFmul Float64.prec Float64.emax.
Definition round3 (v : float64) : float64 := Float64.div (Round (fmul v (Float64.of_int 1000))) (Float64.of_int 1000).
(** [math.Max(0, x)] of a number. *)
Definition Max0 (x : float64) : float64 := if SFltb Float64.zero x then x else Float64.zero.

(** ** Texts *)
Fixpoint join_parts (parts : list (Z * string)) (out : string) : string :=
  match parts with
  | [] => out
  | (value, name) :: parts =>
    if decide (value ≤ 0) then join_parts parts out
    else join_parts parts ((if decide (out = "") then out else out +:+ ", ") +:+ Itoa value +:+ " " +:+ name)
  end.
Definition duration_parts (seconds : Z) : list (Z * string) :=
  let years := seconds / 31536000 in
  let seconds := seconds mod 31536000 in
  let days := seconds / 86400 in
  let seconds := seconds mod 86400 in
  let hours := seconds / 3600 in
  let seconds := seconds mod 3600 in
  let minutes := seconds / 60 in
  let seconds := seconds mod 60 in
  [(years, "years"); (days, "days"); (hours, "hours"); (minutes, "minutes"); (seconds, "seconds")].
Definition duration_text (seconds : Z) : string :=
  let out := join_parts (duration_parts seconds) "" in
  if decide (out = "") then "0 seconds" else out.
(** The conversion to int64 of a value outside it is the platform's. *)
Class Int64Overflow : Type := { int64_of_wide : float64 → Z }.
Definition int64_of {HO : Int64Overflow} (x : float64) : Z :=
  match round_Z x with
  | Some n => if decide (Int64.in_range n) then n else int64_of_wide x
  | None => int64_of_wide x
  end.
Definition FormatDuration {HO : Int64Overflow} (secondsFloat : float64) : string :=
  let seconds := int64_of (Round secondsFloat) in
  duration_text (if decide (seconds < 0) then 0 else seconds).
(** The layout 15:04. *)
Definition clock_hour (hour : Z) : string := Clock.pad 2 (hour mod 24) +:+ ":00".
Definition formatPeakHour (hour : Z) : string := clock_hour hour +:+ " - " +:+ clock_hour (hour + 1).
Definition peak_hours (peak : list Z) (maxCount : Z) : list string :=
  omap (λ hc : nat * Z, if decide (hc.2 = maxCount) then Some (formatPeakHour (Z.of_nat hc.1)) else None)
    (imap (λ i c, (i, c)) peak).
Fixpoint comma_list (l : list string) : string :=
  match l with
  | [] => ""
  | [x] => x
  | x :: l => x +:+ ", " +:+ comma_list l
  end.
Definition PeakUsageTimes (peak : list Z) : string :=
  if decide (length peak ≠ 24%nat) then "No data available"
  else
    let maxCount := foldl (λ m c, if decide (m < c) then c else m) 0 peak in
    if decide (maxCount = 0) then "No peak usage times - charger was not used during this period."
    else comma_list (merge_sort String.le (peak_hours peak maxCount)).

(** ** Reports *)
Record AnalyticsInput : Type := mkAnalyticsInput {
  ai_ChargerID : string;
  ai_StartTime : option Time;
  ai_EndTime : option Time
}.
Record ChargerAnalytics : Type := mkChargerAnalytics {
  an_ChargerID : string;
  an_Timestamp : Time;
  an_TotalUptime : string;
  an_UptimePercentage : float64;
  an_TotalTransactions : Z;
  an_TotalElectricityUsedKWh : float64;
  an_OccupancyRatePercentage : float64;
  an_AverageSessionDuration : string;
  an_PeakUsageTimes : string;
  an_TotalTimeOccupied : string;
  an_TotalTimeOccupiedSeconds : float64;
  an_TotalPossibleSeconds : float64;
  an_TotalUptimeSeconds : float64
}.
Record AnalyticsOutput : Type := mkAnalyticsOutput {
  ao_Analytics : option (gmap string ChargerAnalytics);
  ao_TotalUptime : string;
  ao_TotalTransactions : Z;
  ao_TotalElectricityUsedKWh : float64;
  ao_TotalTimeOccupied : string;
  ao_TotalTimeOccupiedSeconds : float64;
  ao_TotalUptimeSeconds : float64
}.
#[global] Instance eta_AnalyticsOutput : Eta AnalyticsOutput := λ o,
  mkAnalyticsOutput (ao_Analytics o) (ao_TotalUptime o) (ao_TotalTransactions o) (ao_TotalElectricityUsedKWh o)
    (ao_TotalTimeOccupied o) (ao_TotalTimeOccupiedSeconds o) (ao_TotalUptimeSeconds o).

Section Reports.
Context {HO : Int64Overflow}.
Implicit Types (txs : list Transaction) (tx : Transaction).

(** What the totals make of a report. *)
Definition charger_report (chargerID : string) (now : Time) (count : Z) (kwh occupied possible : float64) (peak : list Z) :
    ChargerAnalytics :=
  let avg := if decide (0 < count) then Float64.div occupied (Float64.of_int count) else Float64.zero in
  let occupancy :=
    if SFltb Float64.zero possible && SFltb Float64.zero occupied
    then round3 (fmul (Float64.div occupied possible) (Float64.of_int 100)) else Float64.zero in
  mkChargerAnalytics chargerID now (FormatDuration Float64.zero) Float64.zero count kwh occupancy
    (FormatDuration avg) (PeakUsageTimes peak) (FormatDuration occupied) occupied possible Float64.zero.
(** The totals of one charger added to the output. *)
Definition add_report (chargerID : string) (a : ChargerAnalytics) (o : AnalyticsOutput) : AnalyticsOutput :=
  o <| ao_Analytics ::= fmap <[chargerID := a]> |>
    <| ao_TotalTransactions ::= λ n, n + an_TotalTransactions a |>
    <| ao_TotalElectricityUsedKWh ::= λ x, Float64.add x (an_TotalElectricityUsedKWh a) |>
    <| ao_TotalTimeOccupiedSeconds ::= λ x, Float64.add x (an_TotalTimeOccupiedSeconds a) |>
    <| ao_TotalUptimeSeconds ::= λ x, Float64.add x (an_TotalUptimeSeconds a) |>.
Definition no_report : AnalyticsOutput := mkAnalyticsOutput (Some ∅) "" 0 Float64.zero "" Float64.zero Float64.zero.
Definition output_of (input : AnalyticsInput) (reports : list (string * ChargerAnalytics)) : AnalyticsOutput :=
  let o := foldl (λ o ia, add_report ia.1 ia.2 o) no_report reports in
  let o := o <| ao_TotalUptime := FormatDuration (ao_TotalUptimeSeconds o) |>
             <| ao_TotalTimeOccupied := FormatDuration (ao_TotalTimeOccupiedSeconds o) |> in
  if decide (ai_ChargerID input = "cumulative") then o <| ao_Analytics := None |> else o.
Definition everyone (input : AnalyticsInput) : Prop := ai_ChargerID input ∈ [""; "all"; "cumulative"].
#[global] Instance everyone_dec input : Decision (everyone input).
Proof. unfold everyone. apply _. Defined.

(** *** In memory *)
Definition widen (b : option Time * option Time) tx : option Time * option Time :=
  let st := lt_StartTime tx in
  let et := default st (lt_StopTime tx) in
  (match b.1 with None => Some st | Some t => if decide (GoTime.Before st t) then Some st else Some t end,
   match b.2 with None => Some et | Some t => if decide (GoTime.After et t) then Some et else Some t end).
Definition of_charger (chargerID : string) txs : list Transaction := filter (λ tx, lt_ChargerID tx = chargerID) txs.
(** The window, [txs] in the order of the first range. *)
Definition memory_window (chargerID : string) (input : AnalyticsInput) (now : Time) txs : Time * Time :=
  let b := match ai_StartTime input, ai_EndTime input with
           | Some _, Some _ => (None, None)
           | _, _ => foldl widen (None, None) (of_charger chargerID txs)
           end in
  let start := match ai_StartTime input with Some t => Some t | None => b.1 end in
  let stop := match ai_EndTime input with Some t => Some t | None => b.2 end in
  (default now start, default now stop).
Definition in_window (w : Time * Time) tx : Prop := ¬ (GoTime.Before (lt_StartTime tx) w.1 ∨ GoTime.After (lt_StartTime tx) w.2).
#[global] Instance in_window_dec w tx : Decision (in_window w tx).
Proof. unfold in_window. apply _. Defined.
Definition Hour (t : Time) : Z := t / GoTime.Second mod 86400 / 3600.
Record tally : Type := mktally { ty_count : Z; ty_kwh : float64; ty_occupied : float64; ty_peak : list Z }.
Definition tally0 : tally := mktally 0 Float64.zero Float64.zero (replicate 24 0).
Definition count_in (t : tally) tx : tally :=
  mktally (ty_count t + 1)
    (match lt_TotalConsumption tx with Some kwh => Float64.add (ty_kwh t) kwh | None => ty_kwh t end)
    (match lt_StopTime tx with
     | Some stop => Float64.add (ty_occupied t) (Float64.Seconds (GoTime.Sub stop (lt_StartTime tx)))
     | None => ty_occupied t
     end)
    (alter (λ n, n + 1) (Z.to_nat (Hour (lt_StartTime tx))) (ty_peak t)).
Definition computeMemoryAnalytics (now : Time) (chargerID : string) (input : AnalyticsInput) (txs txs' : list Transaction) :
    ChargerAnalytics :=
  let w := memory_window chargerID input now txs in
  let possible := Max0 (Float64.Seconds (GoTime.Sub w.2 w.1)) in
  let t := foldl count_in tally0 (filter (in_window w) (of_charger chargerID txs')) in
  charger_report chargerID now (ty_count t) (ty_kwh t) (ty_occupied t) possible (ty_peak t).
(** The chargers of the range over the map; then one report each, in the order of
    the range over their set, each from two ranges over the map of its own. *)
Definition memory_chargers (input : AnalyticsInput) txs : gset string :=
  let ids := list_to_set (lt_ChargerID <$> filter (λ tx, everyone input ∨ lt_ChargerID tx = ai_ChargerID input) txs) in
  if decide (ids = ∅ ∧ ¬ everyone input) then {[ai_ChargerID input]} else ids.
Definition MemoryChargerAnalytics (now : string → Time) (order : gset string → list string)
    (ranges : string → list Transaction * list Transaction) (input : AnalyticsInput) (txs : list Transaction) : AnalyticsOutput :=
  output_of input ((λ id, (id, computeMemoryAnalytics (now id) id input (ranges id).1 (ranges id).2)) <$>
    order (memory_chargers input txs)).

(** *** In PostgreSQL *)
Definition min_of (l : list Time) : option Time := foldr (λ t m, Some (from_option (Z.min t) t m)) None l.
Definition max_of (l : list Time) : option Time := foldr (λ t m, Some (from_option (Z.max t) t m)) None l.
(** SELECT MIN(start_time), MAX(COALESCE(stop_time, start_time)). *)
Definition analyticsWindow (chargerID : string) (input : AnalyticsInput) txs : option Time * option Time :=
  let rows := of_charger chargerID txs in
  match ai_StartTime input, ai_EndTime input with
  | Some start, Some stop => (Some start, Some stop)
  | start, stop =>
    (match start with Some t => Some t | None => min_of (lt_StartTime <$> rows) end,
     match stop with Some t => Some t | None => max_of ((λ tx, default (lt_StartTime tx) (lt_StopTime tx)) <$> rows) end)
  end.
Definition is_infinite (x : float64) : bool := match x with S754_infinity _ => true | _ => false end.
(** SUM of a double precision column, in the order of the scan; a sum that
    overflows is an error. *)
Definition add_float8 (sum : result (option float64)) (x : option float64) : result (option float64) :=
  match sum, x with
  | inl (Some a), Some b =>
    let c := Float64.add a b in
    if is_infinite c && negb (is_infinite a) && negb (is_infinite b) then inr (ErrPg "22003") else inl (Some c)
  | inl None, Some b => inl (Some b)
  | _, _ => sum
  end.
Definition sum_float8 (l : list (option float64)) : result float64 :=
  sum_map (default Float64.zero) id (foldl add_float8 (inl None) l).
(** EXTRACT(EPOCH FROM stop_time - start_time) is numeric: microseconds are added
    exactly, the sum is read as a float64. *)
Definition epoch_sum txs : float64 :=
  Float64.div (Float64.of_int (foldr Z.add 0 ((λ tx, match lt_StopTime tx with
    | Some stop => (stop - lt_StartTime tx) / GoTime.Microsecond
    | None => 0
    end) <$> txs))) (Float64.of_int 1000000).
(** GROUP BY of the hour in the session's time zone, [groups] in the order of the
    result. *)
Definition hour_count (hour : Time → Z) txs (h : Z) : Z := Z.of_nat (length (filter (λ tx, hour (lt_StartTime tx) = h) txs)).
Definition peak_of_groups (groups : list (Z * Z)) : list Z :=
  foldl (λ peak hc, if decide (0 ≤ hc.1 < 24) then <[Z.to_nat hc.1 := hc.2]> peak else peak) (replicate 24 0) groups.
Definition analyticsForCharger (hour : Time → Z) (groups_of : list Transaction → list Z) (now : Time) (chargerID : string)
    (input : AnalyticsInput) txs : result ChargerAnalytics :=
  let w := analyticsWindow chargerID input txs in
  let start := default now w.1 in
  let stop := default now w.2 in
  let seconds := Float64.Seconds (GoTime.Sub stop start) in
  let possible := if SFltb seconds Float64.zero then Float64.zero else seconds in
  let rows := filter (in_window (timestamptz start, timestamptz stop)) (of_charger chargerID txs) in
  match sum_float8 (lt_TotalConsumption <$> rows) with
  | inr err => inr err
  | inl kwh =>
    inl (charger_report chargerID now (Z.of_nat (length rows)) kwh (epoch_sum rows) possible
      (peak_of_groups ((λ h, (h, hour_count hour rows h)) <$> groups_of rows)))
  end.
(** SELECT DISTINCT charger_id ... ORDER BY, [collate] being the sort of the
    database's collation. *)
Definition analyticsChargerIDs (collate : list string → list string) (input : AnalyticsInput) txs : list string :=
  if decide (everyone input) then collate (remove_dups (lt_ChargerID <$> txs)) else [ai_ChargerID input].
Fixpoint reports {A} (f : A → result ChargerAnalytics) (ids : list A) : result (list (A * ChargerAnalytics)) :=
  match ids with
  | [] => inl []
  | id :: ids =>
    match f id, reports f ids with
    | inr err, _ | inl _, inr err => inr err
    | inl a, inl l => inl ((id, a) :: l)
    end
  end.
Definition PgChargerAnalytics (hour : Time → Z) (groups_of : list Transaction → list Z) (collate : list string → list string)
    (now : string → Time) (input : AnalyticsInput) txs : result AnalyticsOutput :=
  match reports (λ id, analyticsForCharger hour groups_of (now id) id input txs) (analyticsChargerIDs collate input txs) with
  | inr err => inr err
  | inl l => inl (output_of input l)
  end.

(** *** Lemmas *)
Definition peak_of (hour : Time → Z) txs : list Z := hour_count hour txs <$> seqZ 0 24.
Lemma Hour_range t : 0 ≤ Hour t < 24.
Proof.
  unfold Hour. pose proof (Z.mod_pos_bound (t / GoTime.Second) 86400 ltac:(lia)).
  split; [apply Z.div_pos; lia|apply Z.div_lt_upper_bound; lia].
Qed.
Lemma hour_count_cons hour tx txs h :
  hour_count hour (tx :: txs) h = (if decide (hour (lt_StartTime tx) = h) then 1 else 0) + hour_count hour txs h.
Proof. unfold hour_count. rewrite filter_cons. case_decide; cbn [length]; lia. Qed.
Lemma seqZ24 i : seqZ 0 24 !! i = if decide (i < 24)%nat then Some (Z.of_nat i) else None.
Proof.
  case_decide; [apply lookup_seqZ; lia|]. apply lookup_seqZ_ge. lia.
Qed.
(** The loop counts the transactions and their hours. *)
Lemma count_in_spec txs t :
  ty_count (foldl count_in t txs) = ty_count t + Z.of_nat (length txs) ∧
  ∀ i, ty_peak (foldl count_in t txs) !! i = (λ n, n + hour_count Hour txs (Z.of_nat i)) <$> ty_peak t !! i.
Proof.
  revert t. induction txs as [|tx txs IH]; intros t.
  - split; [cbn; lia|]. intros i. cbn. destruct (ty_peak t !! i); cbn; [|done]. f_equal. unfold hour_count. cbn. lia.
  - destruct (IH (count_in t tx)) as [H1 H2]. cbn [foldl length]. split; [rewrite H1; cbn; lia|].
    intros i. rewrite H2. cbn [ty_peak count_in]. pose proof (Hour_range (lt_StartTime tx)).
    destruct (decide (i = Z.to_nat (Hour (lt_StartTime tx)))) as [Hi|Hi].
    + rewrite Hi, list_lookup_alter_eq. rewrite Z2Nat.id by lia. destruct (ty_peak t !! _); cbn; [|done].
      f_equal. rewrite hour_count_cons, decide_True by done. lia.
    + rewrite list_lookup_alter_ne by done. destruct (ty_peak t !! i); cbn; [|done].
      f_equal. rewrite hour_count_cons, decide_False by lia. lia.
Qed.
Lemma tally_peak txs : ty_peak (foldl count_in tally0 txs) = peak_of Hour txs.
Proof.
  apply list_eq. intros i. rewrite (proj2 (count_in_spec txs tally0)). unfold peak_of. rewrite list_lookup_fmap, seqZ24.
  cbn [ty_peak tally0]. case_decide.
  - by rewrite lookup_replicate_2.
  - by rewrite (proj1 (lookup_replicate_None _ _ _)) by lia.
Qed.
Lemma of_groups_lookup groups i : NoDup groups.*1 → (i < 24)%nat →
  peak_of_groups groups !! i = Some (default 0 ((list_to_map groups : gmap Z Z) !! Z.of_nat i)).
Proof.
  intros Hnd Hi. unfold peak_of_groups.
  assert (H : ∀ peak, length peak = 24%nat →
    foldl (λ peak hc, if decide (0 ≤ hc.1 < 24) then <[Z.to_nat hc.1 := hc.2]> peak else peak) peak groups !! i =
    match (list_to_map groups : gmap Z Z) !! Z.of_nat i with Some c => Some c | None => peak !! i end).
  { induction groups as [|[h c] groups IH]; intros peak Hlen; [done|]. cbn [foldl fst snd].
    inversion Hnd as [|? ? Hh Hnd']; subst. cbn [list_to_map fst snd].
    set (peak' := if decide (0 ≤ h < 24) then _ else _).
    assert (Hl' : length peak' = 24%nat) by (unfold peak'; case_decide; by rewrite ?length_insert).
    rewrite (IH Hnd' peak' Hl'). destruct (decide (h = Z.of_nat i)) as [->|Hne].
    - rewrite list_to_map_cons, lookup_insert_eq. rewrite not_elem_of_list_to_map_1 by done. unfold peak'.
      rewrite decide_True by lia. rewrite Nat2Z.id. apply list_lookup_insert_eq. lia.
    - rewrite list_to_map_cons, lookup_insert_ne by done. destruct (_ !! Z.of_nat i); [done|]. unfold peak'. case_decide; [|done].
      rewrite list_lookup_insert_ne; [done|]. lia. }
  rewrite H by done. destruct (_ !! Z.of_nat i); [done|]. by rewrite lookup_replicate_2.
Qed.
Lemma peak_length groups : length (peak_of_groups groups) = 24%nat.
Proof.
  unfold peak_of_groups. generalize (length_replicate 24 0). generalize (replicate 24 0).
  induction groups as [|hc groups IH]; intros peak Hp; [done|]. cbn [foldl]. apply IH. case_decide; by rewrite ?length_insert.
Qed.
(** The groups of a result: every hour that occurs, once. *)
Definition groups_ok (hour : Time → Z) (groups_of : list Transaction → list Z) : Prop :=
  ∀ txs, NoDup (groups_of txs) ∧ ∀ h, h ∈ groups_of txs ↔ ∃ tx, tx ∈ txs ∧ hour (lt_StartTime tx) = h.
Lemma hour_count_zero hour txs h : (∀ tx, tx ∈ txs → hour (lt_StartTime tx) ≠ h) → hour_count hour txs h = 0.
Proof.
  induction txs as [|tx txs IH]; intros H; [done|]. rewrite hour_count_cons, decide_False by (apply H; by left).
  rewrite IH; [done|]. intros tx' Htx'. apply H. by right.
Qed.
Lemma groups_peak hour groups_of txs : groups_ok hour groups_of →
  peak_of_groups ((λ h, (h, hour_count hour txs h)) <$> groups_of txs) = peak_of hour txs.
Proof.
  intros Hg. destruct (Hg txs) as [Hnd Hin].
  assert (Hfst : ((λ h, (h, hour_count hour txs h)) <$> groups_of txs).*1 = groups_of txs).
  { rewrite <- list_fmap_compose. apply list_fmap_id. }
  apply list_eq. intros i. unfold peak_of. rewrite list_lookup_fmap, seqZ24. case_decide as Hi.
  - rewrite of_groups_lookup by (rewrite ?Hfst; done). cbn. f_equal.
    destruct (decide (Z.of_nat i ∈ groups_of txs)) as [He|He].
    + rewrite (elem_of_list_to_map_1 _ _ (hour_count hour txs (Z.of_nat i))); [done|by rewrite Hfst|].
      apply list_elem_of_fmap. by exists (Z.of_nat i).
    + rewrite not_elem_of_list_to_map_1 by by rewrite Hfst. cbn. symmetry. apply hour_count_zero.
      intros tx Htx Hh. apply He, Hin. by exists tx.
  - apply lookup_ge_None_2. rewrite peak_length. lia.
Qed.
Lemma hour_count_perm hour txs txs' h : txs ≡ₚ txs' → hour_count hour txs h = hour_count hour txs' h.
Proof. intros H. unfold hour_count. by rewrite H. Qed.

(** The window of the loop is that of the aggregates. *)
Lemma widen_window txs b :
  foldl widen b txs =
  (from_option (λ t, Some (from_option (Z.min t) t (min_of (lt_StartTime <$> txs)))) (min_of (lt_StartTime <$> txs)) b.1,
   from_option (λ t, Some (from_option (Z.max t) t (max_of ((λ tx, default (lt_StartTime tx) (lt_StopTime tx)) <$> txs))))
     (max_of ((λ tx, default (lt_StartTime tx) (lt_StopTime tx)) <$> txs)) b.2).
Proof.
  revert b. induction txs as [|tx txs IH]; intros [lo hi]; [by destruct lo, hi|]. cbn [foldl]. rewrite IH. clear IH.
  unfold GoTime.Before, GoTime.After. cbn [fmap list_fmap min_of max_of foldr fst snd widen].
  fold (min_of (lt_StartTime <$> txs)). fold (max_of ((λ tx, default (lt_StartTime tx) (lt_StopTime tx)) <$> txs)).
  f_equal.
  - destruct lo as [lo|], (min_of _) as [m|]; cbn; unfold GoTime.Before; repeat case_decide; cbn; f_equal; lia.
  - destruct hi as [hi|], (max_of _) as [m|]; cbn; unfold GoTime.After; repeat case_decide; cbn; f_equal; lia.
Qed.
#[global] Instance min_of_perm : Proper ((≡ₚ) ==> (=)) min_of.
Proof.
  intros l l' H. unfold min_of. induction H; cbn; [done|by f_equal; f_equal| |congruence].
  f_equal. destruct (foldr _ _ l); cbn; lia.
Qed.
#[global] Instance max_of_perm : Proper ((≡ₚ) ==> (=)) max_of.
Proof.
  intros l l' H. unfold max_of. induction H; cbn; [done|by f_equal; f_equal| |congruence].
  f_equal. destruct (foldr _ _ l); cbn; lia.
Qed.
Lemma memory_window_agrees chargerID input now txs txs' : txs ≡ₚ txs' →
  memory_window chargerID input now txs =
  (default now (analyticsWindow chargerID input txs').1, default now (analyticsWindow chargerID input txs').2).
Proof.
  intros Hp. unfold memory_window, analyticsWindow. rewrite widen_window.
  assert (Hc : of_charger chargerID txs ≡ₚ of_charger chargerID txs') by (unfold of_charger; by rewrite Hp).
  rewrite (min_of_perm _ _ (fmap_Permutation lt_StartTime _ _ Hc)).
  rewrite (max_of_perm _ _ (fmap_Permutation (λ tx, default (lt_StartTime tx) (lt_StopTime tx)) _ _ Hc)).
  destruct (ai_StartTime input), (ai_EndTime input); cbn [fst snd from_option default]; f_equal; by destruct (_ : option Time).
Qed.

Lemma min_of_elem l m : min_of l = Some m → m ∈ l.
Proof.
  revert m. induction l as [|t l IH]; intros m; [done|]. cbn. fold (min_of l).
  destruct (min_of l) as [n|]; cbn; intros [= <-]; [|by left].
  destruct (Z.min_spec t n) as [[_ ->]|[_ ->]]; [by left|right; by apply IH].
Qed.
Lemma max_of_elem l m : max_of l = Some m → m ∈ l.
Proof.
  revert m. induction l as [|t l IH]; intros m; [done|]. cbn. fold (max_of l).
  destruct (max_of l) as [n|]; cbn; intros [= <-]; [|by left].
  destruct (Z.max_spec t n) as [[_ ->]|[_ ->]]; [right; by apply IH|by left].
Qed.
(** Times a timestamptz keeps. *)
Definition stored_time (t : Time) : Prop := timestamptz t = t.
Definition stored_times tx : Prop := stored_time (lt_StartTime tx) ∧ from_option stored_time True (lt_StopTime tx).
Lemma window_stored chargerID input now txs : stored_time now →
  from_option stored_time True (ai_StartTime input) → from_option stored_time True (ai_EndTime input) → Forall stored_times txs →
  let w := analyticsWindow chargerID input txs in stored_time (default now w.1) ∧ stored_time (default now w.2).
Proof.
  intros Hn Hs He Hrows. cbv zeta.
  assert (Hc : Forall stored_times (of_charger chargerID txs)).
  { apply Forall_forall. intros tx [_ Hin]%list_elem_of_filter. by eapply Forall_forall. }
  rewrite Forall_forall in Hc.
  assert (Hmin : stored_time (default now (min_of (lt_StartTime <$> of_charger chargerID txs)))).
  { destruct (min_of _) as [m|] eqn:E; [|done]. apply min_of_elem, list_elem_of_fmap in E as (tx & -> & Hin). by apply Hc. }
  assert (Hmax : stored_time (default now (max_of ((λ tx, default (lt_StartTime tx) (lt_StopTime tx)) <$> of_charger chargerID txs)))).
  { destruct (max_of _) as [m|] eqn:E; [|done]. apply max_of_elem, list_elem_of_fmap in E as (tx & -> & Hin).
    destruct (Hc tx Hin) as [H1 H2]. cbn. by destruct (lt_StopTime tx). }
  unfold analyticsWindow. by destruct (ai_StartTime input), (ai_EndTime input).
Qed.
End Reports.

(** Both stores count the same sessions.  For the same transactions, in
    whatever order memory meets them and PostgreSQL scans them, with times a
    timestamptz keeps and a session in UTC: the two reports of a charger have the
    same window, the same number of transactions - those of the charger that
    started in the window - and the same text of peak hours. *)
Theorem analytics_count_alike {HO : Int64Overflow} (groups_of : list Transaction → list Z) (now : Time) (chargerID : string)
    (input : AnalyticsInput) (txs txs1 txs2 : list Transaction) (a : ChargerAnalytics)
    (H1 : txs1 ≡ₚ txs) (H2 : txs2 ≡ₚ txs) (Hgroups : groups_ok Hour groups_of)
    (Hnow : stored_time now) (Hstart : from_option stored_time True (ai_StartTime input))
    (Hend : from_option stored_time True (ai_EndTime input)) (Htimes : Forall stored_times txs)
    (Hpg : analyticsForCharger Hour groups_of now chargerID input txs = inl a) :
  let m := computeMemoryAnalytics now chargerID input txs1 txs2 in
  let w := memory_window chargerID input now txs1 in
  an_TotalTransactions m = an_TotalTransactions a ∧ an_PeakUsageTimes m = an_PeakUsageTimes a ∧
  w = (default now (analyticsWindow chargerID input txs).1, default now (analyticsWindow chargerID input txs).2) ∧
  an_TotalTransactions a = Z.of_nat (length (filter (in_window w) (of_charger chargerID txs))).
Proof.
  cbv zeta. destruct (window_stored chargerID input now txs Hnow Hstart Hend Htimes) as [W1 W2].
  unfold analyticsForCharger in Hpg. rewrite W1, W2 in Hpg.
  unfold computeMemoryAnalytics. rewrite (memory_window_agrees chargerID input now txs1 txs H1).
  set (w := (default now (analyticsWindow chargerID input txs).1, default now (analyticsWindow chargerID input txs).2)) in *.
  destruct (sum_float8 _) as [kwh|]; [|done]. injection Hpg as <-. cbn [charger_report an_TotalTransactions an_PeakUsageTimes].
  set (rows2 := filter (in_window w) (of_charger chargerID txs2)). set (rows := filter (in_window w) (of_charger chargerID txs)).
  assert (Hp : rows2 ≡ₚ rows) by (unfold rows2, rows, of_charger; by rewrite H2).
  rewrite (proj1 (count_in_spec rows2 tally0)), tally_peak, groups_peak by done. cbn [ty_count tally0].
  assert (Hpeak : peak_of Hour rows2 = peak_of Hour rows).
  { unfold peak_of. apply list_fmap_ext. intros i h _. by apply hour_count_perm. }
  rewrite Hpeak, Hp. split_and!; try done; lia.
Qed.


Lemma duration_parts_sum seconds : 0 ≤ seconds →
  match (duration_parts seconds).*1 with
  | [y; d; h; m; s] => seconds = 31536000 * y + 86400 * d + 3600 * h + 60 * m + s ∧
      0 ≤ d < 365 ∧ 0 ≤ h < 24 ∧ 0 ≤ m < 60 ∧ 0 ≤ s < 60
  | _ => False
  end.
Proof. intros H. cbn. Z.to_euclidean_division_equations. lia. Qed.

(** ** Runs *)
Module AnalyticsRuns.
#[local] Instance amd64 : Int64Overflow := {| int64_of_wide _ := Int64.min_value |}.
Example duration_day : FormatDuration (Float64.of_int 90061) = "1 days, 1 hours, 1 minutes, 1 seconds".
Proof. vm_compute. reflexivity. Qed.
Example duration_half : FormatDuration (Float64.div (Float64.of_int 1) (Float64.of_int 2)) = "1 seconds".
Proof. vm_compute. reflexivity. Qed.
Example duration_none : FormatDuration S754_nan = "0 seconds".
Proof. vm_compute. reflexivity. Qed.
Example peak_last : PeakUsageTimes (<[23%nat := 2]> (<[7%nat := 2]> (<[1%nat := 1]> (replicate 24 0)))) =
  "07:00 - 08:00, 23:00 - 00:00".
Proof. vm_compute. reflexivity. Qed.
Definition session (id hour : Z) (stop : option Time) : Transaction :=
  (new_legacy id id "a1" (hour * 3600 * GoTime.Second) (mkCreateTransactionInput "CP-1" 1 Float64.zero "TAG" false))
    <| lt_StopTime := stop |> <| lt_TotalConsumption := Some (Float64.of_int id) |>.
Definition sessions : list Transaction :=
  [session 1 7 (Some (8 * 3600 * GoTime.Second)); session 2 7 None; session 3 9 (Some (10 * 3600 * GoTime.Second))].
Definition groups (txs : list Transaction) : list Z := remove_dups ((λ tx, Hour (lt_StartTime tx)) <$> txs).
Lemma groups_fine : groups_ok Hour groups.
Proof.
  intros txs. unfold groups. split; [apply NoDup_remove_dups|]. intros h. rewrite elem_of_remove_dups, list_elem_of_fmap.
  naive_solver.
Qed.
Definition asked : AnalyticsInput := mkAnalyticsInput "all" None None.
End AnalyticsRuns.
#[local] Existing Instance AnalyticsRuns.amd64.

Lemma analytics_count_alike_witness :
  let m := computeMemoryAnalytics 0 "CP-1" AnalyticsRuns.asked (reverse AnalyticsRuns.sessions) AnalyticsRuns.sessions in
  an_TotalTransactions m = 3 ∧ an_PeakUsageTimes m = "07:00 - 08:00" ∧
  ∃ a, analyticsForCharger Hour AnalyticsRuns.groups 0 "CP-1" AnalyticsRuns.asked AnalyticsRuns.sessions = inl a ∧
  an_TotalTransactions m = an_TotalTransactions a ∧ an_PeakUsageTimes m = an_PeakUsageTimes a.
Proof.
  cbv zeta. split; [vm_compute; reflexivity|]. split; [vm_compute; reflexivity|].
  eexists. split; [vm_compute; reflexivity|].
  assert (Htimes : Forall stored_times AnalyticsRuns.sessions) by (repeat constructor; vm_compute; reflexivity).
  destruct (analytics_count_alike AnalyticsRuns.groups 0 "CP-1" AnalyticsRuns.asked AnalyticsRuns.sessions
    (reverse AnalyticsRuns.sessions) AnalyticsRuns.sessions _ (reverse_Permutation _) (Permutation_refl _)
    AnalyticsRuns.groups_fine eq_refl I I Htimes ltac:(vm_compute; reflexivity)) as (Hc & Hp & _).
  split; [exact Hc|exact Hp].
Defined.
