(* ===== verification/Migrations.v ===== *)
(** * Migrations

    internal/migrationrunner/runner.go and cmd/migrate/main.go: the scan of a
    migration's text for the tables it creates, and the guarded transaction that
    runs it as the application role.  The regular expression is a backtracking
    parser: the matches of a text in the order of preference, the first being the
    match.  PostgreSQL is a class. *)
From Stdlib Require Import String Ascii.
From stdpp Require Import base numbers decidable option list strings gmap.
From S2P Require Import Prelude GoText GoClock V1Types PgSchema GoUrl Config.
Open Scope Z_scope.

(** ** Backtracking parsers *)
Definition parser (A : Type) : Type := string → list (A * string).
#[global] Instance parser_ret : MRet parser := λ A a s, [(a, s)].
#[global] Instance parser_bind : MBind parser := λ A B k p s, p s ≫= λ r, k r.1 r.2.
(** [p?], greedy. *)
Definition p_opt (p : parser ()) : parser () := λ s, p s ++ [((), s)].
(** [p*] and [p+] of a character class, greedy, with the matched text; [fuel]
    bounds the repetitions. *)
Fixpoint p_star (fuel : nat) (p : parser string) (s : string) : list (string * string) :=
  match fuel with
  | O => [(EmptyString, s)]
  | S fuel' => (p s ≫= λ r, (λ q, (r.1 +:+ q.1, q.2)) <$> p_star fuel' p r.2) ++ [(EmptyString, s)]
  end.
Definition star (p : parser string) : parser string := λ s, p_star (String.length s) p s.
Definition plus (p : parser string) : parser string := a ← p; b ← star p; mret (a +:+ b).

(** ** The pattern *)
(** A single-byte character of a class, or one of the encodings beside it. *)
Definition p_class (f : ascii → bool) (others : list string) : parser string := λ s,
  match s with
  | String c s' => if f c then [(String c EmptyString, s')] else omap (λ t, (λ r, (t, r)) <$> GoStrings.strip t s) others
  | EmptyString => []
  end.
(** Under (?i) the long s and the Kelvin sign fold to s and k. *)
Definition folds_to (c : ascii) : list string :=
  if decide (c = "s"%char) then [long_s] else if decide (c = "k"%char) then [kelvin_sign] else [].
Fixpoint word (w : string) : parser () :=
  match w with
  | EmptyString => mret ()
  | String c w' => p_class (λ a, bool_decide (lower_char a = c)) (folds_to c);; word w'
  end.
Definition is_space (a : ascii) : bool := bool_decide (nat_of_ascii a ∈ [9; 10; 12; 13; 32]%nat).
Definition spaces : parser string := plus (p_class is_space []).
Definition between (lo hi : ascii) (a : ascii) : bool := bool_decide (nat_of_ascii lo ≤ nat_of_ascii a ≤ nat_of_ascii hi)%nat.
Definition name_start (a : ascii) : bool := between "a" "z" (lower_char a) || bool_decide (a = "_"%char).
Definition name_char (a : ascii) : bool := name_start a || between "0" "9" a.
Definition identifier : parser string :=
  a ← p_class name_start [long_s; kelvin_sign];
  b ← star (p_class name_char [long_s; kelvin_sign]);
  mret (a +:+ b).
Definition dot : parser string := p_class (λ a, bool_decide (a = "."%char)) [].
Definition createTable : parser string :=
  word "create";; spaces;; word "table";; spaces;;
  p_opt (word "if";; spaces;; word "not";; spaces;; word "exists";; spaces;; mret ());;
  p_opt (identifier;; dot;; mret ());;
  identifier.

(** [FindAllStringSubmatch]: the names of the leftmost matches, one after the
    other. *)
Fixpoint find_all (fuel : nat) (s : string) : list string :=
  match fuel with
  | O => []
  | S fuel' =>
    match createTable s with
    | (name, rest) :: _ => name :: find_all fuel' rest
    | [] => match s with EmptyString => [] | String _ s' => find_all fuel' s' end
    end
  end.
Definition submatches (s : string) : list string := find_all (String.length s) s.
Definition add_new (result : list string) (name : string) : list string :=
  if decide (name ∈ result) then result else result ++ [name].
Definition CreatedTables (sqlText : string) : list string :=
  foldl (λ result m, add_new result (ToLower m)) [] (submatches sqlText).

Example CreatedTables_once :
  CreatedTables "CREATE TABLE public.first_table (id int); CREATE TABLE IF NOT EXISTS second_table (id int); CREATE TABLE first_table (id int);" =
  ["first_table"; "second_table"].
Proof. vm_compute. reflexivity. Qed.
Example CreatedTables_case : CreatedTables "create  Table If Not eXists A.B(" = ["b"].
Proof. vm_compute. reflexivity. Qed.
(** With IF NOT EXISTS a quoted name is taken for a table named if, whose owner
    cannot be found: the check fails.  Without it, or with a word before TABLE, the
    table is not seen at all. *)
Definition quote : string := String (ascii_of_nat 34) EmptyString.
Example CreatedTables_quoted_if : CreatedTables ("CREATE TABLE IF NOT EXISTS " +:+ quote +:+ "x" +:+ quote +:+ " (id int)") = ["if"].
Proof. vm_compute. reflexivity. Qed.
Example CreatedTables_quoted : CreatedTables ("CREATE TABLE " +:+ quote +:+ "x" +:+ quote +:+ " (id int)") = [].
Proof. vm_compute. reflexivity. Qed.
Example CreatedTables_unlogged : CreatedTables "CREATE UNLOGGED TABLE x (id int)" = [].
Proof. vm_compute. reflexivity. Qed.

(** ** The guarded transaction *)
Class MigrationDb (db tx : Type) : Type := {
  BeginTx : db → result tx;
  quote_ident : string → tx → result string;
  Exec : string → tx → result tx;
  current_user : tx → result string;
  table_owner : string → tx → result string;
  Commit : tx → result db
}.
Section Apply.
Context {db tx : Type} {HDB : MigrationDb db tx}.

Fixpoint check_owners (role : string) (tables : list string) (t : tx) : fallible () :=
  match tables with
  | [] => mret ()
  | table :: tables =>
    owner ← table_owner table t;
    if decide (owner = role) then check_owners role tables t
    else Errorf "migration relation owner does not match configured application role"
  end.
Definition guarded_transaction (role sqlText : string) (d : db) : fallible db :=
  t ← BeginTx d;
  quotedRole ← quote_ident role t;
  t ← Exec ("SET LOCAL ROLE " +:+ quotedRole) t;
  currentUser ← current_user t;
  if decide (currentUser ≠ role) then Errorf "migration current_user does not match configured application role"
  else
    t ← Exec sqlText t;
    t ← Exec "RESET ROLE" t;
    check_owners role (CreatedTables sqlText) t;;
    Commit t.
(** The deferred rollback leaves the database as it was. *)
Definition Apply (applicationRole sqlText : string) (d : db) : db * option go_error :=
  let role := GoStrings.TrimSpace applicationRole in
  let r :=
    if decide (role = "") then Errorf "HAL_MIGRATION_APPLICATION_ROLE is required"
    else if decide (GoStrings.TrimSpace sqlText = "") then Errorf "migration SQL is empty"
    else guarded_transaction role sqlText d in
  match r with inl d' => (d', None) | inr err => (d, Some err) end.

(** cmd/migrate: the exit code.  [connect] opens and pings the URL. *)
Definition migrate {HU : UrlLib} (file : string) (environ : list string) (env_file : file_read) (read_file : string → result string)
    (connect : string → result db) : option db * Z :=
  if decide (GoStrings.TrimSpace file = "") then (None, 2)
  else
    match Load environ env_file with
    | inr _ => (None, 2)
    | inl cfg =>
      match read_file file with
      | inr _ => (None, 2)
      | inl sqlText =>
        match connect (PostgresURL cfg) with
        | inr _ => (None, 1)
        | inl d =>
          match Apply (cfg_MigrationApplicationRole cfg) sqlText d with
          | (d', None) => (Some d', 0)
          | (d', Some _) => (Some d', 1)
          end
        end
      end
    end.
End Apply.

(** ** CREATE TABLE statements *)
(** [cs] is [w] in some case. *)
Fixpoint spelled (w cs : string) : Prop :=
  match w, cs with
  | EmptyString, EmptyString => True
  | String c w', String a cs' => lower_char a = c ∧ spelled w' cs'
  | _, _ => False
  end.
Definition all_chars (f : ascii → bool) (s : string) : Prop := Forall (λ c, f c = true) (String.list_ascii_of_string s).
Definition blanks (s : string) : Prop := s ≠ "" ∧ all_chars is_space s.
Definition is_name (s : string) : Prop :=
  match s with String a s' => name_start a = true ∧ all_chars name_char s' | EmptyString => False end.
Record exists_clause : Type := mkexists_clause {
  ec_if : string; ec_sp1 : string; ec_not : string; ec_sp2 : string; ec_exists : string; ec_sp3 : string
}.
Record create_stmt : Type := mkcreate_stmt {
  st_create : string; st_sp1 : string; st_table : string; st_sp2 : string;
  st_exists : option exists_clause;
  st_schema : option string;
  st_name : string
}.
Definition exists_text (e : exists_clause) : string :=
  ec_if e +:+ ec_sp1 e +:+ ec_not e +:+ ec_sp2 e +:+ ec_exists e +:+ ec_sp3 e.
Definition stmt_text (st : create_stmt) (rest : string) : string :=
  st_create st +:+ st_sp1 st +:+ st_table st +:+ st_sp2 st +:+
  from_option (λ e r, exists_text e +:+ r) id (st_exists st)
    (from_option (λ schema r, schema +:+ "." +:+ r) id (st_schema st) (st_name st +:+ rest)).
Definition exists_ok (e : exists_clause) : Prop :=
  spelled "if" (ec_if e) ∧ blanks (ec_sp1 e) ∧ spelled "not" (ec_not e) ∧ blanks (ec_sp2 e) ∧
  spelled "exists" (ec_exists e) ∧ blanks (ec_sp3 e).
(** What may follow a name. *)
Definition after_name (name rest : string) : Prop :=
  match rest with
  | EmptyString => True
  | String c _ => name_char c = false ∧ (nat_of_ascii c < 128)%nat ∧ c ≠ "."%char ∧
      (spelled "if" name → is_space c = false)
  end.
Definition stmt_ok (st : create_stmt) (rest : string) : Prop :=
  spelled "create" (st_create st) ∧ blanks (st_sp1 st) ∧ spelled "table" (st_table st) ∧ blanks (st_sp2 st) ∧
  from_option exists_ok True (st_exists st) ∧ from_option is_name True (st_schema st) ∧ is_name (st_name st) ∧
  after_name (st_name st) rest.

(** ** Lemmas on the parsers *)
Lemma string_length_app s t : String.length (s +:+ t) = (String.length s + String.length t)%nat.
Proof. induction s as [|a s IH]; [done|]. rewrite append_cons. cbn [String.length]. by rewrite IH. Qed.
Lemma word_spelled w cs s : spelled w cs → word w (cs +:+ s) = [((), s)].
Proof.
  revert cs. induction w as [|c w IH]; intros [|a cs] H; try done. destruct H as [Ha H]. rewrite append_cons.
  cbn [word]. unfold mbind, parser_bind, p_class. rewrite bool_decide_true by done. cbn. by rewrite app_nil_r, IH.
Qed.
Lemma p_class_in f others a s : f a = true → p_class f others (String a s) = [(String a EmptyString, s)].
Proof. intros H. cbn. by rewrite H. Qed.
(** Where a class does not begin, the repetition takes what comes before it. *)
Lemma p_star_all f others t s fuel : all_chars f t → p_class f others s = [] → (String.length t ≤ fuel)%nat →
  ∃ l, p_star fuel (p_class f others) (t +:+ s) = (t, s) :: l ∧ Forall (λ q, ∃ a r, q.2 = String a r ∧ f a = true) l.
Proof.
  revert fuel. induction t as [|a t IH]; intros fuel Ht Hs Hfuel.
  - exists []. split; [|constructor]. destruct fuel as [|fuel]; [done|]. cbn [p_star].
    change (EmptyString +:+ s) with s. by rewrite Hs.
  - destruct fuel as [|fuel]; [cbn in Hfuel; lia|]. inversion Ht as [|? ? Ha Ht']; subst.
    destruct (IH fuel Ht' Hs) as (l & Hl & Hf); [cbn in Hfuel; lia|].
    rewrite append_cons. cbn [p_star]. rewrite p_class_in by done. cbn [mbind list_bind fst snd]. rewrite Hl, app_nil_r. cbn.
    eexists. split; [done|]. apply Forall_app. split.
    + apply Forall_fmap. eapply Forall_impl; [exact Hf|]. done.
    + constructor; [|constructor]. by exists a, (t +:+ s).
Qed.
Lemma star_all f others t s : all_chars f t → p_class f others s = [] →
  ∃ l, star (p_class f others) (t +:+ s) = (t, s) :: l ∧ Forall (λ q, ∃ a r, q.2 = String a r ∧ f a = true) l.
Proof. intros Ht Hs. apply p_star_all; [done|done|]. rewrite string_length_app. lia. Qed.
Definition fails_on {A} (f : ascii → bool) (k : parser A) : Prop := ∀ a r, f a = true → k (String a r) = [].
Lemma bind_fails {A B} f (k : A → parser B) (l : list (A * string)) :
  Forall (λ q, ∃ a r, q.2 = String a r ∧ f a = true) l → (∀ x, fails_on f (k x)) → (l ≫= λ r, k r.1 r.2) = [].
Proof.
  intros Hl Hk. induction Hl as [|q l (a & r & E & Ha) _ IH]; [done|]. cbn. rewrite E, Hk by done. apply IH.
Qed.
Lemma rests_mapped {A B} f (g : A → B) (l : list (A * string)) :
  Forall (λ q, ∃ a r, q.2 = String a r ∧ f a = true) l →
  Forall (λ q, ∃ a r, q.2 = String a r ∧ f a = true) (l ≫= λ r, mret (M := parser) (g r.1) r.2).
Proof. intros Hl. induction Hl as [|q l Hq _ IH]; [constructor|]. cbn. by constructor. Qed.
Lemma spaces_then {A} ws (k : parser A) s : blanks ws → p_class is_space [] s = [] → fails_on is_space k →
  (spaces;; k) (ws +:+ s) = k s.
Proof.
  intros [Hne Hws] Hs Hk. destruct ws as [|a ws]; [done|]. inversion Hws as [|? ? Ha Hws']; subst.
  destruct (star_all is_space [] ws s Hws' Hs) as (l & Hl & Hf).
  rewrite append_cons. unfold spaces, plus, mbind, parser_bind. rewrite p_class_in by done. cbn [mbind list_bind fst snd].
  rewrite Hl. cbn.
  rewrite app_nil_r, (bind_fails is_space (λ _, k)), app_nil_r; [done| |done]. by apply rests_mapped.
Qed.

(** An ASCII character outside the class ends it. *)
Lemma p_class_out f others c s : f c = false → (nat_of_ascii c < 128)%nat → Forall (λ t, t ∈ [long_s; kelvin_sign]) others →
  p_class f others (String c s) = [].
Proof.
  intros Hf Hc Hothers. cbn. rewrite Hf. induction Hothers as [|t others Ht _ IH]; [done|].
  assert (Hs : GoStrings.strip t (String c s) = None).
  { rewrite !elem_of_cons, elem_of_nil in Ht. destruct Ht as [->|[->|[]]]; cbn;
      (destruct (decide (_ = c)) as [<-|]; [vm_compute in Hc; lia|done]). }
  cbn. by rewrite Hs.
Qed.
Lemma folds_foreign c : Forall (λ t, t ∈ [long_s; kelvin_sign]) (folds_to c).
Proof. unfold folds_to. repeat case_decide; repeat constructor. Qed.
Lemma word_fails c w a s : lower_char a ≠ c → (nat_of_ascii a < 128)%nat → word (String c w) (String a s) = [].
Proof.
  intros Hne Ha. cbn [word]. unfold mbind, parser_bind. rewrite p_class_out; [done| |done|apply folds_foreign].
  by apply bool_decide_eq_false.
Qed.
Lemma space_ascii a : is_space a = true → (nat_of_ascii a < 128)%nat ∧ lower_char a = a ∧ name_start a = false ∧ name_char a = false.
Proof.
  unfold is_space. intros H%bool_decide_eq_true. rewrite !elem_of_cons, elem_of_nil in H.
  assert (Hn : a = ascii_of_nat (nat_of_ascii a)) by by rewrite ascii_nat_embedding.
  destruct H as [H|[H|[H|[H|[H|[]]]]]]; rewrite H in Hn; subst a; vm_compute; split_and!; (lia || done).
Qed.
Lemma word_space c w : is_space c = false → fails_on is_space (word (String c w)).
Proof.
  intros Hc a r Ha. destruct (space_ascii a Ha) as (H1 & H2 & _). apply word_fails; [|done]. rewrite H2. intros ->. congruence.
Qed.
Lemma name_not_space a : name_char a = true → is_space a = false.
Proof. intros H. destruct (is_space a) eqn:E; [|done]. apply space_ascii in E as (_ & _ & _ & E). congruence. Qed.
Lemma start_is_char a : name_start a = true → name_char a = true.
Proof. unfold name_char. by intros ->. Qed.
Lemma identifier_fails a s : name_start a = false → (nat_of_ascii a < 128)%nat → identifier (String a s) = [].
Proof.
  intros Hn Ha. unfold identifier, mbind, parser_bind. rewrite p_class_out; [done|done|done|repeat constructor].
Qed.
Lemma stop_class f name rest : after_name name rest → (∀ a, f a = true → name_char a = true) →
  p_class f [long_s; kelvin_sign] rest = [].
Proof.
  destruct rest as [|c rest]; [done|]. intros (Hc & Ha & _) Hf. apply p_class_out; [|done|repeat constructor].
  destruct (f c) eqn:E; [|done]. apply Hf in E. congruence.
Qed.
(** What the identifier takes: a whole name first. *)
Lemma identifier_results name s : is_name name → p_class name_char [long_s; kelvin_sign] s = [] →
  ∃ l, identifier (name +:+ s) = (name, s) :: l ∧ Forall (λ q, ∃ a r, q.2 = String a r ∧ name_char a = true) l.
Proof.
  destruct name as [|a name]; [done|]. intros [Ha Hn] Hs.
  destruct (star_all name_char [long_s; kelvin_sign] name s Hn Hs) as (l & Hl & Hf).
  rewrite append_cons. unfold identifier, mbind, parser_bind. rewrite p_class_in by done. cbn [mbind list_bind fst snd].
  rewrite Hl. eexists. split; [cbn; by rewrite app_nil_r|]. by apply rests_mapped.
Qed.

(** *** The parts of the pattern *)
Lemma fails_bind {A B} f (p : parser A) (k : A → parser B) : fails_on f p → fails_on f (p ≫= k).
Proof. intros H a r Ha. unfold mbind, parser_bind. by rewrite H. Qed.
Lemma opt_absent {A} (p : parser ()) (k : parser A) s : p s = [] → (p_opt p;; k) s = k s.
Proof. intros H. unfold mbind, parser_bind, p_opt. rewrite H. cbn. by rewrite app_nil_r. Qed.
Lemma opt_present {A} (p : parser ()) (k : parser A) s s' : p s = [((), s')] → (p_opt p;; k) s = k s' ++ k s.
Proof. intros H. unfold mbind, parser_bind, p_opt. rewrite H. cbn. by rewrite app_nil_r. Qed.
Lemma word_then {A} w cs (k : parser A) s : spelled w cs → (word w;; k) (cs +:+ s) = k s.
Proof. intros H. unfold mbind at 1, parser_bind. rewrite word_spelled by done. cbn. by rewrite app_nil_r. Qed.
Lemma name_ascii : ∀ a, name_char a = true → (nat_of_ascii a < 128)%nat.
Proof.
  assert (H : ∀ a, negb (name_char a) || bool_decide (nat_of_ascii a < 128)%nat = true) by (apply every_byte; vm_compute; reflexivity).
  intros a Ha. specialize (H a). rewrite Ha in H. by apply bool_decide_eq_true in H.
Qed.
Definition no_space (s : string) : Prop := p_class is_space [] s = [].
Lemma no_space_char a s : is_space a = false → no_space (String a s).
Proof. intros H. unfold no_space. cbn. by rewrite H. Qed.
Lemma no_space_word c w cs s : is_space c = false → spelled (String c w) cs → no_space (cs +:+ s).
Proof.
  destruct cs as [|a cs]; [done|]. intros Hc [Ha _]. rewrite append_cons. apply no_space_char.
  destruct (is_space a) eqn:E; [|done]. apply space_ascii in E as E'. destruct E' as (_ & El & _). congruence.
Qed.
Lemma no_space_name name s : is_name name → no_space (name +:+ s).
Proof.
  destruct name as [|a name]; [done|]. intros [Ha _]. rewrite append_cons.
  by apply no_space_char, name_not_space, start_is_char.
Qed.
Definition if_not_exists : parser () := word "if";; spaces;; word "not";; spaces;; word "exists";; spaces;; mret ().
Definition schema_prefix : parser () := identifier;; dot;; mret ().
Ltac failing := apply fails_bind; by apply word_space.
Lemma opt_first {A} (p : parser ()) (k : parser A) s s' l x l' : p s = ((), s') :: l → k s' = x :: l' →
  ∃ l'', (p_opt p;; k) s = x :: l''.
Proof. intros Hp Hk. unfold mbind, parser_bind, p_opt. rewrite Hp. cbn. rewrite Hk. by eexists. Qed.
Lemma spaces_first ws s : blanks ws → no_space s → ∃ l, (spaces;; mret ()) (ws +:+ s) = ((), s) :: l.
Proof.
  intros [Hne Hws] Hs. destruct ws as [|a ws]; [done|]. inversion Hws as [|? ? Ha Hws']; subst.
  destruct (star_all is_space [] ws s Hws' Hs) as (l & Hl & _).
  rewrite append_cons. unfold spaces, plus, mbind, parser_bind. rewrite p_class_in by done. cbn [mbind list_bind fst snd].
  rewrite Hl. cbn. by eexists.
Qed.
Lemma if_not_exists_first e s : exists_ok e → no_space s → ∃ l, if_not_exists (exists_text e +:+ s) = ((), s) :: l.
Proof.
  intros (H1 & H2 & H3 & H4 & H5 & H6) Hs. unfold if_not_exists, exists_text. rewrite !append_assoc.
  rewrite word_then by done.
  rewrite spaces_then; [|done|by apply (no_space_word "n" "ot")|failing].
  rewrite word_then by done.
  rewrite spaces_then; [|done|by apply (no_space_word "e" "xists")|failing].
  rewrite word_then by done. by apply spaces_first.
Qed.
Lemma word_step c w a s : lower_char a = c → word (String c w) (String a s) = word w s.
Proof.
  intros H. cbn [word]. unfold mbind, parser_bind. rewrite p_class_in by by apply bool_decide_eq_true.
  cbn. by rewrite app_nil_r.
Qed.
Lemma not_f c : name_char c = false → lower_char c ≠ "f"%char.
Proof.
  assert (H : ∀ c, negb (bool_decide (lower_char c = "f"%char)) || name_char c = true)
    by (apply every_byte; vm_compute; reflexivity).
  intros Hc Hf. specialize (H c). by rewrite Hc, bool_decide_true in H.
Qed.
Lemma word_f_out c s : lower_char c ≠ "f"%char → word "f" (String c s) = [].
Proof. intros H. cbn [word]. unfold mbind, parser_bind. cbn [p_class]. by rewrite bool_decide_false. Qed.
Lemma if_not_exists_absent name s : is_name name → p_class name_char [long_s; kelvin_sign] s = [] →
  (spelled "if" name → no_space s) → if_not_exists (name +:+ s) = [].
Proof.
  intros Hn Hs Hif. unfold if_not_exists, mbind at 1, parser_bind at 1.
  assert (H : word "if" (name +:+ s) = [] ∨ ∃ r, word "if" (name +:+ s) = [((), r)] ∧ no_space r).
  { destruct name as [|a name]; [done|]. destruct Hn as [Ha Hn]. rewrite append_cons.
    destruct (decide (lower_char a = "i"%char)) as [Hi|Hi];
      [|left; apply word_fails; [done|by apply name_ascii, start_is_char]].
    rewrite word_step by done. destruct name as [|b name].
    - change (EmptyString +:+ s) with s. destruct s as [|c s]; [by left|]. left. apply word_f_out, not_f.
      cbn in Hs. by destruct (name_char c).
    - rewrite append_cons. inversion Hn as [|? ? Hb Hn']; subst.
      destruct (decide (lower_char b = "f"%char)) as [Hf|Hf]; [|left; by apply word_f_out].
      right. exists (name +:+ s). split; [by rewrite word_step|].
      destruct name as [|d name]; [apply Hif; by repeat split|]. rewrite append_cons. inversion Hn'; subst.
      by apply no_space_char, name_not_space. }
  destruct H as [->|(r & -> & Hr)]; [done|]. cbn. rewrite app_nil_r.
  unfold mbind, parser_bind, spaces, plus. unfold mbind, parser_bind. by rewrite Hr.
Qed.
Lemma dot_fails : fails_on name_char dot.
Proof.
  intros a r Ha. unfold dot. apply p_class_out; [|by apply name_ascii|constructor]. apply bool_decide_eq_false. intros ->.
  vm_compute in Ha. done.
Qed.
Lemma name_then {A} name (k : parser A) s : is_name name → p_class name_char [long_s; kelvin_sign] s = [] →
  fails_on name_char k → (identifier;; k) (name +:+ s) = k s.
Proof.
  intros Hn Hs Hk. destruct (identifier_results name s Hn Hs) as (l & Hl & Hf).
  unfold mbind, parser_bind. rewrite Hl. cbn. rewrite (bind_fails name_char (λ _, k)); [by rewrite app_nil_r|done|done].
Qed.

(** *** A statement is matched *)
Lemma schema_there schema s : is_name schema → schema_prefix (schema +:+ "." +:+ s) = [((), s)].
Proof.
  intros Hs. unfold schema_prefix. rewrite name_then; [|done|by apply p_class_out; [|vm_compute; lia|repeat constructor]|].
  - unfold mbind, parser_bind, dot. change ("." +:+ s) with (String "." s). rewrite p_class_in by done. done.
  - apply fails_bind, dot_fails.
Qed.
Lemma schema_absent name rest : is_name name → after_name name rest → schema_prefix (name +:+ rest) = [].
Proof.
  intros Hn Ha. unfold schema_prefix. rewrite name_then; [|done|by eapply stop_class|apply fails_bind, dot_fails].
  unfold mbind, parser_bind, dot. destruct rest as [|c rest]; [done|]. destruct Ha as (_ & Hc & Hd & _).
  rewrite p_class_out; [done|by apply bool_decide_eq_false|done|constructor].
Qed.
Definition table_name : parser string := p_opt schema_prefix;; identifier.
Lemma table_name_first schema name rest : from_option is_name True schema → is_name name → after_name name rest →
  ∃ l, table_name (from_option (λ sc r, sc +:+ "." +:+ r) id schema (name +:+ rest)) = (name, rest) :: l.
Proof.
  intros Hs Hn Ha. destruct (identifier_results name rest Hn) as (l & Hl & _); [by eapply stop_class|].
  unfold table_name. destruct schema as [schema|]; cbn [from_option].
  - eapply opt_first; [by rewrite schema_there|exact Hl].
  - rewrite opt_absent by by apply schema_absent. by exists l.
Qed.
Lemma name_no_space schema name rest : from_option is_name True schema → is_name name →
  no_space (from_option (λ sc r, sc +:+ "." +:+ r) id schema (name +:+ rest)).
Proof. intros Hs Hn. by destruct schema; apply no_space_name. Qed.
Lemma exists_absent schema name rest : from_option is_name True schema → is_name name → after_name name rest →
  if_not_exists (from_option (λ sc r, sc +:+ "." +:+ r) id schema (name +:+ rest)) = [].
Proof.
  intros Hs Hn Ha. destruct schema as [schema|]; cbn [from_option].
  - apply if_not_exists_absent; [done|by apply p_class_out; [|vm_compute; lia|repeat constructor]|]. intros _. by apply no_space_char.
  - apply if_not_exists_absent; [done|by eapply stop_class|]. intros Hif. destruct rest as [|c rest]; [done|].
    apply no_space_char. by apply Ha.
Qed.
Lemma identifier_space : fails_on is_space identifier.
Proof. intros a r H. apply space_ascii in H as (H1 & _ & H2 & _). by apply identifier_fails. Qed.
Lemma opt_fails {A} f (p : parser ()) (k : parser A) : fails_on f p → fails_on f k → fails_on f (p_opt p;; k).
Proof. intros Hp Hk a r Ha. rewrite opt_absent by by apply Hp. by apply Hk. Qed.
Lemma table_name_space : fails_on is_space table_name.
Proof. apply opt_fails; [apply fails_bind|]; apply identifier_space. Qed.
Lemma stmt_first st rest : stmt_ok st rest → ∃ l, createTable (stmt_text st rest) = (st_name st, rest) :: l.
Proof.
  intros (H1 & H2 & H3 & H4 & H5 & H6 & H7 & H8). unfold createTable, stmt_text.
  fold if_not_exists. fold schema_prefix. fold table_name.
  destruct (table_name_first _ _ _ H6 H7 H8) as [l Hl].
  pose proof (name_no_space _ _ rest H6 H7) as Hns.
  set (tail := from_option (λ sc r, sc +:+ "." +:+ r) id (st_schema st) (st_name st +:+ rest)) in *.
  rewrite word_then by done.
  rewrite spaces_then; [|done|by apply (no_space_word "t" "able")|failing].
  rewrite word_then by done.
  rewrite spaces_then; [|done| |].
  - destruct (st_exists st) as [e|]; cbn [from_option].
    + destruct (if_not_exists_first e tail H5 Hns) as [l' Hl']. by eapply opt_first.
    + rewrite opt_absent; [by exists l|]. by apply exists_absent.
  - destruct (st_exists st) as [e|]; cbn [from_option]; [|done]. unfold exists_text. rewrite !append_assoc.
    by apply (no_space_word "i" "f"); [|apply H5].
  - apply opt_fails; [failing|apply table_name_space].
Qed.

(** ** A migration's text *)
(** Text before and between the statements in which no CREATE begins. *)
Fixpoint quiet (n : nat) (s : string) : Prop :=
  match n, s with
  | S n', String _ s' => word "create" s = [] ∧ quiet n' s'
  | _, _ => True
  end.
Fixpoint migration_text (parts : list (string * create_stmt)) (tail : string) : string :=
  match parts with [] => tail | (gap, st) :: parts => gap +:+ stmt_text st (migration_text parts tail) end.
Fixpoint migration_ok (parts : list (string * create_stmt)) (tail : string) : Prop :=
  match parts with
  | [] => quiet (String.length tail) tail
  | (gap, st) :: parts' =>
    quiet (String.length gap) (migration_text parts tail) ∧ stmt_ok st (migration_text parts' tail) ∧ migration_ok parts' tail
  end.
Lemma createTable_word s : word "create" s = [] → createTable s = [].
Proof. intros H. unfold createTable, mbind at 1, parser_bind at 1. by rewrite H. Qed.
Lemma find_gap gap s fuel : quiet (String.length gap) (gap +:+ s) → (String.length gap + String.length s ≤ fuel)%nat →
  find_all fuel (gap +:+ s) = find_all (fuel - String.length gap) s.
Proof.
  revert fuel. induction gap as [|a gap IH]; intros fuel Hq Hf; [cbn; by rewrite Nat.sub_0_r|].
  rewrite append_cons in *. cbn [quiet String.length] in *. destruct Hq as [Hw Hq]. destruct fuel as [|fuel]; [lia|].
  cbn [find_all]. rewrite createTable_word by done. rewrite IH by (done || lia). f_equal.
Qed.
Lemma stmt_length st rest : (String.length rest < String.length (stmt_text st rest))%nat ∨ ¬ stmt_ok st rest.
Proof.
  destruct (st_create st) as [|a cs] eqn:E; [right; intros [H _]; by rewrite E in H|left].
  unfold stmt_text. rewrite E, append_cons. cbn [String.length]. rewrite !string_length_app.
  destruct (st_exists st), (st_schema st); cbn [from_option id]; rewrite ?string_length_app; lia.
Qed.
Lemma find_all_text parts tail fuel : migration_ok parts tail → (String.length (migration_text parts tail) ≤ fuel)%nat →
  find_all fuel (migration_text parts tail) = (st_name ∘ snd) <$> parts.
Proof.
  revert fuel. induction parts as [|[gap st] parts IH]; intros fuel Hok Hf; cbn [migration_text migration_ok] in *.
  - assert (Hq : quiet (String.length tail) (tail +:+ "")) by by rewrite append_nil_r.
    rewrite <- (append_nil_r tail), find_gap; [by destruct (_ - _)%nat|done|cbn; lia].
  - destruct Hok as (Hq & Hst & Hok). rewrite string_length_app in Hf.
    rewrite find_gap by (done || lia). destruct (stmt_first _ _ Hst) as [l Hl].
    destruct (stmt_length st (migration_text parts tail)) as [Hlt|]; [|done].
    destruct (fuel - String.length gap)%nat as [|fuel'] eqn:Ef; [lia|]. cbn [find_all]. rewrite Hl. cbn [fmap list_fmap].
    f_equal. apply IH; [done|lia].
Qed.
Lemma add_new_elem names result x : x ∈ foldl add_new result names ↔ x ∈ result ∨ x ∈ names.
Proof.
  revert result. induction names as [|n names IH]; intros result; cbn [foldl]; [rewrite elem_of_nil; tauto|].
  rewrite IH, elem_of_cons. unfold add_new. case_decide; [naive_solver|]. rewrite elem_of_app, list_elem_of_singleton. tauto.
Qed.
Lemma CreatedTables_text parts tail : migration_ok parts tail →
  CreatedTables (migration_text parts tail) = foldl add_new [] ((λ p, ToLower (st_name p.2)) <$> parts).
Proof.
  intros Hok. unfold CreatedTables, submatches. rewrite find_all_text by done. generalize (@nil string).
  clear Hok. induction parts as [|p parts IH]; intros result; [done|]. cbn. apply IH.
Qed.
Lemma check_owners_all {db tx} {HDB : MigrationDb db tx} role tables t :
  check_owners role tables t = inl () → ∀ table, table ∈ tables → table_owner table t = inl role.
Proof.
  induction tables as [|x tables IH]; intros H table Hin; [by apply elem_of_nil in Hin|]. cbn in H.
  unfold mbind, fallible_bind in H. destruct (table_owner x t) as [owner|] eqn:E; [|done]. case_decide; [|done]. subst owner.
  apply elem_of_cons in Hin as [->|Hin]; [done|by apply IH].
Qed.

(** A migration leaves its tables to the application role.  Take a text of
    CREATE TABLE statements - in any case and spacing, with or without IF NOT
    EXISTS and a schema - and of anything between them in which no CREATE begins.
    If Apply succeeds, the text ran in one transaction, as the configured role,
    and when that transaction committed, after the role was reset, every table
    that a statement names was owned by the role; nothing of it is kept
    otherwise. *)
Theorem migration_tables_owned {db tx} {HDB : MigrationDb db tx} (role : string) (parts : list (string * create_stmt))
    (tail : string) (d d' : db) (err : option go_error)
    (Hok : migration_ok parts tail) (Happly : Apply role (migration_text parts tail) d = (d', err)) :
  match err with
  | Some _ => d' = d
  | None =>
    let owner := GoStrings.TrimSpace role in
    owner ≠ "" ∧ ∃ t0 quoted t1 t2 t3,
      BeginTx d = inl t0 ∧ quote_ident owner t0 = inl quoted ∧ Exec ("SET LOCAL ROLE " +:+ quoted) t0 = inl t1 ∧
      current_user t1 = inl owner ∧ Exec (migration_text parts tail) t1 = inl t2 ∧ Exec "RESET ROLE" t2 = inl t3 ∧
      Commit t3 = inl d' ∧
      ∀ gap st, (gap, st) ∈ parts → table_owner (ToLower (st_name st)) t3 = inl owner
  end.
Proof.
  unfold Apply in Happly. cbv zeta in Happly. set (owner := GoStrings.TrimSpace role) in *.
  destruct (decide (owner = "")); [by injection Happly as <- <-|].
  destruct (decide (GoStrings.TrimSpace _ = "")); [by injection Happly as <- <-|].
  destruct (guarded_transaction owner (migration_text parts tail) d) as [d1|e] eqn:E; injection Happly as <- <-; [|done].
  cbv zeta. split; [done|]. unfold guarded_transaction, mbind, fallible_bind in E.
  destruct (BeginTx d) as [t0|] eqn:E0; [|done]. destruct (quote_ident owner t0) as [quoted|] eqn:Eq; [|done].
  destruct (Exec _ t0) as [t1|] eqn:E1; [|done]. destruct (current_user t1) as [user|] eqn:Eu; [|done].
  case_decide as Hu; [done|]. subst user.
  destruct (Exec _ t1) as [t2|] eqn:E2; [|done]. destruct (Exec _ t2) as [t3|] eqn:E3; [|done].
  destruct (check_owners _ _ t3) as [[]|] eqn:Ec; [|done].
  exists t0, quoted, t1, t2, t3. split_and!; try done.
  intros gap st Hin. eapply check_owners_all; [exact Ec|]. rewrite CreatedTables_text by done.
  apply add_new_elem. right. apply list_elem_of_fmap. by exists (gap, st).
Qed.

(** ** A run *)
Module MigrationRuns.
(** A database of owned tables; a transaction with its current role.  Each
    statement of the text creates one table for the current role. *)
Record session : Type := mksession { se_tables : gmap string string; se_role : string }.
#[local] Instance toy : MigrationDb (gmap string string) session := {|
  BeginTx d := inl (mksession d "admin");
  quote_ident s _ := inl s;
  Exec s t :=
    if decide (s = "RESET ROLE") then inl (mksession (se_tables t) "admin")
    else match GoStrings.strip "SET LOCAL ROLE " s with
         | Some r => inl (mksession (se_tables t) r)
         | None => inl (mksession (foldr (λ n, <[n := se_role t]>) (se_tables t) (CreatedTables s)) (se_role t))
         end;
  current_user t := inl (se_role t);
  table_owner n t := match se_tables t !! n with Some o => inl o | None => inr (ErrOther "no rows") end;
  Commit t := inl (se_tables t)
|}.
Definition stmt : create_stmt :=
  mkcreate_stmt "CREATE" " " "TABLE" " " (Some (mkexists_clause "IF" " " "NOT" " " "EXISTS" " ")) (Some "public") "Jobs".
Definition parts : list (string * create_stmt) := [("BEGIN WORK; ", stmt)].
Definition tail : string := " (id int);".
Lemma parts_ok : migration_ok parts tail.
Proof.
  cbn [migration_ok parts migration_text]. split_and!.
  - vm_compute. repeat split.
  - unfold stmt_ok, exists_ok, blanks, all_chars, after_name, is_name. cbn.
    repeat first [done | split | apply Forall_cons_2 | apply Forall_nil_2 | discriminate | vm_compute; lia | intros []].
  - vm_compute. repeat split.
Qed.
End MigrationRuns.
#[local] Existing Instance MigrationRuns.toy.

Definition migrated : gmap string string :=
  (Apply (HDB := MigrationRuns.toy) "hal" (migration_text MigrationRuns.parts MigrationRuns.tail) ∅).1.
Lemma migration_tables_owned_witness :
  Apply (HDB := MigrationRuns.toy) "hal" (migration_text MigrationRuns.parts MigrationRuns.tail) ∅ = (migrated, None) ∧
  ∃ t3, Commit (MigrationDb := MigrationRuns.toy) t3 = inl migrated ∧ table_owner "jobs" t3 = inl "hal".
Proof.
  assert (Hrun : Apply (HDB := MigrationRuns.toy) "hal" (migration_text MigrationRuns.parts MigrationRuns.tail) ∅ = (migrated, None))
    by (vm_compute; reflexivity).
  split; [exact Hrun|].
  destruct (migration_tables_owned "hal" MigrationRuns.parts MigrationRuns.tail ∅ migrated None MigrationRuns.parts_ok Hrun)
    as (_ & t0 & q & t1 & t2 & t3 & _ & _ & _ & _ & _ & _ & Hc & Ho).
  exists t3. split; [exact Hc|]. apply (Ho "BEGIN WORK; " MigrationRuns.stmt). left.
Defined.
